(* ===== verification/_CoqProject ===== *)
-Q . S2P
Prelude.v
TcpVar.v
TcpSack.v
BpfFilter.v
InCksum.v
Mbuf.v
Sockbuf.v
Socket.v
IpReass.v
Ip.v
IpOutput.v
IfLoop.v
IpOptions.v
IpInput.v
TcpReass.v
TcpRtt.v
TcpOpt.v
TcpOutput.v
TcpTimer.v
DnsName.v
DnsAnswer.v
DnsCache.v
