(* ===== verification/Prelude.v ===== *)
(** AmiTCP_NG in Rocq.

    AmiTCP_NG is a TCP/IP stack for the Amiga: a 4.3BSD-derived kernel ([src/src/kern],
    [src/src/net], [src/src/netinet]) that runs as one task and serves programs through
    library calls ([src/src/api]).  Packets arrive from drivers as chains of mbufs, pass
    [ipintr] and the protocols' input routines, and end in the socket buffers of a socket;
    data goes the other way through [tcp_output], [ip_output] and the interface.  Names are
    looked up by a resolver that talks to a server over a socket and keeps its answers in a
    cache.  This library models the parts below as executable functions and proves what
    makes each correct.  Every definition is translated from the C function named in the
    file's comments, under the same name where Rocq allows it.

    * How the program is modelled

    - Machine integers are [Z] with their wrap-around written out ([u8], [u16], [u32],
      [s16], [s32]); [int], [long] and pointers have 32 bits, the byte order is big
      endian, as on the 68000.
    - Structures are records, updated by [r <| f ::= v |>].  State is passed explicitly;
      files with much shared state have a small state monad ([Socket]).
    - A call that reads or writes outside an object, follows a null pointer, or leaves a
      loop without an end, is [None] (not a value).  Error returns of the code are values.
      So "returns [Some]" in a theorem is memory safety and termination of the call.
    - Loops that are not structural take fuel.  The fuel is computed from the input (the
      length of a program, chain, queue or message), and the theorems show that it is
      enough: none of them assumes that the call returns.
    - Code outside the repository is a parameter: Exec's [AllocMem] and [AllocVec] (whether
      they succeed, what the memory holds), the clock, the drivers behind an interface,
      and the routing and address tables where [ipintr] and [ip_dooptions] consult them.

    * The files

    [Prelude] - machine integers, byte strings and copies, record update; the hint
    databases [word] and [zlen].

    [TcpVar], [TcpSack] - [netinet/tcp_var.h], [tcp_seq.h], [tcp_sack.c].  Selective
    acknowledgement: the receiver's block list, the sender's scoreboard, the decisions of
    RFC 6675 and the pacing of RFC 6937.  C1-C5: the scoreboard and the list keep their
    invariants; [tcp_sack_nextseg] returns the lowest lost hole; [tcp_sack_pipe] ends and
    is the sum over the segments in flight; one PRR step stays within its bounds.

    [BpfFilter] - [net/bpf_filter.c].  C6: a program that [bpf_validate] accepts runs to an
    end inside the packet and the scratch memory.  C7: a chain gives the verdict of the
    same bytes in one buffer.

    [InCksum] - [netinet/in_cksum.c].  C8, C9: the chain walk computes the RFC 1071 sum,
    and a packet with that sum verifies.

    [Mbuf] - [kern/uipc_mbuf.c], [sys/mbuf.h]: the pool with its free lists and clusters,
    chains, and the operations on chains.  Ownership ([owns]) says which mbufs a caller
    holds; every operation's law keeps it, so that no mbuf is lost or used twice.  The
    class [Allocator] is what the chain operations need from an allocation.  C10-C14.

    [Sockbuf] - the [sb*] operations of [kern/uipc_socket2.c]: a socket buffer implements
    a list of records ([sb_ok]) with counters and a tail pointer.  C15-C18.

    [Socket] - the states, listen queues, wakeups, events and the sleep lock of
    [kern/uipc_socket2.c], on a store of sockets linked by pointers.  C19-C23.

    [IpReass] - [ip_reass], [ip_freef], [ip_slowtimo], [ip_drain] of [netinet/ip_input.c].
    C24: fragments in any order and overlap deliver the datagram exactly when all has
    arrived; C25: arbitrary fragments stay within the caps; C26: every queue is freed in
    its 60 ticks.

    [Ip] - the header's bytes and fields.  [IpOutput] - the end of [ip_output] with
    fragmentation, against an interface given by the class [NetIf] and its laws
    [NetIfLaws]; [IfLoop] - [net/if_loop.c] and the queue macros, as an instance of them.
    C27: a datagram goes out whole or in fragments that carry it, or an error is reported.

    [IpOptions] - [ip_dooptions].  C28: any option bytes are processed inside the header.

    [IpInput] - [ipintr].  C29: what [ip_output] sent, in any order, is delivered once.

    [TcpReass] - the text path of [tcp_input]: trimming, [TCP_REASS], [tcp_reass], FIN.
    C30: segments in any order deliver the peer's stream and its end.

    [TcpRtt] - the round-trip estimate ([tcp_xmit_timer] of [netinet/tcp_input.c]) and the
    timers' constants, back-off and bounds of [netinet/tcp_timer.h].

    [TcpOpt] - a connection ([conn]: control block, both buffers, socket options), [tcp_mss]
    and [tcp_dooptions] of [netinet/tcp_input.c], and the option bytes [tcp_output] builds.
    C37: any option bytes are read inside the options; C38: what one side sends the other
    reads.

    [TcpOutput] - [netinet/tcp_output.c].  A turn of the C function's [goto again] loop is
    [out_turn], split where the C code has its steps: the window and the segment
    ([out_window], [out_next], SACK recovery in [out_recover]), the decision ([out_act]),
    the segment and its accounting ([out_send], [out_account]), an error ([out_failed]).
    [attempt] says what the header allocation, [m_copy] and [ip_output] answer in a turn.
    The loop's fuel bounds the octets left to send.  C36: the call returns, keeps the
    connection's invariant [ready], and sends only what it may.

    [TcpTimer] - [netinet/tcp_timer.c], with [tcp_drop], [tcp_close], [tcp_respond] of
    [netinet/tcp_subr.c].  C39: what each timer does, the invariant [standing] kept; C40: a
    connection that is not answered is gone after a bounded number of ticks.

    [DnsName] - [api/res_comp.c], [api/res_mkquery.c].  C31: [dn_expand] succeeds exactly
    on names that are well formed and fit; C32: what [dn_comp] writes expands to the same
    labels.  [res_mkquery_ok]: the query asks for the name given.

    [DnsAnswer] - [getanswer], [makehostent], [ng_hostent_from_response] of
    [api/gethostnamadr.c].  C33: any reply is processed inside its buffers; C34: the host
    entry shows what the records say.

    [DnsCache] - [api/dns_cache.c].  C35: after any history of calls the cache tells only
    the last live answer to a question.

    * How the files fit together

    A chain is owned by exactly one of: the pool's free list, a caller, a socket buffer, a
    reassembly queue, an interface queue.  [IpOutput] hands chains to a [NetIf]; [IfLoop]
    queues them for [IpInput], which gives fragments to [IpReass] and the result to a
    protocol; [TcpReass] queues a segment's chain and appends it to a [Sockbuf], whose
    wakeups are in [Socket].  [TcpOutput] takes the holes of a recovery from [TcpSack], its
    options from [TcpOpt], reads the octets to send from the [Sockbuf] and sets the timers
    of [TcpRtt]; when one of them runs out, [TcpTimer] changes the block and calls
    [TcpOutput], whose theorem is all that it uses of it.  [DnsAnswer] reads names with
    [DnsName]; [DnsCache] replays responses through [DnsAnswer].

    * Not modelled

    The SANA-II drivers and the library glue exchange messages with Exec and third-party
    devices.  The assembler variants of the checksum and of [bcopy] are not C.  The tools
    are programs that call the library.  Configuration, logging, ARexx and the text
    databases are parsing of text files and message ports.  Within the files above,
    comments say which parts of a C function are left out: of [ip_output] the choice of
    route and interface, of [tcp_input] the handshake and the acknowledgements, of
    [tcp_slowtimo] the check for stalled receivers, which only logs.

    * Plan

    What is worth adding, in this order: the acknowledgement side and the handshake of
    [tcp_input], on the connections of [TcpOutput]; [in_pcb.c] with UDP; [sosend] and
    [soreceive]; the radix tree of [net/radix.c]; ARP ([net/sana2arp.c]). *)
From stdpp Require Export base tactics list numbers gmap.
From Stdlib Require Export ZArith Lia ZifyBool.
#[global] Open Scope Z_scope.

(** * Machine integers

    The stack is built for the 68000: [int], [long] and pointers are 32 bits,
    [short] is 16 bits and the byte order is big endian.  An unsigned w-bit
    value is the [Z] in [0, 2^w); a signed one is the [Z] in [-2^(w-1), 2^(w-1)). *)

Definition u8 (z : Z) : Z := z mod 256.
Definition u16 (z : Z) : Z := z mod 65536.
Definition u32 (z : Z) : Z := z mod 4294967296.

Definition s16 (z : Z) : Z :=
  if u16 z <? 32768 then u16 z else u16 z - 65536.
Definition s32 (z : Z) : Z :=
  if u32 z <? 2147483648 then u32 z else u32 z - 4294967296.

(** Solve a linear goal about the wrap-around functions. *)
Ltac word_solve :=
  unfold s16, s32, u8, u16, u32 in *;
  repeat match goal with
         | |- context [if ?b then _ else _] => destruct b eqn:?
         | H : context [if ?b then _ else _] |- _ => destruct b eqn:?
         end;
  Z.div_mod_to_equations; lia.

Create HintDb word.
Create Rewrite HintDb word.
Create Rewrite HintDb zlen.

Lemma u8_range z : 0 <= u8 z < 256.
Proof. word_solve. Qed.
Lemma u16_range z : 0 <= u16 z < 65536.
Proof. word_solve. Qed.
Lemma u32_range z : 0 <= u32 z < 4294967296.
Proof. word_solve. Qed.
Lemma s16_range z : -32768 <= s16 z < 32768.
Proof. word_solve. Qed.
Lemma s32_range z : -2147483648 <= s32 z < 2147483648.
Proof. word_solve. Qed.
#[export] Hint Resolve u8_range u16_range u32_range s16_range s32_range : word.

Lemma u8_small z : 0 <= z < 256 -> u8 z = z.
Proof. word_solve. Qed.
Lemma u16_small z : 0 <= z < 65536 -> u16 z = z.
Proof. word_solve. Qed.
Lemma u32_small z : 0 <= z < 4294967296 -> u32 z = z.
Proof. word_solve. Qed.
Lemma s16_small z : -32768 <= z < 32768 -> s16 z = z.
Proof. word_solve. Qed.
Lemma s32_small z : -2147483648 <= z < 2147483648 -> s32 z = z.
Proof. word_solve. Qed.
#[export] Hint Rewrite u8_small u16_small u32_small s16_small s32_small
  using lia : word.

Lemma u32_u32 z : u32 (u32 z) = u32 z.
Proof. word_solve. Qed.
Lemma u16_u16 z : u16 (u16 z) = u16 z.
Proof. word_solve. Qed.
#[export] Hint Rewrite u32_u32 u16_u16 : word.

(** * Byte strings

    Memory that is only read is a [list Z] of bytes, indexed by [Z].  A read
    outside the list is [None], so that an over-read shows. *)

Definition byteP (z : Z) : Prop := 0 <= z < 256.
Definition bytesP (l : list Z) : Prop := Forall byteP l.

Definition zlen {A} (l : list A) : Z := Z.of_nat (length l).

Definition zget {A} (l : list A) (i : Z) : option A :=
  if i <? 0 then None else l !! Z.to_nat i.

Definition zset {A} (l : list A) (i : Z) (x : A) : list A :=
  if i <? 0 then l else <[Z.to_nat i := x]> l.

Definition zslice {A} (l : list A) (off n : Z) : list A :=
  take (Z.to_nat n) (drop (Z.to_nat off) l).

#[global] Arguments zlen : simpl never.
#[global] Arguments zget : simpl never.
#[global] Arguments zset : simpl never.
#[global] Arguments zslice : simpl never.

Section zlist.
Context {A : Type}.
Implicit Types l : list A.

Lemma zlen_nonneg l : 0 <= zlen l.
Proof. unfold zlen. lia. Qed.
Lemma zlen_nil : zlen (@nil A) = 0.
Proof. done. Qed.
Lemma zlen_cons x l : zlen (x :: l) = 1 + zlen l.
Proof. unfold zlen. rewrite length_cons. lia. Qed.
Lemma zlen_app l k : zlen (l ++ k) = zlen l + zlen k.
Proof. unfold zlen. rewrite length_app. lia. Qed.
Lemma zlen_zset l i x : zlen (zset l i x) = zlen l.
Proof. unfold zlen, zset. case_match; [done|]. by rewrite length_insert. Qed.

Lemma zget_Some l i x : zget l i = Some x -> 0 <= i < zlen l.
Proof.
    unfold zget, zlen. case_match; [done|]. intros H1%lookup_lt_Some. lia.
  Qed.
Lemma zget_is_Some l i : 0 <= i < zlen l -> exists x, zget l i = Some x.
Proof.
    unfold zget, zlen. intros Hi. case_match; [lia|].
    apply lookup_lt_is_Some_2. lia.
  Qed.
Lemma zget_None l i : zget l i = None <-> i < 0 \/ zlen l <= i.
Proof.
    unfold zget, zlen. case_match; [split; [lia|done]|].
    rewrite lookup_ge_None. lia.
  Qed.
Lemma zget_nat l (n : nat) : zget l (Z.of_nat n) = l !! n.
Proof. unfold zget. destruct (Z.of_nat n <? 0) eqn:E; [lia|]. by rewrite Nat2Z.id. Qed.
Lemma zget_app_l l k i : i < zlen l -> zget (l ++ k) i = zget l i.
Proof.
    unfold zget, zlen. intros. case_match; [done|]. rewrite lookup_app_l; [done|lia].
  Qed.
Lemma zget_app_r l k i : zlen l <= i -> zget (l ++ k) i = zget k (i - zlen l).
Proof.
    unfold zget, zlen. intros Hi. destruct (i <? 0) eqn:E; [lia|].
    destruct (i - _ <? 0) eqn:E2; [lia|].
    rewrite lookup_app_r by lia. f_equal. lia.
  Qed.
Lemma zget_zset_eq l i x : 0 <= i < zlen l -> zget (zset l i x) i = Some x.
Proof.
    unfold zget, zset, zlen. intros. destruct (i <? 0) eqn:E; [lia|].
    apply list_lookup_insert_eq. lia.
  Qed.
Lemma zget_zset_ne l i j x : i <> j -> zget (zset l i x) j = zget l j.
Proof.
    unfold zget, zset. intros. destruct (j <? 0) eqn:E; [done|].
    destruct (i <? 0) eqn:E2; [done|]. apply list_lookup_insert_ne. lia.
  Qed.
Lemma zget_drop l n i : 0 <= n -> 0 <= i ->
    zget (drop (Z.to_nat n) l) i = zget l (n + i).
Proof.
    unfold zget. intros. destruct (i <? 0) eqn:E, (n + i <? 0) eqn:E2; try lia.
    rewrite lookup_drop. f_equal. lia.
  Qed.
End zlist.
#[export] Hint Rewrite @zlen_nil @zlen_cons @zlen_app @zlen_zset : zlen.
#[export] Hint Resolve zlen_nonneg : word.

Lemma zget_byte l i x : bytesP l -> zget l i = Some x -> 0 <= x < 256.
Proof.
  unfold bytesP, zget. intros Hl. case_match; [done|]. intros Hx.
  by apply (proj1 (Forall_lookup _ _) Hl _ _ Hx).
Qed.

(** Big-endian composition, as the 68000 reads words and as the protocols
    send them. *)
Definition be16 (a b : Z) : Z := a * 256 + b.
Definition be32 (a b c d : Z) : Z := a * 16777216 + b * 65536 + c * 256 + d.

(** * Byte copies *)

(** [bcopy] into a byte array; [None] when it would write outside. *)
Definition blit (dst : list Z) (off : Z) (src : list Z) : option (list Z) :=
  if (off <? 0) || (zlen dst <? off + zlen src) then None
  else Some (take (Z.to_nat off) dst ++ src ++ drop (Z.to_nat (off + zlen src)) dst).

(** [n] bytes from offset [off]; [None] when the read leaves the array. *)
Definition blob (src : list Z) (off n : Z) : option (list Z) :=
  if (off <? 0) || (n <? 0) || (zlen src <? off + n) then None else Some (zslice src off n).

Lemma zslice_len {A} (l : list A) off n :
  0 <= off -> 0 <= n -> off + n <= zlen l -> zlen (zslice l off n) = n.
Proof. unfold zlen, zslice. intros. rewrite length_take, length_drop. lia. Qed.

Lemma zslice_nil {A} (l : list A) off : zslice l off 0 = [].
Proof. done. Qed.

Lemma zslice_app {A} (l : list A) off a b :
  0 <= off -> 0 <= a -> 0 <= b ->
  zslice l off (a + b) = zslice l off a ++ zslice l (off + a) b.
Proof.
  intros. unfold zslice. rewrite !Z2Nat.inj_add by lia.
  by rewrite <- drop_drop, take_take_drop.
Qed.

Lemma zslice_zslice {A} (l : list A) off n o k :
  0 <= off -> 0 <= o -> 0 <= k -> o + k <= n ->
  zslice (zslice l off n) o k = zslice l (off + o) k.
Proof.
  intros. unfold zslice. rewrite skipn_firstn_comm, take_take, drop_drop.
  f_equal; [lia|]. f_equal. lia.
Qed.

Lemma zslice_full {A} (l : list A) n : zlen l <= n -> zslice l 0 n = l.
Proof. unfold zlen, zslice. intros. rewrite drop_0, take_ge; [done|lia]. Qed.

Lemma blob_ok src off n :
  0 <= off -> 0 <= n -> off + n <= zlen src -> blob src off n = Some (zslice src off n).
Proof. intros. unfold blob. destruct (_ || _) eqn:?; [lia|done]. Qed.

Lemma blit_ok dst off src :
  0 <= off -> off + zlen src <= zlen dst ->
  exists d, blit dst off src = Some d /\ zlen d = zlen dst /\
    (forall o n, 0 <= o -> 0 <= n -> o + n <= off -> zslice d o n = zslice dst o n) /\
    zslice d off (zlen src) = src.
Proof.
  intros. unfold blit. destruct (_ || _) eqn:?; [lia|].
  eexists. split; [done|]. pose proof (zlen_nonneg src).
  assert (Ht : length (take (Z.to_nat off) dst) = Z.to_nat off)
    by (rewrite length_take; unfold zlen in *; lia).
  split_and!.
  - unfold zlen in *. rewrite !length_app, length_drop. lia.
  - intros o n ???. unfold zslice. rewrite drop_app_le, take_app_le.
    + by rewrite skipn_firstn_comm, take_take, Nat.min_l by lia.
    + rewrite length_drop. lia.
    + lia.
  - unfold zslice. rewrite drop_app_ge, Ht, Nat.sub_diag, drop_0 by lia.
    rewrite take_app_le, take_ge; unfold zlen; [done|lia..].
Qed.

Lemma zget_zslice {A} (l : list A) off n i :
  0 <= off -> 0 <= i < n -> zget (zslice l off n) i = zget l (off + i).
Proof.
  intros Ho Hi. unfold zget, zslice. destruct (i <? 0) eqn:?; [lia|].
  destruct (off + i <? 0) eqn:?; [lia|].
  rewrite lookup_take_lt by lia. rewrite lookup_drop. f_equal. lia.
Qed.

Lemma zslice_cons {A} (l : list A) off n x :
  0 < n -> zget l off = Some x -> zslice l off n = x :: zslice l (off + 1) (n - 1).
Proof.
  intros Hn Hx. pose proof (zget_Some _ _ _ Hx) as Hr. revert Hx.
  unfold zget, zslice. destruct (off <? 0) eqn:?; [lia|]. intros Hx.
  replace (Z.to_nat n) with (S (Z.to_nat (n - 1))) by lia.
  replace (Z.to_nat (off + 1)) with (S (Z.to_nat off)) by lia.
  by rewrite (drop_S _ _ _ Hx).
Qed.

Lemma zslice_Forall {A} (P : A -> Prop) (l : list A) off n :
  Forall P l -> Forall P (zslice l off n).
Proof. intros. by apply Forall_take, Forall_drop. Qed.

(** * Record update

    [r <| f ::= v |>] is the record [r] with field [f] set to [v].  A record
    type declares its eta expansion once ([Eta]); the update of a field is then
    found by abstracting the projection in that expansion. *)
Class Eta (R : Type) := eta_expand : R -> R.
Class Field {R T : Type} (p : R -> T) := field_map : (T -> T) -> R -> R.

Ltac field_instance R p :=
  let e := constr:(ltac:(let i := constr:(_ : Eta R) in
                         let t := eval hnf in i in exact t)) in
  let e := eval cbv beta in e in
  match eval pattern p in e with
  | ?F _ => exact (fun g => F (fun r => g (p r)))
  end.
#[export] Hint Extern 0 (@Field ?R _ ?p) => field_instance R p : typeclass_instances.

Notation "r <| p ::= v |>" := (field_map (p := p) (fun _ => v) r)
  (at level 12, left associativity, p at level 9,
   format "r  <| p  ::=  v |>").
