(* ===== verification/TcpVar.v ===== *)
(** The TCP control block ([netinet/tcp_var.h]) and sequence-number order
    ([netinet/tcp_seq.h]). *)
From S2P Require Import Prelude.

(** * Sequence numbers

    [tcp_seq] is a 32-bit unsigned integer; the order of two sequence numbers
    is the sign of their 32-bit difference. *)
Definition SEQ_LT (a b : Z) : bool := s32 (a - b) <? 0.
Definition SEQ_LEQ (a b : Z) : bool := s32 (a - b) <=? 0.
Definition SEQ_GT (a b : Z) : bool := s32 (a - b) >? 0.
Definition SEQ_GEQ (a b : Z) : bool := s32 (a - b) >=? 0.

(** [rel base x] is the distance from [base] forward to [x]. *)
Definition rel (base x : Z) : Z := u32 (x - base).

(** [x] lies in the half of the sequence space that starts at [base]. *)
Definition inwin (base x : Z) : Prop := rel base x < 2147483648.

Lemma rel_range base x : 0 <= rel base x < 4294967296.
Proof. apply u32_range. Qed.
Lemma rel_self base : rel base base = 0.
Proof. unfold rel. word_solve. Qed.

Section order.
Context (base x y : Z) (Hx : inwin base x) (Hy : inwin base y).

  (** Within half the sequence space, the circular order is the order of the
      distances: this is the only fact about the macros the proofs use. *)
Lemma s32_rel : s32 (x - y) = rel base x - rel base y.
Proof using Hx Hy. unfold inwin, rel in *. word_solve. Qed.

Lemma SEQ_LT_rel : SEQ_LT x y = (rel base x <? rel base y).
Proof using Hx Hy. unfold SEQ_LT. rewrite s32_rel. lia. Qed.
Lemma SEQ_LEQ_rel : SEQ_LEQ x y = (rel base x <=? rel base y).
Proof using Hx Hy. unfold SEQ_LEQ. rewrite s32_rel. lia. Qed.
Lemma SEQ_GT_rel : SEQ_GT x y = (rel base y <? rel base x).
Proof using Hx Hy. unfold SEQ_GT. rewrite s32_rel. lia. Qed.
Lemma SEQ_GEQ_rel : SEQ_GEQ x y = (rel base y <=? rel base x).
Proof using Hx Hy. unfold SEQ_GEQ. rewrite s32_rel. lia. Qed.
End order.

(** Replace every circular comparison whose operands are known to lie in the
    window of [base] by a comparison of distances. *)
Ltac seq_rel base :=
  repeat match goal with
         | |- context [SEQ_LT ?x ?y] => rewrite (SEQ_LT_rel base x y) by assumption
         | |- context [SEQ_LEQ ?x ?y] => rewrite (SEQ_LEQ_rel base x y) by assumption
         | |- context [SEQ_GT ?x ?y] => rewrite (SEQ_GT_rel base x y) by assumption
         | |- context [SEQ_GEQ ?x ?y] => rewrite (SEQ_GEQ_rel base x y) by assumption
         end.

(** * The control block *)

Record sackblk := mk_sackblk { start : Z; fin : Z }.
#[export] Instance sackblk_eta : Eta sackblk := fun b => mk_sackblk (start b) (fin b).
#[export] Instance sackblk_eq_dec : EqDecision sackblk.
Proof. solve_decision. Defined.

Definition TCP_MAX_SACK : Z := 4.
Definition TCP_MAX_SACK_SND : Z := 16.

(** The fields of [struct tcpcb] that the modelled code reads or writes.  The
    arrays [sackblks]/[snd_sackblks] with their counts [rcv_numsacks] and
    [snd_numsackblks] are lists of the valid entries; [t_template] says whether there is
    one.  The receive window, the D-SACK block and the reassembly queue are in the
    receiver's state ([TcpReass.rcvst]). *)
Record tcpcb := mk_tcpcb {
  t_state : Z;
  t_timer : list Z;
  t_rxtshift : Z;
  t_rxtcur : Z;
  t_dupacks : Z;
  t_maxseg : Z;
  t_force : Z;
  t_flags : Z;
  snd_una : Z;
  snd_nxt : Z;
  snd_wnd : Z;
  rcv_nxt : Z;
  snd_max : Z;
  snd_cwnd : Z;
  snd_ssthresh : Z;
  t_idle : Z;
  t_rtt : Z;
  t_srtt : Z;
  t_rttvar : Z;
  t_rttmin : Z;
  t_softerror : Z;
  sackblks : list sackblk;
  snd_sackblks : list sackblk;
  snd_highrxt : Z;
  prr_delivered : Z;
  prr_out : Z;
  prr_recoverfs : Z;
  t_template : bool;
  snd_up : Z;
  snd_wl1 : Z;
  snd_wl2 : Z;
  iss : Z;
  irs : Z;
  rcv_up : Z;
  rcv_adv : Z;
  t_rtseq : Z;
  max_sndwnd : Z;
  t_oobflags : Z;
  t_iobc : Z;
  snd_scale : Z;
  rcv_scale : Z;
  request_r_scale : Z;
  requested_s_scale : Z;
  ts_recent : Z;
  ts_recent_age : Z;
  last_ack_sent : Z;
  snd_recover : Z;
}.

#[export] Instance tcpcb_eta : Eta tcpcb := fun t =>
  mk_tcpcb (t_state t) (t_timer t) (t_rxtshift t) (t_rxtcur t) (t_dupacks t)
    (t_maxseg t) (t_force t) (t_flags t) (snd_una t) (snd_nxt t) (snd_wnd t)
    (rcv_nxt t) (snd_max t) (snd_cwnd t) (snd_ssthresh t) (t_idle t) (t_rtt t)
    (t_srtt t) (t_rttvar t) (t_rttmin t) (t_softerror t) (sackblks t)
    (snd_sackblks t) (snd_highrxt t) (prr_delivered t) (prr_out t)
    (prr_recoverfs t) (t_template t) (snd_up t) (snd_wl1 t) (snd_wl2 t) (iss t) (irs t)
    (rcv_up t) (rcv_adv t) (t_rtseq t) (max_sndwnd t) (t_oobflags t) (t_iobc t)
    (snd_scale t) (rcv_scale t) (request_r_scale t) (requested_s_scale t) (ts_recent t)
    (ts_recent_age t) (last_ack_sent t) (snd_recover t).

Example tcpcb_update t : snd_una (t <| snd_una ::= 5 |> <| snd_nxt ::= 6 |>) = 5.
Proof. reflexivity. Qed.

(** Moving the base forward to a point [b'] of the window. *)
Lemma rel_shift base b' x :
  rel base b' <= rel base x -> rel b' x = rel base x - rel base b'.
Proof. unfold rel. word_solve. Qed.

(** [dist base x] is the signed distance; [near]: less than a quarter of the
    sequence space away on either side. *)
Definition dist (base x : Z) : Z := s32 (x - base).
Definition near (base x : Z) : Prop := -1073741824 <= dist base x < 1073741824.
Definition near_blk (base : Z) (b : sackblk) : Prop :=
  near base (start b) /\ near base (fin b).

Lemma dist_rel base x : 0 <= dist base x -> rel base x = dist base x.
Proof. unfold rel, dist. word_solve. Qed.
Lemma rel_dist base x : inwin base x -> dist base x = rel base x.
Proof. unfold inwin, rel, dist. word_solve. Qed.
Lemma dist_self base : dist base base = 0.
Proof. unfold dist. word_solve. Qed.
Lemma s32_dist base x y :
  near base x -> near base y -> s32 (x - y) = dist base x - dist base y.
Proof. unfold near, dist. intros. word_solve. Qed.
