(* ===== verification/TcpSack.v ===== *)
(** Selective acknowledgement: the receiver block list, the sender scoreboard,
    the RFC 6675 decision functions and PRR ([netinet/tcp_sack.c]). *)
From S2P Require Import Prelude TcpVar.

(** [netinet/tcp_input.c]: duplicate-ack threshold. *)
Definition tcprexmtthresh : Z := 3.

(** * Receiver block list *)

(** One iteration of the loop of [tcp_sack_addblock]: the state is the growing
    head block and the array [saved]. *)
Definition addblock_step (rcv_nxt : Z) (st : sackblk * list sackblk)
    (b : sackblk) : sackblk * list sackblk :=
  let '(head, saved) := st in
  if SEQ_LEQ (fin b) rcv_nxt then (head, saved)
  else if SEQ_LEQ (start head) (fin b) && SEQ_LEQ (start b) (fin head) then
    (mk_sackblk (if SEQ_LT (start b) (start head) then start b else start head)
                (if SEQ_GT (fin b) (fin head) then fin b else fin head), saved)
  else (head, saved ++ [b]).

Definition tcp_sack_addblock (tp : tcpcb) (s e : Z) : tcpcb :=
  if SEQ_LEQ e (rcv_nxt tp) then tp else
  let s := if SEQ_LT s (rcv_nxt tp) then rcv_nxt tp else s in
  if SEQ_GEQ s e then tp else
  let '(head, saved) :=
    fold_left (addblock_step (rcv_nxt tp)) (sackblks tp) (mk_sackblk s e, []) in
  tp <| sackblks ::= head :: take (Z.to_nat (TCP_MAX_SACK - 1)) saved |>.

(** The common body of [tcp_sack_purge] and [tcp_sack_snd_trim]: drop the blocks
    at or below [lim], left-trim the one that straddles it. *)
Fixpoint trim_blks (lim : Z) (l : list sackblk) : list sackblk :=
  match l with
  | [] => []
  | b :: r =>
      if SEQ_LEQ (fin b) lim then trim_blks lim r
      else (if SEQ_LT (start b) lim then b <| start ::= lim |> else b)
           :: trim_blks lim r
  end.

Definition tcp_sack_purge (tp : tcpcb) : tcpcb :=
  tp <| sackblks ::= trim_blks (rcv_nxt tp) (sackblks tp) |>.

(** * Sender scoreboard *)

Definition tcp_sack_snd_trim (tp : tcpcb) : tcpcb :=
  tp <| snd_sackblks ::= trim_blks (snd_una tp) (snd_sackblks tp) |>.

(** [if (n < TCP_MAX_SACK_SND) merged[n++] = b;] *)
Definition put (merged : list sackblk) (b : sackblk) : list sackblk :=
  if zlen merged <? TCP_MAX_SACK_SND then merged ++ [b] else merged.

Record insst := mk_insst {
  ins_merged : list sackblk; ins_placed : bool; ins_start : Z; ins_end : Z }.

Definition snd_insert_step (st : insst) (b : sackblk) : insst :=
  let '(mk_insst merged placed s e) := st in
  if SEQ_LT (fin b) s then mk_insst (put merged b) placed s e
  else if SEQ_GT (start b) e then
    let merged := if placed then merged else put merged (mk_sackblk s e) in
    mk_insst (put merged b) true s e
  else mk_insst merged placed
         (if SEQ_LT (start b) s then start b else s)
         (if SEQ_GT (fin b) e then fin b else e).

Definition snd_insert_finish (st : insst) : list sackblk :=
  let '(mk_insst merged placed s e) := st in
  if placed then merged else put merged (mk_sackblk s e).

Definition tcp_sack_snd_insert (tp : tcpcb) (s e : Z) : tcpcb :=
  tp <| snd_sackblks ::=
    snd_insert_finish
      (fold_left snd_insert_step (snd_sackblks tp) (mk_insst [] false s e)) |>.

Definition sack_update_step (tp : tcpcb) (b : sackblk) : tcpcb :=
  let e := if SEQ_GT (fin b) (snd_max tp) then snd_max tp else fin b in
  let s := if SEQ_LT (start b) (snd_una tp) then snd_una tp else start b in
  if SEQ_GEQ s e then tp else tcp_sack_snd_insert tp s e.

Definition tcp_sack_update (tp : tcpcb) (sack : list sackblk) : tcpcb :=
  fold_left sack_update_step sack (tcp_sack_snd_trim tp).

(** * Loss-recovery decisions *)

Definition tcp_sack_issacked (tp : tcpcb) (seq : Z) : bool :=
  existsb (fun b => SEQ_LEQ (start b) seq && SEQ_LT seq (fin b))
    (snd_sackblks tp).

Definition islost_step (seq : Z) (st : Z * Z) (b : sackblk) : Z * Z :=
  let '(islands, above) := st in
  if SEQ_LEQ (fin b) seq then (islands, above)
  else if SEQ_GT (start b) seq
  then (islands + 1, s32 (above + s32 (u32 (fin b - start b))))
  else (islands, s32 (above + s32 (u32 (fin b - seq)))).

Definition tcp_sack_islost (tp : tcpcb) (seq : Z) : bool :=
  let '(islands, above) :=
    fold_left (islost_step seq) (snd_sackblks tp) (0, 0) in
  (tcprexmtthresh <=? islands) ||
  ((tcprexmtthresh - 1) * t_maxseg tp <? above).

(** [None]: the loop did not end within [fuel] iterations. *)
Fixpoint sack_pipe_loop (fuel : nat) (tp : tcpcb) (mss seq pipe : Z) : option Z :=
  match fuel with
  | O => None
  | S fuel =>
      if SEQ_LT seq (snd_max tp) then
        let e := u32 (seq + mss) in
        let e := if SEQ_GT e (snd_max tp) then snd_max tp else e in
        let pipe :=
          if negb (tcp_sack_issacked tp seq) &&
             (negb (tcp_sack_islost tp seq) || SEQ_LT seq (snd_highrxt tp))
          then u32 (pipe + u32 (e - seq)) else pipe in
        sack_pipe_loop fuel tp mss e pipe
      else Some pipe
  end.

Definition tcp_sack_pipe (fuel : nat) (tp : tcpcb) : option Z :=
  let mss := if t_maxseg tp =? 0 then 1 else t_maxseg tp in
  sack_pipe_loop fuel tp mss (snd_una tp) 0.

(** The three results of [tcp_sack_nextseg] and [tcp_sack_rescue]:
    [*startp], [*endp] and [*rxmit]. *)
Fixpoint nextseg_loop (tp : tcpcb) (holestart : Z) (l : list sackblk)
  : option (Z * Z) :=
  match l with
  | [] => None
  | b :: r =>
      let s := if SEQ_LT holestart (snd_highrxt tp) then snd_highrxt tp
               else holestart in
      if SEQ_LT s (start b) then
        if tcp_sack_islost tp s then Some (s, start b) else None
      else nextseg_loop tp (fin b) r
  end.

Definition tcp_sack_nextseg (tp : tcpcb) : Z * Z * bool :=
  match nextseg_loop tp (snd_una tp) (snd_sackblks tp) with
  | Some (s, e) => (s, e, true)
  | None => (snd_max tp, snd_max tp, false)
  end.

Fixpoint rescue_loop (tp : tcpcb) (holestart : Z) (l : list sackblk)
  : option (Z * Z) :=
  match l with
  | [] => None
  | b :: r =>
      let s := if SEQ_LT holestart (snd_highrxt tp) then snd_highrxt tp
               else holestart in
      if SEQ_LT s (start b) then Some (s, start b)
      else rescue_loop tp (fin b) r
  end.

Definition tcp_sack_rescue (tp : tcpcb) : option (Z * Z) :=
  rescue_loop tp (snd_una tp) (snd_sackblks tp).

(** * Proportional rate reduction *)

Definition bytes_above_step (flr bytes : Z) (b : sackblk) : Z :=
  if SEQ_LEQ (fin b) flr then bytes
  else let s := if SEQ_LT (start b) flr then flr else start b in
       u32 (bytes + u32 (fin b - s)).

Definition tcp_sack_snd_bytes_above (tp : tcpcb) (flr : Z) : Z :=
  fold_left (bytes_above_step flr) (snd_sackblks tp) 0.

Definition tcp_sack_prr_ack (fuel : nat) (tp : tcpcb) (acked prev_sacked : Z)
  : option tcpcb :=
  let cur_sacked := tcp_sack_snd_bytes_above tp (snd_una tp) in
  let delivered := s32 (acked + s32 cur_sacked - s32 prev_sacked) in
  let delivered := if delivered <? 0 then 0 else delivered in
  let tp := tp <| prr_delivered ::= u32 (prr_delivered tp + delivered) |> in
  pipe ← tcp_sack_pipe fuel tp;
  let fs := if prr_recoverfs tp =? 0 then 1 else prr_recoverfs tp in
  let sndcnt :=
    if snd_ssthresh tp <? pipe then
      let q := (prr_delivered tp * snd_ssthresh tp + (fs - 1)) / fs in
      let q := if 2147483647 <? q then 2147483647 else q in
      s32 (q - s32 (prr_out tp))
    else
      let lim := s32 (s32 (prr_delivered tp) - s32 (prr_out tp)) in
      let lim := if lim <? delivered then delivered else lim in
      let lim := s32 (lim + t_maxseg tp) in
      let c := s32 (s32 (snd_ssthresh tp) - s32 pipe) in
      if lim <? c then lim else c in
  let sndcnt := if sndcnt <? 0 then 0 else sndcnt in
  Some (tp <| snd_cwnd ::= u32 (pipe + sndcnt) |>).

(** * The scoreboard invariant

    Everything is measured as a distance from [base].  [sorted base lo hi l]:
    the blocks of [l] are non-empty, ascending, separated by at least one octet
    and lie between the distances [lo] and [hi]. *)
Fixpoint sorted (base lo hi : Z) (l : list sackblk) : Prop :=
  match l with
  | [] => True
  | b :: r => lo <= rel base (start b) /\ rel base (start b) < rel base (fin b) /\
              rel base (fin b) <= hi /\ sorted base (rel base (fin b) + 1) hi r
  end.

(** The octet at distance [z] is marked as SACKed. *)
Definition covered (base : Z) (l : list sackblk) (z : Z) : Prop :=
  Exists (fun b => rel base (start b) <= z < rel base (fin b)) l.

Lemma sorted_weaken base lo lo' hi l :
  lo' <= lo -> sorted base lo hi l -> sorted base lo' hi l.
Proof. destruct l; simpl; intros; [done|]. intuition lia. Qed.

Lemma sorted_take base lo hi l n : sorted base lo hi l -> sorted base lo hi (take n l).
Proof.
  revert lo n; induction l as [|b r IH]; intros lo [|n]; simpl; [done..|].
  intros (?&?&?&?). eauto.
Qed.

Lemma covered_nil base z : covered base [] z <-> False.
Proof. apply Exists_nil. Qed.
Lemma covered_cons base b l z :
  covered base (b :: l) z <->
  rel base (start b) <= z < rel base (fin b) \/ covered base l z.
Proof. apply Exists_cons. Qed.
Lemma covered_app base l k z :
  covered base (l ++ k) z <-> covered base l z \/ covered base k z.
Proof. apply Exists_app. Qed.
Lemma covered_take base l n z : covered base (take n l) z -> covered base l z.
Proof.
  intros H. rewrite <- (take_drop n l). apply covered_app. by left.
Qed.

Lemma sorted_covered_lo base lo hi l z :
  sorted base lo hi l -> covered base l z -> lo <= z < hi.
Proof.
  revert lo; induction l as [|b r IH]; intros lo; simpl.
  - by rewrite covered_nil.
  - rewrite covered_cons. intros (?&?&?&Hs) [?|Hc]; [lia|].
    specialize (IH _ Hs Hc). lia.
Qed.

(** ** Insertion *)

(** The insertion without the cap on the number of islands. *)
Fixpoint ins_ref (l : list sackblk) (s e : Z) : list sackblk :=
  match l with
  | [] => [mk_sackblk s e]
  | b :: r =>
      if SEQ_LT (fin b) s then b :: ins_ref r s e
      else if SEQ_GT (start b) e then mk_sackblk s e :: b :: r
      else ins_ref r (if SEQ_LT (start b) s then start b else s)
                     (if SEQ_GT (fin b) e then fin b else e)
  end.

Definition puts (m l : list sackblk) : list sackblk := fold_left put l m.

Lemma zlen_put_le m b : zlen m <= TCP_MAX_SACK_SND -> zlen (put m b) <= TCP_MAX_SACK_SND.
Proof.
  unfold put. destruct (_ <? _) eqn:E; [|done]. autorewrite with zlen. lia.
Qed.

Lemma puts_take m l :
  zlen m <= TCP_MAX_SACK_SND ->
  puts m l = m ++ take (Z.to_nat (TCP_MAX_SACK_SND - zlen m)) l.
Proof.
  unfold puts. revert m; induction l as [|b r IH]; intros m Hm; simpl.
  - by rewrite take_nil, app_nil_r.
  - rewrite IH by by apply zlen_put_le. unfold put. case_match eqn:E.
    + rewrite zlen_app. unfold zlen at 2. simpl.
      replace (Z.to_nat (TCP_MAX_SACK_SND - zlen m))
        with (S (Z.to_nat (TCP_MAX_SACK_SND - (zlen m + (1 + 0))))) by lia.
      simpl. by rewrite <- app_assoc.
    + replace (Z.to_nat _) with 0%nat by lia. by rewrite !take_0.
Qed.

(** What every insertion is about: distances from [base] up to [hi], less than
    half the sequence space. *)
Section window.
Context (base hi : Z) (Hhi : hi < 2147483648).

Ltac win := unfold inwin in *; lia.

  (** Turn the circular comparisons of the goal into comparisons of distances. *)
Ltac norm :=
    repeat match goal with
      | |- context [SEQ_LT ?x ?y] => rewrite (SEQ_LT_rel base x y) by win
      | |- context [SEQ_LEQ ?x ?y] => rewrite (SEQ_LEQ_rel base x y) by win
      | |- context [SEQ_GT ?x ?y] => rewrite (SEQ_GT_rel base x y) by win
      | |- context [SEQ_GEQ ?x ?y] => rewrite (SEQ_GEQ_rel base x y) by win
      end.

Lemma placed_phase m l lo s e :
    sorted base lo hi l -> rel base e < lo -> rel base s < rel base e ->
    snd_insert_finish (fold_left snd_insert_step l (mk_insst m true s e)) = puts m l.
Proof using Hhi.
    revert m lo; induction l as [|b r IH]; intros m lo; [done|].
    intros (?&?&?&Hs) ??. simpl. norm.
    destruct (rel base (fin b) <? rel base s) eqn:?; [lia|].
    destruct (rel base e <? rel base (start b)) eqn:?; [|lia].
    unfold puts. simpl. apply (IH _ _ Hs); lia.
  Qed.

Lemma insert_fold m l lo s e :
    sorted base lo hi l -> rel base s < rel base e -> rel base e <= hi ->
    snd_insert_finish (fold_left snd_insert_step l (mk_insst m false s e))
    = puts m (ins_ref l s e).
Proof using Hhi.
    revert m lo s e; induction l as [|b r IH]; intros m lo s e; [done|].
    intros (?&?&?&Hs) ??. simpl. norm.
    destruct (rel base (fin b) <? rel base s) eqn:?.
    { unfold puts. simpl. by apply (IH _ _ _ _ Hs). }
    destruct (rel base e <? rel base (start b)) eqn:?.
    { unfold puts. simpl. apply (placed_phase _ _ _ _ _ Hs); lia. }
    apply (IH _ _ _ _ Hs); repeat case_match; lia.
  Qed.

Lemma ins_ref_sorted lo l s e :
    sorted base lo hi l -> lo <= rel base s -> rel base s < rel base e ->
    rel base e <= hi -> sorted base lo hi (ins_ref l s e).
Proof using Hhi.
    revert lo s e; induction l as [|b r IH]; intros lo s e; simpl; [intuition lia|].
    intros (?&?&?&Hs) ???. norm.
    destruct (rel base (fin b) <? rel base s) eqn:?.
    { simpl. repeat split; try lia. apply IH; [done|lia..]. }
    destruct (rel base e <? rel base (start b)) eqn:?.
    { simpl. intuition lia. }
    apply IH; [eapply sorted_weaken; [|done]; lia|repeat case_match; lia..].
  Qed.

Lemma ins_ref_covered lo l s e z :
    sorted base lo hi l -> rel base s < rel base e -> rel base e <= hi ->
    covered base (ins_ref l s e) z <->
    covered base l z \/ rel base s <= z < rel base e.
Proof using Hhi.
    revert lo s e; induction l as [|b r IH]; intros lo s e; simpl.
    { rewrite covered_cons, covered_nil. simpl. tauto. }
    intros (?&?&?&Hs) ??. norm. rewrite covered_cons.
    destruct (rel base (fin b) <? rel base s) eqn:?.
    { rewrite covered_cons, (IH _ _ _ Hs) by lia. tauto. }
    destruct (rel base e <? rel base (start b)) eqn:?.
    { rewrite !covered_cons. simpl. tauto. }
    rewrite (IH _ _ _ Hs) by (repeat case_match; lia).
    destruct (rel base (start b) <? rel base s) eqn:?,
      (rel base e <? rel base (fin b)) eqn:?; intuition lia.
  Qed.
End window.

Lemma zlen_ins_ref l s e : zlen (ins_ref l s e) <= zlen l + 1.
Proof.
  revert s e; induction l as [|b r IH]; intros s e; simpl; [done|].
  destruct (SEQ_LT (fin b) s); [autorewrite with zlen; specialize (IH s e); lia|].
  destruct (SEQ_GT _ _); [autorewrite with zlen; lia|].
  etrans; [apply IH|]. autorewrite with zlen. lia.
Qed.

(** ** Trimming *)

Lemma trim_sorted base lo hi lim l :
  hi < 2147483648 -> rel base lim <= hi -> sorted base lo hi l ->
  sorted base (Z.max lo (rel base lim)) hi (trim_blks lim l).
Proof.
  intros ??. revert lo; induction l as [|b r IH]; intros lo; [done|].
  intros (?&?&?&Hs). simpl.
  rewrite (SEQ_LEQ_rel base), (SEQ_LT_rel base) by (unfold inwin; lia).
  specialize (IH _ Hs).
  destruct (_ <=? _) eqn:?; [by eapply sorted_weaken; [|done]; lia|].
  destruct (_ <? _) eqn:?; simpl; repeat split; try lia;
    (eapply sorted_weaken; [|done]; lia).
Qed.

Lemma trim_covered base lo hi lim l z :
  hi < 2147483648 -> rel base lim <= hi -> sorted base lo hi l ->
  covered base (trim_blks lim l) z <-> covered base l z /\ rel base lim <= z.
Proof.
  intros ??. revert lo; induction l as [|b r IH]; intros lo; simpl.
  { rewrite covered_nil. tauto. }
  intros (?&?&?&Hs).
  rewrite (SEQ_LEQ_rel base), (SEQ_LT_rel base) by (unfold inwin; lia).
  specialize (IH _ Hs). rewrite covered_cons.
  destruct (_ <=? _) eqn:?; [rewrite IH; intuition lia|].
  rewrite covered_cons. destruct (_ <? _) eqn:?; simpl; rewrite IH; intuition lia.
Qed.

Lemma zlen_trim lim l : zlen (trim_blks lim l) <= zlen l.
Proof.
  induction l as [|b r IH]; simpl; [done|].
  case_match; autorewrite with zlen; lia.
Qed.

Lemma sorted_rebase base base' lo hi l :
  rel base base' <= lo -> sorted base lo hi l ->
  sorted base' (lo - rel base base') (hi - rel base base') l.
Proof.
  revert lo; induction l as [|b r IH]; intros lo Hlo; [done|].
  intros (?&?&?&Hs). simpl.
  rewrite (rel_shift base base' (start b)), (rel_shift base base' (fin b)) by lia.
  repeat split; try lia.
  replace (_ - _ + 1) with (rel base (fin b) + 1 - rel base base') by lia.
  apply IH; [lia|done].
Qed.

Lemma covered_rebase base base' lo hi l z :
  rel base base' <= lo -> sorted base lo hi l ->
  covered base' l z <-> covered base l (z + rel base base').
Proof.
  revert lo; induction l as [|b r IH]; intros lo Hlo; simpl.
  { by rewrite !covered_nil. }
  intros (?&?&?&Hs). rewrite !covered_cons, (IH (rel base (fin b) + 1)) by (done || lia).
  rewrite (rel_shift base base' (start b)), (rel_shift base base' (fin b)) by lia.
  intuition lia.
Qed.

(** ** The sender invariant *)

(** The scoreboard of [tp] is sorted, merged, within [snd_una, snd_max] and
    within its array; the window is at most a quarter of the sequence space
    (RFC 1323 windows are at most 2^30). *)
Definition snd_ok (tp : tcpcb) : Prop :=
  rel (snd_una tp) (snd_max tp) < 1073741824 /\
  sorted (snd_una tp) 0 (rel (snd_una tp) (snd_max tp)) (snd_sackblks tp) /\
  zlen (snd_sackblks tp) <= TCP_MAX_SACK_SND.

Definition sacked (tp : tcpcb) (z : Z) : Prop :=
  covered (snd_una tp) (snd_sackblks tp) z.

Lemma snd_insert_eq tp s e :
  snd_ok tp -> rel (snd_una tp) s < rel (snd_una tp) e ->
  rel (snd_una tp) e <= rel (snd_una tp) (snd_max tp) ->
  snd_sackblks (tcp_sack_snd_insert tp s e) =
  take (Z.to_nat TCP_MAX_SACK_SND) (ins_ref (snd_sackblks tp) s e).
Proof.
  intros (Hw & Hs & Hl) ??. cbn.
  rewrite (insert_fold (snd_una tp) (rel (snd_una tp) (snd_max tp)) ltac:(lia)
    _ _ _ _ _ Hs) by lia.
  by rewrite puts_take by done.
Qed.

Lemma snd_insert_ok tp s e :
  snd_ok tp -> rel (snd_una tp) s < rel (snd_una tp) e ->
  rel (snd_una tp) e <= rel (snd_una tp) (snd_max tp) ->
  let tp' := tcp_sack_snd_insert tp s e in
  snd_ok tp' /\ zlen (snd_sackblks tp') <= zlen (snd_sackblks tp) + 1 /\
  (forall z, sacked tp' z -> sacked tp z \/ rel (snd_una tp) s <= z < rel (snd_una tp) e) /\
  (zlen (snd_sackblks tp) < TCP_MAX_SACK_SND -> forall z,
     sacked tp z \/ rel (snd_una tp) s <= z < rel (snd_una tp) e -> sacked tp' z).
Proof.
  intros Hok Hlt Hle tp'. pose proof (snd_insert_eq _ _ _ Hok Hlt Hle) as Heq.
  fold tp' in Heq. destruct Hok as (Hw & Hs & Hl).
  pose proof (rel_range (snd_una tp) s). pose proof (zlen_ins_ref (snd_sackblks tp) s e).
  unfold snd_ok, sacked. rewrite Heq.
  change (snd_una tp') with (snd_una tp). change (snd_max tp') with (snd_max tp).
  assert (Hc : forall z, covered (snd_una tp) (ins_ref (snd_sackblks tp) s e) z <-> _)
    by (intros z; eapply ins_ref_covered; [|done|lia..]; lia).
  repeat split; try done.
  - apply sorted_take, ins_ref_sorted; [lia|done|lia..].
  - unfold zlen, TCP_MAX_SACK_SND. rewrite length_take. lia.
  - unfold zlen in *. rewrite length_take. lia.
  - intros z Hz%covered_take. by apply Hc.
  - intros Hn z Hz. rewrite take_ge; [by apply Hc|unfold zlen in *; lia].
Qed.

(** The octets a reported block stands for: its distances from [snd_una]. *)
Definition reported (tp : tcpcb) (b : sackblk) (z : Z) : Prop :=
  dist (snd_una tp) (start b) <= z < dist (snd_una tp) (fin b).

Lemma sack_update_step_ok tp b :
  snd_ok tp -> near_blk (snd_una tp) b ->
  let tp' := sack_update_step tp b in
  snd_ok tp' /\ snd_una tp' = snd_una tp /\ snd_max tp' = snd_max tp /\
  zlen (snd_sackblks tp') <= zlen (snd_sackblks tp) + 1 /\
  (forall z, sacked tp' z -> sacked tp z \/ reported tp b z) /\
  (zlen (snd_sackblks tp) < TCP_MAX_SACK_SND -> forall z,
     sacked tp z \/ reported tp b z /\ 0 <= z < rel (snd_una tp) (snd_max tp) ->
     sacked tp' z).
Proof.
  intros Hok [Hns Hnf] tp'. unfold tp', sack_update_step.
  pose proof Hok as (Hw & _ & _). set (una := snd_una tp) in *.
  assert (Hda : dist una una = 0) by apply dist_self.
  assert (Hdm : dist una (snd_max tp) = rel una (snd_max tp))
    by (apply rel_dist; unfold inwin; lia).
  pose proof (rel_range una (snd_max tp)).
  assert (Hna : near una una) by (unfold near; lia).
  assert (Hnm : near una (snd_max tp)) by (unfold near; lia).
  set (e := if SEQ_GT _ _ then _ else _). set (s := if SEQ_LT _ _ then _ else _).
  assert (He : near una e /\ dist una e = Z.min (dist una (fin b)) (dist una (snd_max tp))).
  { unfold e, SEQ_GT. rewrite (s32_dist una) by done. case_match; split; done || lia. }
  assert (Hs : near una s /\ dist una s = Z.max (dist una (start b)) 0).
  { unfold s, SEQ_LT. rewrite (s32_dist una) by done. case_match; split; done || lia. }
  destruct He as [Hne He], Hs as [Hnss Hs]. unfold SEQ_GEQ, reported. fold una.
  rewrite (s32_dist una) by done.
  destruct (_ >=? 0) eqn:Hc.
  { split_and!; [done..|lia|by left|]. intros _ z [?|?]; [done|lia]. }
  assert (rel una s = dist una s) by (apply dist_rel; lia).
  assert (rel una e = dist una e) by (apply dist_rel; lia).
  destruct (snd_insert_ok tp s e Hok) as (? & ? & H3 & H4); fold una; [lia..|].
  fold una in H3, H4. split_and!; try done.
  - intros z Hz%H3. intuition lia.
  - intros Hn z Hz. apply H4; [done|]. intuition lia.
Qed.

Lemma sack_update_fold sack tp :
  snd_ok tp -> Forall (near_blk (snd_una tp)) sack ->
  let tp' := fold_left sack_update_step sack tp in
  snd_ok tp' /\ snd_una tp' = snd_una tp /\ snd_max tp' = snd_max tp /\
  (forall z, sacked tp' z -> sacked tp z \/ Exists (fun b => reported tp b z) sack) /\
  (zlen (snd_sackblks tp) + zlen sack <= TCP_MAX_SACK_SND -> forall z,
     sacked tp z \/ Exists (fun b => reported tp b z) sack /\
                    0 <= z < rel (snd_una tp) (snd_max tp) -> sacked tp' z).
Proof.
  revert tp; induction sack as [|b r IH]; intros tp Hok Hn; cbn [fold_left].
  { split_and!; [done..|by left|]. intros _ z [?|[?%Exists_nil _]]; done. }
  apply Forall_cons in Hn as [Hb Hr].
  destruct (sack_update_step_ok tp b Hok Hb) as (Hok' & Hu & Hm & Hl & H3 & H4).
  destruct (IH (sack_update_step tp b)) as (? & Hu' & Hm' & I3 & I4); [done|by rewrite Hu|].
  unfold reported in *. rewrite Hu in *. rewrite Hm in *. autorewrite with zlen.
  pose proof (zlen_nonneg r).
  split_and!; try done.
  - intros z Hz%I3. rewrite Exists_cons. destruct Hz as [Hz%H3|?]; tauto.
  - intros Hlen z Hz. apply I4; [lia|]. rewrite Exists_cons in Hz.
    destruct Hz as [?|[[?|?] ?]]; [left; apply H4; [lia|tauto]..|tauto].
Qed.

Lemma snd_trim_ok base tp :
  rel base (snd_max tp) < 1073741824 -> rel base (snd_una tp) <= rel base (snd_max tp) ->
  sorted base 0 (rel base (snd_max tp)) (snd_sackblks tp) ->
  zlen (snd_sackblks tp) <= TCP_MAX_SACK_SND ->
  let tp' := tcp_sack_snd_trim tp in
  snd_ok tp' /\ zlen (snd_sackblks tp') <= zlen (snd_sackblks tp) /\
  (forall z, sacked tp' z <->
     0 <= z /\ covered base (snd_sackblks tp) (z + rel base (snd_una tp))).
Proof.
  intros Hw Hu Hs Hl tp'. unfold snd_ok, sacked.
  change (snd_una tp') with (snd_una tp). change (snd_max tp') with (snd_max tp).
  change (snd_sackblks tp') with (trim_blks (snd_una tp) (snd_sackblks tp)).
  pose proof (rel_range base (snd_una tp)).
  pose proof (zlen_trim (snd_una tp) (snd_sackblks tp)).
  assert (Ht := trim_sorted base 0 (rel base (snd_max tp)) (snd_una tp) _
    ltac:(lia) Hu Hs).
  rewrite (rel_shift base) by lia.
  split_and!; [lia| |lia|lia|].
  - eapply sorted_weaken; [|eapply sorted_rebase; [|exact Ht]]; lia.
  - intros z. rewrite (covered_rebase base (snd_una tp) _ _ _ z (Z.le_max_r _ _) Ht).
    rewrite (trim_covered base 0 (rel base (snd_max tp))) by (exact Hs || lia).
    intuition lia.
Qed.

(** * Loss detection against its definition by distances *)

Section lost.
Context (base : Z).

(** The islands strictly above the distance [z], and the SACKed octets at or
    above it. *)
Fixpoint islands_above (z : Z) (l : list sackblk) : Z :=
  match l with
  | [] => 0
  | b :: r => (if z <? rel base (start b) then 1 else 0) + islands_above z r
  end.
Fixpoint octets_above (z : Z) (l : list sackblk) : Z :=
  match l with
  | [] => 0
  | b :: r => Z.max 0 (rel base (fin b) - Z.max (rel base (start b)) z) + octets_above z r
  end.

Lemma octets_above_bound lo hi z l :
  sorted base lo hi l -> 0 <= octets_above z l <= Z.max 0 (hi - lo).
Proof.
  revert lo; induction l as [|b r IH]; intros lo; simpl; [lia|].
  intros (?&?&?&Hs%IH). lia.
Qed.

Lemma above_anti z z' l :
  z <= z' -> islands_above z' l <= islands_above z l /\ octets_above z' l <= octets_above z l.
Proof. intros ?. induction l as [|b r IH]; simpl; [lia|]. repeat case_match; lia. Qed.

Lemma islost_fold lo hi seq l i a :
  hi < 1073741824 -> 0 <= lo -> sorted base lo hi l -> rel base seq <= hi ->
  0 <= a -> a + Z.max 0 (hi - lo) < 2147483648 ->
  fold_left (islost_step seq) l (i, a) =
  (i + islands_above (rel base seq) l, a + octets_above (rel base seq) l).
Proof.
  intros ?. revert lo i a; induction l as [|b r IH]; intros lo i a ? Hs ???; simpl.
  { f_equal; lia. }
  destruct Hs as (?&?&?&Hs). pose proof (rel_range base seq).
  rewrite (SEQ_LEQ_rel base), (SEQ_GT_rel base) by (unfold inwin; lia).
  assert (Hd : forall x, rel base x <= rel base (fin b) ->
            u32 (fin b - x) = rel base (fin b) - rel base x)
    by (intros x ?; unfold rel in *; word_solve).
  destruct (_ <=? _) eqn:?.
  { rewrite (IH (rel base (fin b) + 1)) by (done || lia). f_equal; repeat case_match; lia. }
  destruct (_ <? _) eqn:?; rewrite Hd by lia;
    rewrite (s32_small (rel base (fin b) - _)) by lia; rewrite s32_small by lia;
    rewrite (IH (rel base (fin b) + 1)) by (done || lia); f_equal; lia.
Qed.
End lost.

(** The octet at distance [z] from [snd_una] is SACKed; is lost, as RFC 6675
    defines it: DupThresh islands above, or more than (DupThresh - 1) * SMSS
    SACKed octets above; is counted in flight. *)
Definition sacked_at (tp : tcpcb) (z : Z) : bool :=
  existsb (fun b => (rel (snd_una tp) (start b) <=? z) && (z <? rel (snd_una tp) (fin b)))
    (snd_sackblks tp).
Definition lost_at (tp : tcpcb) (z : Z) : bool :=
  (tcprexmtthresh <=? islands_above (snd_una tp) z (snd_sackblks tp))
  || ((tcprexmtthresh - 1) * t_maxseg tp <? octets_above (snd_una tp) z (snd_sackblks tp)).
Definition counted_at (tp : tcpcb) (z : Z) : bool :=
  negb (sacked_at tp z) && (negb (lost_at tp z) || (z <? rel (snd_una tp) (snd_highrxt tp))).

Lemma sacked_at_spec tp z : sacked_at tp z = true <-> sacked tp z.
Proof.
  unfold sacked_at, sacked, covered. induction (snd_sackblks tp) as [|b r IH]; simpl.
  - by rewrite Exists_nil.
  - rewrite Exists_cons, <- IH, orb_true_iff. lia.
Qed.

Lemma islost_eq tp seq :
  snd_ok tp -> rel (snd_una tp) seq <= rel (snd_una tp) (snd_max tp) ->
  tcp_sack_islost tp seq = lost_at tp (rel (snd_una tp) seq).
Proof.
  intros (Hw & Hs & _) ?. unfold tcp_sack_islost.
  pose proof (rel_range (snd_una tp) (snd_max tp)).
  rewrite (islost_fold (snd_una tp) 0 (rel (snd_una tp) (snd_max tp))) by (done || lia).
  done.
Qed.

Lemma lost_at_anti tp x y : x <= y -> lost_at tp y = true -> lost_at tp x = true.
Proof.
  unfold lost_at. intros ?.
  destruct (above_anti (snd_una tp) x y (snd_sackblks tp)) as [? ?]; lia.
Qed.

Lemma issacked_eq tp seq :
  snd_ok tp -> rel (snd_una tp) seq <= rel (snd_una tp) (snd_max tp) ->
  tcp_sack_issacked tp seq = sacked_at tp (rel (snd_una tp) seq).
Proof.
  intros (Hw & Hs & _) Hq. unfold tcp_sack_issacked, sacked_at.
  set (base := snd_una tp) in *. set (hi := rel base (snd_max tp)) in *. clearbody base hi.
  revert Hs. generalize 0 as lo, (snd_sackblks tp) as l.
  intros lo l; revert lo; induction l as [|b r IH]; intros lo; simpl; [done|].
  intros (?&?&?&Hs%IH). rewrite <- Hs.
  by rewrite (SEQ_LEQ_rel base), (SEQ_LT_rel base) by (unfold inwin; lia).
Qed.

(** ** Hole selection *)

(** Both scans find the same hole; [tcp_sack_nextseg] then asks whether it is lost. *)
Lemma nextseg_rescue tp h l :
  nextseg_loop tp h l =
  '(s, e) ← rescue_loop tp h l; if tcp_sack_islost tp s then Some (s, e) else None.
Proof.
  revert h; induction l as [|b r IH]; intros h; simpl; [done|].
  by destruct (SEQ_LT (if SEQ_LT _ _ then _ else _) _).
Qed.

Lemma rescue_loop_spec tp base hi lo h l :
  hi < 2147483648 -> sorted base lo hi l -> rel base h <= lo -> 0 <= lo ->
  rel base h <= hi -> rel base (snd_highrxt tp) <= hi ->
  let from := Z.max (rel base h) (rel base (snd_highrxt tp)) in
  match rescue_loop tp h l with
  | Some (s, e) =>
      from <= rel base s < rel base e /\ rel base e <= hi /\ covered base l (rel base e) /\
      (forall z, rel base s <= z < rel base e -> ~ covered base l z) /\
      (forall z, from <= z < rel base s -> covered base l z)
  | None => forall z z', from <= z -> z < z' -> covered base l z' -> covered base l z
  end.
Proof.
  intros Hhi. revert lo h; induction l as [|b r IH]; intros lo h Hs ???? from;
    assert (Hf : from = Z.max (rel base h) (rel base (snd_highrxt tp))) by done;
    clearbody from; simpl.
  { intros z z' _ _. by rewrite covered_nil. }
  destruct Hs as (?&?&?&Hs). set (s := if SEQ_LT h _ then _ else _).
  assert (Hsr : rel base s = from).
  { unfold s. rewrite (SEQ_LT_rel base) by (unfold inwin; lia). case_match; lia. }
  rewrite (SEQ_LT_rel base) by (unfold inwin; lia). destruct (_ <? _) eqn:?.
  - rewrite Hsr. split_and!; try lia.
    + rewrite covered_cons. lia.
    + intros z ?. rewrite covered_cons. intros [?|Hc]; [lia|].
      eapply sorted_covered_lo in Hc; [|done]. lia.
  - specialize (IH _ (fin b) Hs). cbn zeta in IH.
    destruct (rescue_loop tp (fin b) r) as [[s' e']|].
    + destruct IH as (?&?&?&Hno&Hyes); [lia..|]. split_and!; try lia.
      * rewrite covered_cons. by right.
      * intros z ?. rewrite covered_cons. intros [?|?]; [lia|]. by apply (Hno z).
      * intros z ?. rewrite covered_cons.
        destruct (decide (z < rel base (fin b))); [left|right; apply Hyes]; lia.
    + intros z z' ??. rewrite !covered_cons.
      destruct (decide (z < rel base (fin b))); [left; lia|].
      intros [?|?]; [lia|right]. eapply (fun a b c d => IH a b c d z z'); lia || done.
Qed.

(** A hole the sender may fill: at or above the highest octet already
    retransmitted, not SACKed, below a SACKed octet. *)
Definition hole (tp : tcpcb) (z : Z) : Prop :=
  0 <= z /\ rel (snd_una tp) (snd_highrxt tp) <= z /\
  sacked_at tp z = false /\ (exists z', z < z' /\ sacked_at tp z' = true).

Lemma sacked_at_false tp z : sacked_at tp z = false <-> ~ sacked tp z.
Proof. rewrite <- sacked_at_spec. destruct (sacked_at tp z); intuition done. Qed.

Lemma rescue_spec tp :
  snd_ok tp -> rel (snd_una tp) (snd_highrxt tp) <= rel (snd_una tp) (snd_max tp) ->
  match tcp_sack_rescue tp with
  | Some (s, e) =>
      hole tp (rel (snd_una tp) s) /\
      (forall z, hole tp z -> rel (snd_una tp) s <= z) /\
      rel (snd_una tp) s < rel (snd_una tp) e <= rel (snd_una tp) (snd_max tp) /\
      (forall z, rel (snd_una tp) s <= z < rel (snd_una tp) e -> sacked_at tp z = false) /\
      sacked_at tp (rel (snd_una tp) e) = true
  | None => forall z, ~ hole tp z
  end.
Proof.
  intros (Hw & Hs & Hl) Hh. unfold tcp_sack_rescue.
  pose proof (rel_self (snd_una tp)) as H0.
  pose proof (rel_range (snd_una tp) (snd_max tp)).
  pose proof (rel_range (snd_una tp) (snd_highrxt tp)).
  assert (Hspec := fun a b c d e => rescue_loop_spec tp (snd_una tp)
    (rel (snd_una tp) (snd_max tp)) 0 (snd_una tp) _ a Hs b c d e).
  cbn zeta in Hspec. ospecialize (Hspec _ _ _ _ Hh); [lia..|]. unfold hole.
  destruct (rescue_loop _ _ _) as [[s e]|].
  - destruct Hspec as (?&?&Hc&Hno&Hyes).
    assert (Hn : forall z, rel (snd_una tp) s <= z < rel (snd_una tp) e -> sacked_at tp z = false)
      by (intros z ?; apply sacked_at_false; by apply Hno).
    apply sacked_at_spec in Hc.
    split_and!; try done; try lia; [apply Hn; lia|exists (rel (snd_una tp) e); split; [lia|done]|].
    intros z (?&?&Hz%sacked_at_false&_).
    destruct (decide (rel (snd_una tp) s <= z)); [done|]. destruct Hz. apply Hyes. lia.
  - intros z (?&?&Hz%sacked_at_false&z'&?&Hz'%sacked_at_spec).
    apply Hz. eapply Hspec; [|done..]. lia.
Qed.

(** ** The pipe *)

(** The octets of the [n] segments from distance [z] on that are in flight. *)
Section pipe.
Context (tp : tcpcb) (mss flight : Z).
Fixpoint pipe_sum (n : nat) (z : Z) : Z :=
  match n with
  | O => 0
  | S n => (if counted_at tp z then Z.min mss (flight - z) else 0)
           + pipe_sum n (z + mss)
  end.
End pipe.

Definition pipe_spec (tp : tcpcb) : Z :=
  let mss := if t_maxseg tp =? 0 then 1 else t_maxseg tp in
  let flight := rel (snd_una tp) (snd_max tp) in
  pipe_sum tp mss flight (Z.to_nat ((flight + mss - 1) / mss)) 0.

Lemma pipe_sum_bound tp mss flight n z :
  0 < mss -> (n = O \/ Z.of_nat (n - 1) * mss < flight - z) ->
  0 <= pipe_sum tp mss flight n z <= Z.max 0 (flight - z).
Proof.
  intros ?. revert z; induction n as [|n IH]; intros z Hn; simpl; [lia|].
  destruct Hn as [|Hn]; [lia|]. replace (S n - 1)%nat with n in Hn by lia.
  assert (0 <= pipe_sum tp mss flight n (z + mss) <= Z.max 0 (flight - (z + mss)))
    by (apply IH; destruct n; [by left|right; nia]).
  assert (0 < flight - z) by nia. case_match; lia.
Qed.

Lemma pipe_loop_spec tp mss n fuel seq z pipe :
  snd_ok tp -> rel (snd_una tp) (snd_highrxt tp) <= rel (snd_una tp) (snd_max tp) ->
  0 < mss < 65536 -> (n < fuel)%nat ->
  let flight := rel (snd_una tp) (snd_max tp) in
  0 <= z -> rel (snd_una tp) seq = Z.min z flight -> flight - z <= Z.of_nat n * mss ->
  (n = O \/ Z.of_nat (n - 1) * mss < flight - z) ->
  0 <= pipe -> pipe + Z.max 0 (flight - z) < 4294967296 ->
  sack_pipe_loop fuel tp mss seq pipe = Some (pipe + pipe_sum tp mss flight n z).
Proof.
  intros Hok Hh Hm Hf flight.
  assert (Hfl : flight = rel (snd_una tp) (snd_max tp)) by done. clearbody flight.
  pose proof Hok as (Hw & _ & _). pose proof (rel_range (snd_una tp) (snd_max tp)).
  revert fuel seq z pipe Hf. induction n as [|n IH];
    intros [|fuel] seq z pipe Hf Hz Hseq Hle Hn Hp Hb; try lia;
    cbn [sack_pipe_loop pipe_sum];
    rewrite (SEQ_LT_rel (snd_una tp)) by (unfold inwin; lia).
  { destruct (_ <? _) eqn:?; [lia|]. f_equal. lia. }
  destruct Hn as [|Hn]; [lia|]. replace (S n - 1)%nat with n in Hn by lia.
  assert (0 < flight - z) by nia. destruct (_ <? _) eqn:?; [|lia].
  assert (He : rel (snd_una tp) (u32 (seq + mss)) = z + mss)
    by (unfold rel in *; word_solve).
  set (e := if SEQ_GT _ _ then _ else _).
  assert (He' : rel (snd_una tp) e = Z.min (z + mss) flight).
  { unfold e. rewrite (SEQ_GT_rel (snd_una tp)) by (unfold inwin; lia). case_match; lia. }
  assert (Hd : u32 (e - seq) = Z.min mss (flight - z))
    by (unfold rel in *; word_solve).
  rewrite issacked_eq, islost_eq, (SEQ_LT_rel (snd_una tp)) by (done || unfold inwin; lia).
  replace (rel (snd_una tp) seq) with z by lia. fold (counted_at tp z).
  rewrite Hd, (u32_small (pipe + _)) by lia.
  rewrite (IH fuel e (z + mss)); [f_equal; case_match; lia| |lia|done|nia| | |].
  - lia.
  - destruct n; [by left|right]. nia.
  - case_match; lia.
  - case_match; lia.
Qed.

Lemma pipe_eq tp fuel :
  snd_ok tp -> rel (snd_una tp) (snd_highrxt tp) <= rel (snd_una tp) (snd_max tp) ->
  0 <= t_maxseg tp < 65536 -> rel (snd_una tp) (snd_max tp) < Z.of_nat fuel ->
  tcp_sack_pipe fuel tp = Some (pipe_spec tp) /\
  0 <= pipe_spec tp <= rel (snd_una tp) (snd_max tp).
Proof.
  intros Hok Hh Hm Hf. unfold tcp_sack_pipe, pipe_spec.
  set (mss := if t_maxseg tp =? 0 then _ else _).
  assert (0 < mss < 65536) by (unfold mss; case_match; lia).
  pose proof (rel_range (snd_una tp) (snd_max tp)).
  pose proof (rel_self (snd_una tp)).
  set (flight := rel (snd_una tp) (snd_max tp)) in *.
  set (q := (flight + mss - 1) / mss).
  assert (Hq : 0 <= q /\ flight <= q * mss < flight + mss)
    by (unfold q; Z.div_mod_to_equations; nia).
  pose proof Hok as (? & _ & _). clearbody mss q.
  assert (Hn : Z.to_nat q = O \/ Z.of_nat (Z.to_nat q - 1) * mss < flight - 0)
    by (destruct (decide (q = 0)); [left; lia|right; nia]).
  split.
  - rewrite (pipe_loop_spec _ _ (Z.to_nat q) _ _ 0) by (done || fold flight; nia). done.
  - pose proof (pipe_sum_bound tp mss flight (Z.to_nat q) 0 ltac:(lia) Hn). lia.
Qed.

(** ** PRR *)

Lemma bytes_above_eq tp :
  snd_ok tp ->
  tcp_sack_snd_bytes_above tp (snd_una tp) = octets_above (snd_una tp) 0 (snd_sackblks tp).
Proof.
  intros (Hw & Hs & _). unfold tcp_sack_snd_bytes_above.
  pose proof (rel_range (snd_una tp) (snd_max tp)). pose proof (rel_self (snd_una tp)).
  set (base := snd_una tp) in *. set (hi := rel base (snd_max tp)) in *. clearbody base hi.
  enough (G : forall l lo a, 0 <= lo -> sorted base lo hi l -> 0 <= a ->
    a + Z.max 0 (hi - lo) < 4294967296 ->
    fold_left (bytes_above_step base) l a = a + octets_above base 0 l)
    by (rewrite (G _ 0 0); [done|lia|done|lia..]).
  induction l as [|b r IH]; intros lo a ? Hl ??; simpl; [lia|].
  destruct Hl as (?&?&?&Hl). unfold bytes_above_step at 2.
  rewrite (SEQ_LEQ_rel base), (SEQ_LT_rel base) by (unfold inwin; lia).
  assert (u32 (fin b - start b) = rel base (fin b) - rel base (start b))
    by (unfold rel in *; word_solve).
  destruct (_ <=? _) eqn:?; [lia|]. destruct (_ <? _) eqn:?; [lia|].
  rewrite (u32_small (a + _)) by lia.
  rewrite (IH (rel base (fin b) + 1)) by (done || lia). lia.
Qed.

(** Every quantity PRR adds up fits comfortably in 32 bits. *)
Definition prr_ok (tp : tcpcb) : Prop :=
  0 <= snd_ssthresh tp < 1073741824 /\ 0 <= prr_delivered tp < 536870912 /\
  0 <= prr_out tp < 536870912 /\ 0 < prr_recoverfs tp < 1073741824.

(** The data one acknowledgement delivers. *)
Definition prr_delta (tp : tcpcb) (acked prev_sacked : Z) : Z :=
  Z.max 0 (acked + octets_above (snd_una tp) 0 (snd_sackblks tp) - prev_sacked).

Lemma prr_ack_spec fuel tp acked prev :
  snd_ok tp -> rel (snd_una tp) (snd_highrxt tp) <= rel (snd_una tp) (snd_max tp) ->
  0 <= t_maxseg tp < 65536 -> rel (snd_una tp) (snd_max tp) < Z.of_nat fuel ->
  prr_ok tp -> rel (snd_una tp) (snd_max tp) < 268435456 ->
  0 <= acked < 268435456 -> 0 <= prev < 268435456 ->
  exists tp',
    tcp_sack_prr_ack fuel tp acked prev = Some tp' /\
    tp' = tp <| prr_delivered ::= prr_delivered tp' |> <| snd_cwnd ::= snd_cwnd tp' |> /\
    prr_delivered tp' = prr_delivered tp + prr_delta tp acked prev /\
    pipe_spec tp <= snd_cwnd tp' /\
    (pipe_spec tp <= snd_ssthresh tp ->
       snd_cwnd tp' <= snd_ssthresh tp /\
       snd_cwnd tp' - pipe_spec tp <=
         Z.max (prr_delivered tp' - prr_out tp) (prr_delta tp acked prev) + t_maxseg tp) /\
    (snd_ssthresh tp < pipe_spec tp ->
       (prr_out tp + (snd_cwnd tp' - pipe_spec tp) - 1) * prr_recoverfs tp
         < prr_delivered tp' * snd_ssthresh tp \/ snd_cwnd tp' = pipe_spec tp).
Proof.
  intros Hok Hh Hm Hf (?&?&?&?) ???.
  unfold tcp_sack_prr_ack. rewrite bytes_above_eq by done.
  pose proof Hok as (_ & Hs & _).
  pose proof (octets_above_bound (snd_una tp) _ _ 0 _ Hs) as Hob.
  pose proof (rel_range (snd_una tp) (snd_max tp)).
  unfold prr_delta. set (cur := octets_above _ _ _) in *.
  rewrite (s32_small cur), (s32_small prev), (s32_small (acked + _ - _)) by lia.
  set (del := if acked + cur - prev <? 0 then 0 else acked + cur - prev).
  assert (Hdel : del = Z.max 0 (acked + cur - prev)) by (unfold del; case_match; lia).
  rewrite <- Hdel. clearbody del. rewrite (u32_small (prr_delivered tp + del)) by lia.
  set (tp1 := tp <| prr_delivered ::= _ |>).
  assert (Hp : tcp_sack_pipe fuel tp1 = Some (pipe_spec tp) /\
               0 <= pipe_spec tp <= rel (snd_una tp) (snd_max tp))
    by (apply (pipe_eq tp1); done).
  destruct Hp as [-> Hpb]. cbn [mbind option_bind].
  change (prr_recoverfs tp1) with (prr_recoverfs tp).
  change (snd_ssthresh tp1) with (snd_ssthresh tp).
  change (prr_delivered tp1) with (prr_delivered tp + del).
  change (prr_out tp1) with (prr_out tp). change (t_maxseg tp1) with (t_maxseg tp).
  set (p := pipe_spec tp) in *. clearbody p.
  destruct (prr_recoverfs tp =? 0) eqn:?; [lia|].
  set (q0 := (_ + _) / prr_recoverfs tp).
  assert (Hq : 0 <= q0 /\ (q0 - 1) * prr_recoverfs tp
               < (prr_delivered tp + del) * snd_ssthresh tp \/ q0 = 0).
  { unfold q0. Z.div_mod_to_equations. nia. }
  assert (Hq0 : 0 <= q0) by (unfold q0; apply Z.div_pos; nia).
  clearbody q0. eexists. split; [reflexivity|].
  split; [done|]. split; [done|].
  cbn [snd_cwnd prr_delivered field_map].
  change (prr_delivered tp1) with (prr_delivered tp + del).
  repeat rewrite (s32_small (prr_out tp)) by lia.
  repeat rewrite (s32_small (snd_ssthresh tp)) by lia.
  repeat rewrite (s32_small p) by lia.
  repeat rewrite (s32_small (prr_delivered tp + del)) by lia.
  rewrite (s32_small (prr_delivered tp + del - prr_out tp)) by lia.
  rewrite (s32_small (snd_ssthresh tp - p)) by lia.
  destruct (snd_ssthresh tp <? p) eqn:?.
  - set (q := if 2147483647 <? q0 then _ else _).
    assert (0 <= q <= 2147483647 /\ q <= q0) by (unfold q; case_match; lia).
    clearbody q. rewrite (s32_small (q - _)) by lia.
    destruct (_ <? 0) eqn:?; rewrite u32_small by lia;
      (split_and!; [lia|lia|intros _]); [right; lia|].
    destruct Hq as [[_ Hq]| ->]; [|right; lia]. left.
    eapply Z.le_lt_trans; [|exact Hq]. apply Z.mul_le_mono_nonneg_r; lia.
  - set (lim := if _ <? del then _ else _).
    assert (lim = Z.max (prr_delivered tp + del - prr_out tp) del)
      by (unfold lim; case_match; lia).
    clearbody lim. rewrite (s32_small (lim + _)) by lia.
    clear Hq Hob Hf Hs Hh. set (c := if lim + _ <? _ then _ else _).
    assert (0 <= c <= snd_ssthresh tp - p /\ c <= lim + t_maxseg tp)
      by (unfold c; case_match; lia).
    clearbody c. destruct (c <? 0) eqn:?; [lia|].
    rewrite u32_small by lia. split_and!; [lia|intros _; lia|intros ?; lia].
Qed.

(** * The receiver list *)

Section receiver.
Context (base hi : Z) (Hhi : hi < 2147483648).

Definition blk_ok (b : sackblk) : Prop :=
  rel base (start b) < rel base (fin b) /\ rel base (fin b) <= hi.

(** Neither overlapping nor touching. *)
Definition apart (a b : sackblk) : Prop :=
  rel base (fin a) < rel base (start b) \/ rel base (fin b) < rel base (start a).

Fixpoint separated (l : list sackblk) : Prop :=
  match l with
  | [] => True
  | b :: r => blk_ok b /\ Forall (apart b) r /\ separated r
  end.

Lemma apart_sym a b : apart a b -> apart b a.
Proof. unfold apart. lia. Qed.

Lemma separated_snoc l b :
  separated (l ++ [b]) <-> separated l /\ blk_ok b /\ Forall (fun a => apart a b) l.
Proof.
  induction l as [|a r IH]; simpl.
  - split; [intros (?&_&_)|intros (_&?&_)]; split_and!; done || constructor.
  - rewrite IH, Forall_app, Forall_cons, (Forall_cons (fun a => apart a b)).
    split; intros; intuition auto.
Qed.

Lemma separated_take l n : separated l -> separated (take n l).
Proof.
  revert n; induction l as [|b r IH]; intros [|n]; simpl; [done..|].
  intros (?&?&?). split_and!; [done|by apply Forall_take|auto].
Qed.

Definition blk_covers (b : sackblk) (z : Z) : Prop := rel base (start b) <= z < rel base (fin b).

(** The loop keeps head and survivors separated, and loses only what the
    cumulative acknowledgement covers. *)
Lemma addblock_fold nxt l head saved head' saved' :
  rel base nxt <= hi ->
  separated (head :: saved) -> separated l ->
  Forall (fun a => Forall (apart a) l) saved ->
  fold_left (addblock_step nxt) l (head, saved) = (head', saved') ->
  separated (head' :: saved') /\
  rel base (start head') <= rel base (start head) /\
  rel base (fin head) <= rel base (fin head') /\
  zlen saved' <= zlen saved + zlen l /\
  (forall z, covered base (head' :: saved') z ->
     covered base (head :: saved) z \/ covered base l z) /\
  (forall z, covered base (head :: saved) z \/ covered base l z /\ rel base nxt <= z ->
     covered base (head' :: saved') z).
Proof using Hhi.
  intros Hn. revert head saved; induction l as [|b r IH]; intros head saved Hsep Hl Hx; simpl.
  { intros [= <- <-]. setoid_rewrite (covered_nil base). autorewrite with zlen.
    split; [done|]. split_and!; [lia..|tauto|tauto]. }
  destruct Hl as (Hb & Hbr & Hr). destruct Hsep as (Hh & Hhs & Hs).
  assert (Hxr : Forall (fun a => Forall (apart a) r) saved /\ Forall (fun a => apart a b) saved).
  { split; eapply Forall_impl; try done; intros a [? ?]%Forall_cons; done. }
  destruct Hxr as [Hxr Hxb]. unfold blk_ok in Hb, Hh. autorewrite with zlen.
  pose proof (zlen_nonneg r).
  rewrite (SEQ_LEQ_rel base), (SEQ_LEQ_rel base), (SEQ_LEQ_rel base), (SEQ_LT_rel base),
    (SEQ_GT_rel base) by (unfold inwin; lia).
  setoid_rewrite (covered_cons base b r).
  destruct (rel base (fin b) <=? rel base nxt) eqn:?.
  { intros Hf. apply IH in Hf as (?&?&?&?&Hc&Hc'); [|simpl; done..].
    split; [done|]. split_and!; [lia..| |].
    - intros z [?|?]%Hc; tauto.
    - intros z Hz. apply Hc'. intuition lia. }
  destruct (_ && _) eqn:Hov.
  - set (h := mk_sackblk _ _). intros Hf.
    assert (Hh' : rel base (start h) = Z.min (rel base (start b)) (rel base (start head)) /\
                  rel base (fin h) = Z.max (rel base (fin b)) (rel base (fin head)))
      by (unfold h; simpl; repeat case_match; lia).
    clearbody h. apply IH in Hf as (?&?&?&?&Hc&Hc'); [| |done..].
    + split; [done|]. split_and!; [lia..| |].
      * intros z [Hz|?]%Hc; [|tauto]. rewrite covered_cons in *.
        destruct Hz as [?|?]; [|tauto].
        destruct (decide (rel base (start b) <= z < rel base (fin b))); [tauto|].
        left; left; lia.
      * intros z Hz. apply Hc'. rewrite covered_cons in *. intuition lia.
    + split_and!; [unfold blk_ok; lia| |done].
      apply Forall_forall. intros a Ha. rewrite !Forall_forall in *.
      specialize (Hhs a Ha). specialize (Hxb a Ha). unfold apart in *.
      assert (separated saved /\ In a saved) as [Hsa Hia] by (split; [done|by apply list_elem_of_In]).
      assert (blk_ok a).
      { clear -Hsa Hia. induction saved; simpl in *; [done|].
        destruct Hsa as (?&?&?), Hia as [->|?]; auto. }
      unfold blk_ok in *. lia.
  - intros Hf. apply IH in Hf as (?&?&?&?&Hc&Hc'); [| |done|].
    + rewrite zlen_app, zlen_cons, zlen_nil in *.
      split; [done|]. split_and!; [lia..| |].
      * intros z [Hz|?]%Hc; [|tauto].
        rewrite covered_cons, covered_app, covered_cons, covered_nil in Hz.
        rewrite covered_cons. tauto.
      * intros z Hz. apply Hc'. rewrite covered_cons, covered_app, covered_cons, covered_nil.
        rewrite covered_cons in Hz. tauto.
    + simpl. split_and!; [done| |by apply separated_snoc].
      apply Forall_app. split; [done|]. constructor; [unfold apart; lia|constructor].
    + apply Forall_app. split; [done|]. by constructor.
Qed.
End receiver.

(** * The properties *)

(** C1.  [tcp_sack_update] (trim at the new [snd_una], then fold in every block
    of the segment) keeps the scoreboard sorted, merged, within
    [snd_una, snd_max] and within its 16 entries; it marks no octet that was not
    marked before or reported now, and as long as the array does not fill up it
    forgets none.  [base] is the cumulative acknowledgement at which the old
    scoreboard was built; the reported blocks are within a quarter of the
    sequence space. *)
Theorem tcp_sack_update_correct tp base sack :
  rel base (snd_max tp) < 1073741824 -> rel base (snd_una tp) <= rel base (snd_max tp) ->
  sorted base 0 (rel base (snd_max tp)) (snd_sackblks tp) ->
  zlen (snd_sackblks tp) <= TCP_MAX_SACK_SND ->
  Forall (near_blk (snd_una tp)) sack ->
  let tp' := tcp_sack_update tp sack in
  let old z := 0 <= z /\ covered base (snd_sackblks tp) (z + rel base (snd_una tp)) in
  let new z := Exists (fun b => reported tp b z) sack in
  snd_ok tp' /\ snd_una tp' = snd_una tp /\ snd_max tp' = snd_max tp /\
  (forall z, sacked tp' z -> old z \/ new z) /\
  (zlen (snd_sackblks tp) + zlen sack <= TCP_MAX_SACK_SND ->
   forall z, old z \/ new z /\ 0 <= z < rel (snd_una tp) (snd_max tp) -> sacked tp' z).
Proof.
  intros Hw Hu Hs Hl Hn tp' old new.
  destruct (snd_trim_ok base tp Hw Hu Hs Hl) as (Hok & Hl' & Ht).
  destruct (sack_update_fold sack (tcp_sack_snd_trim tp) Hok Hn) as (?&?&?&H1&H2).
  unfold tp', tcp_sack_update. split_and!; try done.
  - intros z [Hz%Ht|?]%H1; [by left|by right].
  - intros Hcap z Hz. apply H2; [lia|]. rewrite Ht. exact Hz.
Qed.

(** A control block with everything outside the scoreboard at rest. *)
Definition tcb (una max highrxt : Z) (blks : list sackblk) : tcpcb :=
  mk_tcpcb 4 [0; 0; 0; 0] 0 6 0 1460 0 0 una max 65535 0 max 14600 7300 0 0 0 0 2 0
    [] blks highrxt 0 0 14600 true una 0 0 una 0 0 0 0 65535 0 0 0 0 0 0 0 0 0 max.

Lemma tcp_sack_update_witness :
  let tp := tcb 4294967000 5000 4294967000 [mk_sackblk 4294967200 400] in
  snd_ok (tcp_sack_update tp [mk_sackblk 1000 2000]) /\
  tcp_sack_update tp [mk_sackblk 1000 2000]
  = tp <| snd_sackblks ::= [mk_sackblk 4294967200 400; mk_sackblk 1000 2000] |>.
Proof.
  split; [|vm_compute; reflexivity].
  refine (proj1 (tcp_sack_update_correct _ 4294966900 _ _ _ _ _ _)).
  - vm_compute. reflexivity.
  - vm_compute. discriminate.
  - vm_compute. repeat split; discriminate.
  - vm_compute. discriminate.
  - repeat constructor; vm_compute; discriminate.
Defined.

(** The proximity of the blocks is a real hypothesis: the clamps of
    [tcp_sack_update] compare circularly, so a hostile block that straddles the
    point half the sequence space away is let through, and the scoreboard then
    holds an octet far above [snd_max] (the contract of [tcp_sack_snd_insert] is
    [snd_una <= start < end <= snd_max]). *)
Example tcp_sack_update_hostile :
  let tp := tcb 0 1000 0 [] in
  snd_ok tp /\
  snd_sackblks (tcp_sack_update tp [mk_sackblk 2147483647 2147485648])
  = [mk_sackblk 2147483647 2147485648].
Proof. vm_compute. split; [repeat split; discriminate|reflexivity]. Qed.

(** C2.  [tcp_sack_nextseg] returns the lowest hole (an octet at or above
    HighRxt that is not SACKed and lies below a SACKed one) if RFC 6675 deems
    that hole lost, with the whole un-SACKed run that starts there; otherwise no
    hole at all is lost (stopping at the first hole that is not lost misses
    none) and the caller is told to send new data at [snd_max]. *)
Theorem tcp_sack_nextseg_correct tp :
  snd_ok tp -> rel (snd_una tp) (snd_highrxt tp) <= rel (snd_una tp) (snd_max tp) ->
  match tcp_sack_nextseg tp with
  | (s, e, true) =>
      hole tp (rel (snd_una tp) s) /\ lost_at tp (rel (snd_una tp) s) = true /\
      (forall z, hole tp z -> rel (snd_una tp) s <= z) /\
      rel (snd_una tp) s < rel (snd_una tp) e <= rel (snd_una tp) (snd_max tp) /\
      (forall z, rel (snd_una tp) s <= z < rel (snd_una tp) e -> sacked_at tp z = false) /\
      sacked_at tp (rel (snd_una tp) e) = true
  | (s, e, false) =>
      s = snd_max tp /\ e = snd_max tp /\
      (forall z, hole tp z -> lost_at tp z = false)
  end.
Proof.
  intros Hok Hh. pose proof (rescue_spec tp Hok Hh) as Hr.
  unfold tcp_sack_nextseg, tcp_sack_rescue in *. rewrite nextseg_rescue.
  destruct (rescue_loop _ _ _) as [[s e]|]; cbn [mbind option_bind].
  - destruct Hr as (?&Hlow&?&?&?). rewrite islost_eq by (done || lia).
    destruct (lost_at tp (rel (snd_una tp) s)) eqn:Hlost; [done|].
    split_and!; [done..|]. intros z Hz%Hlow.
    destruct (lost_at tp z) eqn:Hl; [|done].
    by rewrite (lost_at_anti _ _ _ Hz Hl) in Hlost.
  - split_and!; [done..|]. intros z Hz. by destruct (Hr z).
Qed.

Definition tcb_holes : tcpcb :=
  tcb 4294967000 10000 4294967200
    [mk_sackblk 1000 2000; mk_sackblk 3000 4000; mk_sackblk 5000 6000].

Lemma tcb_holes_ok :
  snd_ok tcb_holes /\
  rel (snd_una tcb_holes) (snd_highrxt tcb_holes) <= rel (snd_una tcb_holes) (snd_max tcb_holes).
Proof. vm_compute. repeat split; discriminate. Defined.

Lemma tcp_sack_nextseg_witness :
  tcp_sack_nextseg tcb_holes = (4294967200, 1000, true) /\
  hole tcb_holes (rel 4294967000 4294967200).
Proof.
  split; [vm_compute; reflexivity|].
  pose proof (tcp_sack_nextseg_correct tcb_holes (proj1 tcb_holes_ok) (proj2 tcb_holes_ok)) as H.
  exact (proj1 H).
Defined.

(** C3.  SetPipe always terminates (at most one iteration per octet of flight,
    for every segment size), and its result is the sum, over the segments of the
    flight, of those that are not SACKed and either not lost or already
    retransmitted; it never exceeds the flight. *)
Theorem tcp_sack_pipe_correct tp fuel :
  snd_ok tp -> rel (snd_una tp) (snd_highrxt tp) <= rel (snd_una tp) (snd_max tp) ->
  0 <= t_maxseg tp < 65536 -> rel (snd_una tp) (snd_max tp) < Z.of_nat fuel ->
  tcp_sack_pipe fuel tp = Some (pipe_spec tp) /\
  0 <= pipe_spec tp <= rel (snd_una tp) (snd_max tp).
Proof. apply pipe_eq. Qed.

Lemma tcp_sack_pipe_witness :
  tcp_sack_pipe (Z.to_nat 10297) tcb_holes = Some 7376.
Proof.
  refine (eq_trans (proj1 (tcp_sack_pipe_correct tcb_holes (Z.to_nat 10297)
    (proj1 tcb_holes_ok) (proj2 tcb_holes_ok) _ _)) _).
  - vm_compute. split; [discriminate|reflexivity].
  - vm_compute. reflexivity.
  - vm_compute. reflexivity.
Defined.

(** C4.  One PRR step (RFC 6937): the data an ACK delivers is added to
    [prr_delivered] once; once the pipe is at or below [snd_ssthresh] the new
    window lies between the pipe and [snd_ssthresh] and grows by at most the
    reduction bound plus a segment; above it, what has been sent in recovery
    stays proportional, [prr_out + sndcnt <= ceil(prr_delivered * ssthresh /
    RecoverFS)], unless nothing may be sent.  No intermediate of the computation
    wraps. *)
Theorem tcp_sack_prr_ack_correct fuel tp acked prev :
  snd_ok tp -> rel (snd_una tp) (snd_highrxt tp) <= rel (snd_una tp) (snd_max tp) ->
  0 <= t_maxseg tp < 65536 -> rel (snd_una tp) (snd_max tp) < Z.of_nat fuel ->
  prr_ok tp -> rel (snd_una tp) (snd_max tp) < 268435456 ->
  0 <= acked < 268435456 -> 0 <= prev < 268435456 ->
  exists tp',
    tcp_sack_prr_ack fuel tp acked prev = Some tp' /\
    tp' = tp <| prr_delivered ::= prr_delivered tp' |> <| snd_cwnd ::= snd_cwnd tp' |> /\
    prr_delivered tp' = prr_delivered tp + prr_delta tp acked prev /\
    pipe_spec tp <= snd_cwnd tp' /\
    (pipe_spec tp <= snd_ssthresh tp ->
       snd_cwnd tp' <= snd_ssthresh tp /\
       snd_cwnd tp' - pipe_spec tp <=
         Z.max (prr_delivered tp' - prr_out tp) (prr_delta tp acked prev) + t_maxseg tp) /\
    (snd_ssthresh tp < pipe_spec tp ->
       (prr_out tp + (snd_cwnd tp' - pipe_spec tp) - 1) * prr_recoverfs tp
         < prr_delivered tp' * snd_ssthresh tp \/ snd_cwnd tp' = pipe_spec tp).
Proof. apply prr_ack_spec. Qed.

Lemma tcp_sack_prr_ack_witness :
  exists tp', tcp_sack_prr_ack (Z.to_nat 10297) tcb_holes 1000 2000 = Some tp' /\
              prr_delivered tp' = 2000 /\ pipe_spec tcb_holes <= snd_cwnd tp'.
Proof.
  destruct (tcp_sack_prr_ack_correct (Z.to_nat 10297) tcb_holes 1000 2000)
    as (tp' & H1 & H2 & H3 & H4 & H5).
  - exact (proj1 tcb_holes_ok).
  - exact (proj2 tcb_holes_ok).
  - vm_compute. split; [discriminate|reflexivity].
  - vm_compute. reflexivity.
  - vm_compute. repeat split; discriminate || reflexivity.
  - vm_compute. reflexivity.
  - vm_compute. split; [discriminate|reflexivity].
  - vm_compute. split; [discriminate|reflexivity].
  - exists tp'. repeat split; [exact H1|rewrite H3; vm_compute; reflexivity|exact H4].
Defined.

(** The receiver's list: separated blocks, at most [TCP_MAX_SACK]. *)
Definition rcv_ok (base hi : Z) (tp : tcpcb) : Prop :=
  separated base hi (sackblks tp) /\ zlen (sackblks tp) <= TCP_MAX_SACK.

(** C5.  [tcp_sack_addblock] reports the newest segment first (RFC 2018): the
    head block contains what is new of it; the blocks stay pairwise disjoint and
    non-adjacent and at most four; no octet is reported that was not received,
    and when a slot is free none above the cumulative acknowledgement is
    forgotten. *)
Theorem tcp_sack_addblock_correct tp base hi s e :
  hi < 1073741824 -> rel base (rcv_nxt tp) <= hi -> rcv_ok base hi tp ->
  rel base s <= hi -> rel base e <= hi ->
  let tp' := tcp_sack_addblock tp s e in
  let lo := Z.max (rel base s) (rel base (rcv_nxt tp)) in
  rcv_ok base hi tp' /\
  (lo < rel base e -> exists head rest, sackblks tp' = head :: rest /\
     rel base (start head) <= lo /\ rel base e <= rel base (fin head)) /\
  (forall z, covered base (sackblks tp') z ->
     covered base (sackblks tp) z \/ lo <= z < rel base e) /\
  (zlen (sackblks tp) < TCP_MAX_SACK -> forall z, rel base (rcv_nxt tp) <= z ->
     covered base (sackblks tp) z \/ lo <= z < rel base e -> covered base (sackblks tp') z).
Proof.
  intros Hhi Hn [Hsep Hlen] Hs He tp' lo.
  assert (Hlo : lo = Z.max (rel base s) (rel base (rcv_nxt tp))) by done. clearbody lo.
  unfold tp', tcp_sack_addblock.
  rewrite (SEQ_LEQ_rel base), (SEQ_LT_rel base) by (unfold inwin; lia).
  assert (Hnone : rel base e <= lo -> rcv_ok base hi tp /\
    (lo < rel base e -> exists head rest, sackblks tp = head :: rest /\
       rel base (start head) <= lo /\ rel base e <= rel base (fin head)) /\
    (forall z, covered base (sackblks tp) z -> covered base (sackblks tp) z \/ lo <= z < rel base e) /\
    (zlen (sackblks tp) < TCP_MAX_SACK -> forall z, rel base (rcv_nxt tp) <= z ->
     covered base (sackblks tp) z \/ lo <= z < rel base e -> covered base (sackblks tp) z)).
  { intros ?. split_and!; [done..|lia|by left|]. intros _ z _ [?|?]; [done|lia]. }
  destruct (rel base e <=? rel base (rcv_nxt tp)) eqn:?; [apply Hnone; lia|].
  set (s' := if rel base s <? _ then rcv_nxt tp else s).
  assert (Hs' : rel base s' = lo) by (unfold s'; case_match; lia). clearbody s'.
  rewrite (SEQ_GEQ_rel base) by (unfold inwin; lia).
  destruct (rel base e <=? rel base s') eqn:?; [apply Hnone; lia|]. clear Hnone.
  destruct (fold_left _ _ _) as [head saved] eqn:Hf.
  destruct (addblock_fold base hi ltac:(lia) (rcv_nxt tp) (sackblks tp) (mk_sackblk s' e) []
    head saved Hn) as (Hsep' & ? & ? & Hl & Hc & Hc'); [|done|constructor|done|].
  { simpl. unfold blk_ok. cbn [start fin]. repeat split; [lia..|constructor]. }
  cbn [start fin] in *. set (blks := head :: take _ saved).
  assert (Hblks : blks = take (Z.to_nat TCP_MAX_SACK) (head :: saved)) by done.
  change (sackblks (tp <| sackblks ::= blks |>)) with blks. unfold rcv_ok.
  change (sackblks (tp <| sackblks ::= blks |>)) with blks.
  split_and!.
  - rewrite Hblks. by apply separated_take.
  - rewrite Hblks. unfold zlen, TCP_MAX_SACK. rewrite length_take. lia.
  - intros _. exists head, (take (Z.to_nat (TCP_MAX_SACK - 1)) saved). split_and!; [done|lia..].
  - intros z. rewrite Hblks. intros [Hz|Hz]%covered_take%Hc; [|by left].
    rewrite covered_cons, covered_nil in Hz. cbn [start fin] in Hz. right. lia.
  - intros Hfree z Hz Hor. rewrite Hblks, take_ge.
    + apply Hc'. rewrite covered_cons. cbn [start fin]. destruct Hor; [by right|left; left; lia].
    + unfold zlen, TCP_MAX_SACK in *. simpl in *. lia.
Qed.

Lemma tcp_sack_addblock_witness :
  let tp := (tcb 0 0 0 []) <| rcv_nxt ::= 100 |> <| sackblks ::= [mk_sackblk 300 400; mk_sackblk 200 250] |> in
  sackblks (tcp_sack_addblock tp 240 310) = [mk_sackblk 200 400] /\
  rcv_ok 100 1000 (tcp_sack_addblock tp 240 310).
Proof.
  split; [vm_compute; reflexivity|].
  refine (proj1 (tcp_sack_addblock_correct _ 100 1000 240 310 _ _ _ _ _)).
  - reflexivity.
  - vm_compute. discriminate.
  - refine (conj (conj _ (conj (Forall_cons_2 _ _ _ _ (Forall_nil_2 _))
      (conj _ (conj (Forall_nil_2 _) I)))) _).
    + split; vm_compute; [reflexivity|discriminate].
    + right. vm_compute. reflexivity.
    + split; vm_compute; [reflexivity|discriminate].
    + vm_compute. discriminate.
  - vm_compute. discriminate.
  - vm_compute. discriminate.
Defined.
