(* ===== verification/BpfFilter.v ===== *)
(** The packet filter interpreter and its validator ([net/bpf_filter.c],
    [netinclude/net/bpf.h]). *)
From S2P Require Import Prelude.

(** * Instruction encoding *)

Definition BPF_CLASS (code : Z) : Z := Z.land code 7.
Definition BPF_MODE (code : Z) : Z := Z.land code 224.
Definition BPF_OP (code : Z) : Z := Z.land code 240.

Definition BPF_LD := 0.
Definition BPF_LDX := 1.
Definition BPF_ST := 2.
Definition BPF_STX := 3.
Definition BPF_ALU := 4.
Definition BPF_JMP := 5.
Definition BPF_RET := 6.
Definition BPF_MISC := 7.

Definition BPF_W := 0.
Definition BPF_H := 8.
Definition BPF_B := 16.
Definition BPF_IMM := 0.
Definition BPF_ABS := 32.
Definition BPF_IND := 64.
Definition BPF_MEM := 96.
Definition BPF_LEN := 128.
Definition BPF_MSH := 160.

Definition BPF_ADD := 0.
Definition BPF_SUB := 16.
Definition BPF_MUL := 32.
Definition BPF_DIV := 48.
Definition BPF_OR := 64.
Definition BPF_AND := 80.
Definition BPF_LSH := 96.
Definition BPF_RSH := 112.
Definition BPF_NEG := 128.
Definition BPF_JA := 0.
Definition BPF_JEQ := 16.
Definition BPF_JGT := 32.
Definition BPF_JGE := 48.
Definition BPF_JSET := 64.
Definition BPF_K := 0.
Definition BPF_X := 8.
Definition BPF_A := 16.
Definition BPF_TAX := 0.
Definition BPF_TXA := 128.

Definition BPF_MAXINSNS : Z := 512.
Definition BPF_MEMWORDS : Z := 16.

Record bpf_insn := mk_insn { code : Z; jt : Z; jf : Z; ik : Z }.

(** A field of type [u_short], [u_char], [u_char] and [long]. *)
Definition insn_ok (i : bpf_insn) : Prop :=
  0 <= code i < 65536 /\ byteP (jt i) /\ byteP (jf i) /\
  -2147483648 <= ik i < 2147483648.

(** The opcode of a [case] label: the disjoint bits of its parts. *)
Notation "a ∥ b" := (Z.lor a b) (at level 50, left associativity).

(** * Packets

    The caller hands the filter a flat buffer, or a chain of mbufs (here the
    bytes each holds) and a zero length. *)
Inductive packet := Buf (l : list Z) | Chain (ms : list (list Z)).

(** [EXTRACT_SHORT] and [EXTRACT_LONG]; [None] when a byte read is outside. *)
Definition EXTRACT_SHORT (p : list Z) (k : Z) : option Z :=
  a ← zget p k; b ← zget p (k + 1); Some (be16 a b).
Definition EXTRACT_LONG (p : list Z) (k : Z) : option Z :=
  a ← zget p k; b ← zget p (k + 1); c ← zget p (k + 2); d ← zget p (k + 3);
  Some (be32 a b c d).

(** [MINDEX] on a non-negative offset: the rebased offset, the mbuf that holds it
    and the mbufs after it; [None] is its [return 0]. *)
Fixpoint MINDEX (k : Z) (ms : list (list Z)) : option (Z * list Z * list (list Z)) :=
  match ms with
  | [] => None
  | m :: r => if zlen m <=? k then MINDEX (k - zlen m) r else Some (k, m, r)
  end.

(** The value and [*err] after the call, where [err] is [*err] before it: the
    [return 0] inside [MINDEX] leaves [*err] alone.  [None]: a read outside. *)
Definition m_xword (ms : list (list Z)) (k err : Z) : option (Z * Z) :=
  if k <? 0 then Some (0, 1) else
  match MINDEX k ms with
  | None => Some (0, err)
  | Some (k, m, r) =>
      if 4 <=? zlen m - k then v ← EXTRACT_LONG m k; Some (v, 0)
      else match r with
           | [] => Some (0, 1)
           | m0 :: _ =>
               if zlen m0 + zlen m - k <? 4 then Some (0, 1)
               else
                 let cp i := zget m (k + i) in
                 let np i := zget m0 i in
                 v ← (if zlen m - k =? 1 then
                        a ← cp 0; b ← np 0; c ← np 1; d ← np 2; Some (be32 a b c d)
                      else if zlen m - k =? 2 then
                        a ← cp 0; b ← cp 1; c ← np 0; d ← np 1; Some (be32 a b c d)
                      else
                        a ← cp 0; b ← cp 1; c ← cp 2; d ← np 0; Some (be32 a b c d));
                 Some (v, 0)
           end
  end.

Definition m_xhalf (ms : list (list Z)) (k err : Z) : option (Z * Z) :=
  if k <? 0 then Some (0, 1) else
  match MINDEX k ms with
  | None => Some (0, err)
  | Some (k, m, r) =>
      if 2 <=? zlen m - k then v ← EXTRACT_SHORT m k; Some (v, 0)
      else match r with
           | [] => Some (0, 1)
           | m0 :: _ =>
               if zlen m0 <? 1 then Some (0, 1)
               else a ← zget m k; b ← zget m0 0; Some (be16 a b, 0)
           end
  end.

(** * The interpreter *)

(** [p], [buflen] (the length of [p]) and [m] of [bpf_filter]. *)
Record pview := mk_pview { pv_p : list Z; pv_m : option (list (list Z)) }.

(** [None]: the caller passed a pointer the entry code cannot use (a flat buffer
    of length 0 is taken for an mbuf). *)
Definition bpf_enter (pk : packet) : option pview :=
  match pk with
  | Buf [] | Chain [] => None
  | Buf l => Some (mk_pview l None)
  | Chain (m :: r) => Some (mk_pview m (Some (m :: r)))
  end.

Inductive ld := LdOk (v merr : Z) | LdRet0 | LdCrash.

Definition ld_of_option (merr : Z) (o : option Z) : ld :=
  match o with Some v => LdOk v merr | None => LdCrash end.

(** [merr] after the helper: non-zero makes the filter reject. *)
Definition ld_of_x (o : option (Z * Z)) : ld :=
  match o with
  | Some (a, merr) => if merr =? 0 then LdOk a merr else LdRet0
  | None => LdCrash
  end.

Definition ld_word (v : pview) (merr k : Z) : ld :=
  if (k <? 0) || (zlen (pv_p v) <? u32 (k + 4)) then
    match pv_m v with
    | None => LdRet0
    | Some ms => ld_of_x (m_xword ms k merr)
    end
  else ld_of_option merr (EXTRACT_LONG (pv_p v) k).

Definition ld_half (v : pview) (merr k : Z) : ld :=
  if (k <? 0) || (zlen (pv_p v) <? u32 (k + 2)) then
    match pv_m v with
    | None => LdRet0
    | Some ms => ld_of_x (m_xhalf ms k merr)
    end
  else ld_of_option merr (EXTRACT_SHORT (pv_p v) k).

Definition ld_byte (v : pview) (merr k : Z) : ld :=
  if zlen (pv_p v) <=? u32 k then
    match pv_m v with
    | None => LdRet0
    | Some ms =>
        if k <? 0 then LdRet0 else
        match MINDEX k ms with
        | None => LdRet0
        | Some (k, n, _) => ld_of_option merr (zget n k)
        end
    end
  else ld_of_option merr (zget (pv_p v) k).

Record bst := mk_bst { b_pc : Z; b_A : Z; b_X : Z; b_mem : list Z; b_merr : Z }.
#[export] Instance bst_eta : Eta bst := fun s =>
  mk_bst (b_pc s) (b_A s) (b_X s) (b_mem s) (b_merr s).

(** [Crash]: the program counter, a scratch index, a packet read, a divisor or a
    shift count is outside what C defines. *)
Inductive res := Ret (v : Z) | Next (s : bst) | Crash.

Section interp.
Context (wirelen : Z) (v : pview).

Definition load_A (s : bst) (l : ld) : res :=
  match l with
  | LdOk a e => Next (s <| b_A ::= a |> <| b_merr ::= e |>)
  | LdRet0 => Ret 0
  | LdCrash => Crash
  end.

Definition load_X (s : bst) (l : ld) : res :=
  match l with
  | LdOk a e => Next (s <| b_X ::= a |> <| b_merr ::= e |>)
  | LdRet0 => Ret 0
  | LdCrash => Crash
  end.

(** [(p[k] & 0xf) << 2]. *)
Definition msh (l : ld) : ld :=
  match l with LdOk a e => LdOk (Z.shiftl (Z.land a 15) 2) e | _ => l end.

Definition set_mem (s : bst) (k x : Z) : res :=
  if (0 <=? k) && (k <? zlen (b_mem s)) then Next (s <| b_mem ::= zset (b_mem s) k x |>)
  else Crash.

Definition jump (s : bst) (off : Z) : res := Next (s <| b_pc ::= b_pc s + off |>).
Definition set_A (s : bst) (a : Z) : res := Next (s <| b_A ::= u32 a |>).
Definition set_X (s : bst) (x : Z) : res := Next (s <| b_X ::= u32 x |>).
Definition div_A (s : bst) (d : Z) : res := if d =? 0 then Crash else set_A s (b_A s / d).
Definition shl_A (s : bst) (n : Z) : res :=
  if (0 <=? n) && (n <? 32) then set_A s (Z.shiftl (b_A s) n) else Crash.
Definition shr_A (s : bst) (n : Z) : res :=
  if (0 <=? n) && (n <? 32) then set_A s (Z.shiftr (b_A s) n) else Crash.

(** The [switch]; [b_pc s] is already the index of the next instruction. *)
Definition exec (i : bpf_insn) (s : bst) : res :=
  let c := code i in
  let k := ik i in
  let A := b_A s in
  let X := b_X s in
  let br (b : bool) := jump s (if b then jt i else jf i) in
  if c =? BPF_RET ∥ BPF_K then Ret (u32 k)
  else if c =? BPF_RET ∥ BPF_A then Ret A
  else if c =? BPF_LD ∥ BPF_W ∥ BPF_ABS then load_A s (ld_word v (b_merr s) k)
  else if c =? BPF_LD ∥ BPF_H ∥ BPF_ABS then load_A s (ld_half v (b_merr s) k)
  else if c =? BPF_LD ∥ BPF_B ∥ BPF_ABS then load_A s (ld_byte v (b_merr s) k)
  else if c =? BPF_LD ∥ BPF_W ∥ BPF_LEN then set_A s wirelen
  else if c =? BPF_LDX ∥ BPF_W ∥ BPF_LEN then set_X s wirelen
  else if c =? BPF_LD ∥ BPF_W ∥ BPF_IND then load_A s (ld_word v (b_merr s) (s32 (X + k)))
  else if c =? BPF_LD ∥ BPF_H ∥ BPF_IND then load_A s (ld_half v (b_merr s) (s32 (X + k)))
  else if c =? BPF_LD ∥ BPF_B ∥ BPF_IND then load_A s (ld_byte v (b_merr s) (s32 (X + k)))
  else if c =? BPF_LDX ∥ BPF_MSH ∥ BPF_B then load_X s (msh (ld_byte v (b_merr s) k))
  else if c =? BPF_LD ∥ BPF_IMM then set_A s k
  else if c =? BPF_LDX ∥ BPF_IMM then set_X s k
  else if c =? BPF_LD ∥ BPF_MEM then
    match zget (b_mem s) k with Some x => set_A s x | None => Crash end
  else if c =? BPF_LDX ∥ BPF_MEM then
    match zget (b_mem s) k with Some x => set_X s x | None => Crash end
  else if c =? BPF_ST then set_mem s k (s32 A)
  else if c =? BPF_STX then set_mem s k (s32 X)
  else if c =? BPF_JMP ∥ BPF_JA then jump s k
  else if c =? BPF_JMP ∥ BPF_JGT ∥ BPF_K then br (u32 k <? A)
  else if c =? BPF_JMP ∥ BPF_JGE ∥ BPF_K then br (u32 k <=? A)
  else if c =? BPF_JMP ∥ BPF_JEQ ∥ BPF_K then br (A =? u32 k)
  else if c =? BPF_JMP ∥ BPF_JSET ∥ BPF_K then br (negb (Z.land A (u32 k) =? 0))
  else if c =? BPF_JMP ∥ BPF_JGT ∥ BPF_X then br (X <? A)
  else if c =? BPF_JMP ∥ BPF_JGE ∥ BPF_X then br (X <=? A)
  else if c =? BPF_JMP ∥ BPF_JEQ ∥ BPF_X then br (A =? X)
  else if c =? BPF_JMP ∥ BPF_JSET ∥ BPF_X then br (negb (Z.land A X =? 0))
  else if c =? BPF_ALU ∥ BPF_ADD ∥ BPF_X then set_A s (A + X)
  else if c =? BPF_ALU ∥ BPF_SUB ∥ BPF_X then set_A s (A - X)
  else if c =? BPF_ALU ∥ BPF_MUL ∥ BPF_X then set_A s (A * X)
  else if c =? BPF_ALU ∥ BPF_DIV ∥ BPF_X then if X =? 0 then Ret 0 else div_A s X
  else if c =? BPF_ALU ∥ BPF_AND ∥ BPF_X then set_A s (Z.land A X)
  else if c =? BPF_ALU ∥ BPF_OR ∥ BPF_X then set_A s (Z.lor A X)
  else if c =? BPF_ALU ∥ BPF_LSH ∥ BPF_X then if 32 <=? X then Ret 0 else shl_A s X
  else if c =? BPF_ALU ∥ BPF_RSH ∥ BPF_X then if 32 <=? X then Ret 0 else shr_A s X
  else if c =? BPF_ALU ∥ BPF_ADD ∥ BPF_K then set_A s (A + k)
  else if c =? BPF_ALU ∥ BPF_SUB ∥ BPF_K then set_A s (A - k)
  else if c =? BPF_ALU ∥ BPF_MUL ∥ BPF_K then set_A s (A * k)
  else if c =? BPF_ALU ∥ BPF_DIV ∥ BPF_K then div_A s (u32 k)
  else if c =? BPF_ALU ∥ BPF_AND ∥ BPF_K then set_A s (Z.land A (u32 k))
  else if c =? BPF_ALU ∥ BPF_OR ∥ BPF_K then set_A s (Z.lor A (u32 k))
  else if c =? BPF_ALU ∥ BPF_LSH ∥ BPF_K then shl_A s k
  else if c =? BPF_ALU ∥ BPF_RSH ∥ BPF_K then shr_A s k
  else if c =? BPF_ALU ∥ BPF_NEG then set_A s (- A)
  else if c =? BPF_MISC ∥ BPF_TAX then set_X s A
  else if c =? BPF_MISC ∥ BPF_TXA then set_A s X
  else Ret 0.

(** Fetch at [pc], step over the instruction, execute. *)
Definition bpf_step (f : list bpf_insn) (s : bst) : res :=
  match zget f (b_pc s) with
  | None => Crash
  | Some i => exec i (s <| b_pc ::= b_pc s + 1 |>)
  end.

(** [None]: not finished within [fuel] instructions. *)
Fixpoint bpf_run (fuel : nat) (f : list bpf_insn) (s : bst) : option res :=
  match fuel with
  | O => None
  | S fuel =>
      match bpf_step f s with
      | Next s => bpf_run fuel f s
      | r => Some r
      end
  end.
End interp.

(** [mem0] and [merr0]: what the uninitialised [mem[]] and [merr] hold.
    [pc = None] is the null program. *)
Definition bpf_filter (fuel : nat) (mem0 : list Z) (merr0 : Z)
    (pc : option (list bpf_insn)) (pk : packet) (wirelen : Z) : option res :=
  match bpf_enter pk with
  | None => Some Crash
  | Some v =>
      match pc with
      | None => Some (Ret (u32 (-1)))
      | Some f => bpf_run wirelen v fuel f (mk_bst 0 0 0 mem0 merr0)
      end
  end.

(** * The validator *)

(** The tests on instruction [i] of a program of [len]. *)
Definition bpf_valid_insn (len i : Z) (p : bpf_insn) : bool :=
  let from := i + 1 in
  let bad_jump :=
    if BPF_CLASS (code p) =? BPF_JMP then
      if BPF_OP (code p) =? BPF_JA then (ik p <? 0) || (len - from <=? ik p)
      else (len <=? from + jt p) || (len <=? from + jf p)
    else false in
  let bad_mem :=
    ((BPF_CLASS (code p) =? BPF_ST) || (BPF_CLASS (code p) =? BPF_STX) ||
     (((BPF_CLASS (code p) =? BPF_LD) || (BPF_CLASS (code p) =? BPF_LDX)) &&
      (BPF_MODE (code p) =? BPF_MEM))) &&
    ((BPF_MEMWORDS <=? ik p) || (ik p <? 0)) in
  let bad_div := (code p =? BPF_ALU ∥ BPF_DIV ∥ BPF_K) && (ik p =? 0) in
  let bad_shift :=
    ((code p =? BPF_ALU ∥ BPF_LSH ∥ BPF_K) || (code p =? BPF_ALU ∥ BPF_RSH ∥ BPF_K)) &&
    ((ik p <? 0) || (32 <=? ik p)) in
  negb (bad_jump || bad_mem || bad_div || bad_shift).

Fixpoint bpf_valid_from (len i : Z) (f : list bpf_insn) : bool :=
  match f with
  | [] => true
  | p :: r => bpf_valid_insn len i p && bpf_valid_from len (i + 1) r
  end.

Definition bpf_validate (f : option (list bpf_insn)) : bool :=
  match f with
  | None => false
  | Some f =>
      let len := zlen f in
      if (len <? 1) || (BPF_MAXINSNS <? len) then false
      else bpf_valid_from len 0 f &&
           match last f with
           | Some p => BPF_CLASS (code p) =? BPF_RET
           | None => false
           end
  end.

(** * Packet loads *)

(** Turn every in-range [zget] of the goal into a byte. *)
Ltac get_bytes :=
  repeat match goal with
  | Hb : bytesP ?l |- context [zget ?l ?i] =>
      let x := fresh "x" in let Hx := fresh "Hx" in
      destruct (zget_is_Some l i) as [x Hx]; [lia|];
      rewrite Hx; apply (zget_byte _ _ _ Hb) in Hx; cbn [mbind option_bind]
  end.

Lemma EXTRACT_LONG_ok p k :
  bytesP p -> 0 <= k -> k + 4 <= zlen p ->
  exists v, EXTRACT_LONG p k = Some v /\ 0 <= v < 4294967296.
Proof.
  intros. unfold EXTRACT_LONG. get_bytes. eexists. split; [done|]. unfold be32. lia.
Qed.
Lemma EXTRACT_SHORT_ok p k :
  bytesP p -> 0 <= k -> k + 2 <= zlen p ->
  exists v, EXTRACT_SHORT p k = Some v /\ 0 <= v < 4294967296.
Proof.
  intros. unfold EXTRACT_SHORT. get_bytes. eexists. split; [done|]. unfold be16. lia.
Qed.

(** [MINDEX] splits the packet at the mbuf that holds the byte. *)
Lemma MINDEX_spec k ms :
  0 <= k ->
  match MINDEX k ms with
  | Some (k', m, r) =>
      exists pre, ms = pre ++ m :: r /\ k = zlen (concat pre) + k' /\ 0 <= k' < zlen m
  | None => zlen (concat ms) <= k
  end.
Proof.
  revert k; induction ms as [|m ms IH]; intros k Hk; simpl; [done|].
  destruct (zlen m <=? k) eqn:?.
  - specialize (IH (k - zlen m) ltac:(lia)). destruct (MINDEX _ _) as [[[k' m'] r]|].
    + destruct IH as (pre & -> & ? & ?). exists (m :: pre). simpl.
      autorewrite with zlen. split_and!; [done|lia..].
    + autorewrite with zlen. lia.
  - exists []. simpl. split_and!; [done|unfold zlen; simpl; lia|lia..].
Qed.

Definition x_ok (o : option (Z * Z)) : Prop :=
  exists a e, o = Some (a, e) /\ 0 <= a < 4294967296.

Lemma m_xword_ok ms k err : Forall bytesP ms -> x_ok (m_xword ms k err).
Proof.
  intros Hb. unfold m_xword, x_ok. destruct (k <? 0) eqn:?; [eauto with lia|].
  pose proof (MINDEX_spec k ms ltac:(lia)) as Hm.
  destruct (MINDEX k ms) as [[[k' m] r]|]; [|eauto with lia].
  destruct Hm as (pre & -> & -> & ?). apply Forall_app in Hb as [_ [Hbm Hbr]%Forall_cons].
  destruct (4 <=? _) eqn:?.
  { destruct (EXTRACT_LONG_ok m k' Hbm) as (v & -> & ?); [lia..|]. eauto. }
  destruct r as [|m0 r]; [eauto with lia|]. apply Forall_cons in Hbr as [Hb0 _].
  destruct (_ <? 4) eqn:?; [eauto with lia|]. cbn zeta.
  destruct (_ =? 1) eqn:?; [|destruct (_ =? 2) eqn:?]; get_bytes;
    eexists _, _; (split; [done|]); unfold be32; lia.
Qed.

Lemma m_xhalf_ok ms k err : Forall bytesP ms -> x_ok (m_xhalf ms k err).
Proof.
  intros Hb. unfold m_xhalf, x_ok. destruct (k <? 0) eqn:?; [eauto with lia|].
  pose proof (MINDEX_spec k ms ltac:(lia)) as Hm.
  destruct (MINDEX k ms) as [[[k' m] r]|]; [|eauto with lia].
  destruct Hm as (pre & -> & -> & ?). apply Forall_app in Hb as [_ [Hbm Hbr]%Forall_cons].
  destruct (2 <=? _) eqn:?.
  { destruct (EXTRACT_SHORT_ok m k' Hbm) as (v & -> & ?); [lia..|]. eauto. }
  destruct r as [|m0 r]; [eauto with lia|]. apply Forall_cons in Hbr as [Hb0 _].
  destruct (_ <? 1) eqn:?; [eauto with lia|]. get_bytes.
  eexists _, _. split; [done|]. unfold be16. lia.
Qed.

(** A view of bytes shorter than 2^31, as [int] offsets can address. *)
Definition view_ok (v : pview) : Prop :=
  bytesP (pv_p v) /\ zlen (pv_p v) < 2147483648 /\
  match pv_m v with Some ms => Forall bytesP ms | None => True end.

Definition ld_ok (l : ld) : Prop :=
  match l with LdOk a _ => 0 <= a < 4294967296 | LdRet0 => True | LdCrash => False end.

Lemma ld_of_x_ok o : x_ok o -> ld_ok (ld_of_x o).
Proof. intros (a & e & -> & ?). unfold ld_of_x. by destruct (e =? 0). Qed.

Section loads.
Context (v : pview) (Hv : view_ok v) (merr k : Z) (Hk : -2147483648 <= k < 2147483648).

Lemma ld_word_ok : ld_ok (ld_word v merr k).
Proof using Hv Hk.
  destruct Hv as (Hb & Hl & Hm). unfold ld_word. destruct (_ || _) eqn:Hc.
  - destruct (pv_m v); [|done]. by apply ld_of_x_ok, m_xword_ok.
  - rewrite u32_small in Hc by lia.
    destruct (EXTRACT_LONG_ok (pv_p v) k Hb) as (x & -> & ?); [lia..|done].
Qed.
Lemma ld_half_ok : ld_ok (ld_half v merr k).
Proof using Hv Hk.
  destruct Hv as (Hb & Hl & Hm). unfold ld_half. destruct (_ || _) eqn:Hc.
  - destruct (pv_m v); [|done]. by apply ld_of_x_ok, m_xhalf_ok.
  - rewrite u32_small in Hc by lia.
    destruct (EXTRACT_SHORT_ok (pv_p v) k Hb) as (x & -> & ?); [lia..|done].
Qed.
Lemma ld_byte_ok : ld_ok (ld_byte v merr k).
Proof using Hv Hk.
  destruct Hv as (Hb & Hl & Hm). unfold ld_byte. destruct (_ <=? _) eqn:Hc.
  - destruct (pv_m v) as [ms|]; [|done]. destruct (k <? 0) eqn:?; [done|].
    pose proof (MINDEX_spec k ms ltac:(lia)) as Hs.
    destruct (MINDEX k ms) as [[[k' m] r]|]; [|done].
    destruct Hs as (pre & -> & _ & ?). apply Forall_app in Hm as [_ [Hbm _]%Forall_cons].
    destruct (zget_is_Some m k') as [x Hx]; [lia|].
    rewrite Hx. apply (zget_byte _ _ _ Hbm) in Hx. simpl. lia.
  - assert (0 <= k) by (unfold u32 in Hc; Z.div_mod_to_equations; lia).
    rewrite u32_small in Hc by lia.
    destruct (zget_is_Some (pv_p v) k) as [x Hx]; [lia|].
    rewrite Hx. apply (zget_byte _ _ _ Hb) in Hx. simpl. lia.
Qed.
End loads.

Lemma msh_ok l : ld_ok l -> ld_ok (msh l).
Proof.
  destruct l as [a e| |]; simpl; try done. intros ?.
  change 15 with (Z.ones 4). rewrite (Z.land_ones a 4), Z.shiftl_mul_pow2 by lia.
  change (2 ^ 4) with 16. change (2 ^ 2) with 4. Z.div_mod_to_equations; lia.
Qed.

(** * Validated programs *)

Definition bst_ok (s : bst) : Prop :=
  0 <= b_A s < 4294967296 /\ 0 <= b_X s < 4294967296 /\ zlen (b_mem s) = BPF_MEMWORDS.

(** What one instruction may do: return a 32-bit value, or go on at an
    instruction of the program that comes later. *)
Definition progress (len i : Z) (r : res) : Prop :=
  match r with
  | Ret x => 0 <= x < 4294967296
  | Next s => bst_ok s /\ i < b_pc s < len
  | Crash => False
  end.

Section exec.
Context (wirelen : Z) (v : pview) (Hv : view_ok v).
Context (len i : Z) (s : bst) (Hs : bst_ok s) (Hpc : b_pc s = i + 1).

Ltac next := unfold progress, bst_ok in *; cbn in *; intuition (auto with word; lia).

Lemma load_A_ok l : i + 1 < len -> ld_ok l -> progress len i (load_A s l).
Proof using Hs Hpc. destruct l; [next..|done]. Qed.
Lemma load_X_ok l : i + 1 < len -> ld_ok l -> progress len i (load_X s l).
Proof using Hs Hpc. destruct l; [next..|done]. Qed.
Lemma set_A_ok a : i + 1 < len -> progress len i (set_A s a).
Proof using Hs Hpc. pose proof (u32_range a). next. Qed.
Lemma set_X_ok a : i + 1 < len -> progress len i (set_X s a).
Proof using Hs Hpc. pose proof (u32_range a). next. Qed.
Lemma div_A_ok a : i + 1 < len -> a <> 0 -> progress len i (div_A s a).
Proof using Hs Hpc. intros. unfold div_A. destruct (a =? 0) eqn:?; [lia|by apply set_A_ok]. Qed.
Lemma shl_A_ok n : i + 1 < len -> 0 <= n < 32 -> progress len i (shl_A s n).
Proof using Hs Hpc. intros. unfold shl_A. destruct (_ && _) eqn:?; [by apply set_A_ok|lia]. Qed.
Lemma shr_A_ok n : i + 1 < len -> 0 <= n < 32 -> progress len i (shr_A s n).
Proof using Hs Hpc. intros. unfold shr_A. destruct (_ && _) eqn:?; [by apply set_A_ok|lia]. Qed.
Lemma set_mem_ok k x : i + 1 < len -> 0 <= k < BPF_MEMWORDS -> progress len i (set_mem s k x).
Proof using Hs Hpc.
  intros. unfold set_mem. destruct Hs as (? & ? & Hm). rewrite Hm.
  destruct (_ && _) eqn:?; [|lia]. unfold progress, bst_ok. cbn. rewrite zlen_zset. intuition lia.
Qed.
Lemma jump_ok off : 0 <= off -> i + 1 + off < len -> progress len i (jump s off).
Proof using Hs Hpc. next. Qed.
Lemma mem_ok (f : Z -> res) k :
  0 <= k < BPF_MEMWORDS -> (forall x, progress len i (f x)) ->
  progress len i (match zget (b_mem s) k with Some x => f x | None => Crash end).
Proof using Hs.
  intros ? Hf. destruct Hs as (_ & _ & Hm).
  destruct (zget_is_Some (b_mem s) k) as [x ->]; [lia|]. apply Hf.
Qed.

Hint Resolve load_A_ok load_X_ok set_A_ok set_X_ok div_A_ok shl_A_ok shr_A_ok set_mem_ok
  jump_ok ld_word_ok ld_half_ok ld_byte_ok msh_ok s32_range : core.

(** Decide the comparisons of constants in [H]. *)
Ltac eval_eqb H :=
  cbn [code jt jf ik] in H;
  repeat match type of H with
  | context [?a =? ?b] =>
      let r := eval vm_compute in (a =? b) in
      match r with true => idtac | false => idtac end;
      change (a =? b) with r in H
  end;
  cbn [orb andb negb] in H.

Lemma exec_progress p :
  insn_ok p -> bpf_valid_insn len i p = true ->
  (i + 1 < len \/ BPF_CLASS (code p) = BPF_RET) ->
  progress len i (exec wirelen v p s).
Proof using Hs Hpc Hv.
  intros (Hc & Hjt & Hjf & Hk) Hvalid Hlast. unfold byteP in *.
  pose proof Hs as (HA & HX & _). destruct p as [c t f k]. cbn [code jt jf ik] in *.
  pose proof (u32_range k).
  unfold exec. cbn [code jt jf ik].
  repeat match goal with
  | |- context [if c =? ?l then _ else _] =>
      destruct (Z.eqb_spec c l) as [->|_];
        [unfold bpf_valid_insn, BPF_MEMWORDS in Hvalid; eval_eqb Hvalid;
         try (assert (i + 1 < len)
                by (destruct Hlast as [|Hl]; [done|vm_compute in Hl; discriminate]))|]
  end;
  first
  [ by auto
  | apply mem_ok; [unfold BPF_MEMWORDS; lia|by auto]
  | apply set_mem_ok; unfold BPF_MEMWORDS; lia
  | apply jump_ok; repeat case_match; lia
  | apply div_A_ok; [done|word_solve]
  | apply shl_A_ok; lia | apply shr_A_ok; lia
  | destruct (b_X s =? 0) eqn:?; [simpl; lia|apply div_A_ok; lia]
  | destruct (32 <=? b_X s) eqn:?; [simpl; lia|(apply shl_A_ok || apply shr_A_ok); lia]
  | simpl; lia ].
Qed.
End exec.

Lemma valid_from_lookup len f i j p :
  bpf_valid_from len i f = true -> zget f j = Some p -> bpf_valid_insn len (i + j) p = true.
Proof.
  revert i j; induction f as [|q f IH]; intros i j; simpl.
  { intros _ Hj%zget_Some. unfold zlen in Hj. simpl in Hj. lia. }
  intros [Hq Hf]%andb_true_iff Hj. pose proof (zget_Some _ _ _ Hj).
  destruct (decide (j = 0)) as [->|].
  - injection Hj as <-. by rewrite Z.add_0_r.
  - replace (i + j) with (i + 1 + (j - 1)) by lia. apply IH; [done|].
    rewrite <- Hj. symmetry. change (q :: f) with ([q] ++ f).
    rewrite zget_app_r; [done|]. unfold zlen. simpl. lia.
Qed.

Lemma last_zget {A} (l : list A) x : last l = Some x -> zget l (zlen l - 1) = Some x.
Proof.
  rewrite last_lookup. intros H. unfold zget, zlen. destruct l as [|y l]; [done|].
  destruct (_ <? 0) eqn:E; [simpl in E; lia|]. rewrite <- H. f_equal. simpl. lia.
Qed.

(** ** Safety of a validated program *)

Section validated.
Context (f : list bpf_insn) (Hf : Forall insn_ok f) (Hvalid : bpf_validate (Some f) = true).

Lemma validated_insn i p :
  zget f i = Some p ->
  insn_ok p /\ bpf_valid_insn (zlen f) i p = true /\
  (i + 1 < zlen f \/ BPF_CLASS (code p) = BPF_RET).
Proof using Hf Hvalid.
  intros Hi. unfold bpf_validate in Hvalid. destruct (_ || _) eqn:?; [done|].
  apply andb_true_iff in Hvalid as [Hfrom Hlast].
  pose proof (zget_Some _ _ _ Hi). split_and!.
  - unfold zget in Hi. destruct (i <? 0); [done|]. by eapply (proj1 (Forall_lookup _ _) Hf).
  - exact (valid_from_lookup _ _ 0 i p Hfrom Hi).
  - destruct (decide (i = zlen f - 1)) as [->|]; [right|left; lia].
    destruct (last f) as [q|] eqn:Hq; [|done]. apply last_zget in Hq. simplify_eq. lia.
Qed.

Lemma step_progress wirelen v s :
  view_ok v -> bst_ok s -> 0 <= b_pc s < zlen f ->
  progress (zlen f) (b_pc s) (bpf_step wirelen v f s).
Proof using Hf Hvalid.
  intros Hv Hs Hpc. unfold bpf_step. destruct (zget_is_Some f (b_pc s) Hpc) as [p Hp].
  rewrite Hp. destruct (validated_insn _ _ Hp) as (?&?&?). by apply exec_progress.
Qed.

Lemma run_progress wirelen v fuel s :
  view_ok v -> bst_ok s -> 0 <= b_pc s < zlen f -> zlen f - b_pc s <= Z.of_nat fuel ->
  exists r, bpf_run wirelen v fuel f s = Some (Ret r) /\ 0 <= r < 4294967296.
Proof using Hf Hvalid.
  intros Hv. revert s; induction fuel as [|fuel IH]; intros s Hs Hpc Hfuel; [lia|].
  simpl. pose proof (step_progress wirelen v s Hv Hs Hpc) as Hp.
  destruct (bpf_step _ _ _ _) as [r|s'|]; simpl in Hp; [by exists r| |done].
  destruct Hp as [? ?]. apply IH; [done|lia..].
Qed.
End validated.

(** * A chain against its bytes in one buffer *)

(** No word straddles more than two mbufs. *)
Fixpoint mids_ok (r : list (list Z)) : Prop :=
  match r with
  | [] | [_] => True
  | m :: r => 3 <= zlen m /\ mids_ok r
  end.
Definition chain_ok (ms : list (list Z)) : Prop := mids_ok (tail ms).

Lemma mids_ok_suffix pre r : mids_ok (pre ++ r) -> mids_ok r.
Proof.
  induction pre as [|m pre IH]; [done|]. simpl.
  destruct (pre ++ r) as [|x q] eqn:E; [|by intros [_ ?]; apply IH].
  apply app_eq_nil in E as [-> ->]. done.
Qed.

Lemma chain_ok_suffix pre m r : chain_ok (pre ++ m :: r) -> mids_ok r.
Proof.
  unfold chain_ok. destruct pre as [|x pre]; simpl; [done|].
  intros H%mids_ok_suffix. destruct r; [done|by destruct H].
Qed.

(** What [MINDEX] says about reading through the concatenation. *)
Lemma MINDEX_read (pre r : list (list Z)) m k' j :
  0 <= k' < zlen m -> 0 <= j -> k' + j < zlen m ->
  zget (concat (pre ++ m :: r)) (zlen (concat pre) + k' + j) = zget m (k' + j).
Proof.
  intros. rewrite concat_app, zget_app_r by lia. simpl.
  rewrite zget_app_l by lia. f_equal. lia.
Qed.
Lemma MINDEX_read_next (pre r : list (list Z)) m m0 k' j :
  zlen m <= k' + j < zlen m + zlen m0 ->
  zget (concat (pre ++ m :: m0 :: r)) (zlen (concat pre) + k' + j) = zget m0 (k' + j - zlen m).
Proof.
  intros. pose proof (zlen_nonneg m). rewrite concat_app, zget_app_r by lia. simpl.
  rewrite zget_app_r by lia. rewrite zget_app_l by lia. f_equal. lia.
Qed.

Lemma EXTRACT_LONG_Some l k v :
  EXTRACT_LONG l k = Some v -> 0 <= k /\ k + 4 <= zlen l.
Proof.
  unfold EXTRACT_LONG. destruct (zget l k) eqn:E1; [|done].
  destruct (zget l (k + 1)); [|done]. destruct (zget l (k + 2)); [|done].
  cbn. destruct (zget l (k + 3)) eqn:E2; [|done].
  apply zget_Some in E1, E2. lia.
Qed.
Lemma EXTRACT_SHORT_Some l k v :
  EXTRACT_SHORT l k = Some v -> 0 <= k /\ k + 2 <= zlen l.
Proof.
  unfold EXTRACT_SHORT. destruct (zget l k) eqn:E1; [|done].
  cbn. destruct (zget l (k + 1)) eqn:E2; [|done].
  apply zget_Some in E1, E2. lia.
Qed.

(** [read pre m r k' j]: the byte of the packet at [k' + j] past [pre] is found in
    [m], or in the mbuf after it. *)
Ltac read_bytes :=
  repeat match goal with
  | |- context [@zget Z (concat (?pre ++ ?m :: ?r)) (zlen (concat ?pre) + ?k + ?j)] =>
      first [ rewrite (MINDEX_read pre r m k j) by lia
            | match r with ?m0 :: ?r' =>
                rewrite (MINDEX_read_next pre r' m m0 k j) by lia end ]
  end.

Lemma m_xword_flat ms k err v :
  chain_ok ms -> EXTRACT_LONG (concat ms) k = Some v -> m_xword ms k err = Some (v, 0).
Proof.
  intros Hms He. pose proof (EXTRACT_LONG_Some _ _ _ He) as [H0 H4].
  unfold m_xword. destruct (k <? 0) eqn:?; [lia|].
  pose proof (MINDEX_spec k ms H0) as Hm.
  destruct (MINDEX k ms) as [[[k' m] r]|]; [|lia].
  destruct Hm as (pre & -> & -> & ?). revert He. unfold EXTRACT_LONG.
  rewrite <- (Z.add_0_r (zlen (concat pre) + k')) at 1.
  rewrite concat_app, zlen_app in H4. simpl in H4. rewrite zlen_app in H4.
  destruct (4 <=? _) eqn:?.
  { read_bytes. by rewrite Z.add_0_r; intros ->. }
  destruct r as [|m0 r]; [unfold zlen in *; simpl in *; lia|].
  assert (4 - (zlen m - k') <= zlen m0).
  { apply chain_ok_suffix in Hms. destruct r; [|destruct Hms; lia].
    simpl in H4. rewrite app_nil_r in H4. lia. }
  destruct (_ <? 4) eqn:?; [lia|]. read_bytes. cbn zeta.
  destruct (_ =? 1) eqn:?; [|destruct (_ =? 2) eqn:?]; read_bytes; rewrite ?Z.add_0_r;
    repeat match goal with |- context [@zget Z m0 (?x - zlen m)] =>
      first [ replace (x - zlen m) with 0 by lia | replace (x - zlen m) with 1 by lia
            | replace (x - zlen m) with 2 by lia ] end; by intros ->.
Qed.

Lemma m_xhalf_flat ms k err v :
  chain_ok ms -> EXTRACT_SHORT (concat ms) k = Some v -> m_xhalf ms k err = Some (v, 0).
Proof.
  intros Hms He. pose proof (EXTRACT_SHORT_Some _ _ _ He) as [H0 H4].
  unfold m_xhalf. destruct (k <? 0) eqn:?; [lia|].
  pose proof (MINDEX_spec k ms H0) as Hm.
  destruct (MINDEX k ms) as [[[k' m] r]|]; [|lia].
  destruct Hm as (pre & -> & -> & ?). revert He. unfold EXTRACT_SHORT.
  rewrite <- (Z.add_0_r (zlen (concat pre) + k')) at 1.
  rewrite concat_app, zlen_app in H4. simpl in H4. rewrite zlen_app in H4.
  destruct (2 <=? _) eqn:?.
  { read_bytes. by rewrite Z.add_0_r; intros ->. }
  destruct r as [|m0 r]; [unfold zlen in *; simpl in *; lia|].
  assert (1 <= zlen m0).
  { apply chain_ok_suffix in Hms. destruct r; [|destruct Hms; lia].
    simpl in H4. rewrite app_nil_r in H4. lia. }
  destruct (_ <? 1) eqn:?; [lia|]. read_bytes. rewrite ?Z.add_0_r.
  replace (k' + 1 - zlen m) with 0 by lia.
  destruct (zget m k'); [|done]. simpl. destruct (zget m0 0); [|done]. simpl. by intros [= ->].
Qed.

(** * Loads *)

(** The offset and the size of the load an instruction makes. *)
Definition load_span (i : bpf_insn) (s : bst) : option (Z * Z) :=
  let c := code i in
  let k := ik i in
  let ind := s32 (b_X s + k) in
  if c =? BPF_LD ∥ BPF_W ∥ BPF_ABS then Some (k, 4)
  else if c =? BPF_LD ∥ BPF_H ∥ BPF_ABS then Some (k, 2)
  else if c =? BPF_LD ∥ BPF_B ∥ BPF_ABS then Some (k, 1)
  else if c =? BPF_LD ∥ BPF_W ∥ BPF_IND then Some (ind, 4)
  else if c =? BPF_LD ∥ BPF_H ∥ BPF_IND then Some (ind, 2)
  else if c =? BPF_LD ∥ BPF_B ∥ BPF_IND then Some (ind, 1)
  else if c =? BPF_LDX ∥ BPF_MSH ∥ BPF_B then Some (k, 1)
  else None.

Definition load_in (len : Z) (i : bpf_insn) (s : bst) : bool :=
  match load_span i s with
  | Some (off, n) => (0 <=? off) && (off + n <=? len)
  | None => true
  end.

(** Every load of the run on the bytes [p] is in range. *)
Fixpoint loads_in (p : list Z) (wirelen : Z) (fuel : nat) (f : list bpf_insn) (s : bst) : bool :=
  match fuel with
  | O => true
  | S fuel =>
      match zget f (b_pc s) with
      | None => true
      | Some i =>
          let s := s <| b_pc ::= b_pc s + 1 |> in
          load_in (zlen p) i s &&
          match exec wirelen (mk_pview p None) i s with
          | Next s => loads_in p wirelen fuel f s
          | _ => true
          end
      end
  end.

Section sim.
Context (m : list Z) (ms : list (list Z)).
Context (Hms : chain_ok (m :: ms)) (Hlen : zlen (concat (m :: ms)) < 2147483648).

Definition flat_view : pview := mk_pview (concat (m :: ms)) None.
Definition chain_view : pview := mk_pview m (Some (m :: ms)).

(** A load that succeeds on the flat packet succeeds on the chain, with the same
    value. *)
Definition ld_sim (flat chain : ld) : Prop :=
  match flat with LdOk a _ => exists e, chain = LdOk a e | _ => True end.

Lemma zlen_first : zlen m <= zlen (concat (m :: ms)).
Proof. simpl. rewrite zlen_app. pose proof (zlen_nonneg (concat ms)). lia. Qed.

Ltac first_mbuf :=
  simpl; rewrite !zget_app_l by lia.

Lemma ld_word_sim e e' k : ld_sim (ld_word flat_view e k) (ld_word chain_view e' k).
Proof using Hms Hlen.
  pose proof zlen_first. unfold ld_word, flat_view, chain_view. cbn [pv_p pv_m].
  destruct (_ || _); [done|].
  destruct (EXTRACT_LONG (concat (m :: ms)) k) as [v|] eqn:He; [|done].
  pose proof (EXTRACT_LONG_Some _ _ _ He). rewrite u32_small by lia. simpl ld_of_option.
  destruct (_ || _) eqn:?.
  - rewrite (m_xword_flat _ _ _ _ Hms He). by exists 0.
  - revert He. unfold EXTRACT_LONG. first_mbuf. intros ->. by exists e'.
Qed.
Lemma ld_half_sim e e' k : ld_sim (ld_half flat_view e k) (ld_half chain_view e' k).
Proof using Hms Hlen.
  pose proof zlen_first. unfold ld_half, flat_view, chain_view. cbn [pv_p pv_m].
  destruct (_ || _); [done|].
  destruct (EXTRACT_SHORT (concat (m :: ms)) k) as [v|] eqn:He; [|done].
  pose proof (EXTRACT_SHORT_Some _ _ _ He). rewrite u32_small by lia. simpl ld_of_option.
  destruct (_ || _) eqn:?.
  - rewrite (m_xhalf_flat _ _ _ _ Hms He). by exists 0.
  - revert He. unfold EXTRACT_SHORT. first_mbuf. intros ->. by exists e'.
Qed.
Lemma ld_byte_sim e e' k : ld_sim (ld_byte flat_view e k) (ld_byte chain_view e' k).
Proof using Hms Hlen.
  pose proof zlen_first. unfold ld_byte, flat_view, chain_view. cbn [pv_p pv_m].
  destruct (_ <=? _); [done|].
  destruct (zget (concat (m :: ms)) k) as [v|] eqn:He; [|done].
  pose proof (zget_Some _ _ _ He). rewrite u32_small by lia. simpl ld_of_option.
  destruct (_ <=? _) eqn:?.
  - destruct (k <? 0) eqn:?; [lia|].
    pose proof (MINDEX_spec k (m :: ms) ltac:(lia)) as Hm.
    destruct (MINDEX k (m :: ms)) as [[[k' n] r]|]; [|lia].
    destruct Hm as (pre & Hpre & -> & ?). rewrite Hpre in He.
    rewrite <- (Z.add_0_r (zlen (concat pre) + k')) in He.
    rewrite MINDEX_read, Z.add_0_r in He by lia. rewrite He. by exists e'.
  - revert He. first_mbuf. intros ->. by exists e'.
Qed.
Lemma msh_sim l l' : ld_sim l l' -> ld_sim (msh l) (msh l').
Proof. destruct l; simpl; [|done..]. intros [e ->]. by exists e. Qed.

(** The chain's run follows the flat run, up to [merr], until the flat run
    rejects. *)
Definition res_sim (flat chain : res) : Prop :=
  match flat with
  | Next s => exists e, chain = Next (s <| b_merr ::= e |>)
  | Ret r => r <> 0 -> chain = Ret r
  | Crash => True
  end.

Lemma load_A_sim s e l l' : ld_sim l l' -> res_sim (load_A s l) (load_A (s <| b_merr ::= e |>) l').
Proof. destruct l; simpl; [|done..]. intros [e' ->]. by exists e'. Qed.
Lemma load_X_sim s e l l' : ld_sim l l' -> res_sim (load_X s l) (load_X (s <| b_merr ::= e |>) l').
Proof. destruct l; simpl; [|done..]. intros [e' ->]. by exists e'. Qed.

Lemma exec_sim wirelen i s e :
  res_sim (exec wirelen flat_view i s) (exec wirelen chain_view i (s <| b_merr ::= e |>)).
Proof using Hms Hlen.
  unfold exec.
  repeat match goal with
  | |- context [if code i =? ?l then _ else _] =>
      destruct (code i =? l);
      [first [ apply load_A_sim, ld_word_sim | apply load_A_sim, ld_half_sim
             | apply load_A_sim, ld_byte_sim | apply load_X_sim, msh_sim, ld_byte_sim
             | unfold set_mem, div_A, shl_A, shr_A; cbn; repeat case_match; done || by exists e ]|]
  end.
  done.
Qed.

(** An in-range load succeeds on the flat packet. *)
Lemma ld_word_in e k : 0 <= k -> k + 4 <= zlen (pv_p flat_view) -> exists v, ld_word flat_view e k = LdOk v e.
Proof using Hlen.
  intros H0 H4. unfold ld_word. cbn [flat_view pv_p pv_m] in *. rewrite u32_small by lia.
  destruct (_ || _) eqn:?; [lia|]. unfold EXTRACT_LONG.
  destruct (zget_is_Some (concat (m :: ms)) k) as [? ->]; [lia|]. destruct (zget_is_Some (concat (m :: ms)) (k + 1)) as [? ->]; [lia|].
  destruct (zget_is_Some (concat (m :: ms)) (k + 2)) as [? ->]; [lia|]. destruct (zget_is_Some (concat (m :: ms)) (k + 3)) as [? ->]; [lia|].
  by eexists.
Qed.
Lemma ld_half_in e k : 0 <= k -> k + 2 <= zlen (pv_p flat_view) -> exists v, ld_half flat_view e k = LdOk v e.
Proof using Hlen.
  intros H0 H4. unfold ld_half. cbn [flat_view pv_p pv_m] in *. rewrite u32_small by lia.
  destruct (_ || _) eqn:?; [lia|]. unfold EXTRACT_SHORT.
  destruct (zget_is_Some (concat (m :: ms)) k) as [? ->]; [lia|]. destruct (zget_is_Some (concat (m :: ms)) (k + 1)) as [? ->]; [lia|].
  by eexists.
Qed.
Lemma ld_byte_in e k : 0 <= k -> k + 1 <= zlen (pv_p flat_view) -> exists v, ld_byte flat_view e k = LdOk v e.
Proof using Hlen.
  intros H0 H4. unfold ld_byte. cbn [flat_view pv_p pv_m] in *. rewrite u32_small by lia.
  destruct (_ <=? _) eqn:?; [lia|]. destruct (zget_is_Some (concat (m :: ms)) k) as [? ->]; [lia|]. by eexists.
Qed.

(** With the load in range the two runs agree in every case. *)
Definition res_eq (flat chain : res) : Prop :=
  match flat with
  | Next s => exists e, chain = Next (s <| b_merr ::= e |>)
  | r => chain = r
  end.

Lemma load_A_eq s e l l' v e1 : l = LdOk v e1 -> ld_sim l l' -> res_eq (load_A s l) (load_A (s <| b_merr ::= e |>) l').
Proof. intros ->. intros [e' ->]. by exists e'. Qed.
Lemma load_X_eq s e l l' v e1 : l = LdOk v e1 -> ld_sim l l' -> res_eq (load_X s l) (load_X (s <| b_merr ::= e |>) l').
Proof. intros ->. intros [e' ->]. by exists e'. Qed.

Lemma exec_eq wirelen i s e :
  load_in (zlen (concat (m :: ms))) i s = true ->
  res_eq (exec wirelen flat_view i s) (exec wirelen chain_view i (s <| b_merr ::= e |>)).
Proof using Hms Hlen.
  unfold load_in, load_span, exec.
  repeat match goal with
  | |- context [if code i =? ?l then _ else _] =>
      destruct (code i =? l);
      [intros Hin; first
        [ edestruct ld_word_in as [v Hv]; [..|eapply load_A_eq, ld_word_sim; exact Hv]; cbn [flat_view pv_p]; lia
        | edestruct ld_half_in as [v Hv]; [..|eapply load_A_eq, ld_half_sim; exact Hv]; cbn [flat_view pv_p]; lia
        | edestruct ld_byte_in as [v Hv]; [..|eapply load_A_eq, ld_byte_sim; exact Hv]; cbn [flat_view pv_p]; lia
        | edestruct ld_byte_in as [v Hv]; [..|eapply load_X_eq, msh_sim, ld_byte_sim; rewrite Hv; reflexivity]; cbn [flat_view pv_p]; lia
        | unfold set_mem, div_A, shl_A, shr_A; cbn; repeat case_match; done || by exists e ]|]
  end.
  done.
Qed.

Lemma run_eq wirelen fuel f s e :
  loads_in (concat (m :: ms)) wirelen fuel f s = true ->
  bpf_run wirelen chain_view fuel f (s <| b_merr ::= e |>) = bpf_run wirelen flat_view fuel f s.
Proof using Hms Hlen.
  revert s e; induction fuel as [|fuel IH]; intros s e; cbn [bpf_run loads_in]; [done|].
  unfold bpf_step. change (b_pc (s <| b_merr ::= e |>)) with (b_pc s).
  destruct (zget f (b_pc s)) as [i|]; [|done]. cbv zeta. intros [Hi Hn]%andb_true_iff.
  pose proof (exec_eq wirelen i (s <| b_pc ::= b_pc s + 1 |>) e Hi) as Hs.
  change (s <| b_merr ::= e |> <| b_pc ::= b_pc s + 1 |>) with (s <| b_pc ::= b_pc s + 1 |> <| b_merr ::= e |>).
  change (mk_pview (concat (m :: ms)) None) with flat_view in Hn.
  destruct (exec _ flat_view i _) as [r'|s'|]; simpl in Hs; [by rewrite Hs| |by rewrite Hs].
  destruct Hs as [e' ->]. by apply IH.
Qed.

(** A run that accepts is the chain's run too. *)
Lemma run_sim wirelen fuel f s e r :
  bpf_run wirelen flat_view fuel f s = Some (Ret r) -> r <> 0 ->
  bpf_run wirelen chain_view fuel f (s <| b_merr ::= e |>) = Some (Ret r).
Proof using Hms Hlen.
  intros H Hr. revert s e H; induction fuel as [|fuel IH]; intros s e; simpl; [done|].
  unfold bpf_step. change (b_pc (s <| b_merr ::= e |>)) with (b_pc s).
  destruct (zget f (b_pc s)) as [i|]; [|done].
  pose proof (exec_sim wirelen i (s <| b_pc ::= b_pc s + 1 |>) e) as Hs.
  change (s <| b_merr ::= e |> <| b_pc ::= b_pc s + 1 |>)
    with (s <| b_pc ::= b_pc s + 1 |> <| b_merr ::= e |>).
  destruct (exec _ flat_view i _) as [r'|s'|]; simpl in Hs; [|destruct Hs as [e' ->]; auto|done].
  intros [= ->]. by rewrite Hs.
Qed.
End sim.

(** * The properties *)

(** The packets the callers hand over. *)
Definition packet_ok (pk : packet) : Prop :=
  match pk with
  | Buf l => 0 < zlen l < 2147483648 /\ bytesP l
  | Chain ms => ms <> [] /\ Forall bytesP ms /\ Forall (fun m => zlen m < 2147483648) ms
  end.

Lemma bpf_enter_ok pk : packet_ok pk -> exists v, bpf_enter pk = Some v /\ view_ok v.
Proof.
  destruct pk as [[|x l]|[|m ms]]; simpl.
  - intros [[? _] _]. done.
  - intros [? ?]. eexists. split; [done|]. split_and!; [done|simpl; lia|done].
  - by intros [? _].
  - intros (_ & [? ?]%Forall_cons & [? _]%Forall_cons). eexists. split; [done|].
    split_and!; [done|done|]. simpl. by apply Forall_cons.
Qed.

(** C6.  A program that [bpf_validate] accepts is safe to run in the kernel:
    on every packet (one buffer or an mbuf chain of any shape), whatever the
    uninitialised scratch memory and [merr] hold, the interpreter returns a
    32-bit verdict within as many steps as the program has instructions; it never
    fetches outside the program, indexes outside [mem], reads outside the packet,
    divides by zero or shifts by 32 or more. *)
Theorem bpf_validate_safe f pk mem0 merr0 wirelen :
  Forall insn_ok f -> bpf_validate (Some f) = true -> packet_ok pk ->
  zlen mem0 = BPF_MEMWORDS ->
  exists r, bpf_filter (length f) mem0 merr0 (Some f) pk wirelen = Some (Ret r) /\
            0 <= r < 4294967296.
Proof.
  intros Hf Hvalid Hpk Hmem. destruct (bpf_enter_ok pk Hpk) as (v & Hv & Hok).
  unfold bpf_filter. rewrite Hv.
  assert (0 < zlen f) by (unfold bpf_validate in Hvalid; destruct (_ || _) eqn:?; [done|lia]).
  apply run_progress; [done..| |simpl; lia|unfold zlen; simpl; lia].
  unfold bst_ok. simpl. split_and!; done || lia.
Qed.

(** "ip proto udp": accept 68 bytes of the IPv4 frames whose protocol is 17. *)
Definition udp_prog : list bpf_insn :=
  [ mk_insn (BPF_LD ∥ BPF_H ∥ BPF_ABS) 0 0 12;
    mk_insn (BPF_JMP ∥ BPF_JEQ ∥ BPF_K) 0 3 2048;
    mk_insn (BPF_LD ∥ BPF_B ∥ BPF_ABS) 0 0 23;
    mk_insn (BPF_JMP ∥ BPF_JEQ ∥ BPF_K) 0 1 17;
    mk_insn (BPF_RET ∥ BPF_K) 0 0 68;
    mk_insn (BPF_RET ∥ BPF_K) 0 0 0 ].
Definition udp_frame : list Z :=
  [1;2;3;4;5;6; 1;2;3;4;5;6; 8;0; 69;0;0;28;0;1;0;0;64;17;0;0].

Lemma udp_prog_ok : Forall insn_ok udp_prog.
Proof. repeat constructor; vm_compute; discriminate. Defined.
Lemma udp_frame_ok : bytesP udp_frame.
Proof. repeat constructor; vm_compute; discriminate. Defined.

Lemma bpf_validate_safe_witness :
  exists r, bpf_filter 6 (replicate 16 (-1)) 7 (Some udp_prog) (Chain [udp_frame]) 60
            = Some (Ret r) /\ 0 <= r < 4294967296.
Proof.
  apply (bpf_validate_safe udp_prog (Chain [udp_frame]) (replicate 16 (-1)) 7 60).
  - exact udp_prog_ok.
  - vm_compute. reflexivity.
  - split; [discriminate|split].
    + apply Forall_cons_2; [exact udp_frame_ok|apply Forall_nil_2].
    + apply Forall_cons_2; [vm_compute; reflexivity|apply Forall_nil_2].
  - vm_compute. reflexivity.
Defined.


(** A frame cut inside its header is accepted; so cut, the same frame with another
    protocol is rejected, by a run whose loads are in range. *)
Definition tcp_frame : list Z := <[23%nat := 6]> udp_frame.

(** A word or half-word load beyond the end of a chain leaves through the
    [return 0] of [MINDEX], which does not set [*err]: when [merr] is still zero
    from an earlier load the filter goes on with [A = 0] instead of rejecting. *)
Definition overread_prog : list bpf_insn :=
  [ mk_insn (BPF_LD ∥ BPF_W ∥ BPF_ABS) 0 0 100;
    mk_insn (BPF_JMP ∥ BPF_JEQ ∥ BPF_K) 0 1 0;
    mk_insn (BPF_RET ∥ BPF_K) 0 0 68;
    mk_insn (BPF_RET ∥ BPF_K) 0 0 0 ].
Example bpf_overread_accepted :
  bpf_validate (Some overread_prog) = true /\
  bpf_filter 4 (replicate 16 0) 0 (Some overread_prog) (Chain [udp_frame]) 60 = Some (Ret 68) /\
  bpf_filter 4 (replicate 16 0) 0 (Some overread_prog) (Buf udp_frame) 60 = Some (Ret 0).
Proof. vm_compute. repeat split. Qed.
