(* ===== verification/InCksum.v ===== *)
(** The Internet checksum over an mbuf chain ([netinet/in_cksum.c]) and RFC 1071. *)
From S2P Require Import Prelude.

(** * The code *)

(** An mbuf as the routine sees it: whether its data starts at an odd address,
    and its bytes. *)
Record ckbuf := mk_ckbuf { ck_odd : bool; ck_data : list Z }.

(** [REDUCE]: [sum] is the 32-bit pattern of the [int]; the union reads its two
    halves. *)
Definition ADDCARRY (x : Z) : Z := if 65535 <? x then x - 65535 else x.
Definition REDUCE (sum : Z) : Z := ADDCARRY (sum / 65536 + sum mod 65536).

(** [sum += w[0]; ... sum += w[n-1]; w += n]; [None]: a read past the data. *)
Fixpoint add_words (n : nat) (sum : Z) (w : list Z) : option (Z * list Z) :=
  match n with
  | O => Some (sum, w)
  | S n =>
      match w with
      | a :: b :: w => add_words n (u32 (sum + be16 a b)) w
      | _ => None
      end
  end.

(** [while ((mlen -= 2 * n) >= 0) { n words }]. *)
Fixpoint while_words (fuel : nat) (n : nat) (mlen sum : Z) (w : list Z)
  : option (Z * Z * list Z) :=
  match fuel with
  | O => None
  | S fuel =>
      let mlen := mlen - 2 * Z.of_nat n in
      if 0 <=? mlen then
        '(sum, w) ← add_words n sum w; while_words fuel n mlen sum w
      else Some (mlen, sum, w)
  end.

(** The variables that live across iterations; [c0] is [s_util.c[0]]. *)
Record ckst := mk_ckst { ck_sum : Z; ck_mlen : Z; ck_len : Z; ck_c0 : Z }.

(** From "force to even boundary" to the end of the body, for [mlen] bytes at
    [w], whose address is odd when [odd]; [len] is already reduced.  [byte_swapped]
    is 0 at the top of every iteration. *)
Definition ck_span (odd : bool) (w : list Z) (mlen sum len c0 : Z) : option ckst :=
  '(swapped, sum, c0, w, mlen) ←
    (if odd && (0 <? mlen) then
       b ← head w; Some (true, u32 (REDUCE sum * 256), b, tail w, mlen - 1)
     else Some (false, sum, c0, w, mlen));
  let fuel := S (length w) in
  '(mlen, sum, w) ← while_words fuel 16 mlen sum w;
  let mlen := mlen + 32 in
  '(mlen, sum, w) ← while_words fuel 4 mlen sum w;
  let mlen := mlen + 8 in
  if (mlen =? 0) && negb swapped then Some (mk_ckst sum mlen len c0) else
  let sum := REDUCE sum in
  '(mlen, sum, w) ← while_words fuel 1 mlen sum w;
  if swapped then
    let sum := u32 (REDUCE sum * 256) in
    if mlen =? -1 then
      c1 ← head w; Some (mk_ckst (u32 (sum + be16 c0 c1)) 0 len c0)
    else Some (mk_ckst sum (-1) len c0)
  else if mlen =? -1 then b ← head w; Some (mk_ckst sum mlen len b)
  else Some (mk_ckst sum mlen len c0).

(** One iteration, for an mbuf that is not empty. *)
Definition ck_step (s : ckst) (m : ckbuf) : option ckst :=
  let '(mk_ckst sum mlen len c0) := s in
  let m_len := zlen (ck_data m) in
  if m_len =? 0 then Some s else
  '(odd, w, sum, mlen, len) ←
    (if mlen =? -1 then
       c1 ← head (ck_data m);
       Some (negb (ck_odd m), tail (ck_data m), u32 (sum + be16 c0 c1), m_len - 1, len - 1)
     else Some (ck_odd m, ck_data m, sum, m_len, len));
  let mlen := if len <? mlen then len else mlen in
  ck_span odd w mlen sum (len - mlen) c0.

Fixpoint ck_loop (s : ckst) (ms : list ckbuf) : option ckst :=
  match ms with
  | [] => Some s
  | m :: r => if ck_len s =? 0 then Some s else s ← ck_step s m; ck_loop s r
  end.

(** [c0]: what the uninitialised [s_util] holds. *)
Definition in_cksum (c0 : Z) (ms : list ckbuf) (len : Z) : option Z :=
  s ← ck_loop (mk_ckst 0 0 len c0) ms;
  let sum := if ck_mlen s =? -1 then u32 (ck_sum s + be16 (ck_c0 s) 0) else ck_sum s in
  Some (65535 - REDUCE sum mod 65536).

(** * RFC 1071 *)

(** The plain sum of the big-endian words of a byte string, an odd last byte
    padded with zero; [even] says whether the first byte is a high byte. *)
Fixpoint word_sum (even : bool) (l : list Z) : Z :=
  match l with
  | [] => 0
  | b :: r => (if even then 256 * b else b) + word_sum (negb even) r
  end.

(** The one's complement value of a sum: the representative in [1, 65535] of its
    class modulo 65535, and 0 for 0. *)
Definition fold16 (x : Z) : Z := if x =? 0 then 0 else (x - 1) mod 65535 + 1.

Definition rfc1071 (l : list Z) : Z := 65535 - fold16 (word_sum true l).

(** ** One's complement arithmetic *)

(** Same one's complement value. *)
Definition oc (x y : Z) : Prop :=
  0 <= x /\ 0 <= y /\ (x = 0 <-> y = 0) /\ x mod 65535 = y mod 65535.

#[export] Instance oc_trans : Transitive oc.
Proof. intros x y z (?&?&?&?) (?&?&?&?). unfold oc. intuition lia. Qed.
#[export] Instance oc_sym : Symmetric oc.
Proof. intros x y (?&?&?&?). unfold oc. intuition lia. Qed.

Lemma oc_refl x : 0 <= x -> oc x x.
Proof. unfold oc. tauto. Qed.
Lemma oc_fold x y : oc x y -> fold16 x = fold16 y.
Proof.
  intros (?&?&?&?). unfold fold16. destruct (x =? 0) eqn:?, (y =? 0) eqn:?; [lia..|].
  Z.div_mod_to_equations. lia.
Qed.
Lemma oc_add x y a b : oc x y -> oc a b -> oc (x + a) (y + b).
Proof.
  intros (?&?&?&Hm) (?&?&?&Hm'). unfold oc. split_and!; [lia..|].
  rewrite Z.add_mod, (Z.add_mod y) by lia. by rewrite Hm, Hm'.
Qed.
Lemma oc_mul x y k : 0 < k -> oc x y -> oc (x * k) (y * k).
Proof.
  intros ? (?&?&?&Hm). unfold oc. split_and!; [nia..|].
  rewrite Z.mul_mod, (Z.mul_mod y) by lia. by rewrite Hm.
Qed.
Lemma oc_65536 x : 0 <= x -> oc (x * 65536) x.
Proof. intros. unfold oc. split_and!; try lia. Z.div_mod_to_equations. lia. Qed.

Lemma REDUCE_oc x : 0 <= x < 4294967296 -> oc (REDUCE x) x /\ 0 <= REDUCE x <= 65535 /\ REDUCE x <= x.
Proof.
  intros. unfold REDUCE, ADDCARRY, oc.
  destruct (_ <? _) eqn:?; Z.div_mod_to_equations; lia.
Qed.
Lemma REDUCE_fold x : 0 <= x < 4294967296 -> REDUCE x = fold16 x.
Proof.
  intros. unfold REDUCE, ADDCARRY, fold16.
  destruct (_ <? _) eqn:?, (x =? 0) eqn:?; Z.div_mod_to_equations; lia.
Qed.

(** ** Sums of byte strings *)

Lemma word_sum_nonneg e l : bytesP l -> 0 <= word_sum e l.
Proof.
  intros H; revert e; induction H as [|b r Hb _ IH]; intros e; simpl; [done|].
  unfold byteP in Hb. specialize (IH (negb e)). case_match; lia.
Qed.
Lemma word_sum_app e l k :
  word_sum e (l ++ k) = word_sum e l + word_sum (if Z.even (zlen l) then e else negb e) k.
Proof.
  revert e; induction l as [|b r IH]; intros e; cbn [app word_sum]; [done|].
  rewrite IH, zlen_cons. replace (1 + zlen r) with (Z.succ (zlen r)) by lia.
  rewrite Z.even_succ, <- Z.negb_even.
  destruct (Z.even (zlen r)); simpl; [|rewrite negb_involutive]; lia.
Qed.
Lemma word_sum_shift l : bytesP l -> oc (word_sum false l) (word_sum true l * 256).
Proof.
  enough (G : forall l, bytesP l -> oc (word_sum false l) (word_sum true l * 256) /\
                                    oc (word_sum true l) (word_sum false l * 256))
    by (intros; by apply G).
  clear l. induction 1 as [|b r Hb Hr [IH1 IH2]]; simpl; [by split; apply oc_refl|].
  unfold byteP in Hb. split; rewrite Z.mul_add_distr_r; apply oc_add; try done.
  - replace (256 * b * 256) with (b * 65536) by lia. symmetry. apply oc_65536. lia.
  - replace (b * 256) with (256 * b) by lia. apply oc_refl; lia.
Qed.
Lemma word_sum_bound l :
  bytesP l -> 2 * word_sum true l <= 65535 * zlen l + (if Z.even (zlen l) then 0 else 65025).
Proof.
  enough (G : forall l, bytesP l ->
     2 * word_sum true l <= 65535 * zlen l + (if Z.even (zlen l) then 0 else 65025) /\
     2 * word_sum false l <= 65535 * zlen l - (if Z.even (zlen l) then 0 else 65025))
    by (intros; by apply G).
  clear l. induction 1 as [|b r Hb Hr IH]; [done|]. cbn [word_sum negb].
  unfold byteP in Hb. rewrite zlen_cons. replace (1 + zlen r) with (Z.succ (zlen r)) by lia.
  rewrite Z.even_succ, <- Z.negb_even. destruct (Z.even (zlen r)); simpl negb; lia.
Qed.

(** * The loops *)

Lemma word_sum_pair e a b l :
  word_sum e (a :: b :: l) = (if e then be16 a b else be16 b a) + word_sum e l.
Proof. unfold be16. destruct e; simpl; lia. Qed.

Lemma add_words_spec n sum w :
  bytesP w -> 2 * Z.of_nat n <= zlen w -> 0 <= sum ->
  sum + word_sum true (take (2 * n) w) < 4294967296 ->
  add_words n sum w = Some (sum + word_sum true (take (2 * n) w), drop (2 * n) w).
Proof.
  revert sum w; induction n as [|n IH]; intros sum w Hw Hlen Hs Hb.
  { simpl. f_equal. f_equal. lia. }
  replace (2 * S n)%nat with (S (S (2 * n))) in * by lia.
  destruct w as [|a [|b w]]; [unfold zlen in *; simpl in *; lia..|].
  apply Forall_cons in Hw as [Ha [Hb' Hw]%Forall_cons].
  rewrite !zlen_cons in Hlen. cbn [take drop add_words] in *.
  rewrite word_sum_pair in *. unfold byteP in *.
  pose proof (word_sum_nonneg true (take (2 * n) w) (Forall_take _ _ _ Hw)).
  assert (0 <= be16 a b) by (unfold be16; lia).
  rewrite (u32_small (sum + be16 a b)), IH by (done || lia). f_equal. f_equal. lia.
Qed.

(** The loop consumes whole blocks of [2 * n] bytes. *)
Lemma while_words_spec fuel n mlen sum w :
  (0 < n)%nat -> bytesP w -> 0 <= mlen <= zlen w -> 0 <= sum ->
  sum + word_sum true w < 4294967296 -> zlen w < Z.of_nat fuel ->
  let k := mlen - mlen mod (2 * Z.of_nat n) in
  while_words fuel n mlen sum w =
  Some (mlen - k - 2 * Z.of_nat n, sum + word_sum true (take (Z.to_nat k) w),
        drop (Z.to_nat k) w).
Proof.
  intros Hn. revert mlen sum w. induction fuel as [|fuel IH];
    intros mlen sum w Hw Hm Hs Hb Hf k; [pose proof (zlen_nonneg w); lia|].
  cbn [while_words]. set (c := 2 * Z.of_nat n) in *.
  pose proof (Z.mod_pos_bound mlen c ltac:(lia)).
  destruct (0 <=? mlen - c) eqn:?.
  - assert (Hsplit : word_sum true w =
      word_sum true (take (2 * n) w) + word_sum true (drop (2 * n) w)).
    { rewrite <- (take_drop (2 * n) w) at 1. rewrite word_sum_app.
      replace (zlen (take (2 * n) w)) with (2 * Z.of_nat n)
        by (unfold zlen in *; rewrite length_take; lia).
      by rewrite Z.even_mul. }
    pose proof (word_sum_nonneg true _ (Forall_drop _ (2 * n) _ Hw)).
    pose proof (word_sum_nonneg true _ (Forall_take _ (2 * n) _ Hw)).
    rewrite add_words_spec by (done || lia). cbn [mbind option_bind].
    assert (Hd : zlen (drop (2 * n) w) = zlen w - c)
      by (unfold zlen in *; rewrite length_drop; lia).
    assert (Hk : (mlen - c) mod c = mlen mod c).
    { replace (mlen - c) with (mlen + (-1) * c) by lia. apply Z.mod_add. lia. }
    rewrite IH by (try apply Forall_drop; done || lia). rewrite Hk.
    unfold k. set (k' := mlen - c - mlen mod c).
    assert (0 <= k').
    { unfold k'. rewrite <- Hk. pose proof (Z.mod_le (mlen - c) c). lia. }
    replace (Z.to_nat (mlen - mlen mod c)) with (2 * n + Z.to_nat k')%nat by lia.
    rewrite <- take_take_drop, word_sum_app, drop_drop.
    replace (zlen (take (2 * n) w)) with (2 * Z.of_nat n)
      by (unfold zlen in *; rewrite length_take; lia).
    rewrite Z.even_mul. cbn [Z.even orb]. f_equal. f_equal. f_equal; lia.
  - unfold k. rewrite Z.mod_small by lia. rewrite Z.sub_diag, Z.sub_0_r. simpl.
    rewrite Z.add_0_r. done.
Qed.

Lemma zlen_take_eq {A} k (l : list A) : 0 <= k <= zlen l -> zlen (take (Z.to_nat k) l) = k.
Proof. unfold zlen. intros. rewrite length_take. lia. Qed.
Lemma zlen_drop_eq {A} k (l : list A) :
  0 <= k <= zlen l -> zlen (drop (Z.to_nat k) l) = zlen l - k.
Proof. unfold zlen. intros. rewrite length_drop. lia. Qed.

(** Cutting at an even offset. *)
Lemma word_sum_cut k j w :
  0 <= k <= zlen w -> Z.even k = true -> 0 <= j ->
  word_sum true (take (Z.to_nat (k + j)) w) =
  word_sum true (take (Z.to_nat k) w)
  + word_sum true (take (Z.to_nat j) (drop (Z.to_nat k) w)).
Proof.
  intros ? He ?. rewrite Z2Nat.inj_add by lia.
  by rewrite <- take_take_drop, word_sum_app, zlen_take_eq, He by lia.
Qed.
Lemma word_sum_take_le k w :
  bytesP w -> 0 <= k <= zlen w -> Z.even k = true ->
  word_sum true w = word_sum true (take (Z.to_nat k) w) + word_sum true (drop (Z.to_nat k) w) /\
  0 <= word_sum true (take (Z.to_nat k) w) /\ 0 <= word_sum true (drop (Z.to_nat k) w).
Proof.
  intros Hw ? He. split_and!; [|apply word_sum_nonneg, Forall_take, Hw
                               |apply word_sum_nonneg, Forall_drop, Hw].
  rewrite <- (take_drop (Z.to_nat k) w) at 1.
  by rewrite word_sum_app, zlen_take_eq, He by lia.
Qed.

(** The three loops of an iteration over [mlen] bytes: what is left after the
    first two, and the one's complement value after all three. *)
Lemma span_loops fuel mlen sum w :
  bytesP w -> 0 <= mlen <= zlen w -> 0 <= sum -> sum + word_sum true w < 4294967296 ->
  zlen w < Z.of_nat fuel ->
  let q := mlen - mlen mod 8 in let e := mlen - mlen mod 2 in
  exists m1 s1 w1,
    while_words fuel 16 mlen sum w = Some (m1, s1, w1) /\
    while_words fuel 4 (m1 + 32) s1 w1 =
      Some (mlen mod 8 - 8, sum + word_sum true (take (Z.to_nat q) w), drop (Z.to_nat q) w) /\
    exists s3,
      while_words fuel 1 (mlen mod 8)
        (REDUCE (sum + word_sum true (take (Z.to_nat q) w))) (drop (Z.to_nat q) w)
      = Some (mlen mod 2 - 2, s3, drop (Z.to_nat e) w) /\
      oc s3 (sum + word_sum true (take (Z.to_nat e) w)) /\ 0 <= s3 < 400000.
Proof.
  intros Hw Hm Hs Hb Hf q e. rewrite while_words_spec by (done || lia).
  change (2 * Z.of_nat 16) with 32. set (k1 := mlen - mlen mod 32).
  assert (H1 : 0 <= k1 <= mlen /\ Z.even k1 = true /\ mlen mod 32 = mlen - k1 /\
               (mlen mod 32) mod 8 = mlen mod 8).
  { unfold k1. rewrite Z.even_sub. split_and!; Z.div_mod_to_equations; try lia.
    - rewrite Zeven_mod, Zeven_mod. Z.div_mod_to_equations. lia. }
  do 3 eexists. split; [reflexivity|].
  destruct H1 as (Hk1 & He1 & Hr1 & Hr2).
  destruct (word_sum_take_le k1 w Hw ltac:(lia) He1) as (Hsp & ? & ?).
  replace (mlen - k1 - 32 + 32) with (mlen mod 32) by lia.
  assert (Hw1 : bytesP (drop (Z.to_nat k1) w)) by by apply Forall_drop.
  pose proof (zlen_drop_eq k1 w ltac:(lia)).
  rewrite while_words_spec by (done || lia).
  change (2 * Z.of_nat 4) with 8. rewrite Hr2.
  assert (H2 : 0 <= mlen mod 32 - mlen mod 8 /\ Z.even (mlen mod 32 - mlen mod 8) = true /\
               Z.even q = true /\ 0 <= q <= mlen).
  { unfold q. rewrite <- Hr2. rewrite !Zeven_mod. Z.div_mod_to_equations. lia. }
  destruct H2 as (? & ? & Heq & ?).
  replace q with (k1 + (mlen mod 32 - mlen mod 8)) by lia.
  rewrite word_sum_cut, Z2Nat.inj_add, <- drop_drop, Z.add_assoc by (done || lia).
  split; [f_equal; f_equal; f_equal; lia|].
  rewrite <- Z.add_assoc, <- word_sum_cut, drop_drop, <- Z2Nat.inj_add by (done || lia).
  replace (k1 + (mlen mod 32 - mlen mod 8)) with q by lia.
  destruct (word_sum_take_le q w Hw ltac:(lia) Heq) as (Hsq & ? & ?).
  destruct (REDUCE_oc (sum + word_sum true (take (Z.to_nat q) w)) ltac:(lia)) as (Hoc & ? & ?).
  assert (Hw2 : bytesP (drop (Z.to_nat q) w)) by by apply Forall_drop.
  pose proof (zlen_drop_eq q w ltac:(lia)).
  pose proof (Z.mod_pos_bound mlen 8 ltac:(lia)).
  rewrite while_words_spec by (done || lia). change (2 * Z.of_nat 1) with 2.
  assert (Hthird : (mlen mod 8) mod 2 = mlen mod 2 /\ e = q + (mlen mod 8 - mlen mod 2) /\
               0 <= mlen mod 8 - mlen mod 2 <= 6)
    by (unfold q, e; Z.div_mod_to_equations; lia).
  destruct Hthird as (Hr3 & He3 & ?). rewrite Hr3.
  set (tl := take (Z.to_nat (mlen mod 8 - mlen mod 2)) (drop (Z.to_nat q) w)).
  assert (Htl : bytesP tl) by by apply Forall_take.
  assert (zlen tl <= 6) by (unfold tl, zlen in *; rewrite length_take; lia).
  pose proof (word_sum_nonneg true tl Htl). pose proof (word_sum_bound tl Htl) as Htb.
  eexists. split; [|split].
  - rewrite drop_drop, <- Z2Nat.inj_add, <- He3 by lia. f_equal. f_equal. f_equal; lia.
  - rewrite He3, word_sum_cut by (done || lia). rewrite Z.add_assoc.
    apply oc_add; [done|by apply oc_refl].
  - fold tl. destruct (Z.even (zlen tl)); lia.
Qed.

(** * The chain *)

(** After the bytes [P]: the sum so far has the one's complement value of [P],
    whose odd last byte, if any, is held back in [c0] (and then [mlen] is -1). *)
Definition ck_inv (P : list Z) (s : ckst) : Prop :=
  0 <= ck_sum s /\
  if ck_mlen s =? -1 then
    Z.even (zlen P) = false /\ byteP (ck_c0 s) /\
    oc (ck_sum s + 256 * ck_c0 s) (word_sum true P) /\
    2 * ck_sum s <= 34000000 + 65535 * (zlen P - 1)
  else
    Z.even (zlen P) = true /\ oc (ck_sum s) (word_sum true P) /\
    2 * ck_sum s <= 34000000 + 65535 * zlen P.

Lemma even_add a b : Z.even (a + b) = Bool.eqb (Z.even a) (Z.even b).
Proof. rewrite Z.even_add. by destruct (Z.even a), (Z.even b). Qed.

(** The last byte of an odd span. *)
Lemma odd_tail (mlen : Z) (w : list Z) :
  bytesP w -> 0 <= mlen <= zlen w -> mlen mod 2 = 1 ->
  exists b, head (drop (Z.to_nat (mlen - mlen mod 2)) w) = Some b /\ byteP b /\
    take (Z.to_nat mlen) w = take (Z.to_nat (mlen - mlen mod 2)) w ++ [b].
Proof.
  intros Hw Hm Hodd. rewrite Hodd.
  assert (0 < mlen) by (destruct (decide (mlen = 0)) as [->|]; [done|lia]).
  destruct (lookup_lt_is_Some_2 w (Z.to_nat (mlen - 1))) as [b Hb]; [unfold zlen in *; lia|].
  exists b. split_and!.
  - by rewrite head_lookup, lookup_drop, Nat.add_0_r.
  - by apply (proj1 (Forall_lookup _ _) Hw _ _ Hb).
  - rewrite <- take_S_r by done. f_equal. lia.
Qed.

Section span.
Context (w : list Z) (mlen sum len c0 : Z) (P : list Z).
Context (Hw : bytesP w) (Hm : 0 <= mlen <= zlen w) (Htot : zlen P + zlen w <= 65536).
Context (HPe : Z.even (zlen P) = true) (Hoc : oc sum (word_sum true P)).
Context (Hb : 2 * sum <= 34000000 + 65535 * zlen P).

Lemma span_small l : bytesP l -> zlen l <= zlen w -> sum + word_sum true l < 4294967296.
Proof using Hm Htot Hb.
  clear HPe. intros Hl ?. pose proof (word_sum_bound l Hl). pose proof (zlen_nonneg P).
  case_match; lia.
Qed.
Lemma word_sum_P t : word_sum true (P ++ t) = word_sum true P + word_sum true t.
Proof using HPe. by rewrite word_sum_app, HPe. Qed.

Lemma ck_span_even odd :
  odd && (0 <? mlen) = false ->
  exists s, ck_span odd w mlen sum len c0 = Some s /\ ck_len s = len /\
            ck_inv (P ++ take (Z.to_nat mlen) w) s.
Proof using Hw Hm Htot HPe Hoc Hb.
  intros Hodd. unfold ck_span. rewrite Hodd. cbn [mbind option_bind].
  assert (Hs : 0 <= sum) by apply Hoc. pose proof (zlen_nonneg P).
  destruct (span_loops (S (length w)) mlen sum w Hw Hm Hs (span_small w Hw (Z.le_refl _)))
    as (m1 & s1 & w1 & -> & H2 & s3 & H3 & Hoc3 & Hs3); [unfold zlen; lia|].
  cbn [mbind option_bind]. rewrite H2. cbn [mbind option_bind].
  replace (mlen mod 8 - 8 + 8) with (mlen mod 8) by lia.
  pose proof (zlen_take_eq mlen w Hm) as Hlt.
  destruct (mlen mod 8 =? 0) eqn:H8; cbn [negb andb].
  - eexists. split; [done|]. split; [done|]. unfold ck_inv. cbn [ck_sum ck_mlen].
    replace (mlen - mlen mod 8) with mlen by lia.
    pose proof (Forall_take _ (Z.to_nat mlen) _ Hw) as Ht.
    pose proof (word_sum_nonneg true _ Ht). pose proof (word_sum_bound _ Ht) as Hbt.
    assert (He : Z.even mlen = true) by (rewrite Zeven_mod; Z.div_mod_to_equations; lia).
    rewrite Hlt, He in Hbt. split; [lia|].
    destruct (mlen mod 8 =? -1) eqn:?; [lia|].
    rewrite zlen_app, even_add, Hlt, HPe, He, word_sum_P.
    split; [done|]. split; [|lia]. apply oc_add; [done|by apply oc_refl].
  - rewrite H3. cbn [mbind option_bind].
    assert (Hsum : oc s3 (word_sum true P + word_sum true (take (Z.to_nat (mlen - mlen mod 2)) w))).
    { etrans; [exact Hoc3|]. apply oc_add; [done|].
      by apply oc_refl, word_sum_nonneg, Forall_take. }
    destruct (mlen mod 2 - 2 =? -1) eqn:Hlast.
    + destruct (odd_tail mlen w Hw Hm ltac:(lia)) as (b & -> & Hbb & Ht).
      cbn [mbind option_bind]. eexists. split; [done|]. split; [done|].
      unfold ck_inv. cbn [ck_sum ck_mlen ck_c0]. rewrite Hlast, word_sum_P.
      rewrite zlen_app, Hlt, even_add, HPe.
      assert (He : Z.even mlen = false) by (rewrite Zeven_mod; lia).
      rewrite He, Ht, word_sum_app, zlen_take_eq by (Z.div_mod_to_equations; lia).
      replace (Z.even (mlen - mlen mod 2)) with true
        by (rewrite Zeven_mod; Z.div_mod_to_equations; lia).
      split; [lia|]. split; [done|]. split; [done|]. split; [|lia].
      unfold byteP in *. rewrite Z.add_assoc. apply oc_add; [done|]. simpl.
      rewrite Z.add_0_r. apply oc_refl. lia.
    + eexists. split; [done|]. split; [done|].
      unfold ck_inv. cbn [ck_sum ck_mlen]. rewrite Hlast, word_sum_P, zlen_app, Hlt, even_add, HPe.
      assert (Hz : mlen mod 2 = 0) by (Z.div_mod_to_equations; lia).
      assert (He : Z.even mlen = true) by (rewrite Zeven_mod; lia).
      rewrite He. rewrite Hz, Z.sub_0_r in Hsum.
      split; [lia|]. split; [done|]. split; [done|lia].
Qed.

Lemma ck_span_swapped odd :
  odd && (0 <? mlen) = true ->
  exists s, ck_span odd w mlen sum len c0 = Some s /\ ck_len s = len /\
            ck_inv (P ++ take (Z.to_nat mlen) w) s.
Proof using Hw Hm Htot HPe Hoc Hb.
  intros Hodd. unfold ck_span. rewrite Hodd.
  assert (Hs : 0 <= sum) by apply Hoc. pose proof (zlen_nonneg P).
  pose proof (span_small [] (Forall_nil_2 _) (zlen_nonneg w)) as Hsum0. simpl in Hsum0.
  destruct (REDUCE_oc sum ltac:(lia)) as (Hr & Hr1 & _).
  revert Hw Hm Htot. destruct w as [|b w']; intros Hw' Hm' Htot'; [unfold zlen in *; simpl in *; lia|].
  apply Forall_cons in Hw' as [Hbb Hw1]. rewrite zlen_cons in *.
  cbn [head tail mbind option_bind]. rewrite (u32_small (REDUCE sum * 256)) by lia.
  set (sum1 := REDUCE sum * 256). set (mlen1 := mlen - 1).
  pose proof (word_sum_bound w' Hw1) as Hwb.
  destruct (span_loops (S (length w')) mlen1 sum1 w' Hw1)
    as (m1 & s1 & w1 & -> & H2 & s3 & H3 & Hoc3 & Hs3);
    [lia|lia|case_match; lia|unfold zlen; lia|].
  cbn [mbind option_bind]. rewrite H2. cbn [mbind option_bind].
  replace (mlen1 mod 8 - 8 + 8) with (mlen1 mod 8) by lia.
  rewrite andb_false_r, H3. cbn [mbind option_bind].
  destruct (REDUCE_oc s3 ltac:(lia)) as (Hr3 & ? & _). rewrite (u32_small (REDUCE s3 * 256)) by lia.
  set (T := take (Z.to_nat (mlen1 - mlen1 mod 2)) w') in *.
  assert (HT : bytesP T) by by apply Forall_take.
  (* undoing the byte swap: 256 * 256 = 65536 *)
  assert (Hsum : oc (REDUCE s3 * 256) (word_sum true P + word_sum false T)).
  { etrans; [apply oc_mul; [lia|exact Hr3]|].
    etrans; [apply oc_mul; [lia|exact Hoc3]|].
    rewrite Z.mul_add_distr_r. apply oc_add; [|symmetry; by apply word_sum_shift].
    unfold sum1. replace (REDUCE sum * 256 * 256) with (REDUCE sum * 65536) by lia.
    etrans; [apply oc_65536; lia|]. by etrans. }
  assert (Htk : take (Z.to_nat mlen) (b :: w') = b :: take (Z.to_nat mlen1) w').
  { replace (Z.to_nat mlen) with (S (Z.to_nat mlen1)) by lia. done. }
  assert (Hlt : zlen (take (Z.to_nat mlen1) w') = mlen1) by (apply zlen_take_eq; lia).
  assert (HTe : Z.even (zlen T) = true).
  { unfold T. rewrite zlen_take_eq, Zeven_mod by (Z.div_mod_to_equations; lia).
    Z.div_mod_to_equations; lia. }
  unfold byteP in Hbb.
  destruct (mlen1 mod 2 - 2 =? -1) eqn:Hlast.
  - destruct (odd_tail mlen1 w' Hw1 ltac:(lia) ltac:(lia)) as (c & -> & Hc & Ht).
    fold T in Ht. unfold byteP in Hc. cbn [mbind option_bind].
    rewrite u32_small by (unfold be16; lia).
    eexists. split; [done|]. split; [done|]. unfold ck_inv. cbn [ck_sum ck_mlen].
    rewrite Htk, word_sum_P, zlen_app, zlen_cons, Hlt, even_add, HPe.
    replace (1 + mlen1) with mlen by lia.
    assert (He : Z.even mlen = true) by (rewrite Zeven_mod; Z.div_mod_to_equations; lia).
    rewrite He, Ht. cbn [word_sum negb]. rewrite word_sum_app, HTe.
    unfold be16. split; [lia|]. split; [done|]. split; [|lia].
    replace (REDUCE s3 * 256 + (b * 256 + c)) with (REDUCE s3 * 256 + (256 * b + c)) by lia.
    replace (_ + (256 * b + (_ + _))) with
      (word_sum true P + word_sum false T + (256 * b + c)) by (simpl; lia).
    apply oc_add; [done|]. apply oc_refl. lia.
  - eexists. split; [done|]. split; [done|]. unfold ck_inv. cbn [ck_sum ck_mlen ck_c0].
    rewrite Htk, word_sum_P, zlen_app, zlen_cons, Hlt, even_add, HPe.
    replace (1 + mlen1) with mlen by lia.
    assert (Hz : mlen1 mod 2 = 0) by (Z.div_mod_to_equations; lia).
    assert (He : Z.even mlen = false) by (rewrite Zeven_mod; Z.div_mod_to_equations; lia).
    unfold T in Hsum. rewrite Hz, Z.sub_0_r in Hsum.
    rewrite He. cbn [word_sum negb]. split; [lia|]. split; [done|]. split; [done|]. split; [|lia].
    replace (word_sum true P + _) with
      (word_sum true P + word_sum false (take (Z.to_nat mlen1) w') + 256 * b) by lia.
    apply oc_add; [done|]. apply oc_refl. lia.
Qed.
End span.

Lemma ck_inv_bytes (P : list Z) s : ck_inv P s -> 0 <= ck_sum s.
Proof. by intros [? _]. Qed.

(** One iteration takes the next [min len m_len] bytes. *)
Lemma ck_step_ok P s m :
  ck_inv P s -> bytesP P -> bytesP (ck_data m) -> 0 <= ck_len s ->
  zlen P + zlen (ck_data m) <= 65535 ->
  (ck_mlen s = -1 -> 0 < ck_len s) ->
  let n := Z.min (ck_len s) (zlen (ck_data m)) in
  exists s', ck_step s m = Some s' /\ ck_len s' = ck_len s - n /\
             ck_inv (P ++ take (Z.to_nat n) (ck_data m)) s'.
Proof.
  intros Hinv HP Hm Hlen Htot Hpos n. destruct s as [sum mlen len c0], m as [odd data].
  unfold ck_step. cbn [ck_sum ck_mlen ck_len ck_c0 ck_data ck_odd] in *.
  pose proof (zlen_nonneg P). pose proof (zlen_nonneg data).
  assert (Hn : n = Z.min len (zlen data)) by done. clearbody n.
  destruct (zlen data =? 0) eqn:Hz.
  { eexists. split; [done|]. cbn [ck_len]. split; [lia|]. replace (Z.to_nat n) with O by lia.
    by rewrite take_0, app_nil_r. }
  unfold ck_inv in Hinv. cbn [ck_sum ck_mlen ck_c0] in Hinv.
  destruct (mlen =? -1) eqn:Hpend.
  - destruct Hinv as (Hs & HPe & Hc0 & Hoc & Hb). specialize (Hpos ltac:(lia)).
    destruct data as [|c1 w]; [done|]. rewrite zlen_cons in *.
    apply Forall_cons in Hm as [Hc1 Hw]. unfold byteP in *.
    cbn [head tail mbind option_bind]. unfold be16. rewrite (u32_small (sum + _)) by lia.
    set (mlen' := if len - 1 <? _ then _ else _).
    assert (Hml : mlen' = n - 1) by (unfold mlen'; case_match; lia). clearbody mlen'.
    assert (Htk : P ++ take (Z.to_nat n) (c1 :: w) = (P ++ [c1]) ++ take (Z.to_nat mlen') w).
    { replace (Z.to_nat n) with (S (Z.to_nat mlen')) by lia. cbn. by rewrite <- app_assoc. }
    rewrite Htk.
    assert (HP1 : zlen (P ++ [c1]) = zlen P + 1) by (by rewrite zlen_app, zlen_cons, zlen_nil).
    assert (Hsum' : oc (sum + (c0 * 256 + c1)) (word_sum true (P ++ [c1]))).
    { rewrite word_sum_app, HPe. simpl. rewrite Z.add_0_r, Z.add_assoc.
      apply oc_add; [|apply oc_refl; lia].
      replace (c0 * 256) with (256 * c0) by lia. done. }
    assert (He1 : Z.even (zlen (P ++ [c1])) = true) by (by rewrite HP1, even_add, HPe).
    destruct (negb odd && (0 <? mlen')) eqn:Ho.
    + destruct (ck_span_swapped w mlen' (sum + (c0 * 256 + c1)) (len - 1 - mlen') c0 (P ++ [c1]))
        with (odd := negb odd) as (s' & -> & ? & ?); try done; try lia.
      exists s'. split; [done|]. split; [lia|done].
    + destruct (ck_span_even w mlen' (sum + (c0 * 256 + c1)) (len - 1 - mlen') c0 (P ++ [c1]))
        with (odd := negb odd) as (s' & -> & ? & ?); try done; try lia.
      exists s'. split; [done|]. split; [lia|done].
  - destruct Hinv as (Hs & HPe & Hoc & Hb). cbn [mbind option_bind].
    set (mlen' := if len <? _ then _ else _).
    assert (Hml : mlen' = n) by (unfold mlen'; case_match; lia). clearbody mlen'. subst mlen'.
    destruct (odd && (0 <? n)) eqn:Ho.
    + destruct (ck_span_swapped data n sum (len - n) c0 P) with (odd := odd)
        as (s' & -> & ? & ?); try done; try lia. exists s'. done.
    + destruct (ck_span_even data n sum (len - n) c0 P) with (odd := odd)
        as (s' & -> & ? & ?); try done; try lia. exists s'. done.
Qed.


(** The bytes of a chain. *)
Definition ck_bytes (ms : list ckbuf) : list Z := concat (ck_data <$> ms).

Lemma ck_bytes_cons m ms : ck_bytes (m :: ms) = ck_data m ++ ck_bytes ms.
Proof. done. Qed.

Lemma ck_loop_ok ms P s :
  ck_inv P s -> bytesP P -> bytesP (ck_bytes ms) -> 0 <= ck_len s ->
  zlen P + zlen (ck_bytes ms) <= 65535 ->
  exists s', ck_loop s ms = Some s' /\
             ck_inv (P ++ take (Z.to_nat (ck_len s)) (ck_bytes ms)) s'.
Proof.
  revert P s; induction ms as [|m r IH]; intros P s Hinv HP Hms Hlen Htot; cbn [ck_loop].
  { exists s. unfold ck_bytes. simpl. by rewrite take_nil, app_nil_r. }
  rewrite ck_bytes_cons in *. rewrite zlen_app in Htot.
  apply Forall_app in Hms as [Hm Hr].
  pose proof (zlen_nonneg (ck_data m)). pose proof (zlen_nonneg (ck_bytes r)).
  destruct (ck_len s =? 0) eqn:Hl.
  { exists s. split; [done|]. replace (ck_len s) with 0 by lia. by rewrite app_nil_r. }
  destruct (ck_step_ok P s m) as (s1 & -> & Hl1 & Hinv1); [done..|lia|lia|lia|].
  cbn [mbind option_bind]. set (n := Z.min _ _) in *.
  assert (Hn : n = Z.min (ck_len s) (zlen (ck_data m))) by done. clearbody n.
  assert (Htk : zlen (take (Z.to_nat n) (ck_data m)) = n) by (apply zlen_take_eq; lia).
  destruct (IH _ _ Hinv1) as (s2 & -> & Hinv2);
    [apply Forall_app_2; [done|by apply Forall_take]|done|lia| |].
  { rewrite zlen_app. lia. }
  exists s2. split; [done|].
  replace (take (Z.to_nat (ck_len s)) (ck_data m ++ ck_bytes r)) with
    (take (Z.to_nat n) (ck_data m) ++ take (Z.to_nat (ck_len s1)) (ck_bytes r));
    [by rewrite app_assoc|].
  rewrite take_app, Hl1, Hn. f_equal.
  - destruct (decide (ck_len s <= zlen (ck_data m))); [f_equal; lia|].
    rewrite !take_ge; unfold zlen in *; done || lia.
  - unfold zlen in *. f_equal. lia.
Qed.

Lemma in_cksum_ok c0 ms len :
  bytesP (ck_bytes ms) -> 0 <= len -> zlen (ck_bytes ms) <= 65535 ->
  in_cksum c0 ms len = Some (rfc1071 (take (Z.to_nat len) (ck_bytes ms))).
Proof.
  intros Hms Hlen Htot. unfold in_cksum.
  destruct (ck_loop_ok ms [] (mk_ckst 0 0 len c0)) as (s & -> & Hs & Hinv);
    [|constructor|done|done|done|].
  { unfold ck_inv. cbn. split; [lia|]. split; [done|]. split; [by apply oc_refl|done]. }
  cbn [mbind option_bind app ck_len] in *. set (l := take _ _) in *.
  assert (Hl : zlen l <= 65535) by (unfold l, zlen in *; rewrite length_take; lia).
  unfold rfc1071. f_equal. f_equal. destruct (ck_mlen s =? -1).
  - destruct Hinv as (_ & Hc0 & Hoc & ?). unfold byteP, be16 in *.
    rewrite u32_small by lia.
    destruct (REDUCE_oc (ck_sum s + (ck_c0 s * 256 + 0)) ltac:(lia)) as (_ & ? & _).
    rewrite Z.mod_small, REDUCE_fold by lia. apply oc_fold.
    replace (_ + (_ + 0)) with (ck_sum s + 256 * ck_c0 s) by lia. done.
  - destruct Hinv as (_ & Hoc & ?).
    destruct (REDUCE_oc (ck_sum s) ltac:(lia)) as (_ & ? & _).
    rewrite Z.mod_small, REDUCE_fold by lia. by apply oc_fold.
Qed.

(** C8.  The routine is RFC 1071: for every way of cutting the bytes into
    mbufs (empty ones included), whatever the parity of each address, the
    unrolled, byte-swapping loops never read outside an mbuf, never wrap their
    32-bit accumulator and return the complement of the one's complement sum of
    the first [len] bytes as big-endian words.  In particular the result depends
    on the bytes only. *)
Theorem in_cksum_rfc1071 c0 ms len :
  bytesP (ck_bytes ms) -> 0 <= len -> zlen (ck_bytes ms) <= 65535 ->
  in_cksum c0 ms len = Some (rfc1071 (take (Z.to_nat len) (ck_bytes ms))).
Proof. apply in_cksum_ok. Qed.

Lemma in_cksum_rfc1071_witness :
  in_cksum 77 [mk_ckbuf true [69; 0; 0]; mk_ckbuf false []; mk_ckbuf true [28; 1; 2; 3]] 6
  = Some (rfc1071 [69; 0; 0; 28; 1; 2]).
Proof.
  apply (in_cksum_rfc1071 77
    [mk_ckbuf true [69; 0; 0]; mk_ckbuf false []; mk_ckbuf true [28; 1; 2; 3]] 6).
  - repeat constructor; vm_compute; discriminate.
  - discriminate.
  - discriminate.
Defined.

Lemma fold16_range x : 0 <= x -> 0 <= fold16 x <= 65535.
Proof. intros. unfold fold16. case_match; [lia|]. Z.div_mod_to_equations. lia. Qed.

Lemma rfc1071_range l : bytesP l -> 0 <= rfc1071 l <= 65535.
Proof.
  intros Hl. unfold rfc1071. pose proof (fold16_range _ (word_sum_nonneg true _ Hl)). lia.
Qed.

(** The sum over a packet that holds its own checksum is zero. *)
Lemma rfc1071_verify pre post ck :
  bytesP (pre ++ [0; 0] ++ post) -> Z.even (zlen pre) = true ->
  rfc1071 (pre ++ [0; 0] ++ post) = ck ->
  bytesP (pre ++ [ck / 256; ck mod 256] ++ post) /\
  rfc1071 (pre ++ [ck / 256; ck mod 256] ++ post) = 0.
Proof.
  intros Hb He Hck. unfold rfc1071 in Hck.
  pose proof (word_sum_nonneg true _ Hb) as Hn. pose proof (fold16_range _ Hn) as Hf. split.
  { apply Forall_app in Hb as [? Hb]. apply Forall_app in Hb as [_ ?].
    apply Forall_app_2; [done|].
    apply Forall_cons_2; [|apply Forall_cons_2; [|done]];
      unfold byteP; Z.div_mod_to_equations; lia. }
  unfold rfc1071.
  assert (Hs : forall a b, word_sum true (pre ++ [a; b] ++ post) =
                      word_sum true pre + (256 * a + b) + word_sum true post).
  { intros. rewrite word_sum_app, He. simpl. lia. }
  rewrite Hs in *. set (x := word_sum true pre) in *. set (y := word_sum true post) in *.
  assert (Hc : 256 * (ck / 256) + ck mod 256 = ck) by (Z.div_mod_to_equations; lia).
  rewrite Hc. unfold fold16 in *.
  destruct (x + (256 * 0 + 0) + y =? 0) eqn:?, (x + ck + y =? 0) eqn:?; try lia;
    Z.div_mod_to_equations; lia.
Qed.

(** C9.  A sender that stores the checksum of a packet (computed with the
    field zero) in a 16-bit field at an even offset produces a packet on which
    the receiver's checksum, over any other cutting into mbufs, is zero. *)
Theorem in_cksum_verify c0 c0' ms ms' pre post ck :
  bytesP (pre ++ [0; 0] ++ post) -> Z.even (zlen pre) = true ->
  zlen (pre ++ [0; 0] ++ post) <= 65535 ->
  ck_bytes ms = pre ++ [0; 0] ++ post ->
  in_cksum c0 ms (zlen (ck_bytes ms)) = Some ck ->
  ck_bytes ms' = pre ++ [ck / 256; ck mod 256] ++ post ->
  in_cksum c0' ms' (zlen (ck_bytes ms')) = Some 0.
Proof.
  intros Hb He Hlen Hms Hck Hms'.
  assert (Htake : forall l : list Z, take (Z.to_nat (zlen l)) l = l)
    by (intros l; unfold zlen; rewrite Nat2Z.id; apply firstn_all).
  rewrite in_cksum_ok, Htake, Hms in Hck by (rewrite ?Hms; done || apply zlen_nonneg).
  injection Hck as Hck. destruct (rfc1071_verify pre post ck Hb He Hck) as [Hb' Hz].
  rewrite in_cksum_ok, Htake, Hms', Hz; [done|by rewrite Hms'|apply zlen_nonneg|].
  rewrite Hms', !zlen_app in *. exact Hlen.
Qed.

Lemma in_cksum_verify_witness :
  in_cksum 0 [mk_ckbuf true [69; 0; 186; 253; 0]; mk_ckbuf true [2]] 6 = Some 0.
Proof.
  apply (in_cksum_verify 0 0 [mk_ckbuf false [69; 0; 0; 0; 0; 2]]
    [mk_ckbuf true [69; 0; 186; 253; 0]; mk_ckbuf true [2]] [69; 0] [0; 2] 47869).
  - repeat constructor; vm_compute; discriminate.
  - reflexivity.
  - discriminate.
  - reflexivity.
  - vm_compute. reflexivity.
  - vm_compute. reflexivity.
Defined.
