(* ===== verification/Mbuf.v ===== *)
(** Packet buffers: the pool, chains of mbufs and the chain operations
    ([kern/uipc_mbuf.c], [sys/mbuf.h]). *)
From S2P Require Import Prelude.

(** * Data *)

Definition MSIZE : Z := 128.
Definition MLEN : Z := 108.         (* MSIZE - sizeof(struct m_hdr) *)
Definition MHLEN : Z := 96.         (* MLEN - sizeof(struct pkthdr) *)
Definition PKTHDR_SIZE : Z := 12.
Definition MINCLSIZE : Z := MHLEN + MLEN.
Definition MEMHEADER_SIZE : Z := 12.
Definition M_COPYALL : Z := 1000000000.

Definition MT_FREE : Z := 0.
Definition MTCOUNT : Z := 16.

Definition M_EXT : Z := 1.
Definition M_PKTHDR : Z := 2.
Definition M_BCAST : Z := 256.
Definition M_MCAST : Z := 512.
Definition M_CSUM_DONE : Z := 1024.
Definition M_COPYFLAGS : Z := Z.lor M_PKTHDR (Z.lor M_BCAST M_MCAST).

Record pkthdr := mk_pkthdr { ph_len : Z; rcvif : Z; csum : Z }.
#[export] Instance pkthdr_eta : Eta pkthdr := fun h => mk_pkthdr (ph_len h) (rcvif h) (csum h).

Record mext := mk_mext { ext_buf : Z; ext_size : Z }.

(** An mbuf.  [m_data] is the offset of the data in [m_dat], or in the cluster
    when [M_EXT] is set.  The links [m_next] and [m_nextpkt] are the list
    structure of the model: a chain is a list of mbufs.  The union is three
    fields; [m_pkthdr] covers the first [PKTHDR_SIZE] bytes of [m_dat]. *)
Record mbuf := mk_mbuf {
  m_addr : Z; m_len : Z; m_data : Z; m_type : Z; m_flags : Z;
  m_pkthdr : pkthdr; m_ext : mext; m_dat : list Z }.
#[export] Instance mbuf_eta : Eta mbuf := fun m =>
  mk_mbuf (m_addr m) (m_len m) (m_data m) (m_type m) (m_flags m) (m_pkthdr m) (m_ext m) (m_dat m).

Abbreviation chain := (list mbuf).

Definition has (m : mbuf) (flag : Z) : bool := negb (Z.land (m_flags m) flag =? 0).

Record mcluster := mk_mcluster { mcl_refcnt : Z; mcl_buf : list Z }.
#[export] Instance mcluster_eta : Eta mcluster := fun c => mk_mcluster (mcl_refcnt c) (mcl_buf c).

Record memHeader := mk_memHeader { mh_addr : Z; mh_size : Z; mh_ismbuf : bool }.

Record mbconf := mk_mbconf {
  initial_mbuf_chunks : Z; mbufchunk : Z; clusterchunk : Z; maxmem : Z; mclbytes : Z }.

Record mbstat := mk_mbstat {
  m_mbufs : Z; m_clusters : Z; m_clfree : Z; m_drain : Z; m_memused : Z; m_mtypes : list Z }.
#[export] Instance mbstat_eta : Eta mbstat := fun s =>
  mk_mbstat (m_mbufs s) (m_clusters s) (m_clfree s) (m_drain s) (m_memused s) (m_mtypes s).

(** The globals of [uipc_mbuf.c].  [mcls] is the memory of every cluster. *)
Record mpool := mk_mpool {
  conf : mbconf; mfree : chain; mclfree : list Z; mcls : gmap Z mcluster;
  stat : mbstat; mbufmem : list memHeader; initialized : bool;
  ng_mbufcheck : bool; ng_mbufcheck_active : bool;
  ng_mbuf_doublefree : Z; ng_mbuf_useafterfree : Z; ng_mbuf_listcorrupt : Z;
  MCFail : Z; MPFail : Z; max_protohdr : Z }.
#[export] Instance mpool_eta : Eta mpool := fun p =>
  mk_mpool (conf p) (mfree p) (mclfree p) (mcls p) (stat p) (mbufmem p) (initialized p)
    (ng_mbufcheck p) (ng_mbufcheck_active p) (ng_mbuf_doublefree p)
    (ng_mbuf_useafterfree p) (ng_mbuf_listcorrupt p) (MCFail p) (MPFail p) (max_protohdr p).

(** * The pool *)

Definition mtype_add (t d : Z) (p : mpool) : mpool :=
  p <| stat ::= stat p <| m_mtypes ::=
    match zget (m_mtypes (stat p)) t with
    | Some c => zset (m_mtypes (stat p)) t (u16 (c + d))
    | None => m_mtypes (stat p)
    end |> |>.

Definition POISON : Z := 223.       (* 0xDF *)

(** The refusal, and the pool with its counter. *)
Definition ng_mbuf_bad_free (m : mbuf) (p : mpool) : bool * mpool :=
  if m_type m =? MT_FREE
  then (true, p <| ng_mbuf_doublefree ::= u32 (ng_mbuf_doublefree p + 1) |>)
  else (false, p).

Definition ng_mbuf_poison (m : mbuf) : mbuf :=
  m <| m_type ::= MT_FREE |> <| m_dat ::= replicate (Z.to_nat MLEN) POISON |>.

Definition poisoned (m : mbuf) : bool := forallb (Z.eqb POISON) (m_dat m).

Definition ng_mbuf_alloc_check (m : mbuf) (p : mpool) : mpool :=
  if negb (m_type m =? MT_FREE)
  then p <| ng_mbuf_listcorrupt ::= u32 (ng_mbuf_listcorrupt p + 1) |>
  else if poisoned m then p
  else p <| ng_mbuf_useafterfree ::= u32 (ng_mbuf_useafterfree p + 1) |>.

(** [MCLFREE]: drop a reference, relink at zero. *)
Definition MCLFREE (a : Z) (p : mpool) : mpool :=
  match mcls p !! a with
  | None => p
  | Some c =>
      let c := c <| mcl_refcnt ::= s16 (mcl_refcnt c - 1) |> in
      let p := p <| mcls ::= <[a := c]> (mcls p) |> in
      if mcl_refcnt c =? 0 then
        p <| mclfree ::= a :: mclfree p |>
          <| stat ::= stat p <| m_clfree ::= u32 (m_clfree (stat p) + 1) |> |>
      else p
  end.

(** [MFREE]: [false] when the free was refused (no continuation). *)
Definition MFREE (m : mbuf) (p : mpool) : bool * mpool :=
  let '(bad, p) := if ng_mbufcheck_active p then ng_mbuf_bad_free m p else (false, p) in
  if bad then (false, p) else
  let p := mtype_add (m_type m) (-1) p in
  let p := if has m M_EXT then MCLFREE (ext_buf (m_ext m)) p else p in
  let m := if ng_mbufcheck_active p then ng_mbuf_poison m else m in
  (true, p <| mfree ::= m :: mfree p |>).

(** [m_free] of the head of a chain returns the rest. *)
Definition m_free (m : mbuf) (next : chain) (p : mpool) : chain * mpool :=
  let '(ok, p) := MFREE m p in (if ok then next else [], p).

Fixpoint m_freem (c : chain) (p : mpool) : mpool :=
  match c with
  | [] => p
  | m :: r => let '(ok, p) := MFREE m p in if ok then m_freem r p else p
  end.

(** Unlink the head of the free list (the body of [MGET]). *)
Definition mget_init (t : Z) (m : mbuf) : mbuf :=
  m <| m_type ::= t |> <| m_data ::= 0 |> <| m_flags ::= 0 |>.

Definition MGET_list (t : Z) (p : mpool) : option mbuf * mpool :=
  match mfree p with
  | [] => (None, p)
  | m :: r =>
      let p := p <| mfree ::= r |> in
      let p := if ng_mbufcheck_active p then ng_mbuf_alloc_check m p else p in
      (Some (mget_init t m), mtype_add t 1 p)
  end.

(** ** Growing the pool *)

Section grow.
(** [AllocMem] of the operating system: the block it returns for a size, given
    what the pool holds already; [junk], [junk_cl]: what fresh memory contains;
    [drain]: what the protocols' [pr_drain] functions, which [m_reclaim] calls, give back
    to the pool.  The protocol tables have one, [ip_drain]: for who has nothing to do with
    the reassembly queues these are mbufs that nobody holds; in [IpReass], whose code loses
    its queues to it, [ip_reclaim] drains them before the pool is asked. *)
Context (AllocMem : list memHeader -> Z -> option Z).
Context (junk : Z -> mbuf) (junk_cl : Z -> list Z) (drain : mpool -> mpool).

Definition dtom (x : Z) : Z := x - x mod MSIZE.

(** The mbufs from address [a] on, as the fill loop pushes them. *)
Fixpoint push_mbufs (n : nat) (a : Z) (free : chain) : chain :=
  match n with
  | O => free
  | S n => push_mbufs n (a + MSIZE)
             (ng_mbuf_poison (junk a <| m_addr ::= a |>) :: free)
  end.

Definition m_alloc_size (howmany : Z) : Z := MSIZE * (howmany + 1) + MEMHEADER_SIZE.

Definition m_alloc (howmany : Z) (p : mpool) : bool * mpool :=
  if (howmany <=? 0) || ((4294967295 - MEMHEADER_SIZE) / MSIZE <? u32 (howmany + 1))
  then (false, p) else
  let size := u32 (m_alloc_size howmany) in
  if u32 (maxmem (conf p) * 1024) <? u32 (m_memused (stat p) + size) then (false, p) else
  match AllocMem (mbufmem p) size with
  | None => (false, p)
  | Some mh =>
      (true,
       p <| stat ::= stat p <| m_memused ::= u32 (m_memused (stat p) + size) |>
                            <| m_mbufs ::= u32 (m_mbufs (stat p) + howmany) |> |>
         <| mbufmem ::= mk_memHeader mh size true :: mbufmem p |>
         <| mfree ::= push_mbufs (Z.to_nat howmany)
                        (dtom (mh + MEMHEADER_SIZE + MSIZE - 1)) (mfree p) |>)
  end.

Definition MCLUSTER_SIZE : Z := 4.   (* sizeof(struct mcluster) *)

Fixpoint push_clusters (n : nat) (a stride : Z) (p : mpool) : mpool :=
  match n with
  | O => p
  | S n =>
      push_clusters n (a + stride) stride
        (p <| mcls ::= <[a := mk_mcluster 0 (junk_cl a)]> (mcls p) |>
           <| mclfree ::= a :: mclfree p |>
           <| stat ::= stat p <| m_clfree ::= u32 (m_clfree (stat p) + 1) |> |>)
  end.

Definition m_clalloc (ncl : Z) (p : mpool) : bool * mpool :=
  let stride := u32 (MCLUSTER_SIZE + mclbytes (conf p)) in
  if (ncl <=? 0) || ((4294967295 - MEMHEADER_SIZE) / stride <? u32 ncl)
  then (false, p) else
  let size := u32 (ncl * stride + MEMHEADER_SIZE) in
  if u32 (maxmem (conf p) * 1024) <? u32 (m_memused (stat p) + size) then (false, p) else
  match AllocMem (mbufmem p) size with
  | None => (false, p)
  | Some mh =>
      let p := p <| stat ::= stat p <| m_memused ::= u32 (m_memused (stat p) + size) |> |>
                 <| mbufmem ::= mk_memHeader mh size false :: mbufmem p |> in
      let p := push_clusters (Z.to_nat ncl) (mh + MEMHEADER_SIZE) stride p in
      (true, p <| stat ::= stat p <| m_clusters ::= u32 (m_clusters (stat p) + ncl) |> |>)
  end.

Definition m_reclaim (p : mpool) : mpool :=
  let p := drain p in
  p <| stat ::= stat p <| m_drain ::= u32 (m_drain (stat p) + 1) |> |>.

Definition m_retry (t : Z) (p : mpool) : option mbuf * mpool :=
  let p := m_reclaim p in
  let p := match mfree p with [] => snd (m_alloc (s32 (mbufchunk (conf p))) p) | _ => p end in
  MGET_list t p.

Definition MGET (t : Z) (p : mpool) : option mbuf * mpool :=
  match mfree p with [] => m_retry t p | _ => MGET_list t p end.

Definition MGETHDR (t : Z) (p : mpool) : option mbuf * mpool :=
  let '(m, p) := MGET t p in
  ((fun m => m <| m_data ::= PKTHDR_SIZE |> <| m_flags ::= M_PKTHDR |>) <$> m, p).

Definition m_getclr (t : Z) (p : mpool) : option mbuf * mpool :=
  let '(m, p) := MGET t p in
  ((fun m => m <| m_dat ::= replicate (Z.to_nat MLEN) 0 |>) <$> m, p).

Definition MCLALLOC (p : mpool) : option Z * mpool :=
  let p := match mclfree p with
           | [] => snd (m_clalloc (s32 (clusterchunk (conf p))) p)
           | _ => p
           end in
  match mclfree p with
  | [] => (None, p)
  | a :: r =>
      let c := default (mk_mcluster 0 (junk_cl a)) (mcls p !! a) in
      (Some a,
       p <| mclfree ::= r |>
         <| stat ::= stat p <| m_clfree ::= u32 (m_clfree (stat p) - 1) |> |>
         <| mcls ::= <[a := c <| mcl_refcnt ::= 1 |>]> (mcls p) |>)
  end.

Definition MCLGET (m : mbuf) (p : mpool) : mbuf * mpool :=
  let '(c, p) := MCLALLOC p in
  match c with
  | None => (m <| m_ext ::= mk_mext 0 (ext_size (m_ext m)) |>, p)
  | Some a =>
      (m <| m_data ::= 0 |> <| m_flags ::= Z.lor (m_flags m) M_EXT |>
         <| m_ext ::= mk_mext a (mclbytes (conf p)) |>, p)
  end.

(** ** Start-up and shut-down *)

(** [which]: the index in [mbconf] of the field [dp] points to. *)
Definition mb_check_conf (which newvalue : Z) : bool :=
  match which with
  | 0 => (0 <? newvalue) && (newvalue <=? 4096)
  | 1 => (32 <=? newvalue) && (newvalue <=? 65536)
  | 2 => (0 <? newvalue) && (newvalue <=? 65536)
  | 3 => (32 <? newvalue) && (newvalue <=? 128 * 1024)
  | 4 => (MINCLSIZE <=? newvalue) && (newvalue <=? 65536) && (Z.land newvalue 3 =? 0)
  | _ => false
  end.

Definition mbdeinit (p : mpool) : mpool :=
  p <| stat ::= stat p <| m_memused ::=
         fold_left (fun u h => u32 (u - mh_size h)) (mbufmem p) (m_memused (stat p)) |> |>
    <| mbufmem ::= [] |> <| initialized ::= false |>.

Definition mbinit (p : mpool) : bool * mpool :=
  if initialized p then (true, p) else
  let p := p <| ng_mbufcheck_active ::= ng_mbufcheck p |>
             <| ng_mbuf_doublefree ::= 0 |> <| ng_mbuf_useafterfree ::= 0 |>
             <| ng_mbuf_listcorrupt ::= 0 |> <| mfree ::= [] |> <| mclfree ::= [] |> in
  let '(ok, p) := m_alloc (s32 (u32 (initial_mbuf_chunks (conf p) * mbufchunk (conf p)))) p in
  let '(ok, p) := if ok then m_clalloc (s32 (clusterchunk (conf p))) p else (false, p) in
  let p := p <| initialized ::= ok |> in
  (ok, if ok then p else mbdeinit p).
End grow.

(** [m_valid]: is the address an mbuf slot of some mbuf chunk? *)
Definition m_valid (a : Z) (p : mpool) : bool :=
  negb (a =? 0) && (Z.land a (MSIZE - 1) =? 0) &&
  existsb (fun mh => mh_ismbuf mh && (mh_addr mh + MEMHEADER_SIZE <=? a) &&
                     (a + MSIZE <=? mh_addr mh + mh_size mh)) (mbufmem p).

(** * Chains *)

(** The storage an mbuf's data lives in, and the data. *)
Definition storage (p : mpool) (m : mbuf) : list Z :=
  if has m M_EXT then
    match mcls p !! ext_buf (m_ext m) with Some c => mcl_buf c | None => [] end
  else m_dat m.

Definition mbuf_bytes (p : mpool) (m : mbuf) : list Z :=
  zslice (storage p m) (m_data m) (m_len m).

Definition bytes (p : mpool) (c : chain) : list Z := concat (mbuf_bytes p <$> c).

(** [bcopy(mtod(m) + off, ..., n)]: read; and [bcopy(..., mtod(m) + off, n)] into
    the internal area: write. *)
Definition m_read (p : mpool) (m : mbuf) (off n : Z) : option (list Z) :=
  blob (storage p m) (m_data m + off) n.
Definition m_write (m : mbuf) (off : Z) (src : list Z) : option mbuf :=
  d ← blit (m_dat m) (m_data m + off) src; Some (m <| m_dat ::= d |>).

Definition M_COPY_PKTHDR (to from : mbuf) : mbuf :=
  to <| m_pkthdr ::= m_pkthdr from |>
     <| m_flags ::= Z.land (m_flags from) M_COPYFLAGS |>
     <| m_data ::= PKTHDR_SIZE |>.

(** [x &~ (sizeof(long) - 1)]. *)
Definition align4 (x : Z) : Z := x - x mod 4.
Definition MH_ALIGN (m : mbuf) (len : Z) : mbuf :=
  m <| m_data ::= m_data m + align4 (MHLEN - len) |>.

Definition clear_flags (m : mbuf) (f : Z) : mbuf :=
  m <| m_flags ::= Z.land (m_flags m) (Z.lnot f) |>.

Definition M_LEADINGSPACE (m : mbuf) : Z :=
  if has m M_EXT then 0
  else if has m M_PKTHDR then m_data m - PKTHDR_SIZE else m_data m.

Section ops.
(** [MGET]: the allocator of the pool ([None] is [NULL]). *)
Context (mget : Z -> mpool -> option mbuf * mpool).

Definition m_prepend (c : chain) (len : Z) (p : mpool) : chain * mpool :=
  match c with
  | [] => ([], p)
  | m :: r =>
      if (len <? 0) || (MHLEN <? len) then ([], m_freem c p) else
      let '(mn, p) := mget (m_type m) p in
      match mn with
      | None => ([], m_freem c p)
      | Some mn =>
          let '(mn, m) :=
            if has m M_PKTHDR then (M_COPY_PKTHDR mn m, clear_flags m M_PKTHDR) else (mn, m) in
          let mn := if len <? MHLEN then MH_ALIGN mn len else mn in
          (mn <| m_len ::= len |> :: m :: r, p)
      end
  end.

Definition M_PREPEND (c : chain) (plen : Z) (p : mpool) : chain * mpool :=
  let '(c, p) :=
    match c with
    | m :: r =>
        if plen <=? M_LEADINGSPACE m
        then (m <| m_data ::= m_data m - plen |> <| m_len ::= m_len m + plen |> :: r, p)
        else m_prepend c plen p
    | [] => m_prepend c plen p
    end in
  match c with
  | m :: r =>
      ((if has m M_PKTHDR
        then m <| m_pkthdr ::= m_pkthdr m <| ph_len ::= ph_len (m_pkthdr m) + plen |> |>
        else m) :: r, p)
  | [] => ([], p)
  end.

(** [while (off > 0)] of [m_copym] and [m_copydata]; [None]: short chain. *)
Fixpoint skip (off : Z) (c : chain) : option (Z * chain) :=
  if off <=? 0 then Some (off, c) else
  match c with
  | [] => None
  | m :: r => if off <? m_len m then Some (off, c) else skip (off - m_len m) r
  end.

(** A reference to a shared cluster. *)
Definition mcl_ref (a : Z) (p : mpool) : mpool :=
  match mcls p !! a with
  | Some c => p <| mcls ::= <[a := c <| mcl_refcnt ::= s16 (mcl_refcnt c + 1) |>]> (mcls p) |>
  | None => p
  end.

(** The copy loop.  [top] is the new chain so far; [None]: a memory error;
    otherwise whether the loop completed ([false]: [goto nospace]). *)
Fixpoint copym_loop (off0 : Z) (copyhdr : bool) (len off : Z) (m : chain) (top : chain)
    (p : mpool) : option (bool * chain * mpool) :=
  if len <=? 0 then Some (true, top, p) else
  match m with
  | [] => Some (len =? M_COPYALL, top, p)
  | m :: r =>
      let '(n, p) := mget (m_type m) p in
      match n with
      | None => Some (false, top, p)
      | Some n =>
          let n :=
            if copyhdr then
              let n := M_COPY_PKTHDR n m in
              n <| m_pkthdr ::= m_pkthdr n <| ph_len ::=
                     if len =? M_COPYALL then ph_len (m_pkthdr n) - off0 else len |> |>
            else n in
          let n := n <| m_len ::= Z.min len (m_len m - off) |> in
          '(n, p) ←
            (if has m M_EXT then
               Some (n <| m_data ::= m_data m + off |> <| m_ext ::= m_ext m |>
                       <| m_flags ::= Z.lor (m_flags n) M_EXT |>,
                     mcl_ref (ext_buf (m_ext m)) p)
             else
               src ← m_read p m off (m_len n); n ← m_write n 0 src; Some (n, p));
          copym_loop off0 false (if len =? M_COPYALL then len else len - m_len n) 0 r
            (top ++ [n]) p
      end
  end.

Definition mcfail (p : mpool) : mpool := p <| MCFail ::= s32 (MCFail p + 1) |>.

(** [None]: a memory error; the empty chain is [NULL]. *)
Definition m_copym (m : chain) (off0 len : Z) (p : mpool) : option (chain * mpool) :=
  if (off0 <? 0) || (len <? 0) then Some ([], mcfail p) else
  match m with
  | [] => Some ([], mcfail p)
  | h :: _ =>
      let copyhdr := (off0 =? 0) && has h M_PKTHDR in
      match skip off0 m with
      | None => Some ([], mcfail p)
      | Some (off, m) =>
          '(ok, top, p) ← copym_loop off0 copyhdr len off m [] p;
          if ok : bool then Some (top, match top with [] => mcfail p | _ => p end)
          else Some ([], mcfail (m_freem top p))
      end
  end.

(** [None]: a memory error; otherwise the bytes written to [cp], fewer than [len]
    when the chain is short. *)
Fixpoint copydata_loop (p : mpool) (off len : Z) (m : chain) : option (list Z) :=
  if len <=? 0 then Some [] else
  match m with
  | [] => Some []
  | m :: r =>
      let count := Z.min (m_len m - off) len in
      b ← m_read p m off count;
      t ← copydata_loop p 0 (len - count) r;
      Some (b ++ t)
  end.

Definition m_copydata (p : mpool) (m : chain) (off len : Z) : option (list Z) :=
  if (off <? 0) || (len <? 0) then Some [] else
  match skip off m with
  | None => Some []
  | Some (off, m) => copydata_loop p off len m
  end.

(** The last mbuf of [m] swallows the mbufs of [n] that fit, then links the rest. *)
Fixpoint cat_loop (m : mbuf) (n : chain) (p : mpool) : option (chain * mpool) :=
  match n with
  | [] => Some ([m], p)
  | h :: r =>
      if has m M_EXT || (MLEN <=? m_data m + m_len m + m_len h) then Some (m :: n, p) else
      src ← m_read p h 0 (m_len h);
      m ← m_write m (m_len m) src;
      let m := m <| m_len ::= m_len m + m_len h |> in
      let '(n, p) := m_free h r p in
      match n with
      | [] => Some ([m], p)
      | _ => cat_loop m r p
      end
  end.

Fixpoint m_cat (m n : chain) (p : mpool) : option (chain * mpool) :=
  match m with
  | [] => None
  | [h] => cat_loop h n p
  | h :: r => '(c, p) ← m_cat r n p; Some (h :: c, p)
  end.

(** ** [m_adj] *)

Definition set_pktlen (m : mbuf) (l : Z) : mbuf :=
  m <| m_pkthdr ::= m_pkthdr m <| ph_len ::= l |> |>.

(** The chain with the head trimmed, and what is left of [len]. *)
Fixpoint adj_head (len : Z) (m : chain) : Z * chain :=
  match m with
  | [] => (len, [])
  | h :: r =>
      if len <=? 0 then (len, m)
      else if m_len h <=? len then
        let '(len, r) := adj_head (len - m_len h) r in (len, h <| m_len ::= 0 |> :: r)
      else (0, h <| m_len ::= m_len h - len |> <| m_data ::= m_data h + len |> :: r)
  end.

Definition chain_len (m : chain) : Z := fold_right (fun h n => m_len h + n) 0 m.

Definition last_len (m : chain) : Z := match last m with Some h => m_len h | None => 0 end.

(** Shorten the last mbuf, whose own packet header (if any) is adjusted. *)
Fixpoint adj_last (len : Z) (m : chain) : chain :=
  match m with
  | [] => []
  | [h] =>
      let h := h <| m_len ::= m_len h - len |> in
      [if has h M_PKTHDR then set_pktlen h (ph_len (m_pkthdr h) - len) else h]
  | h :: r => h :: adj_last len r
  end.

(** Keep [count] octets. *)
Fixpoint adj_keep (count : Z) (m : chain) : chain :=
  match m with
  | [] => []
  | h :: r =>
      if count <=? m_len h
      then h <| m_len ::= count |> :: map (fun x => x <| m_len ::= 0 |>) r
      else h :: adj_keep (count - m_len h) r
  end.

Definition m_adj (mp : chain) (req_len : Z) : chain :=
  match mp with
  | [] => []
  | h0 :: _ =>
      if 0 <=? req_len then
        let '(len, mp) := adj_head req_len mp in
        match mp with
        | m :: r =>
            (if has h0 M_PKTHDR then
               set_pktlen m (Z.max 0 (ph_len (m_pkthdr m) - (req_len - len)))
             else m) :: r
        | [] => []
        end
      else
        let len := - req_len in
        if len <=? last_len mp then adj_last len mp
        else
          let count := Z.max 0 (chain_len mp - len) in
          adj_keep count
            (match mp with
             | m :: r => (if has m M_PKTHDR then set_pktlen m count else m) :: r
             | [] => []
             end)
  end.

(** ** [m_pullup] *)

(** [min(min(max(len, max_protohdr), space), n->m_len)]: the kernel's [min] and
    [max] take unsigned arguments. *)
Definition umin (a b : Z) : Z := Z.min (u32 a) (u32 b).
Definition umax (a b : Z) : Z := Z.max (u32 a) (u32 b).

(** The [do ... while] loop; [None]: a memory error or no fuel left. *)
Fixpoint pullup_loop (fuel : nat) (m : mbuf) (n : chain) (len space : Z) (p : mpool)
  : option (mbuf * chain * Z * mpool) :=
  match fuel, n with
  | S fuel, h :: r =>
      let count := s32 (umin (umin (umax len (max_protohdr p)) space) (m_len h)) in
      src ← m_read p h 0 count;
      m ← m_write m (m_len m) src;
      let len := len - count in
      let m := m <| m_len ::= m_len m + count |> in
      let h := h <| m_len ::= m_len h - count |> in
      let space := space - count in
      let '(n, p) :=
        if negb (m_len h =? 0) then (h <| m_data ::= m_data h + count |> :: r, p)
        else m_free h r p in
      match n with
      | [] => Some (m, [], len, p)
      | _ => if 0 <? len then pullup_loop fuel m n len space p else Some (m, n, len, p)
      end
  | _, _ => None
  end.

Definition mpfail (p : mpool) : mpool := p <| MPFail ::= s32 (MPFail p + 1) |>.

Definition pullup_into (fuel : nat) (m : mbuf) (n : chain) (len : Z) (p : mpool)
  : option (chain * mpool) :=
  '(m, n, len, p) ← pullup_loop fuel m n len (MLEN - (m_data m + m_len m)) p;
  if 0 <? len then
    let '(_, p) := m_free m [] p in Some ([], mpfail (m_freem n p))
  else Some (m :: n, p).

Definition m_pullup (fuel : nat) (n : chain) (len : Z) (p : mpool) : option (chain * mpool) :=
  match n with
  | [] => None
  | h :: r =>
      if negb (has h M_EXT) && (m_data h + len <? MLEN) &&
         match r with [] => false | _ => true end
      then
        if len <=? m_len h then Some (n, p)
        else pullup_into fuel h r (len - m_len h) p
      else if MHLEN <? len then Some ([], mpfail (m_freem n p))
      else
        let '(m, p) := mget (m_type h) p in
        match m with
        | None => Some ([], mpfail (m_freem n p))
        | Some m =>
            let m := m <| m_len ::= 0 |> in
            let '(m, h) :=
              if has h M_PKTHDR
              then (M_COPY_PKTHDR m h, clear_flags h (Z.lor M_PKTHDR M_CSUM_DONE))
              else (m, h) in
            pullup_into fuel m (h :: r) len p
        end
  end.
End ops.

(** * Ownership

    Operations are specified against everything their caller holds.  [owns p H]:
    the mbufs of [H] are well formed, distinct from each other and from the free
    ones, real slots of the pool, and account for no more cluster references than
    the clusters count. *)

Definition is_ref (a : Z) (m : mbuf) : Z :=
  if has m M_EXT && (ext_buf (m_ext m) =? a) then 1 else 0.
Definition refs (H : chain) (a : Z) : Z := fold_right (fun m n => is_ref a m + n) 0 H.
Definition refcnt (p : mpool) (a : Z) : Z :=
  match mcls p !! a with Some c => mcl_refcnt c | None => 0 end.

(** The data of an mbuf lies inside its storage, and clear of the packet header. *)
Definition wf_mbuf (p : mpool) (m : mbuf) : Prop :=
  0 < m_type m < MTCOUNT /\ 0 <= m_len m /\ 0 <= m_data m /\ 0 <= m_flags m /\
  zlen (m_dat m) = MLEN /\ m_data m + m_len m <= zlen (storage p m) /\
  (has m M_PKTHDR = true -> has m M_EXT = false -> PKTHDR_SIZE <= m_data m).

Definition slots_ok (p : mpool) (H : chain) : Prop :=
  NoDup (map m_addr (mfree p ++ H)) /\
  Forall (fun m => m_valid (m_addr m) p = true) (mfree p ++ H).

Record owns (p : mpool) (H : chain) : Prop := {
  owns_slots : slots_ok p H;
  owns_wf : Forall (wf_mbuf p) H;
  owns_free : Forall (fun m => zlen (m_dat m) = MLEN) (mfree p);
  owns_refs : forall a, refs H a <= refcnt p a;
  owns_cls : forall a, 0 <= refcnt p a < 32768 /\ (a ∈ mclfree p -> refcnt p a = 0) }.

(** From [H] in pool [p] to [H'] in pool [p'], while [R] stays held: no mbuf is
    lost, no cluster reference leaks, and what [R] holds is untouched. *)
Record evolve (R : chain) (p : mpool) (H : chain) (p' : mpool) (H' : chain) : Prop := {
  ev_owns : owns p' (H' ++ R);
  ev_mem : map m_addr (mfree p ++ H) ⊆+ map m_addr (mfree p' ++ H');
  ev_slack : forall a, refcnt p' a - refs H' a <= refcnt p a - refs H a;
  ev_bytes : forall m, m ∈ R -> mbuf_bytes p' m = mbuf_bytes p m }.

Lemma refs_app H K a : refs (H ++ K) a = refs H a + refs K a.
Proof. unfold refs. induction H as [|m H IH]; simpl; [done|]. rewrite IH. lia. Qed.
Lemma refs_cons m H a : refs (m :: H) a = is_ref a m + refs H a.
Proof. done. Qed.
Lemma is_ref_bound a m : 0 <= is_ref a m <= 1.
Proof. unfold is_ref. case_match; lia. Qed.
Lemma refs_nonneg H a : 0 <= refs H a.
Proof.
  induction H as [|m H IH]; [done|]. rewrite refs_cons. pose proof (is_ref_bound a m). lia.
Qed.
Lemma refs_Permutation H K a : H ≡ₚ K -> refs H a = refs K a.
Proof. induction 1; rewrite ?refs_cons in *; lia. Qed.

#[export] Instance owns_Permutation p : Proper ((≡ₚ) ==> iff) (owns p).
Proof.
  enough (G : forall H K, H ≡ₚ K -> owns p H -> owns p K)
    by (intros H K HK; split; [apply G|apply G]; [done|by symmetry]).
  intros H K HK [[Hn Hv] Hw Hf Hr Hc]. split; try done.
  - split; by rewrite <- HK.
  - by rewrite <- HK.
  - intros a. by rewrite <- (refs_Permutation _ _ a HK).
Qed.

Lemma evolve_refl R p H : owns p (H ++ R) -> evolve R p H p H.
Proof. intros. split; done || lia. Qed.

Lemma evolve_trans R p H p1 H1 p2 H2 :
  evolve R p H p1 H1 -> evolve R p1 H1 p2 H2 -> evolve R p H p2 H2.
Proof.
  intros [Ho1 Hm1 Hs1 Hb1] [Ho2 Hm2 Hs2 Hb2]. split; [done|by etrans| |].
  - intros a. specialize (Hs1 a). specialize (Hs2 a). lia.
  - intros m Hm. by rewrite Hb2, Hb1.
Qed.

(** Framing: what stays put may be counted as held or as the rest. *)
Lemma evolve_frame R K p H p' H' :
  evolve (K ++ R) p H p' H' -> evolve R p (H ++ K) p' (H' ++ K).
Proof.
  intros [Ho Hm Hs Hb]. split.
  - by rewrite <- app_assoc.
  - rewrite !app_assoc, (map_app m_addr (mfree p ++ H)), (map_app m_addr (mfree p' ++ H')).
    by apply submseteq_app.
  - intros a. rewrite !refs_app. specialize (Hs a). lia.
  - intros m Hin. apply Hb. set_solver.
Qed.

Lemma evolve_perm R p H p' H' K K' :
  H ≡ₚ K -> H' ≡ₚ K' -> evolve R p H p' H' -> evolve R p K p' K'.
Proof.
  intros HK HK' [Ho Hm Hs Hb]. split.
  - by rewrite <- HK'.
  - by rewrite <- HK, <- HK'.
  - intros a. rewrite <- (refs_Permutation _ _ a HK), <- (refs_Permutation _ _ a HK'). done.
  - done.
Qed.

Lemma bytes_same p p' c :
  (forall m, m ∈ c -> mbuf_bytes p' m = mbuf_bytes p m) -> bytes p' c = bytes p c.
Proof.
  unfold bytes. induction c as [|m c IH]; intros Hb; simpl; [done|].
  rewrite Hb by set_solver. f_equal. apply IH. set_solver.
Qed.
Lemma bytes_app p c d : bytes p (c ++ d) = bytes p c ++ bytes p d.
Proof. unfold bytes. by rewrite fmap_app, concat_app. Qed.
Lemma bytes_cons p m c : bytes p (m :: c) = mbuf_bytes p m ++ bytes p c.
Proof. done. Qed.

(** ** The effect of an operation on the pool *)

(** The memory of cluster [a]. *)
Definition clbuf (p : mpool) (a : Z) : list Z :=
  match mcls p !! a with Some c => mcl_buf c | None => [] end.

Lemma storage_eq p m : storage p m = if has m M_EXT then clbuf p (ext_buf (m_ext m)) else m_dat m.
Proof. done. Qed.

(** The pool changed by [delta] references per cluster only; its free mbufs have
    the addresses [free]. *)
Record effect (p p' : mpool) (free : list Z) (delta : Z -> Z) : Prop := {
  ef_free : map m_addr (mfree p') = free;
  ef_dat : Forall (fun m => zlen (m_dat m) = MLEN) (mfree p');
  ef_mem : mbufmem p' = mbufmem p;
  ef_buf : forall a, clbuf p' a = clbuf p a;
  ef_refcnt : forall a, refcnt p' a = refcnt p a + delta a;
  ef_clfree : forall a, a ∈ mclfree p' -> a ∈ mclfree p \/ refcnt p' a = 0;
  ef_clzero : forall a, a ∈ mclfree p -> a ∈ mclfree p' -> delta a = 0 }.

Lemma m_valid_mem a p p' : mbufmem p' = mbufmem p -> m_valid a p' = m_valid a p.
Proof. unfold m_valid. by intros ->. Qed.

Lemma wf_mbuf_buf p p' m :
  (forall a, clbuf p' a = clbuf p a) -> wf_mbuf p m -> wf_mbuf p' m.
Proof. unfold wf_mbuf. rewrite !storage_eq. intros Hb. by rewrite Hb. Qed.

Lemma mbuf_bytes_buf p p' m :
  (forall a, clbuf p' a = clbuf p a) -> mbuf_bytes p' m = mbuf_bytes p m.
Proof. unfold mbuf_bytes. rewrite !storage_eq. intros Hb. by rewrite Hb. Qed.

Lemma map_addr_app (K H : chain) : map m_addr (K ++ H) = map m_addr K ++ map m_addr H.
Proof. apply map_app. Qed.

(** From the effect on the pool to the change of what is held. *)
Lemma evolve_effect R p H p' H' free delta :
  owns p (H ++ R) -> effect p p' free delta ->
  free ++ map m_addr H' ≡ₚ map m_addr (mfree p) ++ map m_addr H ->
  Forall (wf_mbuf p') H' ->
  (forall a, refs H' a - refs H a = delta a) ->
  (forall a, refcnt p a + delta a < 32768) ->
  evolve R p H p' H'.
Proof.
  intros [[Hn Hv] Hw Hf Hr Hc] [Ef Ed Em Eb Er Ec Ez] Hperm Hwf Hdelta Hmax.
  assert (Hall : map m_addr (mfree p' ++ H' ++ R) ≡ₚ map m_addr (mfree p ++ H ++ R)).
  { rewrite !map_addr_app, Ef, !app_assoc. by rewrite Hperm. }
  split.
  - split.
    + split; [by rewrite Hall|].
      rewrite <- (Forall_map m_addr (fun a => m_valid a p' = true)), Hall, Forall_map.
      eapply Forall_impl; [exact Hv|]. intros m Hm. simpl. by rewrite (m_valid_mem _ _ _ Em).
    + apply Forall_app in Hw as [_ HwR]. apply Forall_app_2; [done|].
      eapply Forall_impl; [exact HwR|]. intros m Hm. by apply (wf_mbuf_buf p).
    + done.
    + intros a. specialize (Hr a). rewrite Er, !refs_app in *. specialize (Hdelta a). lia.
    + intros a. specialize (Hr a). specialize (Hdelta a). specialize (Hmax a). rewrite Er.
      rewrite refs_app in Hr. pose proof (refs_nonneg R a). pose proof (refs_nonneg H' a).
      split; [lia|]. intros Ha. destruct (Ec a Ha) as [Ha'|Hz]; [|rewrite Er in Hz; lia].
      destruct (Hc a) as [_ Hz]. specialize (Hz Ha'). specialize (Ez a Ha' Ha). lia.
  - rewrite !map_addr_app, Ef. by rewrite Hperm.
  - intros a. rewrite Er. specialize (Hdelta a). lia.
  - intros m _. by apply mbuf_bytes_buf.
Qed.

(** ** Freeing *)

Lemma mtype_add_effect p free t d delta p0 :
  effect p0 p free delta -> effect p0 (mtype_add t d p) free delta.
Proof. intros [? ? ? ? ? ? ?]. by split. Qed.

Lemma clbuf_insert p a c :
  mcl_buf c = clbuf p a ->
  forall a', clbuf (p <| mcls ::= <[a := c]> (mcls p) |>) a' = clbuf p a'.
Proof.
  intros Hc a'. unfold clbuf. cbn. destruct (decide (a = a')) as [->|].
  - by rewrite lookup_insert_eq.
  - by rewrite lookup_insert_ne.
Qed.
Lemma refcnt_insert p a c a' :
  refcnt (p <| mcls ::= <[a := c]> (mcls p) |>) a' =
  if decide (a = a') then mcl_refcnt c else refcnt p a'.
Proof.
  unfold refcnt. cbn. case_decide as H; [subst|].
  - by rewrite lookup_insert_eq.
  - by rewrite lookup_insert_ne.
Qed.

Lemma MCLFREE_effect p a :
  Forall (fun m => zlen (m_dat m) = MLEN) (mfree p) ->
  0 < refcnt p a < 32768 -> (a ∈ mclfree p -> refcnt p a = 0) ->
  effect p (MCLFREE a p) (map m_addr (mfree p)) (fun x => if decide (a = x) then -1 else 0).
Proof.
  intros Hf Hr Hc. unfold MCLFREE. unfold refcnt in Hr, Hc.
  destruct (mcls p !! a) as [c|] eqn:Ha; [|lia].
  set (c' := c <| mcl_refcnt ::= _ |>).
  assert (Hc' : mcl_refcnt c' = mcl_refcnt c - 1) by (cbn; rewrite s16_small; lia).
  assert (Hb : mcl_buf c' = clbuf p a) by (unfold clbuf; by rewrite Ha).
  assert (Hrc : forall x, refcnt (p <| mcls ::= <[a := c']> (mcls p) |>) x =
                     refcnt p x + (if decide (a = x) then -1 else 0)).
  { intros x. rewrite refcnt_insert. case_decide as E; [subst|lia].
    unfold refcnt. rewrite Ha. lia. }
  destruct (mcl_refcnt c' =? 0) eqn:Hz.
  - split; try done; [by apply clbuf_insert| |].
    + intros x [->|Hx]%elem_of_cons; [|by left].
      right. change (refcnt (p <| mcls ::= <[a := c']> (mcls p) |>) a = 0).
      rewrite refcnt_insert, decide_True by done. lia.
    + intros x Hx _. case_decide; [subst; specialize (Hc Hx); lia|done].
  - split; try done; [by apply clbuf_insert|by left|].
    intros x Hx _. case_decide; [subst; specialize (Hc Hx); lia|done].
Qed.

(** What [MFREE] does to an mbuf does not depend on its length, which [m_get] leaves
    unset. *)
Lemma MFREE_len_ok R p m l :
  let m0 := m <| m_len ::= l |> in
  owns p (m0 :: R) -> exists p', MFREE m p = (true, p') /\ evolve R p [m0] p' [].
Proof.
  intros m0 Ho. pose proof Ho as [_ Hw Hf Hr Hc]. apply Forall_cons in Hw as [Hwm _].
  destruct Hwm as (Ht & _ & _ & _ & Hd & _ & _).
  change (m_type m0) with (m_type m) in Ht. change (m_dat m0) with (m_dat m) in Hd.
  change (forall a, refs (m0 :: R) a <= refcnt p a) with (forall a, refs (m :: R) a <= refcnt p a) in Hr.
  unfold MFREE. unfold ng_mbuf_bad_free. destruct (m_type m =? MT_FREE) eqn:?;
    [unfold MT_FREE in *; lia|].
  replace (if ng_mbufcheck_active p then (false, p) else (false, p)) with (false, p)
    by by destruct (ng_mbufcheck_active p).
  set (p1 := mtype_add _ _ p). set (p2 := if has m M_EXT then _ else p1).
  assert (He : effect p p2 (map m_addr (mfree p)) (fun a => - is_ref a m)).
  { unfold p2, is_ref. destruct (has m M_EXT) eqn:Hx; simpl andb.
    - specialize (Hr (ext_buf (m_ext m))). specialize (Hc (ext_buf (m_ext m))).
      rewrite refs_cons in Hr. unfold is_ref in Hr at 1. rewrite Hx in Hr.
      pose proof (refs_nonneg R (ext_buf (m_ext m))). rewrite Z.eqb_refl in Hr. simpl in Hr.
      destruct (MCLFREE_effect p1 (ext_buf (m_ext m))) as [? ? ? ? Hd' ? Hz];
        [done|change (refcnt p1) with (refcnt p); lia|apply Hc|].
      split; try done; intros a; [specialize (Hd' a)|specialize (Hz a)];
        destruct (decide (ext_buf (m_ext m) = a)), (ext_buf (m_ext m) =? a) eqn:?;
        try lia; done.
    - split; try done; [intros a; change (refcnt p1 a) with (refcnt p a); lia|by left]. }
  eexists. split; [done|]. set (m' := if ng_mbufcheck_active p2 then _ else m).
  assert (Hm' : m_addr m' = m_addr m /\ zlen (m_dat m') = MLEN)
    by (unfold m'; by destruct (ng_mbufcheck_active p2)).
  destruct Hm' as [Ha' Hd'']. destruct He as [Ef Ed Em Eb Er Ec Ez].
  eapply (evolve_effect R p [m0] _ [] (m_addr m :: map m_addr (mfree p)) (fun a => - is_ref a m)).
  - done.
  - split; try done; [cbn; by rewrite Ha', Ef|]. cbn. by constructor.
  - simpl. rewrite app_nil_r. by rewrite Permutation_app_comm.
  - constructor.
  - intros a. rewrite refs_cons. change (is_ref a m0) with (is_ref a m). simpl. lia.
  - intros a. specialize (Hc a). pose proof (is_ref_bound a m). lia.
Qed.

Lemma MFREE_ok R p m :
  owns p (m :: R) -> exists p', MFREE m p = (true, p') /\ evolve R p [m] p' [].
Proof.
  intros Ho. replace m with (m <| m_len ::= m_len m |>) in Ho by by destruct m.
  destruct (MFREE_len_ok R p m (m_len m) Ho) as (p' & E & He). exists p'. split; [done|].
  by destruct m.
Qed.

Lemma m_free_len_ok R p m l next :
  let m0 := m <| m_len ::= l |> in
  owns p (m0 :: R) -> exists p', m_free m next p = (next, p') /\ evolve R p [m0] p' [].
Proof.
  intros m0 Ho. unfold m_free. destruct (MFREE_len_ok R p m l Ho) as (p' & -> & He). by exists p'.
Qed.

Lemma m_free_ok R p m next :
  owns p (m :: R) -> exists p', m_free m next p = (next, p') /\ evolve R p [m] p' [].
Proof.
  intros Ho. unfold m_free. destruct (MFREE_ok R p m Ho) as (p' & -> & He). by exists p'.
Qed.

Lemma m_freem_ok c R p : owns p (c ++ R) -> evolve R p c (m_freem c p) [].
Proof.
  revert p. induction c as [|m c IH]; intros p Ho; simpl; [by apply evolve_refl|].
  destruct (MFREE_ok (c ++ R) p m Ho) as (p' & -> & He).
  pose proof (evolve_frame R c p [m] p' [] He) as He'.
  eapply evolve_trans; [exact He'|]. simpl. apply IH. apply He.
Qed.

(** ** Allocating: what the chain operations need of [MGET] *)

Class Allocator (mget : Z -> mpool -> option mbuf * mpool) : Prop := {
  alloc_ok t p R r p' :
    0 < t < MTCOUNT -> owns p R -> mget t p = (r, p') ->
    match r with
    | Some m => m_type m = t /\ m_data m = 0 /\ m_flags m = 0 /\
                evolve R p [] p' [m <| m_len ::= 0 |>]
    | None => evolve R p [] p' []
    end }.

Lemma has_0 m f : m_flags m = 0 -> has m f = false.
Proof. unfold has. by intros ->. Qed.

Lemma MGET_list_effect t p :
  Forall (fun m => zlen (m_dat m) = MLEN) (mfree p) ->
  forall m, fst (MGET_list t p) = Some m ->
  m_type m = t /\ m_data m = 0 /\ m_flags m = 0 /\ zlen (m_dat m) = MLEN /\
  exists x r, mfree p = x :: r /\ m_addr m = m_addr x /\
  effect p (snd (MGET_list t p)) (map m_addr r) (fun _ => 0).
Proof.
  intros Hf m. unfold MGET_list. destruct (mfree p) as [|x r] eqn:Hr; [done|].
  simpl. intros [= <-]. apply Forall_cons in Hf as [Hx Hf]. split_and!; try done.
  exists x, r. split_and!; try done. apply mtype_add_effect.
  assert (Hcheck : forall q, effect p q (map m_addr r) (fun _ => 0) ->
            effect p (ng_mbuf_alloc_check x q) (map m_addr r) (fun _ => 0)).
  { intros q Hq. unfold ng_mbuf_alloc_check. repeat case_match; try done;
      destruct Hq as [? ? ? ? ? ? ?]; by split. }
  assert (Hq : effect p (p <| mfree ::= r |>) (map m_addr r) (fun _ => 0)).
  { split; try done; [intros a; change (refcnt (p <| mfree ::= r |>) a) with (refcnt p a); lia|].
    by left. }
  destruct (ng_mbufcheck_active _); [by apply Hcheck|done].
Qed.

Lemma MGET_list_ok t p R r p' :
  0 < t < MTCOUNT -> owns p R -> MGET_list t p = (r, p') ->
  match r with
  | Some m => m_type m = t /\ m_data m = 0 /\ m_flags m = 0 /\
              evolve R p [] p' [m <| m_len ::= 0 |>]
  | None => evolve R p [] p' []
  end.
Proof.
  intros Ht Ho Hg. destruct r as [m|].
  - destruct (MGET_list_effect t p (owns_free _ _ Ho) m) as (?&?&?&Hd&x&r&Hr&Ha&He);
      [by rewrite Hg|]. rewrite Hg in He. simpl in He. split_and!; try done.
    eapply evolve_effect; [done|exact He| | | |].
    + rewrite Hr. simpl. rewrite Ha, app_nil_r. by rewrite Permutation_app_comm.
    + constructor; [|constructor]. unfold wf_mbuf. rewrite storage_eq.
      assert (Hno : forall f, has (m <| m_len ::= 0 |>) f = false) by (intros; by apply has_0).
      rewrite !Hno. cbn. rewrite Hd. unfold MLEN. repeat split; lia || done.
    + intros a. rewrite refs_cons. unfold is_ref.
      rewrite has_0 by done. simpl. lia.
    + intros a. destruct (owns_cls _ _ Ho a) as [? _]. lia.
  - unfold MGET_list in Hg. destruct (mfree p); [|done]. injection Hg as <-.
    by apply evolve_refl.
Qed.
#[export] Instance MGET_list_Allocator : Allocator MGET_list.
Proof. split. apply MGET_list_ok. Qed.

(** *** Growing *)

Definition disjoint_from (mh size : Z) (h : memHeader) : Prop :=
  mh + size <= mh_addr h \/ mh_addr h + mh_size h <= mh.

Fixpoint slots (n : nat) (a : Z) : list Z :=
  match n with O => [] | S n => a :: slots n (a + MSIZE) end.

Lemma slots_In n a x :
  In x (slots n a) -> a <= x /\ x + MSIZE <= a + MSIZE * Z.of_nat n /\ (x - a) mod MSIZE = 0.
Proof.
  revert a; induction n as [|n IH]; intros a; simpl; [done|]. unfold MSIZE in *.
  intros [->|Hx]; [rewrite Z.sub_diag; split_and!; [lia..|done]|].
  destruct (IH _ Hx) as (?&?&Hm). split_and!; [lia..|].
  replace (x - a) with (x - (a + 128) + 1 * 128) by lia. rewrite Z.mod_add; lia.
Qed.
Lemma slots_NoDup n a : NoDup (slots n a).
Proof.
  revert a; induction n as [|n IH]; intros a; simpl; constructor; [|done].
  rewrite list_elem_of_In. intros Hx%slots_In. unfold MSIZE in *. lia.
Qed.

Section grow_ok.
Context (AllocMem : list memHeader -> Z -> option Z).
Context (junk : Z -> mbuf) (drain : mpool -> mpool).
(** [AllocMem] (Exec): a block of the requested size, inside the address space and
    apart from every block not yet returned. *)
Context (HAlloc : forall mem size mh, AllocMem mem size = Some mh ->
  0 < mh /\ mh + size < 4294967296 /\ Forall (disjoint_from mh size) mem).
(** The drain functions give mbufs back and touch nothing others hold. *)
Context (Hdrain : forall p R, owns p R -> evolve R p [] (drain p) []).

Lemma push_mbufs_addr n a free :
  map m_addr (push_mbufs junk n a free) ≡ₚ slots n a ++ map m_addr free.
Proof.
  revert a free; induction n as [|n IH]; intros a free; simpl; [done|].
  rewrite IH. simpl. by rewrite Permutation_middle.
Qed.
Lemma push_mbufs_dat n a free :
  Forall (fun m => zlen (m_dat m) = MLEN) free ->
  Forall (fun m => zlen (m_dat m) = MLEN) (push_mbufs junk n a free).
Proof. revert a free; induction n as [|n IH]; intros a free; simpl; auto. Qed.

(** The guard leaves no room for the size to wrap. *)
Lemma m_alloc_size_ok howmany :
  0 < howmany < 2147483648 -> u32 (howmany + 1) <= (4294967295 - MEMHEADER_SIZE) / MSIZE ->
  u32 (m_alloc_size howmany) = m_alloc_size howmany.
Proof using.
  clear. unfold m_alloc_size, MEMHEADER_SIZE, MSIZE. intros ? H. rewrite u32_small in H by lia.
  apply u32_small. Z.div_mod_to_equations. lia.
Qed.

Lemma dtom_spec mh :
  let a := dtom (mh + MEMHEADER_SIZE + MSIZE - 1) in
  mh + MEMHEADER_SIZE <= a < mh + MEMHEADER_SIZE + MSIZE /\ a mod MSIZE = 0.
Proof using. clear. unfold dtom, MSIZE, MEMHEADER_SIZE. cbn zeta. split; Z.div_mod_to_equations; lia. Qed.

Lemma land_127 a : 0 <= a -> (Z.land a (MSIZE - 1) =? 0) = (a mod MSIZE =? 0).
Proof using. clear. intros. change (MSIZE - 1) with (Z.ones 7). by rewrite Z.land_ones. Qed.

(** [m_alloc]: the new mbufs are aligned slots of the new chunk, none was handed
    out before, and each passes [m_valid]; nothing else changes. *)
Lemma m_alloc_ok howmany p R :
  howmany < 2147483648 -> owns p R -> evolve R p [] (snd (m_alloc AllocMem junk howmany p)) [].
Proof using HAlloc.
  intros Hmax Ho. unfold m_alloc. destruct (_ || _) eqn:Hg; [by apply evolve_refl|].
  destruct (u32 (maxmem _ * _) <? _); [by apply evolve_refl|].
  destruct (AllocMem _ _) as [mh|] eqn:Ha; [|by apply evolve_refl].
  apply HAlloc in Ha as (Hmh & Htop & Hdis).
  rewrite m_alloc_size_ok in * by lia. cbn [snd].
  destruct (dtom_spec mh) as [Hbase Hal]. set (base := dtom _) in *.
  set (p' := _ <| mfree ::= _ |>).
  assert (Hmem : mbufmem p' = mk_memHeader mh (m_alloc_size howmany) true :: mbufmem p) by done.
  assert (Hfree : map m_addr (mfree p') ≡ₚ slots (Z.to_nat howmany) base ++ map m_addr (mfree p))
    by apply push_mbufs_addr.
  assert (Hslot : forall x, In x (slots (Z.to_nat howmany) base) ->
            mh + MEMHEADER_SIZE <= x /\ x + MSIZE <= mh + m_alloc_size howmany /\ x mod MSIZE = 0).
  { intros x Hx%slots_In. unfold m_alloc_size, MSIZE, MEMHEADER_SIZE in *.
    rewrite Z2Nat.id in Hx by lia. split_and!; [lia..|].
    replace x with (x - base + base) by lia. rewrite Z.add_mod by lia.
    destruct Hx as (_ & _ & ->). by rewrite Hal. }
  destruct Ho as [[Hn Hv] Hw Hf Hr Hc].
  assert (Hold : forall x, m_valid x p = true -> m_valid x p' = true /\
            ~ In x (slots (Z.to_nat howmany) base)).
  { intros x. unfold m_valid. rewrite Hmem. simpl existsb. rewrite !andb_true_iff.
    intros [[H0 H1] H2]. split; [rewrite H2, orb_true_r; tauto|].
    intros Hx%Hslot. apply existsb_exists in H2 as (h & Hh & Hin).
    rewrite Forall_forall in Hdis. apply list_elem_of_In in Hh.
    specialize (Hdis _ Hh). unfold disjoint_from, MSIZE, MEMHEADER_SIZE in *. lia. }
  assert (Hall : map m_addr (mfree p' ++ [] ++ R) ≡ₚ
                 slots (Z.to_nat howmany) base ++ map m_addr (mfree p ++ R))
    by (cbn [app]; rewrite !map_addr_app, Hfree; by rewrite app_assoc).
  split.
  - split; try done.
    + split.
      * rewrite Hall. apply NoDup_app. split_and!; [apply slots_NoDup| |done].
        intros x Hx Hin. apply list_elem_of_In in Hx.
        apply list_elem_of_In, in_map_iff in Hin as (m & <- & Hm).
        rewrite Forall_forall in Hv. apply list_elem_of_In in Hm.
        by apply (Hold _ (Hv _ Hm)).
      * rewrite <- (Forall_map m_addr (fun a => m_valid a p' = true)), Hall.
        apply Forall_app_2.
        -- apply Forall_forall. intros x Hx%list_elem_of_In.
           pose proof (Hslot x Hx) as (?&?&?). unfold m_valid. rewrite Hmem.
           cbn [existsb mh_ismbuf mh_addr mh_size]. unfold MSIZE, MEMHEADER_SIZE in *.
           rewrite land_127 by lia. unfold MSIZE.
           rewrite !andb_true_iff, orb_true_iff, !andb_true_iff. split_and!; [lia..|left; lia].
        -- rewrite Forall_map. eapply Forall_impl; [exact Hv|].
           intros m Hm. by apply Hold.
    + by apply push_mbufs_dat.
  - rewrite !app_nil_r, Hfree. by apply submseteq_inserts_l.
  - done.
  - done.
Qed.

Lemma m_reclaim_ok p R : owns p R -> evolve R p [] (m_reclaim drain p) [].
Proof using Hdrain.
  intros Ho. destruct (Hdrain p R Ho) as [H1 H2 H3 H4]. split; try done.
  destruct H1 as [? ? ? ? ?]. by split.
Qed.

#[export] Instance MGET_Allocator : Allocator (MGET AllocMem junk drain).
Proof using HAlloc Hdrain.
  split. intros t p R r p' Ht Ho Hg. unfold MGET in Hg.
  destruct (mfree p) eqn:Hf; [|by apply (MGET_list_ok t p R r p')].
  unfold m_retry in Hg. pose proof (m_reclaim_ok p R Ho) as Hev.
  set (p1 := m_reclaim drain p) in *.
  set (p2 := match mfree p1 with [] => _ | _ => p1 end) in *.
  assert (He2 : evolve R p [] p2 []).
  { unfold p2. destruct (mfree p1); [|done]. eapply evolve_trans; [exact Hev|].
    apply m_alloc_ok; [pose proof (s32_range (mbufchunk (conf p1))); lia|apply Hev]. }
  pose proof (MGET_list_ok t p2 R r p' Ht (ev_owns _ _ _ _ _ He2) Hg) as Hr.
  destruct r as [m|].
  - destruct Hr as (?&?&?&He). split_and!; try done. by eapply evolve_trans.
  - by eapply evolve_trans.
Qed.
End grow_ok.

(** * Chain operations *)

(** The same mbuf, with the same cluster, whose other fields may differ. *)
Definition same_id (m m' : mbuf) : Prop :=
  m_addr m' = m_addr m /\ (forall a, is_ref a m' = is_ref a m).

Lemma same_id_refl m : same_id m m.
Proof. done. Qed.
#[export] Hint Resolve same_id_refl : core.

Lemma same_ids_refl c : Forall2 same_id c c.
Proof. induction c; constructor; auto. Qed.
#[export] Hint Resolve same_ids_refl : core.

Lemma same_ids_trans a b c : Forall2 same_id a b -> Forall2 same_id b c -> Forall2 same_id a c.
Proof.
  intros H. revert c. induction H as [|x y l k [H1 H2] _ IH]; intros c Hc;
    inversion Hc as [|? z ? c' [H3 H4] Hc']; subst; [constructor|].
  constructor; [split; [congruence|intros i; by rewrite H4, H2]|by apply IH].
Qed.
Lemma same_ids_addr c c' : Forall2 same_id c c' -> map m_addr c' = map m_addr c.
Proof. induction 1 as [|m m' c c' [Ha _] _ IH]; simpl; [done|]. by rewrite Ha, IH. Qed.
Lemma same_ids_refs c c' a : Forall2 same_id c c' -> refs c' a = refs c a.
Proof. induction 1 as [|m m' c c' [_ Hr] _ IH]; [done|]. by rewrite !refs_cons, Hr, IH. Qed.

Lemma owns_retouch p c c' R :
  Forall2 same_id c c' -> Forall (wf_mbuf p) c' -> owns p (c ++ R) -> owns p (c' ++ R).
Proof.
  intros Hid Hwf [[Hn Hv] Hw Hf Hr Hc].
  assert (Ha : map m_addr (mfree p ++ c' ++ R) = map m_addr (mfree p ++ c ++ R))
    by (by rewrite !map_addr_app, (same_ids_addr c c')).
  split; try done.
  - split; [by rewrite Ha|].
    rewrite <- (Forall_map m_addr (fun a => m_valid a p = true)), Ha. by apply Forall_map.
  - apply Forall_app in Hw as [_ ?]. by apply Forall_app_2.
  - intros a. specialize (Hr a). rewrite refs_app in *. by rewrite (same_ids_refs c c').
Qed.

Lemma evolve_retouch R p H p' c c' :
  Forall2 same_id c c' -> Forall (wf_mbuf p') c' -> evolve R p H p' c -> evolve R p H p' c'.
Proof.
  intros Hid Hwf [Ho Hm Hs Hb]. split; [by eapply owns_retouch| | |done].
  - rewrite !map_addr_app in *. by rewrite (same_ids_addr c c').
  - intros a. by rewrite (same_ids_refs c c').
Qed.

Lemma evolve_in R p c c' :
  Forall2 same_id c c' -> Forall (wf_mbuf p) c' -> owns p (c ++ R) -> evolve R p c p c'.
Proof. intros. eapply evolve_retouch; [done..|]. by apply evolve_refl. Qed.

Lemma zlen_mbuf_bytes p m : wf_mbuf p m -> zlen (mbuf_bytes p m) = m_len m.
Proof. intros (?&?&?&?&?&?&?). unfold mbuf_bytes. by apply zslice_len. Qed.

Lemma zlen_bytes p c : Forall (wf_mbuf p) c -> zlen (bytes p c) = chain_len c.
Proof.
  induction 1 as [|m c Hm _ IH]; [done|].
  rewrite bytes_cons, zlen_app, IH, zlen_mbuf_bytes by done. done.
Qed.
Lemma chain_len_nonneg p c : Forall (wf_mbuf p) c -> 0 <= chain_len c.
Proof. intros H. rewrite <- (zlen_bytes p) by done. apply zlen_nonneg. Qed.

Lemma same_ids_head m m' c d :
  same_id m m' -> Forall2 same_id (m' :: c) d -> Forall2 same_id (m :: c) d.
Proof.
  intros [Ha Hr] Hd. inversion Hd as [|? x ? d' [Hxa Hxr] Hcd]; subst.
  constructor; [|done]. split; [by rewrite Hxa|]. intros a. by rewrite Hxr.
Qed.

(** ** Trimming one mbuf *)

(** [m_len -= a + b; m_data += a]. *)
Definition trim (m : mbuf) (a b : Z) : mbuf :=
  m <| m_len ::= m_len m - a - b |> <| m_data ::= m_data m + a |>.

Lemma trim_wf p m a b : wf_mbuf p m -> 0 <= a -> 0 <= b -> a + b <= m_len m -> wf_mbuf p (trim m a b).
Proof.
  intros (?&?&?&?&?&?&Hh) ???. unfold wf_mbuf.
  change (storage p (trim m a b)) with (storage p m).
  change (has (trim m a b)) with (has m). cbn. split_and!; lia.
Qed.
Lemma trim_bytes p m a b :
  wf_mbuf p m -> 0 <= a -> 0 <= b -> a + b <= m_len m ->
  mbuf_bytes p (trim m a b) = drop (Z.to_nat a) (take (Z.to_nat (m_len m - b)) (mbuf_bytes p m)).
Proof.
  intros (?&?&?&?&?&?&_) ???. unfold mbuf_bytes.
  change (storage p (trim m a b)) with (storage p m). cbn. unfold zslice.
  rewrite take_take, skipn_firstn_comm, drop_drop.
  f_equal; [lia|]. f_equal. lia.
Qed.

Lemma trim_head_bytes p m a :
  wf_mbuf p m -> 0 <= a <= m_len m -> mbuf_bytes p (trim m a 0) = drop (Z.to_nat a) (mbuf_bytes p m).
Proof.
  intros Hm ?. rewrite trim_bytes by (done || lia). rewrite Z.sub_0_r, (take_ge (mbuf_bytes p m)); [done|].
  pose proof (zlen_mbuf_bytes p m Hm). unfold zlen in *. lia.
Qed.
Lemma trim_tail_bytes p m b :
  wf_mbuf p m -> 0 <= b <= m_len m ->
  mbuf_bytes p (trim m 0 b) = take (Z.to_nat (m_len m - b)) (mbuf_bytes p m).
Proof. intros Hm ?. rewrite trim_bytes by (done || lia). by rewrite drop_0. Qed.

(** ** [m_adj] *)

Lemma bytes_split_l p m r (k : Z) :
  wf_mbuf p m -> m_len m <= k ->
  drop (Z.to_nat k) (bytes p (m :: r)) = drop (Z.to_nat (k - m_len m)) (bytes p r) /\
  take (Z.to_nat k) (bytes p (m :: r)) =
    mbuf_bytes p m ++ take (Z.to_nat (k - m_len m)) (bytes p r).
Proof.
  intros Hm ?. pose proof (zlen_mbuf_bytes p m Hm). rewrite bytes_cons. unfold zlen in *.
  rewrite drop_app_ge, take_app_ge by lia. split; do 2 f_equal; lia.
Qed.

Lemma bytes_split_lt p m r (k : Z) :
  wf_mbuf p m -> k <= m_len m ->
  drop (Z.to_nat k) (bytes p (m :: r)) = drop (Z.to_nat k) (mbuf_bytes p m) ++ bytes p r /\
  take (Z.to_nat k) (bytes p (m :: r)) = take (Z.to_nat k) (mbuf_bytes p m).
Proof.
  intros Hm ?. pose proof (zlen_mbuf_bytes p m Hm). rewrite bytes_cons. unfold zlen in *.
  rewrite drop_app_le, take_app_le by lia. done.
Qed.

Lemma mbuf_bytes_0 p m : m_len m = 0 -> mbuf_bytes p m = [].
Proof. unfold mbuf_bytes. by intros ->. Qed.

(** [m_len = 0]: the data pointer stays. *)
Lemma empty_wf p m : wf_mbuf p m -> wf_mbuf p (m <| m_len ::= 0 |>).
Proof.
  intros (?&?&?&?&?&?&?). unfold wf_mbuf.
  change (storage p (m <| m_len ::= 0 |>)) with (storage p m). cbn. split_and!; lia || done.
Qed.

Lemma adj_head_ok p len c :
  Forall (wf_mbuf p) c -> 0 <= len ->
  let '(lft, c') := adj_head len c in
  lft = Z.max 0 (len - chain_len c) /\
  bytes p c' = drop (Z.to_nat len) (bytes p c) /\
  Forall2 same_id c c' /\ Forall (wf_mbuf p) c' /\
  map m_flags c' = map m_flags c /\ map m_pkthdr c' = map m_pkthdr c.
Proof.
  intros Hc. revert len; induction Hc as [|m c Hm Hc IH]; intros len Hl; cbn [adj_head].
  { change (chain_len []) with 0. split_and!; [lia|by destruct (Z.to_nat len)|by constructor..]. }
  pose proof Hm as (_ & ? & _). change (chain_len (m :: c)) with (m_len m + chain_len c).
  pose proof (chain_len_nonneg p c Hc).
  destruct (len <=? 0) eqn:?.
  { replace len with 0 by lia. rewrite drop_0. split_and!; try done; [lia|by constructor]. }
  destruct (m_len m <=? len) eqn:?.
  - specialize (IH (len - m_len m) ltac:(lia)).
    destruct (adj_head (len - m_len m) c) as [lft c'].
    destruct IH as (-> & Hb & Hid & Hwf & Hfl & Hph).
    destruct (bytes_split_l p m c len Hm) as [-> _]; [lia|].
    rewrite bytes_cons, mbuf_bytes_0, Hb by done. cbn [map m_flags m_pkthdr].
    split_and!; [lia|done|by constructor|constructor; [by apply empty_wf|done]| |].
    + simpl. by rewrite Hfl.
    + simpl. by rewrite Hph.
  - destruct (bytes_split_lt p m c len Hm) as [-> _]; [lia|].
    assert (Ht : m <| m_len ::= m_len m - len |> <| m_data ::= m_data m + len |> = trim m len 0).
    { unfold trim. by rewrite Z.sub_0_r. }
    rewrite Ht, bytes_cons, trim_head_bytes by (done || lia).
    split_and!; [lia|done|by constructor|constructor; [apply trim_wf; done || lia|done]|done..].
Qed.

Lemma set_pktlen_id m l : same_id m (set_pktlen m l).
Proof. done. Qed.
Lemma set_pktlen_wf p m l : wf_mbuf p m -> wf_mbuf p (set_pktlen m l).
Proof. done. Qed.

(** The conditional packet-header updates change nothing else. *)
Lemma if_pktlen (b : bool) m l p :
  let m' := if b then set_pktlen m l else m in
  same_id m m' /\ (wf_mbuf p m -> wf_mbuf p m') /\ mbuf_bytes p m' = mbuf_bytes p m /\
  m_len m' = m_len m /\ m_flags m' = m_flags m.
Proof. by destruct b. Qed.

Lemma adj_last_ok p len c :
  Forall (wf_mbuf p) c -> c <> [] -> 0 <= len <= last_len c ->
  bytes p (adj_last len c) = take (Z.to_nat (chain_len c - len)) (bytes p c) /\
  Forall2 same_id c (adj_last len c) /\ Forall (wf_mbuf p) (adj_last len c).
Proof.
  induction 1 as [|m c Hm Hc IH]; [done|]. intros _ Hl.
  destruct c as [|m' c].
  - cbn [adj_last]. change (last_len [m]) with (m_len m) in Hl. change (chain_len [m]) with (m_len m + 0).
    assert (Ht : m <| m_len ::= m_len m - len |> = trim m 0 len)
      by (unfold trim; cbn; by rewrite Z.sub_0_r, Z.add_0_r).
    rewrite Ht. pose proof (trim_wf p m 0 len Hm ltac:(lia) ltac:(lia) ltac:(lia)) as Hw.
    rewrite Z.add_0_r.
    destruct (if_pktlen (has (trim m 0 len) M_PKTHDR) (trim m 0 len)
      (ph_len (m_pkthdr (trim m 0 len)) - len) p) as ([Ha Hi] & Hw' & Hb & _).
    split_and!.
    + rewrite !bytes_cons, Hb, trim_tail_bytes by (done || lia).
      by rewrite !app_nil_r.
    + constructor; [|constructor]. by split.
    + constructor; [by apply Hw'|constructor].
  - destruct IH as (Hb & Hid & Hwf); [done|done|].
    change (adj_last len (m :: m' :: c)) with (m :: adj_last len (m' :: c)).
    change (chain_len (m :: m' :: c)) with (m_len m + chain_len (m' :: c)).
    assert (len <= chain_len (m' :: c)).
    { etrans; [apply Hl|]. clear -Hc. change (last_len (m :: m' :: c)) with (last_len (m' :: c)).
      revert Hc. generalize (m' :: c) as l. induction 1 as [|x l Hx Hl IH]; [done|].
      pose proof (chain_len_nonneg p l Hl). destruct l as [|y l].
      - change (last_len [x]) with (m_len x). change (chain_len [x]) with (m_len x + 0). lia.
      - change (last_len (x :: y :: l)) with (last_len (y :: l)).
        change (chain_len (x :: y :: l)) with (m_len x + chain_len (y :: l)).
        destruct Hx as (_ & ? & _). lia. }
    destruct (bytes_split_l p m (m' :: c) (m_len m + chain_len (m' :: c) - len) Hm)
      as [_ ->]; [lia|].
    split_and!; [|by constructor|by constructor].
    rewrite bytes_cons, Hb. do 3 f_equal. lia.
Qed.

Lemma zero_rest p c :
  Forall (wf_mbuf p) c ->
  let c' := map (fun x => x <| m_len ::= 0 |>) c in
  bytes p c' = [] /\ chain_len c' = 0 /\ Forall2 same_id c c' /\ Forall (wf_mbuf p) c'.
Proof.
  induction 1 as [|m c Hm Hc (Hb & Hl & Hid & Hwf)]; simpl.
  - split_and!; done || constructor.
  - split_and!; [|done|by constructor|constructor; [by apply empty_wf|done]].
    rewrite bytes_cons, Hb, mbuf_bytes_0; done.
Qed.

Lemma adj_keep_ok p count c :
  Forall (wf_mbuf p) c -> 0 <= count <= chain_len c ->
  bytes p (adj_keep count c) = take (Z.to_nat count) (bytes p c) /\
  chain_len (adj_keep count c) = count /\
  Forall2 same_id c (adj_keep count c) /\ Forall (wf_mbuf p) (adj_keep count c) /\
  map m_flags (adj_keep count c) = map m_flags c /\
  map m_pkthdr (adj_keep count c) = map m_pkthdr c.
Proof.
  intros Hc. revert count; induction Hc as [|m c Hm Hc IH]; intros count Hl; cbn [adj_keep].
  { change (chain_len []) with 0 in *. replace count with 0 by lia.
    split_and!; done || constructor. }
  change (chain_len (m :: c)) with (m_len m + chain_len c) in *.
  pose proof Hm as (_ & ? & _).
  destruct (count <=? m_len m) eqn:?.
  - destruct (zero_rest p c Hc) as (Hb & Hl0 & Hid & Hwf).
    destruct (bytes_split_lt p m c count Hm) as [_ ->]; [lia|].
    assert (Ht : m <| m_len ::= count |> = trim m 0 (m_len m - count)).
    { unfold trim. rewrite Z.add_0_r. replace (m_len m - 0 - _) with count by lia. done. }
    rewrite Ht, bytes_cons, Hb, app_nil_r, trim_tail_bytes by (done || lia).
    split_and!.
    + f_equal. lia.
    + change (chain_len (?x :: ?y)) with (m_len x + chain_len y). rewrite Hl0. cbn. lia.
    + constructor; [done|done].
    + constructor; [apply trim_wf; done || lia|done].
    + simpl. f_equal. rewrite map_map. done.
    + simpl. f_equal. rewrite map_map. done.
  - destruct (IH (count - m_len m)) as (Hb & Hl' & Hid & Hwf & Hf & Hp); [lia|].
    destruct (bytes_split_l p m c count Hm) as [_ ->]; [lia|].
    rewrite bytes_cons, Hb. split_and!; [done| |by constructor|by constructor|simpl; by rewrite Hf|simpl; by rewrite Hp].
    change (chain_len (?x :: ?y)) with (m_len x + chain_len y). lia.
Qed.

(** The total length in the packet header of the first mbuf, where it has one. *)
Definition pktlen_ok (c : chain) : Prop :=
  match c with
  | m :: _ => has m M_PKTHDR = true -> ph_len (m_pkthdr m) = chain_len c
  | [] => True
  end.

(** What [m_adj] leaves of [len] octets. *)
Definition adj_spec (req_len : Z) (l : list Z) : list Z :=
  if 0 <=? req_len then drop (Z.to_nat req_len) l
  else take (Z.to_nat (zlen l + req_len)) l.

Lemma m_adj_ok p c req :
  Forall (wf_mbuf p) c ->
  bytes p (m_adj c req) = adj_spec req (bytes p c) /\
  Forall2 same_id c (m_adj c req) /\ Forall (wf_mbuf p) (m_adj c req).
Proof.
  intros Hc. unfold m_adj, adj_spec. destruct c as [|h0 c0].
  { split_and!; [|constructor..]. case_match; [by destruct (Z.to_nat req)|].
    by destruct (Z.to_nat _). }
  set (c := h0 :: c0) in *. destruct (0 <=? req) eqn:?.
  - pose proof (adj_head_ok p req c Hc ltac:(lia)) as Ha.
    destruct (adj_head req c) as [lft c'].
    destruct Ha as (-> & Hb & Hid & Hwf & _). rewrite <- Hb.
    destruct c' as [|m r]; [done|].
    destruct (if_pktlen (has h0 M_PKTHDR) m
      (Z.max 0 (ph_len (m_pkthdr m) - (req - Z.max 0 (req - chain_len c)))) p)
      as ([Ha1 Ha2] & Hw & Hbm & _).
    split_and!; [by rewrite !bytes_cons, Hbm| |].
    + inversion Hid; subst. constructor; [|done].
      destruct (has h0 M_PKTHDR); done.
    + apply Forall_cons in Hwf as [??]. constructor; auto.
  - rewrite zlen_bytes by done. destruct (- req <=? last_len c) eqn:?.
    + destruct (adj_last_ok p (- req) c Hc) as (Hb & Hid & Hwf); [done|lia|].
      rewrite Hb. split_and!; [|done..]. do 2 f_equal. lia.
    + set (count := Z.max 0 (chain_len c - - req)).
      destruct (if_pktlen (has h0 M_PKTHDR) h0 count p) as (Hi & Hw & Hbm & Hlm & _).
      apply Forall_cons in Hc as [Hh Hc0].
      assert (Hc2 : Forall (wf_mbuf p)
        ((if has h0 M_PKTHDR then set_pktlen h0 count else h0) :: c0)) by (constructor; auto).
      pose proof (chain_len_nonneg p c) as Hnn.
      assert (Hcl : chain_len ((if has h0 M_PKTHDR then set_pktlen h0 count else h0) :: c0)
                    = chain_len c)
        by (unfold c; change (chain_len (?x :: ?y)) with (m_len x + chain_len y); by rewrite Hlm).
      destruct (adj_keep_ok p count _ Hc2) as (Hb & _ & Hid & Hwf & _);
        [rewrite Hcl; unfold count; specialize (Hnn ltac:(by constructor)); lia|].
      rewrite Hb. split_and!; [| |done].
      * rewrite bytes_cons, Hbm, <- bytes_cons. unfold count. f_equal. lia.
      * by eapply same_ids_head.
Qed.

(** ** Reading a chain *)

Lemma skip_ok p off c :
  Forall (wf_mbuf p) c -> 0 <= off ->
  match skip off c with
  | Some (o, c') => exists pre, c = pre ++ c' /\ chain_len pre + o = off /\ 0 <= o /\
                      (o = 0 \/ exists m r, c' = m :: r /\ o < m_len m)
  | None => chain_len c < off
  end.
Proof.
  intros Hc; revert off; induction Hc as [|m c Hm Hc IH]; intros off Ho; cbn [skip].
  - destruct (off <=? 0) eqn:?; [|change (chain_len []) with 0; lia].
    exists []. change (chain_len []) with 0. split_and!; [done|lia..|left; lia].
  - change (chain_len (m :: c)) with (m_len m + chain_len c).
    destruct (off <=? 0) eqn:?.
    { exists []. change (chain_len []) with 0. split_and!; [done|lia..|left; lia]. }
    destruct (off <? m_len m) eqn:?.
    { exists []. change (chain_len []) with 0. split_and!; [done|lia..|].
      right. exists m, c. split; [done|lia]. }
    specialize (IH (off - m_len m) ltac:(lia)). destruct (skip _ c) as [[o c']|]; [|lia].
    destruct IH as (pre & -> & ? & ? & ?). exists (m :: pre).
    change (chain_len (m :: pre)) with (m_len m + chain_len pre). split_and!; done || lia.
Qed.

Lemma chain_len_app c d : chain_len (c ++ d) = chain_len c + chain_len d.
Proof.
  induction c as [|m c IH]; [done|]. simpl app.
  change (chain_len (?x :: ?y)) with (m_len x + chain_len y). lia.
Qed.

(** A read inside an mbuf never leaves its storage. *)
Lemma m_read_ok p m off n :
  wf_mbuf p m -> 0 <= off -> 0 <= n -> off + n <= m_len m ->
  m_read p m off n = Some (zslice (mbuf_bytes p m) off n).
Proof.
  intros (?&?&?&?&?&?&?) ???. unfold m_read, mbuf_bytes.
  rewrite blob_ok, zslice_zslice by lia. done.
Qed.

(** Dropping the mbufs before the offset. *)
Lemma zslice_skip p pre c off o n :
  Forall (wf_mbuf p) pre -> chain_len pre + o = off -> 0 <= o -> 0 <= n ->
  zslice (bytes p (pre ++ c)) off n = zslice (bytes p c) o n.
Proof.
  intros Hp <- ??. rewrite bytes_app. pose proof (zlen_bytes p pre Hp) as Hl.
  pose proof (zlen_nonneg (bytes p pre)). unfold zlen, zslice in *. rewrite drop_app_ge by lia.
  do 2 f_equal. lia.
Qed.

(** The head of a slice that starts in the first mbuf. *)
Lemma zslice_head p m r o n :
  wf_mbuf p m -> 0 <= o -> 0 <= n -> (o = 0 \/ o < m_len m) ->
  zslice (bytes p (m :: r)) o n =
  zslice (mbuf_bytes p m) o (Z.min (m_len m - o) n)
  ++ zslice (bytes p r) 0 (n - Z.min (m_len m - o) n).
Proof.
  intros Hm ?? Ho. pose proof (zlen_mbuf_bytes p m Hm) as Hl. pose proof Hm as (_ & ? & _).
  rewrite bytes_cons. unfold zslice. rewrite drop_app_le by (unfold zlen in *; lia).
  rewrite take_app, length_drop. simpl. rewrite drop_0. f_equal.
  - destruct (decide (n <= m_len m - o)); [f_equal; lia|].
    rewrite !take_ge; [done| |]; rewrite length_drop; unfold zlen in *; lia.
  - f_equal. unfold zlen in *. lia.
Qed.

Lemma copydata_loop_ok p o n c :
  Forall (wf_mbuf p) c -> 0 <= o ->
  (o = 0 \/ exists m r, c = m :: r /\ o < m_len m) ->
  copydata_loop p o n c = Some (zslice (bytes p c) o (Z.max 0 n)).
Proof.
  intros Hc; revert o n; induction Hc as [|m c Hm Hc IH]; intros o n Ho Hin; cbn [copydata_loop].
  { destruct (n <=? 0) eqn:?; [|]; unfold bytes, zslice; simpl;
      by rewrite drop_nil, take_nil. }
  destruct (n <=? 0) eqn:?.
  { replace (Z.max 0 n) with 0 by lia. by rewrite zslice_nil. }
  assert (Hin' : o = 0 \/ o < m_len m).
  { destruct Hin as [?|(?&?&[= <- <-]&?)]; tauto. }
  pose proof Hm as (_ & ? & _).
  rewrite m_read_ok by (done || lia). cbn [mbind option_bind].
  rewrite IH by (done || lia || tauto). cbn [mbind option_bind]. f_equal.
  rewrite zslice_head by (done || lia). do 2 f_equal; lia.
Qed.

Lemma m_copydata_ok p c off n :
  Forall (wf_mbuf p) c -> 0 <= off -> 0 <= n ->
  m_copydata p c off n = Some (zslice (bytes p c) off n).
Proof.
  intros Hc ??. unfold m_copydata. destruct (_ || _) eqn:?; [lia|].
  pose proof (skip_ok p off c Hc ltac:(lia)) as Hs.
  destruct (skip off c) as [[o c']|].
  - destruct Hs as (pre & -> & Hoff & Ho & Hin). apply Forall_app in Hc as [Hpre Hc].
    rewrite copydata_loop_ok by done. rewrite (zslice_skip p pre c' off o) by (done || lia).
    do 2 f_equal. lia.
  - unfold zslice. rewrite drop_ge, take_nil; [done|].
    pose proof (zlen_bytes p c Hc). unfold zlen in *. lia.
Qed.

(** ** Appending to an mbuf *)

(** Same mbuf, same role: only the data may differ. *)
Definition same_hdr (m m' : mbuf) : Prop :=
  same_id m m' /\ m_flags m' = m_flags m /\ m_pkthdr m' = m_pkthdr m /\ m_type m' = m_type m.

Lemma m_append_ok p m src :
  wf_mbuf p m -> has m M_EXT = false -> m_data m + m_len m + zlen src <= MLEN ->
  exists m1, m_write m (m_len m) src = Some m1 /\
    let m' := m1 <| m_len ::= m_len m + zlen src |> in
    m_len m1 = m_len m /\ m_data m1 = m_data m /\ wf_mbuf p m' /\ same_hdr m m' /\
    mbuf_bytes p m' = mbuf_bytes p m ++ src.
Proof.
  intros (?&?&?&?&Hd&?&?) Hx Hroom. pose proof (zlen_nonneg src).
  destruct (blit_ok (m_dat m) (m_data m + m_len m) src ltac:(lia) ltac:(lia))
    as (d & Hb & Hdl & Hbefore & Hat).
  unfold m_write. rewrite Hb. eexists. split; [done|].
  set (m1 := m <| m_dat ::= d |>). cbn zeta. set (m' := m1 <| m_len ::= _ |>).
  assert (Hx' : has m' M_EXT = false) by exact Hx.
  assert (Hst : storage p m' = d) by (rewrite storage_eq, Hx'; done).
  assert (Hsm : storage p m = m_dat m) by (rewrite storage_eq, Hx; done).
  split_and!; try done.
  - unfold wf_mbuf. rewrite Hst. change (has m' M_PKTHDR) with (has m M_PKTHDR).
    cbn [m_type m_len m_data m_flags m_dat m' m1 field_map]. rewrite Hdl, Hd.
    split_and!; lia || done.
  - unfold mbuf_bytes. rewrite Hst, Hsm.
    change (m_len m') with (m_len m + zlen src). change (m_data m') with (m_data m).
    rewrite zslice_app, Hbefore, Hat by lia. done.
Qed.

(** ** [m_cat] *)

Lemma cat_loop_ok R m n p :
  owns p ((m :: n) ++ R) ->
  exists c p', cat_loop m n p = Some (c, p') /\ evolve R p (m :: n) p' c /\
    bytes p' c = mbuf_bytes p m ++ bytes p n /\
    exists m' r, c = m' :: r /\ same_hdr m m'.
Proof.
  revert m p; induction n as [|h r IH]; intros m p Ho; cbn [cat_loop].
  { eexists _, _. split; [done|]. split; [by apply evolve_refl|]. split.
    - by rewrite bytes_cons.
    - by exists m, []. }
  destruct (has m M_EXT) eqn:Hx; simpl orb.
  { eexists _, _. split; [done|]. split; [by apply evolve_refl|]. split; [done|].
    by exists m, (h :: r). }
  destruct (MLEN <=? _) eqn:Hroom.
  { eexists _, _. split; [done|]. split; [by apply evolve_refl|]. split; [done|].
    by exists m, (h :: r). }
  pose proof (owns_wf _ _ Ho) as Hw. simpl in Hw.
  apply Forall_cons in Hw as [Hm [Hh Hr]%Forall_cons].
  pose proof Hh as (_ & ? & _).
  rewrite (m_read_ok p h 0 (m_len h) Hh) by lia. cbn [mbind option_bind].
  assert (Hfull : zslice (mbuf_bytes p h) 0 (m_len h) = mbuf_bytes p h).
  { unfold zslice. simpl. rewrite drop_0, take_ge; [done|].
    pose proof (zlen_mbuf_bytes p h Hh). unfold zlen in *. lia. }
  rewrite Hfull. pose proof (zlen_mbuf_bytes p h Hh) as Hlh.
  destruct (m_append_ok p m (mbuf_bytes p h) Hm Hx) as (m1 & -> & Hl1 & Hd1 & Hwf & Hsame & Hb); [lia|].
  cbn [mbind option_bind]. rewrite Hl1, <- Hlh. set (m2 := m1 <| m_len ::= _ |>) in *.
  (* the merged mbuf replaces [m]; then [h] is freed *)
  assert (Hev1 : evolve R p (m :: h :: r) p (m2 :: h :: r)).
  { apply evolve_in; [constructor; [apply Hsame|done]| |done].
    apply Forall_app in Hr as [Hr _]. apply Forall_cons_2; [exact Hwf|by apply Forall_cons_2]. }
  assert (Ho2 : owns p (h :: (m2 :: r) ++ R)).
  { pose proof (ev_owns _ _ _ _ _ Hev1) as Ho1. simpl in Ho1 |- *.
    revert Ho1. apply owns_Permutation. apply perm_swap. }
  destruct (m_free_ok ((m2 :: r) ++ R) p h r Ho2) as (p2 & -> & Hfree).
  assert (Hev2 : evolve R p (m :: h :: r) p2 (m2 :: r)).
  { eapply evolve_trans; [exact Hev1|].
    pose proof (evolve_frame R (m2 :: r) p [h] p2 [] Hfree) as Hf2.
    eapply evolve_perm; [| |exact Hf2]; [|done]. simpl. apply perm_swap. }
  assert (Hbr : forall x, x ∈ m2 :: r -> mbuf_bytes p2 x = mbuf_bytes p x)
    by (intros x Hin; apply (ev_bytes _ _ _ _ _ Hfree), elem_of_app; by left).
  destruct r as [|h' r'].
  - exists [m2], p2. split; [done|]. split; [done|]. split.
    + rewrite !bytes_cons, Hbr, Hb by set_solver. by rewrite <- app_assoc.
    + by exists m2, [].
  - destruct (IH m2 p2) as (c & p' & Hc & Hev & Hbytes & m' & r2 & -> & Hs);
      [apply Hev2|].
    exists (m' :: r2), p'. split; [exact Hc|]. split; [by eapply evolve_trans|]. split.
    + rewrite Hbytes, Hbr, Hb by set_solver. rewrite (bytes_same p p2) by (intros y Hy; by apply Hbr, elem_of_cons; right).
      by rewrite (bytes_cons p h), app_assoc.
    + exists m', r2. split; [done|]. destruct Hs as ([? Hi] & ? & ? & ?), Hsame as ([? Hi'] & ? & ? & ?).
      split; [split|]; [congruence|intros a; by rewrite Hi|]. by repeat split; congruence.
Qed.

Lemma m_cat_ok R m n p :
  m <> [] -> owns p ((m ++ n) ++ R) ->
  exists c p', m_cat m n p = Some (c, p') /\ evolve R p (m ++ n) p' c /\
    bytes p' c = bytes p m ++ bytes p n /\
    exists h h' r, head m = Some h /\ c = h' :: r /\ same_hdr h h'.
Proof.
  revert R. induction m as [|h m IH]; intros R; [done|]. intros _ Ho.
  destruct m as [|x m].
  - destruct (cat_loop_ok R h n p Ho) as (c & p' & Hc & Hev & Hb & h' & r & -> & Hs).
    exists (h' :: r), p'. split; [exact Hc|]. split; [done|]. split.
    + rewrite Hb. unfold bytes at 2. simpl. by rewrite app_nil_r.
    + by exists h, h', r.
  - destruct (IH (h :: R)) as (c & p' & Hc & Hev & Hb & _); [done| |].
    { revert Ho. apply owns_Permutation. symmetry.
      apply (Permutation_middle ((x :: m) ++ n) R h). }
    exists (h :: c), p'. split; [change (m_cat (h :: x :: m) n p) with ('(c, p) ← m_cat (x :: m) n p; Some (h :: c, p)); by rewrite Hc|].
    split; [|split].
    + eapply evolve_perm; [| |apply (evolve_frame R [h] p _ p' c Hev)];
        symmetry; apply Permutation_cons_append.
    + rewrite !(bytes_cons _ h), Hb, (ev_bytes _ _ _ _ _ Hev h) by apply elem_of_cons, or_introl, eq_refl.
      by rewrite app_assoc.
    + exists h, h, c. by repeat split.
Qed.

(** ** Flags *)

Lemma has_copy_ext to from : has (M_COPY_PKTHDR to from) M_EXT = false.
Proof.
  unfold has, M_COPY_PKTHDR. cbn. rewrite <- Z.land_assoc.
  change (Z.land M_COPYFLAGS M_EXT) with 0. by rewrite Z.land_0_r.
Qed.
Lemma has_copy_pkthdr to from : has (M_COPY_PKTHDR to from) M_PKTHDR = has from M_PKTHDR.
Proof. unfold has, M_COPY_PKTHDR. cbn. by rewrite <- Z.land_assoc. Qed.
Lemma has_clear m f g : Z.land (Z.lnot f) g = g -> has (clear_flags m f) g = has m g.
Proof. unfold has, clear_flags. cbn. rewrite <- Z.land_assoc. by intros ->. Qed.
Lemma has_clear_0 m f g : Z.land (Z.lnot f) g = 0 -> has (clear_flags m f) g = false.
Proof. unfold has, clear_flags. cbn. rewrite <- Z.land_assoc. intros ->. by rewrite Z.land_0_r. Qed.

(** Taking flags other than [M_EXT] off an mbuf leaves its data alone. *)
Lemma clear_flags_ok p m f :
  Z.land (Z.lnot f) M_EXT = M_EXT -> Z.land (Z.lnot f) M_PKTHDR = 0 -> wf_mbuf p m ->
  wf_mbuf p (clear_flags m f) /\ same_id m (clear_flags m f) /\
  mbuf_bytes p (clear_flags m f) = mbuf_bytes p m.
Proof.
  intros He Hp (?&?&?&?&?&?&?). pose proof (has_clear m f M_EXT He) as Hx.
  assert (Hst : storage p (clear_flags m f) = storage p m) by (rewrite !storage_eq, Hx; done).
  split_and!.
  - unfold wf_mbuf. rewrite Hst, (has_clear_0 _ _ _ Hp). cbn. split_and!; try lia.
    apply Z.land_nonneg. by left.
  - split; [done|]. intros a. unfold is_ref. by rewrite Hx.
  - unfold mbuf_bytes. by rewrite Hst.
Qed.

(** A fresh mbuf, with the header of [from] when it is to lead the packet, whose
    data is [len] bytes at [off] in its internal area. *)
Lemma fresh_wf p m len :
  0 < m_type m < MTCOUNT -> 0 <= m_flags m -> zlen (m_dat m) = MLEN -> has m M_EXT = false ->
  0 <= m_len m -> (if has m M_PKTHDR then PKTHDR_SIZE else 0) <= m_data m -> m_len m = len ->
  m_data m + len <= MLEN -> wf_mbuf p m.
Proof.
  intros ????????. unfold wf_mbuf. rewrite storage_eq, H2.
  destruct (has m M_PKTHDR); unfold PKTHDR_SIZE in *; split_and!; lia || done.
Qed.

Section alloc_ops.
Context (mget : Z -> mpool -> option mbuf * mpool) `{!Allocator mget}.

(** The result of [MGET]: an mbuf that only waits for its header and length. *)
Lemma mget_ok t p R :
  0 < t < MTCOUNT -> owns p R ->
  let '(r, p') := mget t p in
  (forall m, m ∈ R -> mbuf_bytes p' m = mbuf_bytes p m /\ (wf_mbuf p m -> wf_mbuf p' m)) /\
  (forall a, refs R a <= refcnt p' a /\ refcnt p' a - refs R a <= refcnt p a - refs R a) /\
  match r with
  | None => evolve R p [] p' []
  | Some n =>
      m_type n = t /\ m_data n = 0 /\ m_flags n = 0 /\ zlen (m_dat n) = MLEN /\
      forall n', m_addr n' = m_addr n -> has n' M_EXT = false -> wf_mbuf p' n' ->
                 evolve R p [] p' [n']
  end.
Proof using All.
  intros Ht Ho. destruct (mget t p) as [r p'] eqn:Hg.
  pose proof (alloc_ok t p R r p' Ht Ho Hg) as Ha.
  assert (Hev : exists K, evolve R p [] p' K /\ forall a, refs K a = 0).
  { destruct r as [n|]; [|by exists []]. destruct Ha as (_ & _ & Hf & He).
    exists [n <| m_len ::= 0 |>]. split; [done|]. intros a.
    rewrite refs_cons. unfold is_ref. by rewrite has_0. }
  destruct Hev as (K & [Hev1 Hev2 Hev3 Hev4] & HK). split; [|split].
  - intros m Hm. split; [by apply Hev4|]. intros _.
    pose proof (owns_wf _ _ Hev1) as Hw. apply Forall_app in Hw as [_ Hw].
    rewrite Forall_forall in Hw. by apply Hw.
  - intros a. specialize (Hev3 a). rewrite HK in Hev3. change (refs [] a) with 0 in Hev3.
    pose proof (owns_refs _ _ Hev1 a) as Hr. rewrite refs_app, HK in Hr. lia.
  - destruct r as [n|]; [|done]. destruct Ha as (? & ? & Hf & He).
    assert (Hd : zlen (m_dat n) = MLEN).
    { pose proof (owns_wf _ _ (ev_owns _ _ _ _ _ He)) as Hw.
      apply Forall_app in Hw as [Hw _]. inversion Hw as [|? ? Hn _]; subst.
      apply Hn. }
    split_and!; try done. intros n' Ha' Hx Hwf. eapply evolve_retouch; [| |exact He].
    + constructor; [|constructor]. split; [done|]. intros a. unfold is_ref.
      by rewrite Hx, has_0.
    + by constructor.
Qed.

(** ** [m_prepend] *)

Lemma align4_bound x : 0 <= x -> 0 <= align4 x <= x.
Proof. intros. unfold align4. Z.div_mod_to_equations. lia. Qed.

Lemma m_prepend_ok R m r len p :
  owns p ((m :: r) ++ R) ->
  let '(c', p') := m_prepend mget (m :: r) len p in
  (c' = [] /\ evolve R p (m :: r) p' []) \/
  (exists mn m', c' = mn :: m' :: r /\ 0 <= len <= MHLEN /\ evolve R p (m :: r) p' c' /\
     m_len mn = len /\ bytes p' (m' :: r) = bytes p (m :: r) /\ m_len m' = m_len m /\
     has mn M_PKTHDR = has m M_PKTHDR /\
     (has m M_PKTHDR = true -> m_pkthdr mn = m_pkthdr m)).
Proof using All.
  intros Ho. unfold m_prepend. destruct (_ || _) eqn:Hl.
  { left. split; [done|]. by apply m_freem_ok. }
  pose proof (owns_wf _ _ Ho) as Hw. inversion Hw as [|? ? Hm _]; subst.
  pose proof (mget_ok (m_type m) p _ (proj1 Hm) Ho) as Hg.
  destruct (mget (m_type m) p) as [[n|] p1].
  - destruct Hg as (Hsame & _ & Ht & Hd & Hf & Hdat & Hev).
    destruct (clear_flags_ok p1 m M_PKTHDR eq_refl eq_refl) as (Hwf1 & Hid1 & Hb1);
      [apply Hsame; [by left|done]|].
    cbv beta iota zeta. set (mm := if has m M_PKTHDR then _ else (n, m)).
    assert (Hmm : m_addr mm.1 = m_addr n /\ has mm.1 M_EXT = false /\
      has mm.1 M_PKTHDR = has m M_PKTHDR /\ (has m M_PKTHDR = true -> m_pkthdr mm.1 = m_pkthdr m) /\
      0 <= m_flags mm.1 /\ m_type mm.1 = m_type n /\ m_dat mm.1 = m_dat n /\
      m_data mm.1 = (if has m M_PKTHDR then PKTHDR_SIZE else 0) /\
      same_id m mm.2 /\ wf_mbuf p1 mm.2 /\ mbuf_bytes p1 mm.2 = mbuf_bytes p1 m /\
      m_len mm.2 = m_len m).
    { pose proof Hm as (_ & _ & _ & Hfl & _). unfold mm.
      destruct (has m M_PKTHDR) eqn:Hp; cbn [fst snd].
      - rewrite has_copy_ext, has_copy_pkthdr, Hp. split_and!; try done.
        apply Z.land_nonneg. by left.
      - rewrite !has_0 by done. split_and!; try done; [lia|]. apply Hsame; [by left|done]. }
    destruct mm as [n1 m1]. cbn [fst snd] in Hmm.
    destruct Hmm as (Ha & Hx & Hp & Hph & Hfl & Hty & Hdt & Hda & Hid & Hwf & Hb & Hlen).
    set (n2 := if len <? MHLEN then _ else n1).
    assert (Hn2 : m_addr n2 = m_addr n1 /\ m_flags n2 = m_flags n1 /\ m_type n2 = m_type n1 /\
      m_dat n2 = m_dat n1 /\ m_pkthdr n2 = m_pkthdr n1 /\
      m_data n1 <= m_data n2 /\ m_data n2 + len <= MLEN).
    { pose proof (align4_bound (MHLEN - len) ltac:(lia)). unfold n2.
      assert (m_data n1 <= 12) by (rewrite Hda; unfold PKTHDR_SIZE; case_match; lia).
      unfold MHLEN, MLEN in *. destruct (len <? 96) eqn:?;
        cbn -[align4]; unfold MHLEN; split_and!; try done; lia. }
    destruct Hn2 as (? & Hfl2 & Hty2 & Hdt2 & Hph2 & Hd2 & Hroom).
    set (n3 := n2 <| m_len ::= len |>).
    assert (Hhas : forall g, has n3 g = has n1 g) by (intros g; unfold has; cbn; by rewrite Hfl2).
    assert (Hev3 : evolve ((m :: r) ++ R) p [] p1 [n3]).
    { apply Hev; [cbn; congruence|by rewrite Hhas|].
      apply (fresh_wf _ _ len); rewrite ?Hhas; cbn; try done; try lia.
      - rewrite Hty2, Hty, Ht. apply Hm.
      - by rewrite Hdt2, Hdt. }
    right. exists n3, m1. split; [done|]. split; [lia|].
    assert (Hbs : bytes p1 (m :: r) = bytes p (m :: r)).
    { apply bytes_same. intros x Hx'. apply Hsame, elem_of_app. by left. }
    split_and!; try done; [|by rewrite bytes_cons, Hb, <- bytes_cons|by rewrite Hhas|].
    + pose proof (evolve_frame R (m :: r) p [] p1 [n3] Hev3) as Hf3.
      eapply evolve_retouch; [| |exact Hf3].
      * constructor; [done|]. constructor; [done|apply same_ids_refl].
      * pose proof (owns_wf _ _ (ev_owns _ _ _ _ _ Hf3)) as Hw3. simpl in Hw3.
        apply Forall_cons in Hw3 as [? [_ Hr]%Forall_cons].
        apply Forall_app in Hr as [Hr _]. by repeat apply Forall_cons_2.
    + intros Hpk. cbn. rewrite Hph2. by apply Hph.
  - destruct Hg as (_ & _ & Hev). left. split; [done|].
    eapply evolve_trans; [exact (evolve_frame R (m :: r) p [] p1 [] Hev)|].
    apply m_freem_ok, (ev_owns _ _ _ _ _ Hev).
Qed.

(** ** [m_copym] *)

Lemma has_lor_ext m x : 0 <= x -> m_flags m = Z.lor x M_EXT -> has m M_EXT = true.
Proof using.
  intros ? Hf. unfold has. rewrite Hf, Z.land_lor_distr_l.
  change (Z.land M_EXT M_EXT) with 1.
  destruct (_ =? 0) eqn:E; [|done]. apply Z.eqb_eq, Z.lor_eq_0_iff in E. lia.
Qed.
Lemma has_lor_pkthdr m n :
  m_flags m = Z.lor (m_flags n) M_EXT -> has m M_PKTHDR = has n M_PKTHDR.
Proof using.
  intros Hf. unfold has. rewrite Hf, Z.land_lor_distr_l.
  change (Z.land M_EXT M_PKTHDR) with 0. by rewrite Z.lor_0_r.
Qed.

(** Sharing a cluster: the new reference is accounted for by the new mbuf. *)
Lemma mcl_ref_ok R p m n n' :
  owns p (n :: R) -> m ∈ R -> has m M_EXT = true -> has n M_EXT = false ->
  refcnt p (ext_buf (m_ext m)) < 32767 ->
  m_addr n' = m_addr n -> has n' M_EXT = true -> m_ext n' = m_ext m -> wf_mbuf p n' ->
  evolve R p [n] (mcl_ref (ext_buf (m_ext m)) p) [n'].
Proof using.
  intros Ho Hm Hx Hnx Hmax Ha Hx' He Hwf. set (a := ext_buf (m_ext m)) in *.
  pose proof (owns_refs _ _ Ho a) as Hr.
  assert (0 < refcnt p a).
  { rewrite refs_cons in Hr. apply list_elem_of_split in Hm as (l1 & l2 & ->).
    rewrite refs_app, refs_cons in Hr. unfold is_ref in Hr at 2. rewrite Hx in Hr.
    fold a in Hr. rewrite Z.eqb_refl in Hr. simpl in Hr.
    pose proof (refs_nonneg l1 a). pose proof (refs_nonneg l2 a).
    pose proof (is_ref_bound a n). lia. }
  destruct (mcls p !! a) as [c|] eqn:Hc; [|unfold refcnt in *; rewrite Hc in *; lia].
  assert (Hp' : mcl_ref a p = p <| mcls ::= <[a := c <| mcl_refcnt ::= refcnt p a + 1 |>]> (mcls p) |>).
  { unfold mcl_ref, refcnt in *. rewrite Hc in *. by rewrite s16_small by lia. }
  set (p' := mcl_ref a p) in *.
  assert (Hbuf : forall x, clbuf p' x = clbuf p x).
  { rewrite Hp'. apply clbuf_insert. unfold clbuf. by rewrite Hc. }
  assert (Hcnt : forall x, refcnt p' x = refcnt p x + (if a =? x then 1 else 0)).
  { intros x. rewrite Hp', refcnt_insert. cbn.
    case_decide; [subst x; rewrite Z.eqb_refl; lia|]. destruct (a =? x) eqn:?; lia. }
  assert (Hfree : map m_addr (mfree p') = map m_addr (mfree p)) by by rewrite Hp'.
  eapply (evolve_effect R p [n] p' [n'] (map m_addr (mfree p)) (fun x => if a =? x then 1 else 0)).
  - done.
  - rewrite Hp' in *. split; try done; [apply Ho|by left|].
    intros x Hx0 _. destruct (owns_cls _ _ Ho x) as [_ Hz]. specialize (Hz Hx0).
    destruct (a =? x) eqn:?; [|done]. replace x with a in * by lia. lia.
  - simpl. by rewrite Ha.
  - constructor; [|constructor]. by apply (wf_mbuf_buf p).
  - intros x. rewrite !refs_cons. unfold is_ref. rewrite Hx', Hnx, He. fold a.
    change (refs [] x) with 0. destruct (a =? x); simpl; lia.
  - intros x. destruct (owns_cls _ _ Ho x) as [? _]. destruct (a =? x) eqn:?; [|lia].
    replace x with a in * by lia. lia.
Qed.

(** One turn of the copy loop, from the new mbuf to its filled-in form. *)
Definition copy_hdr (off0 len : Z) (copyhdr : bool) (n m : mbuf) : mbuf :=
  if copyhdr then
    let n := M_COPY_PKTHDR n m in
    n <| m_pkthdr ::= m_pkthdr n <| ph_len ::=
           if len =? M_COPYALL then ph_len (m_pkthdr n) - off0 else len |> |>
  else n.

Lemma copy_hdr_ok off0 len copyhdr n m :
  m_data n = 0 -> m_flags n = 0 -> (copyhdr = true -> has m M_PKTHDR = true) -> 0 <= m_flags m ->
  let n' := copy_hdr off0 len copyhdr n m in
  m_addr n' = m_addr n /\ m_type n' = m_type n /\ m_dat n' = m_dat n /\ 0 <= m_flags n' /\
  has n' M_EXT = false /\ has n' M_PKTHDR = copyhdr /\
  m_data n' = (if copyhdr then PKTHDR_SIZE else 0) /\
  (copyhdr = true -> ph_len (m_pkthdr n') =
     if len =? M_COPYALL then ph_len (m_pkthdr m) - off0 else len).
Proof using.
  intros Hd Hf Hp Hm. destruct copyhdr; cbn zeta.
  - split_and!; try done.
    + cbn. apply Z.land_nonneg. by left.
    + apply (has_copy_ext n m).
    + etrans; [apply (has_copy_pkthdr n m)|by apply Hp].
  - unfold copy_hdr. rewrite !has_0 by done. split_and!; try done; lia.
Qed.

Definition copy_fill (p : mpool) (n m : mbuf) (off : Z) : option (mbuf * mpool) :=
  if has m M_EXT then
    Some (n <| m_data ::= m_data m + off |> <| m_ext ::= m_ext m |>
            <| m_flags ::= Z.lor (m_flags n) M_EXT |>, mcl_ref (ext_buf (m_ext m)) p)
  else src ← m_read p m off (m_len n); n ← m_write n 0 src; Some (n, p).

(** From an mbuf of the source to its copy; [p0] is the pool before [n1] was
    allocated. *)
Lemma copy_fill_ok R p0 p n1 m off k (copyhdr : bool) :
  m ∈ R -> wf_mbuf p m -> (copyhdr = true -> has m M_PKTHDR = true) ->
  0 <= off -> 0 <= k -> off + k <= m_len m -> m_len n1 = k ->
  0 < m_type n1 < MTCOUNT -> 0 <= m_flags n1 -> zlen (m_dat n1) = MLEN ->
  has n1 M_EXT = false -> has n1 M_PKTHDR = copyhdr ->
  m_data n1 = (if copyhdr then PKTHDR_SIZE else 0) ->
  refcnt p (ext_buf (m_ext m)) < 32767 ->
  (forall n', m_addr n' = m_addr n1 -> has n' M_EXT = false -> wf_mbuf p n' ->
     evolve R p0 [] p [n']) ->
  exists n2 p2, copy_fill p n1 m off = Some (n2, p2) /\ evolve R p0 [] p2 [n2] /\
    mbuf_bytes p2 n2 = zslice (mbuf_bytes p m) off k /\
    m_len n2 = k /\ m_pkthdr n2 = m_pkthdr n1 /\ has n2 M_PKTHDR = copyhdr /\
    (forall a, refcnt p2 a <= refcnt p a + 1).
Proof using.
  intros Hin Hm Hcp ?? Hk Hlen Hty Hfl Hdt Hx Hp Hd Hmax Howns.
  pose proof Hm as (? & ? & ? & ? & ? & Hst & Hph).
  set (n0 := n1 <| m_len ::= 0 |>).
  assert (Hw0 : wf_mbuf p n0).
  { apply (fresh_wf p n0 0); try done; cbn; change (has n0) with (has n1); rewrite ?Hp, ?Hd, ?Hdt;
      unfold MLEN, PKTHDR_SIZE; destruct copyhdr; lia || done. }
  unfold copy_fill. destruct (has m M_EXT) eqn:Hmx.
  - set (n2 := _ <| m_flags ::= _ |>).
    assert (Hx2 : has n2 M_EXT = true) by by apply (has_lor_ext n2 (m_flags n1)).
    assert (Hp2 : has n2 M_PKTHDR = copyhdr) by (rewrite <- Hp; by apply has_lor_pkthdr).
    assert (Hst2 : storage p n2 = storage p m) by (rewrite !storage_eq, Hx2, Hmx; done).
    assert (Hw2 : wf_mbuf p n2).
    { unfold wf_mbuf. rewrite Hst2, Hx2. change (m_len n2) with (m_len n1).
      change (m_data n2) with (m_data m + off). change (m_dat n2) with (m_dat n1).
      change (m_type n2) with (m_type n1). rewrite Hlen. split_and!; try lia; try done.
      apply Z.lor_nonneg. split; [done|discriminate]. }
    assert (Hev0 : evolve R p0 [] p [n0]) by by apply Howns.
    pose proof (mcl_ref_ok R p m n0 n2 (ev_owns _ _ _ _ _ Hev0) Hin Hmx Hx Hmax
      eq_refl Hx2 eq_refl Hw2) as Hev2.
    exists n2, (mcl_ref (ext_buf (m_ext m)) p). split; [done|].
    split; [by eapply evolve_trans|]. split_and!; try done.
    + rewrite (mbuf_bytes_buf p).
      * unfold mbuf_bytes. rewrite Hst2. change (m_data n2) with (m_data m + off).
        change (m_len n2) with (m_len n1). rewrite zslice_zslice, Hlen by lia. done.
      * intros a. unfold mcl_ref. destruct (mcls p !! _) as [c|] eqn:Hc; [|done].
        apply clbuf_insert. unfold clbuf. by rewrite Hc.
    + intros a. unfold mcl_ref. destruct (mcls p !! _) as [c|] eqn:Hc; [|lia].
      rewrite refcnt_insert. case_decide as E; [|lia]. subst a. unfold refcnt in *.
      rewrite Hc in *. destruct (owns_cls _ _ (ev_owns _ _ _ _ _ Hev0) (ext_buf (m_ext m))) as [Hb _].
      unfold refcnt in Hb. rewrite Hc in Hb. cbn. rewrite s16_small by lia. lia.
  - rewrite Hlen, m_read_ok by (done || lia). cbn [mbind option_bind].
    set (src := zslice _ off k).
    assert (Hsrc : zlen src = k)
      by (apply zslice_len; rewrite ?zlen_mbuf_bytes by done; lia).
    destruct (m_append_ok p n0 src Hw0 Hx) as (m1 & Hw & Hl1 & Hd1 & Hwf & Hsame & Hb).
    { change (m_data n0) with (m_data n1). change (m_len n0) with 0. rewrite Hsrc.
      rewrite storage_eq, Hmx in Hst. rewrite Hd. destruct copyhdr; [|lia].
      specialize (Hph (Hcp eq_refl) eq_refl). lia. }
    change (m_len n0) with 0 in *. rewrite Z.add_0_l, Hsrc in Hwf, Hsame, Hb.
    set (n2 := m1 <| m_len ::= k |>) in *.
    assert (Hn2 : m_write n1 0 src = Some n2).
    { unfold m_write in *. change (m_dat n0) with (m_dat n1) in Hw.
      change (m_data n0) with (m_data n1) in Hw. destruct (blit _ _ _) as [d|]; [|done].
      cbn [mbind option_bind] in *. injection Hw as <-. f_equal. unfold n2, n0. rewrite <- Hlen.
      by destruct n1. }
    rewrite Hn2. cbn [mbind option_bind]. exists n2, p. split; [done|].
    destruct Hsame as ([Ha Hr] & Hf2 & Hp2 & Ht2).
    assert (Hhas : forall g, has n2 g = has n1 g) by (intros g; unfold has; by rewrite Hf2).
    split; [apply Howns; [done|by rewrite Hhas|done]|].
    rewrite Hb, (mbuf_bytes_0 p n0) by done. split_and!; try done; [by rewrite Hhas|intros; lia].
Qed.

(** What the packet header of the copy's first mbuf says. *)
Definition copy_lead (off0 len : Z) (copyhdr : bool) (m n : mbuf) : Prop :=
  has n M_PKTHDR = copyhdr /\
  (copyhdr = true -> ph_len (m_pkthdr n) =
     if len =? M_COPYALL then ph_len (m_pkthdr m) - off0 else len).

Lemma copym_loop_ok R c :
  forall p top copyhdr off0 off len,
  owns p (top ++ R) -> (forall m, m ∈ c -> m ∈ R) ->
  (forall m r, c = m :: r -> copyhdr = true -> has m M_PKTHDR = true) ->
  (forall a, refcnt p a + Z.of_nat (length c) < 32768) ->
  0 <= off -> (off = 0 \/ exists m r, c = m :: r /\ off < m_len m) -> 0 <= len <= M_COPYALL ->
  chain_len c < M_COPYALL ->
  exists ok top' p', copym_loop mget off0 copyhdr len off c top p = Some (ok, top', p') /\
    evolve R p top p' top' /\
    (ok = true ->
       (len = M_COPYALL \/ off + len <= chain_len c) /\
       exists new, top' = top ++ new /\ bytes p' new = zslice (bytes p c) off len /\
       bytes p' top = bytes p top /\
       (forall m r, c = m :: r -> 0 < len -> exists n t, new = n :: t /\ copy_lead off0 len copyhdr m n)).
Proof using All.
  induction c as [|m r IH]; intros p top copyhdr off0 off len Ho Hin Hch Hrc Hoff Hpos Hlen Hc;
    cbn [copym_loop].
  { assert (Hb : bytes p [] = zslice (bytes p []) off len)
      by (unfold bytes, zslice; simpl; by rewrite drop_nil, take_nil).
    destruct (len <=? 0) eqn:?; eexists _, top, p; (split; [done|]); (split; [by apply evolve_refl|]).
    - intros _. split.
      + right. destruct Hpos as [->|(?&?&?&_)]; [|done]. change (chain_len []) with 0. lia.
      + exists []. rewrite app_nil_r. done.
    - intros Hall. split; [left; lia|]. exists []. by rewrite app_nil_r. }
  assert (HmR : m ∈ R) by (apply Hin; by left).
  assert (HmT : m ∈ top ++ R) by (apply elem_of_app; by right).
  pose proof (owns_wf _ _ Ho) as Hw. rewrite Forall_forall in Hw.
  pose proof (Hw m HmT) as Hm. pose proof Hm as (? & ? & ? & Hfl & ? & ?).
  assert (Hwr : Forall (wf_mbuf p) r).
  { apply Forall_forall. intros x Hx. apply Hw, elem_of_app. right. apply Hin. by right. }
  pose proof (chain_len_nonneg p r Hwr).
  change (chain_len (m :: r)) with (m_len m + chain_len r) in *.
  assert (Hoff' : off = 0 \/ off < m_len m).
  { destruct Hpos as [?|(?&?&[= <- <-]&?)]; tauto. }
  destruct (len <=? 0) eqn:?.
  { exists true, top, p. split; [done|]. split; [by apply evolve_refl|]. intros _. split; [right; lia|].
    exists []. rewrite app_nil_r. replace len with 0 by lia. rewrite zslice_nil.
    split_and!; done || (intros; lia). }
  pose proof (mget_ok (m_type m) p (top ++ R) ltac:(done) Ho) as Hg.
  destruct (mget (m_type m) p) as [[n|] p1]; cbn [fst snd].
  2: { destruct Hg as (_ & _ & Hev). exists false, top, p1. split; [done|]. split; [|done].
       exact (evolve_frame R top p [] p1 [] Hev). }
  destruct Hg as (Hsame & Hcnt & Ht & Hd & Hf & Hdat & Hev).
  assert (Hch' : copyhdr = true -> has m M_PKTHDR = true) by (by apply (Hch m r)).
  destruct (copy_hdr_ok off0 len copyhdr n m Hd Hf Hch' Hfl)
    as (Ha1 & Ht1 & Hd1 & Hf1 & Hx1 & Hp1 & Hda1 & Hpl1).
  fold (copy_hdr off0 len copyhdr n m).
  set (n0 := copy_hdr off0 len copyhdr n m) in *.
  set (k := Z.min len (m_len m - off)). set (n1 := n0 <| m_len ::= k |>).
  destruct (Hsame m HmT) as [Hbm Hwm].
  destruct (copy_fill_ok (top ++ R) p p1 n1 m off k copyhdr) as
    (n2 & p2 & Hfill & Hev2 & Hb2 & Hl2 & Hph2 & Hhas2 & Hcnt2);
    try done; try lia; try (by apply Hwm); try (unfold k; lia).
  { change (m_type n1) with (m_type n0). rewrite Ht1, Ht. done. }
  { change (m_dat n1) with (m_dat n0). by rewrite Hd1. }
  { specialize (Hrc (ext_buf (m_ext m))). destruct (Hcnt (ext_buf (m_ext m))) as [_ Hle].
    simpl length in Hrc. lia. }
  { intros n' Ha'. apply Hev. by rewrite Ha'. }
  unfold copy_fill in Hfill. rewrite Hfill. cbn [mbind option_bind].
  (* the copy joins [top] *)
  assert (Hev3 : evolve R p top p2 (top ++ [n2])).
  { eapply evolve_perm; [| |exact (evolve_frame R top p [] p2 [n2] Hev2)]; [done|].
    symmetry. apply Permutation_app_comm. }
  assert (Htop : bytes p2 top = bytes p top).
  { apply bytes_same. intros x Hx. apply (ev_bytes _ _ _ _ _ Hev2), elem_of_app. by left. }
  assert (Hrest : bytes p2 r = bytes p r).
  { apply bytes_same. intros x Hx. apply (ev_bytes _ _ _ _ _ Hev2), elem_of_app.
    right. apply Hin. by right. }
  set (len' := if len =? M_COPYALL then len else len - m_len n2).
  destruct (IH p2 (top ++ [n2]) false off0 0 len') as (ok & top' & p' & Hl & Hev4 & Hok).
  - apply (ev_owns _ _ _ _ _ Hev3).
  - intros x Hx. apply Hin. by right.
  - done.
  - intros a. specialize (Hrc a). specialize (Hcnt2 a). destruct (Hcnt a) as [_ Hle].
    simpl length in Hrc. lia.
  - done.
  - by left.
  - unfold len'. rewrite Hl2. unfold k. destruct (len =? M_COPYALL) eqn:?; lia.
  - lia.
  - exists ok, top', p'. split; [exact Hl|]. split; [by eapply evolve_trans|].
    intros Htrue. destruct (Hok Htrue) as (Hfit & new & -> & Hnew & Hold & _).
    assert (Hkn : k = m_len m - off \/ k = len) by (unfold k; lia).
    split.
    + destruct (len =? M_COPYALL) eqn:Hall; [left; lia|right].
      unfold len' in Hfit. rewrite Hl2 in Hfit. unfold k in *. lia.
    + rewrite !bytes_app in Hold. exists (n2 :: new). rewrite <- app_assoc.
      assert (Hn2 : bytes p' [n2] = bytes p2 [n2] /\ bytes p' top = bytes p2 top).
      { apply app_inj_1 in Hold; [tauto|]. apply f_equal with (f := length) in Hold.
        rewrite !length_app in Hold.
        pose proof (owns_wf _ _ (ev_owns _ _ _ _ _ Hev4)) as Hw4.
        rewrite <- app_assoc in Hw4. apply Forall_app in Hw4 as [Hw4 _].
        apply Forall_app in Hw4 as [Hw4 _].
        pose proof (owns_wf _ _ (ev_owns _ _ _ _ _ Hev3)) as Hw3.
        rewrite <- app_assoc in Hw3. apply Forall_app in Hw3 as [Hw3 _].
        pose proof (zlen_bytes p' top Hw4). pose proof (zlen_bytes p2 top Hw3).
        unfold zlen in *. lia. }
      destruct Hn2 as [Hn2 Htop2]. split; [done|]. split; [|split; [by rewrite Htop2|]].
      * change (n2 :: new) with ([n2] ++ new). rewrite bytes_app, Hn2, Hnew, Hrest.
        unfold bytes at 1. cbn [fmap list_fmap concat]. rewrite app_nil_r, Hb2, Hbm.
        assert (Hfull : chain_len r <= len - k \/ len' = len - k).
        { unfold len'. rewrite Hl2. destruct (len =? M_COPYALL) eqn:?; [|by right].
          left. unfold k. lia. }
        rewrite (zslice_head p m r off len) by (done || lia).
        fold k. replace (Z.min (m_len m - off) len) with k by (unfold k; lia).
        f_equal. destruct Hfull as [Hbig| ->]; [|done]. unfold zslice.
        rewrite !take_ge; [done| |]; rewrite length_drop; simpl;
          pose proof (zlen_bytes p r Hwr) as Hzl; unfold zlen in Hzl;
          [|unfold len'; rewrite Hl2; destruct (len =? M_COPYALL)]; unfold k in *; lia.
      * intros m' r' [= <- <-] _. exists n2, new. split; [done|]. split; [done|].
        intros Hcp. rewrite Hph2. by apply Hpl1.
Qed.

(** What a successful [m_copym] returns: the requested bytes, which the chain
    holds in full unless all was asked for, with a right packet header. *)
Definition copied (p p' : mpool) (c top : chain) (off0 len : Z) : Prop :=
  (len = M_COPYALL \/ off0 + len <= chain_len c) /\
  bytes p' top = zslice (bytes p c) off0 len /\
  (off0 = 0 -> pktlen_ok c -> pktlen_ok top).

Lemma mcfail_evolve R p H p' H' : evolve R p H p' H' -> evolve R p H (mcfail p') H'.
Proof using. intros [[? ? ? ? ?] ? ? ?]. by split. Qed.

Lemma m_copym_ok R p c off0 len :
  owns p R -> (forall m, m ∈ c -> m ∈ R) ->
  (forall a, refcnt p a + Z.of_nat (length c) < 32768) ->
  0 <= off0 -> 0 <= len <= M_COPYALL -> chain_len c < M_COPYALL ->
  exists top p', m_copym mget c off0 len p = Some (top, p') /\ evolve R p [] p' top /\
    (top <> [] -> copied p p' c top off0 len).
Proof using All.
  intros Ho Hin Hrc Hoff Hlen Hc. unfold m_copym.
  assert (Hnull : exists top p', Some ([], mcfail p) = Some (top, p') /\
    evolve R p [] p' top /\ (top <> [] -> copied p p' c top off0 len)).
  { exists [], (mcfail p). split; [done|]. split; [|done].
    by apply mcfail_evolve, evolve_refl. }
  destruct (_ || _) eqn:?; [exact Hnull|]. destruct c as [|h c0]; [exact Hnull|].
  pose proof (owns_wf _ _ Ho) as Hw. rewrite Forall_forall in Hw.
  assert (Hwc : Forall (wf_mbuf p) (h :: c0)) by (apply Forall_forall; auto).
  set (c := h :: c0) in *.
  pose proof (skip_ok p off0 c Hwc ltac:(lia)) as Hs.
  destruct (skip off0 c) as [[off m]|] eqn:Hskip; [|exact Hnull]. clear Hnull.
  destruct Hs as (pre & Hpre & Hoffs & Hoff0 & Hpos).
  set (copyhdr := (off0 =? 0) && has h M_PKTHDR).
  assert (Hpre0 : off0 = 0 -> m = c).
  { intros ->. unfold c in *. simpl in Hskip. congruence. }
  assert (Hsub : forall x, x ∈ m -> x ∈ c) by (intros x Hx; rewrite Hpre; apply elem_of_app; by right).
  assert (Hlc : chain_len c = chain_len pre + chain_len m) by (by rewrite Hpre, chain_len_app).
  assert (Hwp : Forall (wf_mbuf p) pre) by (rewrite Hpre in Hwc; by apply Forall_app in Hwc as [? _]).
  pose proof (chain_len_nonneg p pre Hwp).
  destruct (decide (len = 0)) as [->|Hlen0].
  { exists [], (mcfail p). split; [by destruct m|]. split; [|done].
    by apply mcfail_evolve, evolve_refl. }
  destruct (copym_loop_ok R m p [] copyhdr off0 off len) as (ok & top & p' & -> & Hev & Hok);
    try done; try lia.
  { intros x Hx. auto. }
  { intros x r -> Hcp. unfold copyhdr in Hcp. apply andb_true_iff in Hcp as [H0 Hh].
    specialize (Hpre0 ltac:(lia)). unfold c in Hpre0. congruence. }
  { intros a. specialize (Hrc a). rewrite Hpre, length_app in Hrc. lia. }
  cbn [mbind option_bind]. destruct ok.
  - destruct (Hok eq_refl) as (Hfit & new & Htop & Hnew & _ & Hlead). simpl in Htop. subst new.
    destruct top as [|n t].
    { exists [], (mcfail p'). split; [done|]. split; [by apply mcfail_evolve|done]. }
    exists (n :: t), p'. split; [done|]. split; [done|]. intros _. split; [|split].
    + destruct Hfit; [by left|right; lia].
    + rewrite Hnew, Hpre. symmetry. apply zslice_skip; done || lia.
    + intros -> Hpk. specialize (Hpre0 eq_refl). subst m.
      destruct (Hlead h c0 eq_refl ltac:(lia)) as (n' & t' & [= <- <-] & Hhas & Hpl).
      unfold pktlen_ok. rewrite Hhas. intros Hcp. rewrite (Hpl Hcp).
      pose proof (owns_wf _ _ (ev_owns _ _ _ _ _ Hev)) as Hwn.
      apply Forall_app in Hwn as [Hwn _]. rewrite <- (zlen_bytes p' (n :: t) Hwn), Hnew.
      replace off with 0 by (change (chain_len (h :: c0)) with (chain_len c) in *; lia).
      pose proof (zlen_bytes p c Hwc) as Hzl.
      destruct (len =? M_COPYALL) eqn:Hall.
      * rewrite Z.sub_0_r. unfold copyhdr in Hcp. apply andb_true_iff in Hcp as [_ Hh].
        rewrite (Hpk Hh), zslice_full; [done|]. rewrite Hzl. lia.
      * rewrite zslice_len by (rewrite ?Hzl; lia). done.
  - exists [], (mcfail (m_freem top p')). split; [done|]. split; [|done].
    eapply mcfail_evolve, evolve_trans; [exact Hev|]. apply m_freem_ok.
    apply (ev_owns _ _ _ _ _ Hev).
Qed.

(** ** [m_pullup] *)

Lemma pullup_count len mp space l :
  0 <= space <= MLEN -> 0 <= l < 2147483648 -> len <= space ->
  let count := s32 (umin (umin (umax len mp) space) l) in
  0 <= count <= l /\ count <= space /\ (count < l -> 0 < len -> len <= count).
Proof using.
  intros ??? count. unfold umin, umax, MLEN in *.
  pose proof (u32_range len). pose proof (u32_range mp).
  assert (Hc : count = Z.min (Z.min (Z.max (u32 len) (u32 mp)) space) l).
  { unfold count. unfold umin, umax. rewrite (u32_small space), (u32_small l) by lia.
    rewrite (u32_small (Z.max _ _)), (u32_small (Z.min _ _)) by lia.
    apply s32_small. lia. }
  split; [lia|]. split; [lia|]. intros. rewrite (u32_small len) in Hc by lia. lia.
Qed.

Lemma pullup_loop_ok R fuel : forall m n len space p,
  owns p ((m :: n) ++ R) -> n <> [] -> (length n <= fuel)%nat -> has m M_EXT = false ->
  space = MLEN - (m_data m + m_len m) -> len <= space -> chain_len n < 2147483648 ->
  exists m' n' len' p', pullup_loop fuel m n len space p = Some (m', n', len', p') /\
    evolve R p (m :: n) p' (m' :: n') /\ bytes p' (m' :: n') = bytes p (m :: n) /\
    same_hdr m m' /\ m_len m' = m_len m + (len - len') /\ (len' <= 0 \/ n' = []).
Proof using.
  induction fuel as [|fuel IH]; intros m n len space p Ho Hn Hf Hx Hsp Hl Hc;
    (destruct n as [|h r]; [done|]); [simpl in Hf; lia|].
  pose proof (owns_wf _ _ Ho) as Hw. simpl in Hw.
  apply Forall_cons in Hw as [Hm [Hh Hr]%Forall_cons]. apply Forall_app in Hr as [Hr _].
  change (chain_len (h :: r)) with (m_len h + chain_len r) in Hc.
  pose proof (chain_len_nonneg p r Hr). pose proof Hh as (_ & ? & _).
  assert (0 <= space <= MLEN).
  { destruct Hm as (_&?&?&_&Hd&Hst&_). rewrite storage_eq, Hx in Hst. lia. }
  destruct (pullup_count len (max_protohdr p) space (m_len h)) as (Hc1 & Hc2 & Hc3); try lia.
  cbn [pullup_loop]. set (count := s32 _) in *.
  rewrite (m_read_ok p h 0 count Hh) by lia. cbn [mbind option_bind].
  assert (Hsl : zlen (zslice (mbuf_bytes p h) 0 count) = count)
    by (apply zslice_len; rewrite ?zlen_mbuf_bytes by done; lia).
  destruct (m_append_ok p m (zslice (mbuf_bytes p h) 0 count) Hm Hx)
    as (m1 & -> & Hl1 & Hd1 & Hwf & Hsame & Hb); [lia|].
  cbn [mbind option_bind]. rewrite Hl1. rewrite Hsl in Hwf, Hsame, Hb.
  set (m2 := m1 <| m_len ::= m_len m + count |>) in *.
  change (m_len (h <| m_len ::= m_len h - count |>)) with (m_len h - count).
  assert (Hm2x : has m2 M_EXT = false).
  { destruct Hsame as (_ & Hfl & _). unfold has. rewrite Hfl. exact Hx. }
  assert (Hhead : mbuf_bytes p h = zslice (mbuf_bytes p h) 0 count ++ drop (Z.to_nat count) (mbuf_bytes p h)).
  { unfold zslice. rewrite drop_0. by rewrite take_drop. }
  destruct (m_len h - count =? 0) eqn:Hz; cbn [negb].
  - (* the mbuf is used up and freed *)
    assert (Hcount : count = m_len h) by lia.
    set (h2 := h <| m_len ::= _ |>).
    assert (Hev1 : evolve R p (m :: h :: r) p (m2 :: h2 :: r)).
    { apply evolve_in; [|apply Forall_cons_2; [done|apply Forall_cons_2; [|done]]|done].
      - constructor; [apply Hsame|]. constructor; [done|apply same_ids_refl].
      - unfold h2. replace (m_len h - count) with 0 by lia. by apply empty_wf. }
    assert (Ho2 : owns p (h2 :: (m2 :: r) ++ R)).
    { pose proof (ev_owns _ _ _ _ _ Hev1) as Ho1. simpl in Ho1 |- *.
      revert Ho1. apply owns_Permutation, perm_swap. }
    destruct (m_free_ok ((m2 :: r) ++ R) p h2 r Ho2) as (p2 & -> & Hfree).
    assert (Hev2 : evolve R p (m :: h :: r) p2 (m2 :: r)).
    { eapply evolve_trans; [exact Hev1|].
      eapply evolve_perm; [| |exact (evolve_frame R (m2 :: r) p [h2] p2 [] Hfree)]; [|done].
      apply perm_swap. }
    assert (Hkeep : bytes p2 (m2 :: r) = bytes p (m :: h :: r)).
    { rewrite (bytes_same p p2 (m2 :: r)).
      - rewrite !bytes_cons, Hb, zslice_full; [by rewrite <- app_assoc|].
        rewrite zlen_mbuf_bytes by done. lia.
      - intros y Hy. apply (ev_bytes _ _ _ _ _ Hfree), elem_of_app. by left. }
    destruct r as [|h' r'].
    + exists m2, [], (len - count), p2. split; [done|].
      split_and!; try done; [change (m_len m2) with (m_len m + count); lia|by right].
    + destruct (0 <? len - count) eqn:Hmore.
      * destruct (IH m2 (h' :: r') (len - count) (space - count) p2)
          as (m' & n' & len' & p' & -> & Hev & Hbytes & Hs & Hml & Hend); try done.
        -- apply (ev_owns _ _ _ _ _ Hev2).
        -- simpl in Hf |- *. lia.
        -- change (m_len m2) with (m_len m + count).
           change (m_data m2) with (m_data m1). lia.
        -- lia.
        -- lia.
        -- exists m', n', len', p'. split; [done|]. split; [by eapply evolve_trans|].
           split; [by rewrite Hbytes|]. split; [|split; [|done]].
           ++ destruct Hs as ([? Hi] & ? & ? & ?), Hsame as ([? Hi'] & ? & ? & ?).
              split; [split; [congruence|intros a; by rewrite Hi]|]. by repeat split; congruence.
           ++ rewrite Hml. change (m_len m2) with (m_len m + count). lia.
      * exists m2, (h' :: r'), (len - count), p2. split; [done|].
        split_and!; try done; [change (m_len m2) with (m_len m + count); lia|left; lia].
  - (* part of the mbuf stays *)
    set (h2 := h <| m_len ::= _ |> <| m_data ::= _ |>).
    assert (Hh2 : h2 = trim h count 0) by (unfold h2, trim; by rewrite Z.sub_0_r).
    assert (Hmore : (0 <? len - count) = false) by (destruct (decide (0 < len)); lia).
    rewrite Hmore. exists m2, (h2 :: r), (len - count), p. split; [done|].
    split; [|split; [|split; [done|split]]].
    + apply evolve_in; [|apply Forall_cons_2; [done|apply Forall_cons_2; [|done]]|done].
      * constructor; [apply Hsame|]. constructor; [done|apply same_ids_refl].
      * rewrite Hh2. apply trim_wf; done || lia.
    + rewrite !bytes_cons, Hb, Hh2, trim_head_bytes by (done || lia).
      rewrite (app_assoc _ _ (bytes p r)), <- (app_assoc (mbuf_bytes p m)), <- Hhead.
      by rewrite <- app_assoc.
    + change (m_len m2) with (m_len m + count). lia.
    + left. lia.
Qed.

Lemma mpfail_evolve R p H p' H' : evolve R p H p' H' -> evolve R p H (mpfail p') H'.
Proof using. intros [[? ? ? ? ?] ? ? ?]. by split. Qed.

(** The chain leads with [len] contiguous bytes, in an mbuf's own storage, and is otherwise
    the same. *)
Definition pulled (p p' : mpool) (h : mbuf) (c c' : chain) (len : Z) : Prop :=
  exists m r, c' = m :: r /\ len <= m_len m /\ bytes p' c' = bytes p c /\
    has m M_PKTHDR = has h M_PKTHDR /\ (has h M_PKTHDR = true -> m_pkthdr m = m_pkthdr h) /\
    has m M_EXT = false.

Lemma pullup_into_ok R fuel m n len p :
  owns p ((m :: n) ++ R) -> n <> [] -> (length n <= fuel)%nat -> has m M_EXT = false ->
  len <= MLEN - (m_data m + m_len m) -> chain_len n < 2147483648 ->
  exists c' p', pullup_into fuel m n len p = Some (c', p') /\ evolve R p (m :: n) p' c' /\
    ((c' = [] /\ chain_len n < len) \/ pulled p p' m (m :: n) c' (m_len m + len)).
Proof using.
  intros Ho Hn Hf Hx Hl Hc. unfold pullup_into.
  destruct (pullup_loop_ok R fuel m n len _ p Ho Hn Hf Hx eq_refl Hl Hc)
    as (m' & n' & len' & p' & -> & Hev & Hb & Hs & Hml & Hend).
  cbn [mbind option_bind]. pose proof (owns_wf _ _ (ev_owns _ _ _ _ _ Hev)) as Hw'.
  apply Forall_app in Hw' as [Hw' _].
  destruct (0 <? len') eqn:Hmore.
  - destruct Hend as [?| ->]; [lia|].
    destruct (m_free_ok R p' m' [] (ev_owns _ _ _ _ _ Hev)) as (p2 & -> & Hfree).
    exists [], (mpfail p2). split; [done|].
    split; [eapply mpfail_evolve, evolve_trans; [exact Hev|done]|]. left. split; [done|].
    pose proof (owns_wf _ _ Ho) as Hw. apply Forall_app in Hw as [Hw _].
    pose proof (zlen_bytes p (m :: n) Hw) as H1. rewrite <- Hb, zlen_bytes in H1 by done.
    change (chain_len (m :: n)) with (m_len m + chain_len n) in H1.
    change (chain_len [m']) with (m_len m' + 0) in H1. lia.
  - exists (m' :: n'), p'. split; [done|]. split; [done|]. right.
    exists m', n'. split; [done|]. split; [lia|]. split; [done|].
    destruct Hs as (_ & Hfl & Hph & _). split; [unfold has; by rewrite Hfl|].
    split; [by intros _|]. unfold has in *. by rewrite Hfl.
Qed.

Lemma m_pullup_ok R fuel h r len p :
  owns p ((h :: r) ++ R) -> (length (h :: r) <= fuel)%nat ->
  chain_len (h :: r) < 2147483648 ->
  exists c' p', m_pullup mget fuel (h :: r) len p = Some (c', p') /\
    evolve R p (h :: r) p' c' /\ (c' <> [] -> pulled p p' h (h :: r) c' len).
Proof using All.
  intros Ho Hf Hc. unfold m_pullup.
  pose proof (owns_wf _ _ Ho) as Hw. apply Forall_app in Hw as [Hw _].
  apply Forall_cons in Hw as [Hh Hr]. pose proof Hh as (? & Hlh & ? & Hfl & Hdat & Hst & Hph).
  change (chain_len (h :: r)) with (m_len h + chain_len r) in Hc.
  destruct (negb (has h M_EXT) && _ && _) eqn:Hinto.
  - apply andb_true_iff in Hinto as [[Hx Hroom]%andb_true_iff Hne].
    assert (Hxf : has h M_EXT = false) by by destruct (has h M_EXT).
    destruct (len <=? m_len h) eqn:Henough.
    { exists (h :: r), p. split; [done|]. split; [by apply evolve_refl|]. intros _.
      exists h, r. split_and!; done || lia. }
    destruct (pullup_into_ok R fuel h r (len - m_len h) p) as (c' & p' & Hp & Hev & Hres);
      try done; try lia; [by destruct r|simpl in Hf; lia|].
    exists c', p'. split; [done|]. split; [done|]. intros Hc'.
    destruct Hres as [[? _]|Hpl]; [done|].
    by replace (m_len h + (len - m_len h)) with len in Hpl by lia.
  - destruct (MHLEN <? len) eqn:Hbig.
    { exists [], (mpfail (m_freem (h :: r) p)). split; [done|]. split; [|done].
      by apply mpfail_evolve, m_freem_ok. }
    pose proof (mget_ok (m_type h) p _ ltac:(done) Ho) as Hg.
    destruct (mget (m_type h) p) as [[n|] p1]; cbn [fst snd].
    2: { destruct Hg as (_ & _ & Hev). eexists _, _. split; [done|]. split; [|done].
         apply mpfail_evolve. eapply evolve_trans; [exact (evolve_frame R (h :: r) p [] p1 [] Hev)|].
         apply m_freem_ok, (ev_owns _ _ _ _ _ Hev). }
    destruct Hg as (Hsame & _ & Ht & Hd & Hf0 & Hdn & Hev).
    destruct (Hsame h) as [Hbh Hwh]; [apply elem_of_app; left; by left|].
    destruct (clear_flags_ok p1 h (Z.lor M_PKTHDR M_CSUM_DONE) eq_refl eq_refl (Hwh Hh))
      as (Hwf1 & Hid1 & Hb1).
    set (n0 := n <| m_len ::= 0 |>). set (mm := if has h M_PKTHDR then _ else (n0, h)).
    assert (Hmm : m_addr mm.1 = m_addr n /\ has mm.1 M_EXT = false /\ m_len mm.1 = 0 /\
      has mm.1 M_PKTHDR = has h M_PKTHDR /\ (has h M_PKTHDR = true -> m_pkthdr mm.1 = m_pkthdr h) /\
      wf_mbuf p1 mm.1 /\ m_data mm.1 <= PKTHDR_SIZE /\
      same_id h mm.2 /\ wf_mbuf p1 mm.2 /\ mbuf_bytes p1 mm.2 = mbuf_bytes p1 h /\
      m_len mm.2 = m_len h).
    { assert (Hfw : forall x, m_type x = m_type h -> 0 <= m_flags x -> m_dat x = m_dat n ->
        has x M_EXT = false -> m_len x = 0 -> m_data x <= PKTHDR_SIZE ->
        (if has x M_PKTHDR then PKTHDR_SIZE else 0) <= m_data x -> wf_mbuf p1 x).
      { intros x Hxt ? Hxd ????. unfold MLEN, PKTHDR_SIZE in *.
        apply (fresh_wf p1 x 0); rewrite ?Hxd, ?Hxt; try done; unfold MLEN; lia. }
      unfold mm. destruct (has h M_PKTHDR) eqn:Hp; cbn [fst snd].
      - split_and!; try done; try apply has_copy_ext; try (rewrite has_copy_pkthdr; done).
        apply Hfw; try done; try apply has_copy_ext; [|rewrite has_copy_pkthdr, Hp; done].
        apply Z.land_nonneg. by left.
      - rewrite !has_0 by done. split_and!; try done; [|change (m_data n0) with (m_data n); rewrite Hd; done|by apply Hwh].
        apply Hfw; rewrite ?has_0 by done; try done.
        + change (m_flags n0) with (m_flags n). lia.
        + change (m_data n0) with (m_data n). rewrite Hd. done.
        + change (m_data n0) with (m_data n). rewrite Hd. done. }
    destruct mm as [m1 h1]. cbn [fst snd] in Hmm.
    destruct Hmm as (Ha & Hx & Hl0 & Hp & Hpk & Hwm & Hdm & Hid & Hwh1 & Hbh1 & Hlh1).
    assert (Hev3 : evolve R p (h :: r) p1 (m1 :: h1 :: r)).
    { pose proof (Hev m1 Ha Hx Hwm) as Hev1.
      eapply evolve_retouch; [| |exact (evolve_frame R (h :: r) p [] p1 [m1] Hev1)].
      - constructor; [done|]. constructor; [done|apply same_ids_refl].
      - apply Forall_cons_2; [done|]. apply Forall_cons_2; [done|].
        apply Forall_forall. intros x Hx'. apply Hsame; [apply elem_of_app; left; by right|].
        rewrite Forall_forall in Hr. by apply Hr. }
    destruct (pullup_into_ok R fuel m1 (h1 :: r) len p1) as (c' & p' & Hpi & Hev4 & Hres); try done.
    + apply (ev_owns _ _ _ _ _ Hev3).
    + rewrite Hl0. unfold MLEN, MHLEN, PKTHDR_SIZE in *. lia.
    + change (chain_len (h1 :: r)) with (m_len h1 + chain_len r). lia.
    + exists c', p'. split; [done|]. split; [by eapply evolve_trans|]. intros Hc'.
      destruct Hres as [[? _]|(m' & r' & -> & Hlen & Hb & Hp' & Hpk' & Hx')]; [done|].
      exists m', r'. split; [done|]. split; [lia|]. split.
      * rewrite Hb, bytes_cons, (mbuf_bytes_0 p1 m1) by done. cbn [app].
        rewrite bytes_cons, Hbh1, <- bytes_cons. apply bytes_same. intros x Hin.
        apply Hsame, elem_of_app. by left.
      * rewrite Hp', Hp. split; [done|]. split; [|done]. intros Hhp. rewrite Hpk' by (by rewrite Hp). by apply Hpk.
Qed.
End alloc_ops.

(** * The properties *)

Lemma m_adj_pktlen p c req :
  Forall (wf_mbuf p) c -> pktlen_ok c -> 0 <= req \/ last_len c < - req ->
  pktlen_ok (m_adj c req).
Proof.
  intros Hc Hpk Hreq. destruct (m_adj_ok p c req Hc) as (Hb & _ & Hw).
  apply zlen_bytes in Hw. rewrite Hb in Hw. unfold adj_spec in Hw.
  unfold m_adj in *. destruct c as [|h0 c0]; [done|].
  set (c := h0 :: c0) in *. pose proof (zlen_bytes p c Hc) as Hl.
  pose proof (chain_len_nonneg p c Hc).
  destruct (0 <=? req) eqn:?.
  - pose proof (adj_head_ok p req c Hc ltac:(lia)) as Ha.
    destruct (adj_head req c) as [lft c'].
    destruct Ha as (Hlft & _ & _ & _ & Hfl & Hph). destruct c' as [|m r]; [done|].
    injection Hfl as Hfl _. injection Hph as Hph _. unfold pktlen_ok in *.
    assert (Hh : forall x, has (if has h0 M_PKTHDR then set_pktlen m x else m) M_PKTHDR = has h0 M_PKTHDR).
    { intros x. transitivity (has m M_PKTHDR); [by case_match|].
      unfold has. by rewrite Hfl. }
    rewrite Hh. intros Hp. specialize (Hpk Hp). rewrite <- Hw, Hp.
    unfold zlen in *. rewrite length_drop. cbn [set_pktlen m_pkthdr ph_len field_map].
    change (m_pkthdr (set_pktlen m ?x)) with (m_pkthdr m <| ph_len ::= x |>). cbn [ph_len].
    change (ph_len (m_pkthdr m <| ph_len ::= ?x |>)) with x. rewrite Hph, Hpk, Hlft. lia.
  - destruct (- req <=? last_len c) eqn:?; [lia|].
    set (count := Z.max 0 (chain_len c - - req)) in *. unfold pktlen_ok.
    set (h1 := if has h0 M_PKTHDR then set_pktlen h0 count else h0) in *.
    assert (Hk : exists x r, adj_keep count (h1 :: c0) = x :: r /\ m_flags x = m_flags h1 /\ m_pkthdr x = m_pkthdr h1).
    { cbn [adj_keep]. destruct (count <=? m_len h1); by eexists _, _. }
    destruct Hk as (x & r & Hk & Hfx & Hpx). rewrite Hk in *. rewrite <- Hw, Hpx.
    assert (Hhas : has x M_PKTHDR = has h0 M_PKTHDR).
    { transitivity (has h1 M_PKTHDR); [unfold has; by rewrite Hfx|].
      unfold h1. destruct (has h0 M_PKTHDR) eqn:E; exact E. }
    rewrite Hhas. intros Hp. unfold h1. rewrite Hp.
    change (ph_len (m_pkthdr (set_pktlen h0 count))) with count. unfold count.
    unfold zlen in *. rewrite length_take. lia.
Qed.

(** C10.  [m_adj] removes exactly the requested octets (clamped to what the
    chain holds) from the head or the tail of a chain of any shape, in place,
    with every length inside its storage.  The packet header's total stays right
    for every head trim and for a tail trim that crosses into an earlier mbuf;
    see [m_adj_stale_pktlen] for the other tail trims. *)
Theorem m_adj_correct p c req :
  Forall (wf_mbuf p) c ->
  let c' := m_adj c req in
  bytes p c' = adj_spec req (bytes p c) /\ Forall2 same_id c c' /\ Forall (wf_mbuf p) c' /\
  (pktlen_ok c -> 0 <= req \/ last_len c < - req -> pktlen_ok c').
Proof.
  intros Hc c'. destruct (m_adj_ok p c req Hc) as (?&?&?). split_and!; try done.
  by apply (m_adj_pktlen p).
Qed.

(** A small pool: five slots of one chunk, two free, two mbufs of a packet held
    (the second in a cluster) and one loose mbuf. *)
Definition demo_mbuf (addr len data flags plen cl : Z) : mbuf :=
  mk_mbuf addr len data 1 flags (mk_pkthdr plen 0 0) (mk_mext cl 16)
    (map Z.of_nat (seq 0 108)).
Definition demo_pool : mpool :=
  mk_mpool (mk_mbconf 2 64 4 256 2048)
    [demo_mbuf 4224 0 0 0 0 0; demo_mbuf 4352 0 0 0 0 0] []
    {[ 9000 := mk_mcluster 1 (map Z.of_nat (seq 200 16)) ]}
    (mk_mbstat 5 1 0 0 652 (repeat 0 16)) [mk_memHeader 4096 780 true] true
    false false 0 0 0 0 0 40.
Definition demo_chain : chain :=
  [demo_mbuf 4480 5 20 M_PKTHDR 9 0; demo_mbuf 4608 4 3 M_EXT 0 9000].
Definition demo_loose : mbuf := demo_mbuf 4736 3 0 0 0 0.

Lemma demo_wf : Forall (wf_mbuf demo_pool) (demo_chain ++ [demo_loose]).
Proof.
  repeat apply Forall_cons_2; try apply Forall_nil_2;
    vm_compute; repeat split; try discriminate; try done.
Qed.
Lemma demo_owns : owns demo_pool (demo_chain ++ [demo_loose]).
Proof.
  split.
  - split; [|repeat apply Forall_cons_2; done].
    apply (bool_decide_unpack _). vm_compute. exact I.
  - exact demo_wf.
  - repeat apply Forall_cons_2; done.
  - intros a. unfold refcnt, demo_pool. cbn [mcls].
    destruct (decide (a = 9000)) as [->|Ha].
    + rewrite lookup_singleton_eq. vm_compute. discriminate.
    + rewrite lookup_singleton_ne by done.
      change (refs (demo_chain ++ [demo_loose]) a) with (0 + ((if 9000 =? a then 1 else 0) + (0 + 0))).
      destruct (9000 =? a) eqn:?; lia.
  - intros a. unfold refcnt, demo_pool. cbn [mcls mclfree].
    split; [|by intros ?%elem_of_nil].
    destruct (decide (a = 9000)) as [->|Ha].
    + by rewrite lookup_singleton_eq.
    + by rewrite lookup_singleton_ne.
Qed.

Lemma m_adj_correct_witness :
  bytes demo_pool (m_adj demo_chain (-6)) = [20; 21; 22] /\
  pktlen_ok (m_adj demo_chain (-6)).
Proof.
  assert (Hw : Forall (wf_mbuf demo_pool) demo_chain)
    by (apply (Forall_app _ demo_chain [demo_loose]), demo_wf).
  split; [vm_compute; reflexivity|].
  refine (proj2 (proj2 (proj2 (m_adj_correct demo_pool demo_chain (-6) Hw))) _ _).
  - vm_compute. reflexivity.
  - right. vm_compute. reflexivity.
Defined.

(** A tail trim that only shortens the last of several mbufs tests the flags of
    that last mbuf: the total in the packet header, in the first mbuf, is left
    unchanged. *)
Example m_adj_stale_pktlen :
  bytes demo_pool (m_adj demo_chain (-1)) = [20; 21; 22; 23; 24; 203; 204; 205] /\
  ph_len (m_pkthdr (hd demo_loose (m_adj demo_chain (-1)))) = 9.
Proof. vm_compute. split; reflexivity. Qed.

(** C11.  [m_copym] never reads or writes outside an mbuf; the copy holds
    exactly the requested bytes with a right packet header, shares clusters (one
    more reference each, no bytes copied) and leaves the source untouched; when
    the chain is too short or the pool runs dry it returns [NULL] having given
    back every mbuf and every cluster reference.  It is proved for every
    allocator that meets [Allocator]. *)
Theorem m_copym_correct mget `{!Allocator mget} R p c off0 len :
  owns p R -> (forall m, m ∈ c -> m ∈ R) ->
  (forall a, refcnt p a + Z.of_nat (length c) < 32768) ->
  0 <= off0 -> 0 <= len <= M_COPYALL -> chain_len c < M_COPYALL ->
  exists top p', m_copym mget c off0 len p = Some (top, p') /\ evolve R p [] p' top /\
    (top <> [] -> copied p p' c top off0 len).
Proof. intros. by apply m_copym_ok. Qed.

Lemma demo_refcnt a : refcnt demo_pool a <= 1.
Proof.
  unfold refcnt, demo_pool. cbn [mcls]. destruct (decide (a = 9000)) as [->|Ha].
  - by rewrite lookup_singleton_eq.
  - by rewrite lookup_singleton_ne.
Qed.

Lemma m_copym_correct_witness :
  exists top p', m_copym MGET_list demo_chain 3 5 demo_pool = Some (top, p') /\
    evolve (demo_chain ++ [demo_loose]) demo_pool [] p' top /\
    bytes p' top = [23; 24; 203; 204; 205].
Proof.
  destruct (m_copym_correct MGET_list (demo_chain ++ [demo_loose]) demo_pool demo_chain 3 5)
    as (top & p' & H1 & H2 & H3).
  - exact demo_owns.
  - intros m Hm. apply elem_of_app. by left.
  - intros a. pose proof (demo_refcnt a). cbn [length demo_chain]. lia.
  - lia.
  - vm_compute. split; discriminate.
  - vm_compute. reflexivity.
  - exists top, p'. split; [exact H1|]. split; [exact H2|].
    assert (Htop : top <> []) by (intros ->; vm_compute in H1; discriminate).
    destruct (H3 Htop) as (_ & Hb & _). rewrite Hb. vm_compute. reflexivity.
Defined.

(** C12.  [m_pullup] makes the first [len] bytes of any chain contiguous in
    the first mbuf's own storage without changing, losing or reordering a byte, keeps the packet
    header on the first mbuf, and terminates (one iteration per mbuf); it fails
    only by giving the whole chain back to the pool. *)
Theorem m_pullup_correct mget `{!Allocator mget} R fuel h r len p :
  owns p ((h :: r) ++ R) -> (length (h :: r) <= fuel)%nat ->
  chain_len (h :: r) < 2147483648 ->
  exists c' p', m_pullup mget fuel (h :: r) len p = Some (c', p') /\
    evolve R p (h :: r) p' c' /\ (c' <> [] -> pulled p p' h (h :: r) c' len).
Proof. intros. by apply m_pullup_ok. Qed.

Lemma m_pullup_correct_witness :
  exists c' p', m_pullup MGET_list 2 demo_chain 8 demo_pool = Some (c', p') /\
    evolve [demo_loose] demo_pool demo_chain p' c' /\
    map m_len c' = [9] /\ bytes p' c' = bytes demo_pool demo_chain.
Proof.
  destruct (m_pullup_correct MGET_list [demo_loose] 2 (hd demo_loose demo_chain)
    (tl demo_chain) 8 demo_pool) as (c' & p' & H1 & H2 & H3).
  - exact demo_owns.
  - simpl. lia.
  - vm_compute. reflexivity.
  - exists c', p'. split; [exact H1|]. split; [exact H2|].
    assert (Hc : map m_len c' = [9]) by (vm_compute in H1; injection H1 as <- _; reflexivity).
    split; [exact Hc|]. destruct H3 as (m & r & _ & _ & Hb & _); [intros ->; discriminate|].
    exact Hb.
Defined.

(** [m_cat] concatenates: the result reads as the bytes of [m] followed
    by the bytes of [n], under [m]'s packet header; data is copied only into free
    room of [m]'s last mbuf, never past its end, and exactly the emptied mbufs
    return to the pool. *)
Theorem m_cat_correct R m n p :
  m <> [] -> owns p ((m ++ n) ++ R) ->
  exists c p', m_cat m n p = Some (c, p') /\ evolve R p (m ++ n) p' c /\
    bytes p' c = bytes p m ++ bytes p n /\
    exists h h' r, head m = Some h /\ c = h' :: r /\ same_hdr h h'.
Proof. apply m_cat_ok. Qed.

Lemma m_cat_correct_witness :
  exists c p', m_cat [demo_loose] demo_chain demo_pool = Some (c, p') /\
    evolve [] demo_pool (demo_loose :: demo_chain) p' c /\
    bytes p' c = [0; 1; 2; 20; 21; 22; 23; 24; 203; 204; 205; 206] /\
    length (mfree p') = 4%nat.
Proof.
  destruct (m_cat_correct [] [demo_loose] demo_chain demo_pool) as (c & p' & H1 & H2 & H3 & _).
  - discriminate.
  - pose proof demo_owns as H. revert H. apply owns_Permutation.
    rewrite app_nil_r. symmetry. apply (Permutation_app_comm demo_chain [demo_loose]).
  - exists c, p'. split; [exact H1|]. split; [exact H2|]. split; [rewrite H3; vm_compute; reflexivity|].
    vm_compute in H1. injection H1 as _ <-. reflexivity.
Defined.

(** C13.  [M_PREPEND] makes room for [plen] bytes in front of a packet: the old
    bytes follow the new room, the packet header moves to the first mbuf with its
    total increased by [plen], and a request the mbuf cannot serve ([m_prepend]'s
    bound) or that finds the pool empty frees the packet. *)
Theorem M_PREPEND_correct mget `{!Allocator mget} R h r plen p :
  owns p ((h :: r) ++ R) -> 0 <= plen ->
  let '(c', p') := M_PREPEND mget (h :: r) plen p in
  evolve R p (h :: r) p' c' /\
  (c' <> [] -> drop (Z.to_nat plen) (bytes p' c') = bytes p (h :: r) /\
               chain_len c' = plen + chain_len (h :: r) /\
               (pktlen_ok (h :: r) -> pktlen_ok c')).
Proof.
  intros Ho Hp. unfold M_PREPEND.
  pose proof (owns_wf _ _ Ho) as Hw. apply Forall_app in Hw as [Hw _].
  pose proof Hw as [Hh Hr]%Forall_cons.
  change (chain_len (h :: r)) with (m_len h + chain_len r).
  assert (Htot : forall (m : mbuf) c, let m' := (if has m M_PKTHDR then set_pktlen m (ph_len (m_pkthdr m) + plen) else m) in
     same_id m m' /\ (forall q, wf_mbuf q m -> wf_mbuf q m') /\
     (forall q, bytes q (m' :: c) = bytes q (m :: c)) /\ chain_len (m' :: c) = chain_len (m :: c) /\
     has m' M_PKTHDR = has m M_PKTHDR /\
     (has m M_PKTHDR = true -> ph_len (m_pkthdr m') = ph_len (m_pkthdr m) + plen)).
  { intros m c m'. unfold m'. destruct (has m M_PKTHDR) eqn:E; by split_and!. }
  destruct (plen <=? M_LEADINGSPACE h) eqn:Hroom.
  - set (h1 := h <| m_data ::= _ |> <| m_len ::= _ |>).
    destruct (Htot h1 r) as (Hid & Hwf & Hb & Hcl & Hhas & Hpl).
    fold (set_pktlen h1 (ph_len (m_pkthdr h1) + plen)).
    set (h2 := if has h1 M_PKTHDR then _ else h1) in *.
    assert (Hplen : plen <= m_data h - (if has h M_PKTHDR && negb (has h M_EXT) then PKTHDR_SIZE else 0)).
    { destruct Hh as (_&_&?&_). unfold M_LEADINGSPACE in Hroom.
      destruct (has h M_EXT), (has h M_PKTHDR); simpl; lia. }
    assert (Hw1 : wf_mbuf p h1).
    { destruct Hh as (?&?&?&?&?&?&Hx). unfold wf_mbuf.
      change (storage p h1) with (storage p h). change (has h1) with (has h).
      change (m_data h1) with (m_data h - plen). change (m_len h1) with (m_len h + plen).
      change (m_type h1) with (m_type h). change (m_flags h1) with (m_flags h).
      change (m_dat h1) with (m_dat h).
      destruct (has h M_EXT), (has h M_PKTHDR); simpl in *; unfold PKTHDR_SIZE in *;
        split_and!; lia || (intros; lia). }
    assert (Hht : trim h1 plen 0 = h).
    { unfold trim. change (m_data h1) with (m_data h - plen).
      change (m_len h1) with (m_len h + plen). rewrite Z.sub_0_r.
      replace (m_len h + plen - plen) with (m_len h) by lia.
      replace (m_data h - plen + plen) with (m_data h) by lia. by destruct h. }
    split.
    + apply evolve_in; [constructor; [done|apply same_ids_refl]|apply Forall_cons_2; [by apply Hwf|done]|done].
    + intros _. rewrite Hb. split; [|split].
      * pose proof Hh as (_ & ? & _).
        destruct (bytes_split_lt p h1 r plen Hw1) as [-> _];
          [change (m_len h1) with (m_len h + plen); lia|].
        rewrite <- trim_head_bytes, Hht by (done || change (m_len h1) with (m_len h + plen); lia).
        by rewrite bytes_cons.
      * rewrite Hcl. change (chain_len (h1 :: r)) with (m_len h + plen + chain_len r). lia.
      * unfold pktlen_ok. rewrite Hhas. intros Hpk Hx.
        rewrite (Hpl Hx). change (m_pkthdr h1) with (m_pkthdr h).
        rewrite (Hpk Hx), Hcl. change (chain_len (h1 :: r)) with (m_len h + plen + chain_len r).
        change (chain_len (h :: r)) with (m_len h + chain_len r). lia.
  - pose proof (m_prepend_ok mget R h r plen p Ho) as Hpre.
    destruct (m_prepend mget (h :: r) plen p) as [c p'].
    destruct Hpre as [[-> Hev]|(mn & m' & -> & Hb & Hev & Hlen & Hbytes & Hl' & Hhas & Hpk)]; [done|].
    destruct (Htot mn (m' :: r)) as (Hid & Hwf & Hbt & Hcl & Hhas2 & Hpl).
    fold (set_pktlen mn (ph_len (m_pkthdr mn) + plen)).
    set (m2 := if has mn M_PKTHDR then _ else mn) in *.
    pose proof (owns_wf _ _ (ev_owns _ _ _ _ _ Hev)) as Hw'. apply Forall_app in Hw' as [Hw' _].
    pose proof Hw' as [Hmn Hw2]%Forall_cons.
    assert (Hcl2 : chain_len (m2 :: m' :: r) = plen + (m_len h + chain_len r)).
    { rewrite Hcl. change (chain_len (mn :: m' :: r)) with (m_len mn + (m_len m' + chain_len r)). lia. }
    split; [|intros _; split; [|split]].
    + eapply evolve_retouch; [| |exact Hev].
      * constructor; [done|apply same_ids_refl].
      * apply Forall_cons_2; [by apply Hwf|done].
    + rewrite Hbt. destruct (bytes_split_l p' mn (m' :: r) plen Hmn) as [-> _]; [lia|].
      rewrite Hlen, Z.sub_diag. simpl. rewrite drop_0. exact Hbytes.
    + exact Hcl2.
    + unfold pktlen_ok. rewrite Hhas2, Hhas. intros Hpl0 Hx.
      rewrite Hpl, Hpk, Hpl0 by (done || by rewrite Hhas).
      rewrite Hcl2. change (chain_len (h :: r)) with (m_len h + chain_len r). lia.
Qed.

Lemma M_PREPEND_correct_witness :
  let '(c', p') := M_PREPEND MGET_list demo_chain 20 demo_pool in
  evolve [demo_loose] demo_pool demo_chain p' c' /\
  map m_len c' = [20; 5; 4] /\ ph_len (m_pkthdr (hd demo_loose c')) = 29.
Proof.
  pose proof (M_PREPEND_correct MGET_list [demo_loose] (hd demo_loose demo_chain)
    (tl demo_chain) 20 demo_pool) as H.
  specialize (H demo_owns ltac:(lia)).
  change (hd demo_loose demo_chain :: tl demo_chain) with demo_chain in H.
  destruct (M_PREPEND MGET_list demo_chain 20 demo_pool) as [c' p'] eqn:E.
  split; [exact (proj1 H)|]. vm_compute in E. injection E as <- _. split; reflexivity.
Defined.

(** [m_memused] is what the blocks from [AllocMem] add up to. *)
Definition mem_accounted (p : mpool) : Prop :=
  m_memused (stat p) = u32 (foldr (fun h n => mh_size h + n) 0 (mbufmem p)).

Lemma mem_accounted_add p p' h :
  mbufmem p' = h :: mbufmem p -> m_memused (stat p') = u32 (m_memused (stat p) + mh_size h) ->
  mem_accounted p -> mem_accounted p'.
Proof.
  unfold mem_accounted. intros -> -> ->. cbn [foldr]. unfold u32. rewrite Zplus_mod_idemp_l. f_equal. lia.
Qed.

(** C14.  Growing the pool is safe for every count: the size guard excludes
    wrap-around, so on success the [howmany] new mbufs are distinct MSIZE-aligned
    slots that lie inside the block [AllocMem] returned, none of them already
    free or held, each accepted by [m_valid], and the counters follow: [m_memused] has
    grown by the block's size and is within [maxmem], [m_mbufs] by [howmany], and
    [m_memused] is still the size of all blocks if it was; on failure nothing changes.
    [R] is everything the stack holds. *)
Theorem m_alloc_correct AllocMem junk howmany p R :
  (forall mem size mh, AllocMem mem size = Some mh ->
     0 < mh /\ mh + size < 4294967296 /\ Forall (disjoint_from mh size) mem) ->
  howmany < 2147483648 -> owns p R ->
  let '(ok, p') := m_alloc AllocMem junk howmany p in
  evolve R p [] p' [] /\
  (ok = false -> p' = p) /\
  (ok = true -> exists h base, mbufmem p' = h :: mbufmem p /\ mh_ismbuf h = true /\
     mh_size h = MSIZE * (howmany + 1) + MEMHEADER_SIZE /\
     m_memused (stat p') = u32 (m_memused (stat p) + mh_size h) /\ m_memused (stat p') <= u32 (maxmem (conf p) * 1024) /\
     (mem_accounted p -> mem_accounted p') /\
     m_mbufs (stat p') = u32 (m_mbufs (stat p) + howmany) /\ conf p' = conf p /\
     mclfree p' = mclfree p /\ mcls p' = mcls p /\
     map m_addr (mfree p') ≡ₚ slots (Z.to_nat howmany) base ++ map m_addr (mfree p) /\
     (forall a, In a (slots (Z.to_nat howmany) base) ->
        mh_addr h + MEMHEADER_SIZE <= a /\ a + MSIZE <= mh_addr h + mh_size h /\
        a mod MSIZE = 0)).
Proof.
  intros HAlloc Hmax Ho. pose proof (m_alloc_ok AllocMem junk HAlloc howmany p R Hmax Ho) as Hev.
  unfold m_alloc in *. destruct ((howmany <=? 0) || _) eqn:Hg; [by split_and!|].
  destruct (u32 (maxmem _ * _) <? _) eqn:Hmem; [by split_and!|].
  destruct (AllocMem _ _) as [mh|]; [|by split_and!]. cbn [snd] in Hev.
  split; [done|]. split; [done|]. intros _. rewrite m_alloc_size_ok in * by lia.
  destruct (dtom_spec mh) as [Hbase Hal].
  eexists _, (dtom (mh + MEMHEADER_SIZE + MSIZE - 1)). split; [reflexivity|]. cbn [mh_addr mh_size mh_ismbuf].
  split; [done|]. split; [done|]. split; [done|]. split; [change (u32 (m_memused (stat p) + m_alloc_size howmany) <= u32 (maxmem (conf p) * 1024)); lia|].
  split; [by apply (mem_accounted_add p _ (mk_memHeader mh (m_alloc_size howmany) true))|]. split; [done|]. split; [done|]. split; [done|]. split; [done|].
  split; [apply push_mbufs_addr|].
  intros a Ha%slots_In. unfold m_alloc_size, MSIZE, MEMHEADER_SIZE in *.
  rewrite Z2Nat.id in Ha by lia. split_and!; [lia..|].
  set (base := dtom _) in *. replace a with (a - base + base) by lia. rewrite Z.add_mod by lia.
  destruct Ha as (_ & _ & ->). by rewrite Hal.
Qed.

(** A block high in memory, clear of [demo_pool]'s chunk. *)
Definition demo_AllocMem (mem : list memHeader) (size : Z) : option Z :=
  if (forallb (fun h => mh_addr h + mh_size h <=? 1000000) mem) && (size <? 1000000)
  then Some 1000000 else None.

Lemma m_alloc_correct_witness :
  let '(ok, p') := m_alloc demo_AllocMem (fun _ => demo_loose) 3 demo_pool in
  ok = true /\ evolve (demo_chain ++ [demo_loose]) demo_pool [] p' [] /\
  map m_addr (mfree p') = [1000320; 1000192; 1000064; 4224; 4352] /\
  m_memused (stat p') = m_memused (stat demo_pool) + m_alloc_size 3 /\ m_mbufs (stat p') = m_mbufs (stat demo_pool) + 3.
Proof.
  assert (HA : forall mem size mh, demo_AllocMem mem size = Some mh ->
     0 < mh /\ mh + size < 4294967296 /\ Forall (disjoint_from mh size) mem).
  { unfold demo_AllocMem. intros mem size mh. destruct (_ && _) eqn:E; [|discriminate].
    intros [= <-]. apply andb_true_iff in E as [E1 E2]. split; [lia|]. split; [lia|].
    apply Forall_forall. intros h Hh%list_elem_of_In. rewrite forallb_forall in E1.
    specialize (E1 h Hh). right. lia. }
  pose proof (m_alloc_correct demo_AllocMem (fun _ => demo_loose) 3 demo_pool
    (demo_chain ++ [demo_loose]) HA ltac:(lia) demo_owns) as H.
  destruct (m_alloc demo_AllocMem (fun _ => demo_loose) 3 demo_pool) as [ok p'] eqn:E.
  destruct H as [H _]. assert (ok = true /\ map m_addr (mfree p') = [1000320; 1000192; 1000064; 4224; 4352] /\
    m_memused (stat p') = m_memused (stat demo_pool) + m_alloc_size 3 /\ m_mbufs (stat p') = m_mbufs (stat demo_pool) + 3)
    by (vm_compute in E; injection E as <- <-; split_and!; reflexivity).
  split; [tauto|]. split; [exact H|tauto].
Defined.

(** The ceilings of [mb_check_conf] do not keep the products inside 32 bits, as
    its comment says they do: at the ceilings the mbuf pool needs 2^35 bytes and a
    cluster chunk more than 2^32.  The guards of [m_alloc] and [m_clalloc] then
    refuse, so the stack does not start. *)
Example mb_check_conf_products :
  mb_check_conf 0 4096 = true /\ mb_check_conf 1 65536 = true /\
  mb_check_conf 2 65536 = true /\ mb_check_conf 4 65536 = true /\
  m_alloc_size (4096 * 65536) > 4294967296 /\ 65536 * (MCLUSTER_SIZE + 65536) > 4294967296 /\
  fst (m_alloc demo_AllocMem (fun _ => demo_loose) (4096 * 65536) demo_pool) = false.
Proof. vm_compute. repeat split. Qed.

(** The memory limit is compared after a 32-bit addition: with some memory in use,
    a request just below 2^32 wraps past the limit of 256 KB and reaches
    [AllocMem]. *)
Example m_alloc_limit_wraps :
  let size := m_alloc_size 33554429 in
  size = 4294967052 /\ u32 (maxmem (conf demo_pool) * 1024) = 262144 /\
  (u32 (maxmem (conf demo_pool) * 1024) <? u32 (m_memused (stat demo_pool) + size)) = false /\
  fst (m_alloc (fun _ _ => Some 4) (fun _ => demo_loose) 0 demo_pool) = false.
Proof. vm_compute. repeat split. Qed.

Lemma poisoned_poison m : poisoned (ng_mbuf_poison m) = true.
Proof. reflexivity. Qed.
Lemma poisoned_iff m : poisoned m = true <-> Forall (fun b => b = POISON) (m_dat m).
Proof.
  unfold poisoned. rewrite forallb_forall, Forall_forall. unfold POISON.
  split; intros H x Hx; [specialize (H x)|specialize (H x)]; rewrite list_elem_of_In in *;
    [specialize (H Hx)|specialize (H Hx)]; lia.
Qed.

(** With MBUFCHECK in force the three faults are named when they happen:
    a second free is refused and relinks nothing; an mbuf that nobody touched
    since it was freed is handed out without a report; one whose memory differs
    from the pattern in any byte is reported as used after free; one that reached
    the list unmarked is reported as list corruption. *)
Theorem mbufcheck_correct p m t :
  ng_mbufcheck_active p = true -> 0 <= t < MTCOUNT ->
  (m_type m = MT_FREE ->
     MFREE m p = (false, p <| ng_mbuf_doublefree ::= u32 (ng_mbuf_doublefree p + 1) |>)) /\
  (m_type m <> MT_FREE ->
     exists p', MFREE m p = (true, p') /\ mfree p' = ng_mbuf_poison m :: mfree p /\
       snd (MGET_list t p') =
         mtype_add t 1 (p' <| mfree ::= mfree p |>)) /\
  (forall x r, mfree p = x :: r -> m_type x <> MT_FREE ->
     ng_mbuf_listcorrupt (snd (MGET_list t p)) = u32 (ng_mbuf_listcorrupt p + 1)) /\
  (forall x r, mfree p = x :: r -> m_type x = MT_FREE ->
     ~ Forall (fun b => b = POISON) (m_dat x) ->
     ng_mbuf_useafterfree (snd (MGET_list t p)) = u32 (ng_mbuf_useafterfree p + 1)).
Proof.
  intros Hact Ht.
  assert (Hc : forall q f, ng_mbufcheck_active (q <| mfree ::= f |>) = ng_mbufcheck_active q) by done.
  split_and!.
  - intros Hm. unfold MFREE, ng_mbuf_bad_free. by rewrite Hact, Hm.
  - intros Hm. unfold MFREE, ng_mbuf_bad_free. rewrite Hact.
    destruct (m_type m =? MT_FREE) eqn:?; [lia|].
    set (p1 := mtype_add _ _ p). set (p2 := if has m M_EXT then _ else p1).
    assert (Hp2 : ng_mbufcheck_active p2 = true /\ mfree p2 = mfree p).
    { assert (Hp1 : ng_mbufcheck_active p1 = true /\ mfree p1 = mfree p) by done.
      unfold p2. destruct (has m M_EXT); [|done]. unfold MCLFREE.
      destruct (mcls p1 !! _); [|done]. by destruct (_ =? 0). }
    destruct Hp2 as [Ha2 Hf2]. rewrite Ha2, Hf2. eexists. split; [done|]. split; [done|].
    unfold MGET_list.
    change (mfree (p2 <| mfree ::= ?l |>)) with l. cbv iota. by rewrite !Hc, Ha2.
  - intros x r Hf Hx. unfold MGET_list. rewrite Hf.
    rewrite !Hc, Hact.
    unfold ng_mbuf_alloc_check. destruct (m_type x =? MT_FREE) eqn:?; [lia|done].
  - intros x r Hf Hx Hd. unfold MGET_list. rewrite Hf.
    rewrite !Hc, Hact.
    unfold ng_mbuf_alloc_check. rewrite Hx. simpl negb. cbv iota.
    destruct (poisoned x) eqn:Hp; [|done]. by apply poisoned_iff in Hp.
Qed.

Lemma mbufcheck_correct_witness :
  let p := demo_pool <| ng_mbufcheck_active ::= true |> in
  MFREE (ng_mbuf_poison demo_loose) p = (false, p <| ng_mbuf_doublefree ::= 1 |>).
Proof.
  exact (proj1 (mbufcheck_correct (demo_pool <| ng_mbufcheck_active ::= true |>)
    (ng_mbuf_poison demo_loose) 1 eq_refl ltac:(vm_compute; split; [discriminate|reflexivity])) eq_refl).
Defined.
