(* ===== verification/Sockbuf.v ===== *)
(** Socket buffers: records of mbufs with byte and mbuf accounting
    (the [sb*] routines and [soreserve] of [kern/uipc_socket2.c], the [sockbuf]
    part and macros of [sys/socketvar.h]). *)
From S2P Require Import Prelude Mbuf.

(** * Data *)

(** A socket buffer.  [sb_mb] is the list of records ([m_nextpkt]), a record the
    chain of its mbufs ([m_next]); [sb_mbtail] is the address of an mbuf, [0] for
    the null pointer.  [sb_cc], [sb_hiwat], [sb_mbcnt] and [sb_mbmax] are unsigned
    32-bit words, [sb_lowat] a signed one. *)
Record sockbuf := mk_sockbuf {
  sb_cc : Z; sb_hiwat : Z; sb_mbcnt : Z; sb_mbmax : Z; sb_lowat : Z;
  sb_mb : list chain; sb_mbtail : Z; sb_flags : Z; sb_timeo : Z * Z }.
#[export] Instance sockbuf_eta : Eta sockbuf := fun s =>
  mk_sockbuf (sb_cc s) (sb_hiwat s) (sb_mbcnt s) (sb_mbmax s) (sb_lowat s)
    (sb_mb s) (sb_mbtail s) (sb_flags s) (sb_timeo s).

Definition SB_LOCK : Z := 1.
Definition SB_WANT : Z := 2.
Definition SB_WAIT : Z := 4.
Definition SB_SEL : Z := 8.
Definition NG_SOBUF_MIN : Z := 2048.

Definition imin (a b : Z) : Z := Z.min a b.

Definition sbspace (sb : sockbuf) : Z :=
  imin (s32 (sb_hiwat sb - sb_cc sb)) (s32 (sb_mbmax sb - sb_mbcnt sb)).

(** What an mbuf counts for in [sb_mbcnt]. *)
Definition mb_room (m : mbuf) : Z :=
  MSIZE + (if has m M_EXT then ext_size (m_ext m) else 0).

Definition sballoc (sb : sockbuf) (m : mbuf) : sockbuf :=
  sb <| sb_cc ::= u32 (sb_cc sb + m_len m) |>
     <| sb_mbcnt ::= u32 (sb_mbcnt sb + mb_room m) |>.

Definition sbfree (sb : sockbuf) (m : mbuf) : sockbuf :=
  sb <| sb_cc ::= u32 (sb_cc sb - m_len m) |>
     <| sb_mbcnt ::= u32 (sb_mbcnt sb - mb_room m) |>.

(** * Appending *)

(** The loop of [sbcompress]: [rec] is the record so far, [n] its last mbuf.  An
    empty mbuf is freed when a neighbour has its type, a small one is copied into
    the free room of [n], any other is linked.  [None]: a memory error. *)
Fixpoint sbcompress_loop (rec m : chain) (sb : sockbuf) (p : mpool)
  : option (chain * sockbuf * mpool) :=
  match m with
  | [] => Some (rec, sb, p)
  | h :: r =>
      let n := last rec in
      let o := match r with x :: _ => Some x | [] => n end in
      if (m_len h =? 0) && match o with Some o => m_type o =? m_type h | None => false end
      then
        let '(r', p) := m_free h r p in
        match r' with [] => Some (rec, sb, p) | _ => sbcompress_loop rec r sb p end
      else
      match n with
      | Some n =>
          if negb (has n M_EXT) && (m_data n + m_len n + m_len h <? MLEN) &&
             (m_type n =? m_type h)
          then
            src ← m_read p h 0 (m_len h);
            n ← m_write n (m_len n) src;
            let rec := removelast rec ++ [n <| m_len ::= m_len n + m_len h |>] in
            let sb := sb <| sb_cc ::= u32 (sb_cc sb + m_len h) |> in
            let '(r', p) := m_free h r p in
            match r' with [] => Some (rec, sb, p) | _ => sbcompress_loop rec r sb p end
          else sbcompress_loop (rec ++ [h]) r (sballoc sb h) p
      | None => sbcompress_loop (rec ++ [h]) r (sballoc sb h) p
      end
  end.

Definition addr_of (m : option mbuf) : Z := match m with Some m => m_addr m | None => 0 end.

(** [sbcompress(sb, m, n)], for [n] the last mbuf of [rec], itself the record
    after [front] ([n] null: [rec] and [front] are empty). *)
Definition sbcompress (sb : sockbuf) (m : chain) (front : list chain) (rec : chain)
    (p : mpool) : option (sockbuf * mpool) :=
  '(rec, sb, p) ← sbcompress_loop rec m sb p;
  Some (sb <| sb_mb ::= front ++ (match rec with [] => [] | _ => [rec] end) |>
           <| sb_mbtail ::= addr_of (last rec) |>, p).

(** [None]: the tail pointer is not the last mbuf of the last record, so that the
    code would link onto some other memory. *)
Definition sbappend (sb : sockbuf) (m : chain) (p : mpool) : option (sockbuf * mpool) :=
  match m with
  | [] => Some (sb, p)
  | _ =>
      match last (sb_mb sb) with
      | None => sbcompress sb m [] [] p
      | Some rec =>
          if addr_of (last rec) =? sb_mbtail sb
          then sbcompress sb m (removelast (sb_mb sb)) rec p else None
      end
  end.

Definition sbappendrecord (sb : sockbuf) (m0 : chain) (p : mpool)
  : option (sockbuf * mpool) :=
  match m0 with
  | [] => Some (sb, p)
  | h :: r => sbcompress (sballoc sb h) r (sb_mb sb) [h] p
  end.

(** A whole record put at the end, as [sbappendaddr] and [sbappendcontrol] do. *)
Definition sbaddrecord (sb : sockbuf) (m : chain) : sockbuf :=
  let sb := foldl sballoc sb m in
  sb <| sb_mb ::= sb_mb sb ++ [m] |> <| sb_mbtail ::= addr_of (last m) |>.

Section ops.
Context (mget : Z -> mpool -> option mbuf * mpool).
Definition MT_SONAME : Z := 8.

(** [asa]: the bytes of the socket address, the first being [sa_len].  [None]: a
    panic or a memory error; otherwise the value returned. *)
Definition sbappendaddr (sb : sockbuf) (asa : list Z) (m0 control : chain) (p : mpool)
  : option (bool * sockbuf * mpool) :=
  sa_len ← head asa;
  if match m0 with h :: _ => negb (has h M_PKTHDR) | [] => false end then None else
  let space := s32 (sa_len + match m0 with h :: _ => ph_len (m_pkthdr h) | [] => 0 end) in
  let space := s32 (space + chain_len control) in
  if sbspace sb <? space then Some (false, sb, p)
  else if MLEN <? sa_len then Some (false, sb, p)
  else
    let '(m, p) := mget MT_SONAME p in
    match m with
    | None => Some (false, sb, p)
    | Some m =>
        let m := m <| m_len ::= sa_len |> in
        src ← blob asa 0 sa_len;
        m ← m_write m 0 src;
        Some (true, sbaddrecord sb (m :: control ++ m0), p)
    end.
End ops.

Definition sbappendcontrol (sb : sockbuf) (m0 control : chain) : option (bool * sockbuf) :=
  match control with
  | [] => None
  | _ =>
      let space := s32 (s32 (chain_len control) + chain_len m0) in
      if sbspace sb <? space then Some (false, sb)
      else Some (true, sbaddrecord sb (control ++ m0))
  end.

(** * Removing *)

Definition SB_WAS_FREED (m : mbuf) (p : mpool) : bool :=
  ng_mbufcheck_active p && (m_type m =? MT_FREE).

(** How the walk of [sbdrop] leaves a record: at an mbuf that stays (or with
    nothing left to drop), at its end with bytes left to drop, or at an mbuf that
    is on the free list. *)
Inductive drop_exit := DropDone | DropMore | DropCorrupt.
#[export] Instance drop_exit_eq_dec : EqDecision drop_exit.
Proof. solve_decision. Defined.

(** [while (len > 0)], within a record. *)
Fixpoint drop_chain (len : Z) (m : chain) (sb : sockbuf) (p : mpool)
  : drop_exit * Z * chain * sockbuf * mpool :=
  if len <=? 0 then (DropDone, len, m, sb, p) else
  match m with
  | [] => (DropMore, len, [], sb, p)
  | h :: r =>
      if len <? m_len h then
        if SB_WAS_FREED h p then (DropCorrupt, len, m, sb, p)
        else (DropDone, len,
              h <| m_len ::= m_len h - len |> <| m_data ::= m_data h + len |> :: r,
              sb <| sb_cc ::= u32 (sb_cc sb - len) |>, p)
      else
        let sb := sbfree sb h in
        let corrupt := SB_WAS_FREED h p in
        let '(mn, p) := m_free h r p in
        if corrupt then (DropCorrupt, len - m_len h, mn, sb, p)
        else drop_chain (len - m_len h) r sb p
  end.

(** ... and from record to record; [None]: [panic("sbdrop")]. *)
Fixpoint drop_records (len : Z) (m : chain) (next : list chain) (sb : sockbuf) (p : mpool)
  : option (bool * chain * list chain * sockbuf * mpool) :=
  let '(e, len, m, sb, p) := drop_chain len m sb p in
  match e, next with
  | DropDone, _ => Some (false, m, next, sb, p)
  | DropCorrupt, _ => Some (true, m, next, sb, p)
  | DropMore, [] => None
  | DropMore, m :: next => drop_records len m next sb p
  end.

(** [while (!sb_corrupt && m && m->m_len == 0)]. *)
Fixpoint drop_empty (m : chain) (sb : sockbuf) (p : mpool) : bool * chain * sockbuf * mpool :=
  match m with
  | [] => (false, [], sb, p)
  | h :: r =>
      if negb (m_len h =? 0) then (false, m, sb, p) else
      let sb := sbfree sb h in
      let corrupt := SB_WAS_FREED h p in
      let '(mn, p) := m_free h r p in
      if corrupt then (true, mn, sb, p) else drop_empty r sb p
  end.

Definition sbdiscard (sb : sockbuf) : sockbuf :=
  sb <| sb_mb ::= [] |> <| sb_mbtail ::= 0 |> <| sb_cc ::= 0 |> <| sb_mbcnt ::= 0 |>.

Definition sbdrop (sb : sockbuf) (len : Z) (p : mpool) : option (sockbuf * mpool) :=
  if ng_mbufcheck_active p && match sb_mb sb with [] => true | _ => false end &&
     (negb (sb_cc sb =? 0) || negb (sb_mbcnt sb =? 0))
  then Some (sbdiscard sb, p) else
  let '(m, next) := match sb_mb sb with m :: next => (m, next) | [] => ([], []) end in
  '(corrupt, m, next, sb, p) ← drop_records len m next sb p;
  let '(corrupt, m, sb, p) :=
    if corrupt : bool then (true, m, sb, p) else drop_empty m sb p in
  if corrupt : bool then Some (sbdiscard sb, p) else
  let sb := sb <| sb_mb ::= match m with [] => next | _ => m :: next end |> in
  Some (match sb_mb sb with [] => sb <| sb_mbtail ::= 0 |> | _ => sb end, p).

(** [do { sbfree; MFREE } while ((m = mn))]. *)
Fixpoint droprecord_loop (m : chain) (sb : sockbuf) (p : mpool) : sockbuf * mpool :=
  match m with
  | [] => (sb, p)
  | h :: r =>
      let sb := sbfree sb h in
      let '(mn, p) := m_free h r p in
      match mn with [] => (sb, p) | _ => droprecord_loop r sb p end
  end.

Definition sbdroprecord (sb : sockbuf) (p : mpool) : sockbuf * mpool :=
  let '(sb, p) :=
    match sb_mb sb with
    | m :: next => droprecord_loop m (sb <| sb_mb ::= next |>) p
    | [] => (sb, p)
    end in
  (match sb_mb sb with [] => sb <| sb_mbtail ::= 0 |> | _ => sb end, p).

(** [while (sb->sb_mbcnt) sbdrop(sb, (int)sb->sb_cc)]; [None]: a panic, or no fuel
    left. *)
Fixpoint flush_loop (fuel : nat) (sb : sockbuf) (p : mpool) : option (sockbuf * mpool) :=
  if sb_mbcnt sb =? 0 then Some (sb, p) else
  match fuel with
  | O => None
  | S fuel => '(sb, p) ← sbdrop sb (s32 (sb_cc sb)) p; flush_loop fuel sb p
  end.

Definition sbflush (fuel : nat) (sb : sockbuf) (p : mpool) : option (sockbuf * mpool) :=
  if negb (Z.land (sb_flags sb) SB_LOCK =? 0) then None else
  '(sb, p) ← flush_loop fuel sb p;
  let sb := sb <| sb_mbtail ::= 0 |> in
  if negb (sb_cc sb =? 0) || match sb_mb sb with [] => false | _ => true end then None
  else Some (sb, p).

(** * Reserving *)

Definition sbreserve (sb_max mclb : Z) (sb : sockbuf) (cc : Z) : bool * sockbuf :=
  if u32 (sb_max / (MSIZE + mclb) * mclb) <? cc then (false, sb) else
  let sb := sb <| sb_hiwat ::= cc |> <| sb_mbmax ::= umin (u32 (cc * 2)) sb_max |> in
  (true, if sb_hiwat sb <? u32 (sb_lowat sb) then sb <| sb_lowat ::= s32 (sb_hiwat sb) |> else sb).

Definition sbrelease (fuel : nat) (sb : sockbuf) (p : mpool) : option (sockbuf * mpool) :=
  '(sb, p) ← sbflush fuel sb p; Some (sb <| sb_hiwat ::= 0 |> <| sb_mbmax ::= 0 |>, p).

(** The sizes of a socket's two buffers; [false]: [ENOBUFS]. *)
Definition soreserve (fuel : nat) (sb_max mclb : Z) (so_snd so_rcv : sockbuf)
    (sndcc rcvcc : Z) (p : mpool) : option (bool * sockbuf * sockbuf * mpool) :=
  let sndcc := if sndcc <? NG_SOBUF_MIN then NG_SOBUF_MIN else sndcc in
  let rcvcc := if rcvcc <? NG_SOBUF_MIN then NG_SOBUF_MIN else rcvcc in
  let '(ok, so_snd) := sbreserve sb_max mclb so_snd sndcc in
  if negb ok then Some (false, so_snd, so_rcv, p) else
  let '(ok, so_rcv) := sbreserve sb_max mclb so_rcv rcvcc in
  if negb ok then
    '(so_snd, p) ← sbrelease fuel so_snd p; Some (false, so_snd, so_rcv, p)
  else
    let so_rcv := if sb_lowat so_rcv =? 0 then so_rcv <| sb_lowat ::= 1 |> else so_rcv in
    let so_snd := if sb_lowat so_snd =? 0 then so_snd <| sb_lowat ::= s32 mclb |> else so_snd in
    let so_snd := if sb_hiwat so_snd <? u32 (sb_lowat so_snd)
                  then so_snd <| sb_lowat ::= s32 (sb_hiwat so_snd) |> else so_snd in
    Some (true, so_snd, so_rcv, p).

(** * What a socket buffer promises

    The data of a buffer is the list of its records' bytes. *)
Definition sb_data (p : mpool) (sb : sockbuf) : list (list Z) := bytes p <$> sb_mb sb.

Definition chain_room (c : chain) : Z := fold_right (fun m n => mb_room m + n) 0 c.

(** The invariant: no record without an mbuf, the counters are the totals (modulo
    the word size) and the tail pointer is the last mbuf of a buffer that is not
    empty. *)
Record sb_ok (sb : sockbuf) : Prop := {
  ok_recs : Forall (fun r => r <> []) (sb_mb sb);
  ok_cc : sb_cc sb = u32 (chain_len (concat (sb_mb sb)));
  ok_mbcnt : sb_mbcnt sb = u32 (chain_room (concat (sb_mb sb)));
  ok_tail : sb_mb sb <> [] -> sb_mbtail sb = addr_of (last (concat (sb_mb sb))) }.

(** [sb'] is [sb] with the counters moved by [dc] and [dn]. *)
Definition books (sb sb' : sockbuf) (dc dn : Z) : Prop :=
  exists c n, sb' = sb <| sb_cc ::= c |> <| sb_mbcnt ::= n |> /\
    u32 c = u32 (sb_cc sb + dc) /\ u32 n = u32 (sb_mbcnt sb + dn) /\
    (u32 (sb_cc sb) = sb_cc sb -> u32 c = c) /\
    (u32 (sb_mbcnt sb) = sb_mbcnt sb -> u32 n = n).

Lemma u32_mod a b : u32 a = u32 b <-> exists k, a = b + k * 4294967296.
Proof.
  split; [|intros [k ->]; unfold u32; by rewrite Z.mod_add].
  intros. exists (a / 4294967296 - b / 4294967296). word_solve.
Qed.

Lemma books_refl sb dc dn : dc = 0 -> dn = 0 -> books sb sb dc dn.
Proof.
  intros -> ->. exists (sb_cc sb), (sb_mbcnt sb). rewrite !Z.add_0_r.
  split; [by destruct sb|]. split_and!; done || auto.
Qed.

Lemma u32_add a b c d e : u32 b = u32 (a + c) -> u32 e = u32 (b + d) -> u32 e = u32 (a + (c + d)).
Proof. rewrite !u32_mod. intros [k ->] [j ->]. exists (k + j). lia. Qed.

Lemma books_trans sb sb1 sb2 dc dn dc' dn' :
  books sb sb1 dc dn -> books sb1 sb2 dc' dn' -> books sb sb2 (dc + dc') (dn + dn').
Proof.
  intros (c & n & -> & Hc & Hn & Rc & Rn) (c' & n' & -> & Hc' & Hn' & Rc' & Rn').
  cbn in Hc', Hn', Rc', Rn'. exists c', n'. split; [done|].
  split; [by eapply u32_add|]. split; [by eapply u32_add|]. auto.
Qed.

Lemma books_eq sb sb' dc dn dc' dn' :
  books sb sb' dc dn -> dc = dc' -> dn = dn' -> books sb sb' dc' dn'.
Proof. by intros ? <- <-. Qed.

Lemma books_alloc sb m : books sb (sballoc sb m) (m_len m) (mb_room m).
Proof.
  exists (u32 (sb_cc sb + m_len m)), (u32 (sb_mbcnt sb + mb_room m)). split; [reflexivity|]. rewrite !u32_u32. split_and!; done || auto.
Qed.
Lemma books_free sb m : books sb (sbfree sb m) (- m_len m) (- mb_room m).
Proof.
  exists (u32 (sb_cc sb - m_len m)), (u32 (sb_mbcnt sb - mb_room m)). split; [reflexivity|]. rewrite !u32_u32. split_and!; done || auto.
Qed.
Lemma books_cc sb d : books sb (sb <| sb_cc ::= u32 (sb_cc sb + d) |>) d 0.
Proof.
  exists (u32 (sb_cc sb + d)), (sb_mbcnt sb). split; [reflexivity|]. rewrite !u32_u32, Z.add_0_r. split_and!; done || auto.
Qed.

Lemma chain_room_app c d : chain_room (c ++ d) = chain_room c + chain_room d.
Proof. induction c as [|m c IH]; simpl; [done|]. lia. Qed.

Lemma chain_len_bytes p c R : owns p (c ++ R) -> chain_len c = zlen (bytes p c).
Proof.
  intros Ho. pose proof (owns_wf _ _ Ho) as Hw. apply Forall_app in Hw as [Hw _].
  by rewrite zlen_bytes.
Qed.

(** Prove one fact about evolution from another up to the order of the lists. *)
Ltac ev_perm H :=
  eapply evolve_perm; [| |exact H]; rewrite <- ?app_assoc; simpl; solve_Permutation.
Ltac owns_perm H := revert H; apply owns_Permutation; rewrite <- ?app_assoc; simpl; solve_Permutation.

(** ** Compressing into a record *)

(** The last mbuf [m] of a record swallows [h]. *)
Lemma merge_ok R p m h nx :
  owns p (m :: h :: R) -> has m M_EXT = false -> m_data m + m_len m + m_len h < MLEN ->
  exists src m1 p', m_read p h 0 (m_len h) = Some src /\
    m_write m (m_len m) src = Some m1 /\
    let m2 := m1 <| m_len ::= m_len m1 + m_len h |> in
    m_free h nx p = (nx, p') /\ evolve R p [m; h] p' [m2] /\
    mbuf_bytes p' m2 = mbuf_bytes p m ++ mbuf_bytes p h /\
    m_len m2 = m_len m + m_len h /\ mb_room m2 = mb_room m /\ m_addr m2 = m_addr m.
Proof.
  intros Ho Hx Hroom. pose proof (owns_wf _ _ Ho) as [Hm [Hh _]%Forall_cons]%Forall_cons.
  assert (Hlh : 0 <= m_len h) by apply Hh.
  pose proof (m_read_ok p h 0 (m_len h) Hh ltac:(lia) ltac:(lia) ltac:(lia)) as Hrd. pose proof (zlen_mbuf_bytes p h Hh) as Hl.
  rewrite zslice_full in Hrd by lia.
  destruct (m_append_ok p m (mbuf_bytes p h) Hm Hx) as (m1 & Hw & Hl1 & Hd1 & Hwf & Hsame & Hb);
    [lia|].
  rewrite Hl, <- Hl1 in Hwf, Hsame, Hb. set (m2 := m1 <| m_len ::= _ |>) in *.
  assert (Ho2 : owns p (h :: m2 :: R)).
  { apply (owns_retouch p [m] [m2] (h :: R)) in Ho; [owns_perm Ho| |].
    - constructor; [apply Hsame|constructor].
    - by constructor. }
  destruct (m_free_ok (m2 :: R) p h nx Ho2) as (p2 & Hf & Hfree).
  eexists _, m1, p2. split; [exact Hrd|]. split; [exact Hw|]. cbn zeta. fold m2.
  split; [exact Hf|]. destruct Hsame as ([Haddr Href] & Hfl & _). split; [|split; [|split; [by cbn; rewrite Hl1|split]]].
  - pose proof (evolve_frame R [m2] p [h] p2 [] Hfree) as Hf2.
    apply (evolve_trans R p [m; h] p [m2; h]); [|ev_perm Hf2].
    apply (evolve_in R p [m; h] [m2; h]); [|by repeat apply Forall_cons_2|owns_perm Ho].
    constructor; [done|constructor; [done|constructor]].
  - rewrite (ev_bytes _ _ _ _ _ Hfree m2) by set_solver. exact Hb.
  - unfold mb_room, has. rewrite Hfl. case_match eqn:Hc; [|done].
    unfold has in Hx. rewrite Hx in Hc. done.
  - done.
Qed.

Lemma chain_len_snoc c m : chain_len (c ++ [m]) = chain_len c + m_len m.
Proof. rewrite chain_len_app. simpl. lia. Qed.
Lemma chain_room_snoc c m : chain_room (c ++ [m]) = chain_room c + mb_room m.
Proof. rewrite chain_room_app. simpl. lia. Qed.
Lemma bytes_1 p m : bytes p [m] = mbuf_bytes p m.
Proof. unfold bytes. simpl. by rewrite app_nil_r. Qed.

(** What [sbcompress_loop] does, in one relation, so that a step and the rest of
    the loop compose. *)
Definition compressed (R : chain) (rec m : chain) (sb : sockbuf) (p : mpool)
    (rec' : chain) (sb' : sockbuf) (p' : mpool) : Prop :=
  evolve R p (rec ++ m) p' rec' /\
  bytes p' rec' = bytes p rec ++ bytes p m /\
  books sb sb' (chain_len rec' - chain_len rec) (chain_room rec' - chain_room rec) /\
  (rec <> [] \/ m <> [] -> rec' <> []).

Lemma compressed_step R rec h r sb p rec1 sb1 p1 rec' sb' p' :
  evolve R p (rec ++ h :: r) p1 (rec1 ++ r) ->
  bytes p1 (rec1 ++ r) = bytes p (rec ++ h :: r) ->
  books sb sb1 (chain_len rec1 - chain_len rec) (chain_room rec1 - chain_room rec) ->
  rec1 <> [] \/ r <> [] ->
  compressed R rec1 r sb1 p1 rec' sb' p' -> compressed R rec (h :: r) sb p rec' sb' p'.
Proof.
  intros He Hb Hk Hn (He' & Hb' & Hk' & Hn'). split; [by eapply evolve_trans|].
  split; [by rewrite Hb', <- !bytes_app|].
  split; [eapply books_eq; [by eapply books_trans|lia..]|auto].
Qed.

Lemma sbcompress_loop_ok R m : forall rec sb p,
  owns p (rec ++ m ++ R) ->
  exists rec' sb' p', sbcompress_loop rec m sb p = Some (rec', sb', p') /\
    compressed R rec m sb p rec' sb' p'.
Proof.
  induction m as [|h r IH]; intros rec sb p Ho; cbn [sbcompress_loop].
  { exists rec, sb, p. split; [done|].
    split; [|split; [|split]].
    - rewrite app_nil_r. by apply evolve_refl.
    - change (bytes p []) with (@nil Z). by rewrite app_nil_r.
    - apply books_refl; lia.
    - by intros [?|?]. }
  assert (Hnext : forall rec (sb : sockbuf) p,
    match r with [] => Some (rec, sb, p) | _ => sbcompress_loop rec r sb p end =
    sbcompress_loop rec r sb p) by by destruct r.
  assert (Hlink : exists rec' sb' p',
    sbcompress_loop (rec ++ [h]) r (sballoc sb h) p = Some (rec', sb', p') /\
    compressed R rec (h :: r) sb p rec' sb' p').
  { destruct (IH (rec ++ [h]) (sballoc sb h) p) as (rec' & sb' & p' & Hl & Hc);
      [by rewrite <- app_assoc|].
    exists rec', sb', p'. split; [done|].
    eapply compressed_step; [..|exact Hc].
    - rewrite <- app_assoc. simpl. apply evolve_refl. owns_perm Ho.
    - by rewrite <- app_assoc.
    - rewrite chain_len_snoc, chain_room_snoc.
      eapply books_eq; [apply books_alloc|lia..].
    - left. by destruct rec. }
  destruct ((m_len h =? 0) && _) eqn:Hempty.
  - apply andb_prop in Hempty as [Hz Ho']. apply Z.eqb_eq in Hz.
    assert (Ho1 : owns p (h :: (rec ++ r) ++ R)) by owns_perm Ho.
    destruct (m_free_ok _ p h r Ho1) as (p1 & -> & Hf). rewrite Hnext.
    pose proof (evolve_frame R (rec ++ r) p [h] p1 [] Hf) as Hf2.
    destruct (IH rec sb p1) as (rec' & sb' & p' & Hl & Hc).
    { rewrite app_assoc. apply Hf2. }
    exists rec', sb', p'. split; [done|]. eapply compressed_step; [..|exact Hc].
    + ev_perm Hf2.
    + rewrite !bytes_app, (bytes_cons p h), mbuf_bytes_0 by done. simpl. rewrite <- !bytes_app.
      apply bytes_same. intros x Hx. apply (ev_bytes _ _ _ _ _ Hf), elem_of_app. by left.
    + apply books_refl; lia.
    + destruct r; [left|by right]. intros ->. done.
  - destruct (last rec) as [n|] eqn:Hn; [|exact Hlink].
    destruct (negb (has n M_EXT) && _ && _) eqn:Hfit; [|exact Hlink].
    apply andb_prop in Hfit as [[Hx Hroom]%andb_prop _].
    apply last_Some in Hn as [rec0 ->]. rewrite <- !app_assoc in Ho. simpl in Ho.
    assert (Ho1 : owns p (n :: h :: (rec0 ++ r) ++ R)) by owns_perm Ho.
    destruct (merge_ok _ p n h r Ho1) as (src & m1 & p1 & -> & Hw & Hf & He & Hb & Hl & Hrm & _);
      [by destruct (has n M_EXT)|lia|].
    cbn [mbind option_bind]. rewrite Hw. cbn [mbind option_bind].
    rewrite Hf. cbn zeta. rewrite Hnext. rewrite removelast_last.
    set (n2 := m1 <| m_len ::= _ |>) in *.
    pose proof (evolve_frame R (rec0 ++ r) p _ p1 _ He) as He2.
    destruct (IH (rec0 ++ [n2]) (sb <| sb_cc ::= u32 (sb_cc sb + m_len h) |>) p1)
      as (rec' & sb' & p' & Hc' & Hc).
    { pose proof (ev_owns _ _ _ _ _ He2) as Ho2. owns_perm Ho2. }
    exists rec', sb', p'. split; [done|].
    eapply compressed_step; [..|exact Hc].
    + ev_perm He2.
    + rewrite <- !app_assoc. simpl. rewrite !bytes_app, !bytes_cons, Hb, <- app_assoc.
      rewrite (bytes_same p p1 rec0), (bytes_same p p1 r); [done|..];
        intros x Hin; apply (ev_bytes _ _ _ _ _ He); rewrite !elem_of_app; auto.
    + rewrite !chain_len_snoc, !chain_room_snoc, Hl, Hrm.
      eapply books_eq; [apply books_cc|lia..].
    + left. by destruct rec0.
Qed.

(** The settings an operation on the data leaves alone. *)
Definition same_limits (sb sb' : sockbuf) : Prop :=
  sb_hiwat sb' = sb_hiwat sb /\ sb_mbmax sb' = sb_mbmax sb /\ sb_lowat sb' = sb_lowat sb /\
  sb_flags sb' = sb_flags sb /\ sb_timeo sb' = sb_timeo sb.

Lemma books_limits sb sb' dc dn : books sb sb' dc dn -> same_limits sb sb' /\ sb_mb sb' = sb_mb sb.
Proof. by intros (c & n & -> & _). Qed.

(** The counters after a move, when they were the totals of [c]. *)
Lemma books_counts sb sb' dc dn c k c' k' :
  books sb sb' dc dn -> sb_cc sb = u32 c -> sb_mbcnt sb = u32 k ->
  c' = c + dc -> k' = k + dn -> sb_cc sb' = u32 c' /\ sb_mbcnt sb' = u32 k'.
Proof.
  intros (c1 & n1 & -> & Hc & Hn & Rc & Rn) Ec En -> ->. rewrite Ec, En in *. cbn.
  rewrite <- Rc, <- Rn, Hc, Hn by by rewrite u32_u32.
  split; apply u32_mod; [exists (- (c / 4294967296))|exists (- (k / 4294967296))];
    unfold u32; Z.div_mod_to_equations; lia.
Qed.

Lemma last_app_ne {A} (l k : list A) : k <> [] -> last (l ++ k) = last k.
Proof. rewrite last_app. by destruct (last k) eqn:E; [|apply last_None in E]. Qed.

Lemma concat_last (rs : list chain) rec :
  Forall (fun r => r <> []) rs -> last rs = Some rec -> last (concat rs) = last rec.
Proof.
  intros Hne [rs' ->]%last_Some. rewrite concat_app. simpl. rewrite app_nil_r.
  apply Forall_app in Hne as [_ [Hr _]%Forall_cons]. by apply last_app_ne.
Qed.

(** The outcome of adding [m]'s mbufs: as the data reads, [data]. *)
Definition added (R : chain) (sb : sockbuf) (m : chain) (p : mpool) (data : list (list Z))
    (sb' : sockbuf) (p' : mpool) : Prop :=
  evolve R p (concat (sb_mb sb) ++ m) p' (concat (sb_mb sb')) /\
  sb_data p' sb' = data /\ sb_ok sb' /\ same_limits sb sb'.

Lemma data_same p p' (front : list chain) :
  (forall m, m ∈ concat front -> mbuf_bytes p' m = mbuf_bytes p m) ->
  bytes p' <$> front = bytes p <$> front.
Proof.
  intros Hb. induction front as [|r f IH]; [done|]. simpl in *. f_equal.
  - apply bytes_same. intros m Hm. apply Hb, elem_of_app. by left.
  - apply IH. intros m Hm. apply Hb, elem_of_app. by right.
Qed.

Lemma sbcompress_ok R sb m front rec p :
  owns p (concat front ++ rec ++ m ++ R) -> Forall (fun r => r <> []) front ->
  rec <> [] \/ m <> [] ->
  sb_cc sb = u32 (chain_len (concat front ++ rec)) ->
  sb_mbcnt sb = u32 (chain_room (concat front ++ rec)) ->
  exists sb' p', sbcompress sb m front rec p = Some (sb', p') /\
    evolve R p (concat front ++ rec ++ m) p' (concat (sb_mb sb')) /\
    sb_data p' sb' = (bytes p <$> front) ++ [bytes p rec ++ bytes p m] /\
    sb_ok sb' /\ same_limits sb sb'.
Proof.
  intros Ho Hf Hne Hcc Hmb. unfold sbcompress.
  destruct (sbcompress_loop_ok (concat front ++ R) m rec sb p) as
    (rec' & sb' & p' & -> & He & Hb & Hk & Hn); [owns_perm Ho|].
  specialize (Hn Hne). cbn [mbind option_bind]. eexists _, p'. split; [done|].
  assert (Hrec : (match rec' with [] => [] | _ => [rec'] end) = [rec']) by by destruct rec'.
  rewrite Hrec. destruct (books_limits _ _ _ _ Hk) as [Hlim _].
  pose proof (evolve_frame R (concat front) p (rec ++ m) p' rec' He) as He2.
  assert (Hc : concat (front ++ [rec']) = concat front ++ rec').
  { rewrite concat_app. simpl. by rewrite app_nil_r. }
  destruct (books_counts _ _ _ _ _ _ (chain_len (concat front ++ rec'))
              (chain_room (concat front ++ rec')) Hk Hcc Hmb) as [Hcc' Hmb'].
  { rewrite !chain_len_app. lia. }
  { rewrite !chain_room_app. lia. }
  split; [|split; [|split; [split|exact Hlim]]]; cbn [sb_mb field_map]; rewrite ?Hc; try done.
  - ev_perm He2.
  - unfold sb_data. cbn [sb_mb field_map]. rewrite fmap_app. simpl. rewrite Hb.
    rewrite (data_same p p'); [done|]. intros x Hx.
    apply (ev_bytes _ _ _ _ _ He), elem_of_app. by left.
  - apply Forall_app_2; [done|]. by apply Forall_cons_2.
  - intros _. cbn. by rewrite last_app_ne.
Qed.

(** [sbappend] on the data: more bytes in the last record. *)
Definition rappend (d : list (list Z)) (b : list Z) : list (list Z) :=
  match last d with
  | Some r => removelast d ++ [r ++ b]
  | None => [b]
  end.

Lemma split_last {A} (l : list A) x : last l = Some x -> l = removelast l ++ [x].
Proof. intros [k ->]%last_Some. by rewrite removelast_last. Qed.

Lemma sbappend_ok R sb m p :
  sb_ok sb -> owns p (concat (sb_mb sb) ++ m ++ R) -> m <> [] ->
  exists sb' p', sbappend sb m p = Some (sb', p') /\
    added R sb m p (rappend (sb_data p sb) (bytes p m)) sb' p'.
Proof.
  intros [Hr Hcc Hmb Ht] Ho Hm. unfold sbappend, added, rappend, sb_data.
  rewrite fmap_last.
  assert (Hne : forall rec, last (sb_mb sb) = Some rec -> (addr_of (last rec) =? sb_mbtail sb) = true).
  { intros rec Hl. rewrite Ht, (concat_last _ rec) by (done || by intros Hn; rewrite Hn in Hl).
    apply Z.eqb_refl. }
  destruct (last (sb_mb sb)) as [rec|] eqn:Hl; cbn [fmap option_fmap option_map].
  - rewrite Hne by done. pose proof (split_last _ _ Hl) as Hs.
    remember (removelast (sb_mb sb)) as front eqn:Hfront. rewrite Hs in Hr, Ho, Hcc, Hmb |- *.
    rewrite concat_app in *. simpl in *. rewrite app_nil_r in *.
    apply Forall_app in Hr as [Hf [Hrec _]%Forall_cons].
    destruct (sbcompress_ok R sb m front rec p) as (sb' & p' & Hc & He & Hd & Hok & Hlim);
      [owns_perm Ho|done|by left|done..|].
    destruct m; [done|]. exists sb', p'. split; [done|].
    split; [ev_perm He|]. split; [|done]. unfold sb_data in Hd. rewrite Hd, fmap_app. simpl.
    by rewrite removelast_last.
  - apply last_None in Hl. rewrite Hl in *. simpl in *.
    destruct (sbcompress_ok R sb m [] [] p) as (sb' & p' & Hc & He & Hd & Hok & Hlim);
      [done|done|by right|done..|].
    destruct m; [done|]. by exists sb', p'.
Qed.

Lemma sbappendrecord_ok R sb m p :
  sb_ok sb -> owns p (concat (sb_mb sb) ++ m ++ R) -> m <> [] ->
  exists sb' p', sbappendrecord sb m p = Some (sb', p') /\
    added R sb m p (sb_data p sb ++ [bytes p m]) sb' p'.
Proof.
  intros [Hr Hcc Hmb Ht] Ho Hm. destruct m as [|h r]; [done|]. unfold sbappendrecord, added.
  pose proof (books_alloc sb h) as Hk.
  destruct (books_counts _ _ _ _ _ _ (chain_len (concat (sb_mb sb) ++ [h]))
    (chain_room (concat (sb_mb sb) ++ [h])) Hk Hcc Hmb) as [Hcc' Hmb'];
    [by rewrite chain_len_snoc|by rewrite chain_room_snoc|].
  destruct (sbcompress_ok R (sballoc sb h) r (sb_mb sb) [h] p)
    as (sb' & p' & Hc & He & Hd & Hok & Hlim); [owns_perm Ho|done|by left|done..|].
  exists sb', p'. split; [done|]. split; [ev_perm He|]. split; [|done].
  rewrite Hd, bytes_1. done.
Qed.

Lemma books_allocs c sb :
  books sb (foldl sballoc sb c) (chain_len c) (chain_room c).
Proof.
  revert sb. induction c as [|m c IH]; intros sb; [by apply books_refl|]. simpl.
  eapply books_trans; [apply books_alloc|apply IH].
Qed.

(** Linking a whole record: nothing is copied or freed. *)
Lemma sbaddrecord_ok R sb m p :
  sb_ok sb -> owns p (concat (sb_mb sb) ++ m ++ R) -> m <> [] ->
  added R sb m p (sb_data p sb ++ [bytes p m]) (sbaddrecord sb m) p.
Proof.
  intros [Hr Hcc Hmb Ht] Ho Hm. pose proof (books_allocs m sb) as Hk.
  destruct (books_limits _ _ _ _ Hk) as [Hlim Hsame].
  assert (Hmb' : sb_mb (sbaddrecord sb m) = sb_mb sb ++ [m]).
  { unfold sbaddrecord. cbn. by rewrite Hsame. }
  assert (Hc : concat (sb_mb sb ++ [m]) = concat (sb_mb sb) ++ m).
  { rewrite concat_app. simpl. by rewrite app_nil_r. }
  destruct (books_counts _ _ _ _ _ _ (chain_len (concat (sb_mb sb) ++ m))
    (chain_room (concat (sb_mb sb) ++ m)) Hk Hcc Hmb) as [Hcc1 Hmb1];
    [by rewrite chain_len_app|by rewrite chain_room_app|].
  split; [|split; [|split; [split|exact Hlim]]]; rewrite ?Hmb', ?Hc; try done.
  - apply evolve_refl. by rewrite <- app_assoc.
  - unfold sb_data. by rewrite Hmb', fmap_app.
  - apply Forall_app_2; [done|]. by apply Forall_cons_2.
  - intros _. by rewrite last_app_ne.
Qed.

(** ** Address and control records *)

Section addr_ops.
Context (mget : Z -> mpool -> option mbuf * mpool) `{!Allocator mget}.

(** The name mbuf of [sbappendaddr]. *)
Lemma name_mbuf_ok R p asa sa_len :
  owns p R -> 0 <= sa_len <= MLEN -> sa_len <= zlen asa ->
  let '(m, p') := mget MT_SONAME p in
  match m with
  | None => evolve R p [] p' []
  | Some m =>
      exists m', m_write (m <| m_len ::= sa_len |>) 0 (zslice asa 0 sa_len) = Some m' /\
        m_len m' = sa_len /\ evolve R p [] p' [m'] /\ mbuf_bytes p' m' = zslice asa 0 sa_len
  end.
Proof using All.
  intros Ho Hl Ha. pose proof (mget_ok mget MT_SONAME p R ltac:(done) Ho) as Hg.
  destruct (mget MT_SONAME p) as [[m|] p']; [|apply Hg].
  destruct Hg as (_ & _ & Ht & Hd & Hf & Hz & Hev).
  pose proof (zslice_len asa 0 sa_len ltac:(lia) ltac:(lia) ltac:(lia)) as Hs.
  destruct (blit_ok (m_dat m) (m_data m + 0) (zslice asa 0 sa_len)) as (d & Hb & Hdl & _ & Hat);
    [lia..|].
  eexists. unfold m_write. cbn [m_dat m_data field_map]. rewrite Hb. split; [done|].
  split; [done|]. set (m' := _ <| m_dat ::= d |>).
  assert (Hx : forall f, has m' f = false) by (intros; by apply has_0).
  assert (Hst : storage p' m' = d) by by rewrite storage_eq, Hx.
  split.
  - apply Hev; [done|apply Hx|]. unfold wf_mbuf. rewrite Hst, Hx. cbn. rewrite Ht, Hd, Hf, Hdl, Hz.
    unfold MT_SONAME, MTCOUNT. split_and!; lia || done.
  - unfold mbuf_bytes. rewrite Hst. change (m_data m') with (m_data m).
    rewrite Z.add_0_r, Hs in Hat. exact Hat.
Qed.

Lemma sbappendaddr_ok R sb asa sa_len m0 control p :
  sb_ok sb -> owns p (concat (sb_mb sb) ++ (control ++ m0) ++ R) ->
  head asa = Some sa_len -> 0 <= sa_len <= zlen asa ->
  (forall h, head m0 = Some h -> has h M_PKTHDR = true) ->
  exists ok sb' p', sbappendaddr mget sb asa m0 control p = Some (ok, sb', p') /\
    if ok : bool then
      added R sb (control ++ m0) p
        (sb_data p sb ++ [zslice asa 0 sa_len ++ bytes p control ++ bytes p m0]) sb' p' /\
      sb_cc sb' = u32 (sb_cc sb + sa_len + chain_len control + chain_len m0) /\
      s32 (s32 (sa_len + match m0 with h :: _ => ph_len (m_pkthdr h) | [] => 0 end) +
           chain_len control) <= sbspace sb
    else sb' = sb /\ evolve (concat (sb_mb sb) ++ (control ++ m0) ++ R) p [] p' [].
Proof using All.
  intros Hok Ho Hsa Hl Hh. unfold sbappendaddr. rewrite Hsa. cbn [mbind option_bind].
  assert (Hp : match m0 with h :: _ => negb (has h M_PKTHDR) | [] => false end = false).
  { destruct m0 as [|h r]; [done|]. by rewrite (Hh h). }
  rewrite Hp. cbn zeta. set (space := s32 (_ + chain_len control)).
  set (K := concat (sb_mb sb) ++ (control ++ m0) ++ R) in *.
  destruct (sbspace sb <? space) eqn:Hs.
  { exists false, sb, p. split; [done|]. split; [done|by apply evolve_refl]. }
  destruct (MLEN <? sa_len) eqn:Hml.
  { exists false, sb, p. split; [done|]. split; [done|by apply evolve_refl]. }
  pose proof (name_mbuf_ok K p asa sa_len Ho ltac:(lia) ltac:(lia)) as Hg.
  destruct (mget MT_SONAME p) as [[m|] p1].
  2:{ by exists false, sb, p1. }
  destruct Hg as (m' & Hw & Hlm & Hev & Hb).
  rewrite blob_ok by lia. cbn [mbind option_bind]. rewrite Hw. cbn [mbind option_bind].
  eexists true, _, p1. split; [done|].
  pose proof (ev_owns _ _ _ _ _ Hev) as Ho1. unfold K in Ho1.
  destruct (sbaddrecord_ok R sb (m' :: control ++ m0) p1 Hok) as (He1 & Hd1 & Hok1 & Hlim1);
    [owns_perm Ho1|done|].
  split; [|split; [|lia]].
  - split; [|split; [|done]].
    + pose proof (evolve_frame R (concat (sb_mb sb) ++ control ++ m0) p [] p1 [m']) as Hf.
      rewrite <- !app_assoc in Hf. unfold K in Hev. rewrite <- !app_assoc in Hev.
      specialize (Hf Hev). eapply evolve_trans; [exact Hf|]. ev_perm He1.
    + rewrite Hd1. unfold sb_data. rewrite bytes_cons, Hb, bytes_app.
      rewrite (data_same p p1), (bytes_same p p1 control), (bytes_same p p1 m0); [done|..];
        intros x Hx; apply (ev_bytes _ _ _ _ _ Hev); unfold K; rewrite !elem_of_app; auto.
  - destruct Hok as [_ Hcc Hmb _]. pose proof (books_allocs (m' :: control ++ m0) sb) as Hk.
    destruct (books_counts _ _ _ _ _ _ _ _ Hk Hcc Hmb eq_refl eq_refl) as [Hc _].
    change (sb_cc (sbaddrecord sb (m' :: control ++ m0)))
      with (sb_cc (foldl sballoc sb (m' :: control ++ m0))).
    rewrite Hc, Hcc. simpl. rewrite chain_len_app, Hlm.
    apply u32_mod. exists (chain_len (concat (sb_mb sb)) / 4294967296).
    unfold u32. Z.div_mod_to_equations. lia.
Qed.
End addr_ops.

(** ** Dropping *)

(** [sbdrop] on the data. *)
Fixpoint rdrop (len : Z) (d : list (list Z)) : list (list Z) :=
  match d with
  | [] => []
  | r :: d' =>
      if len <? zlen r then drop (Z.to_nat len) r :: d'
      else if len =? zlen r then d' else rdrop (len - zlen r) d'
  end.

(** What a removal from the front leaves of an mbuf: its address and its room. *)
Definition tag (m : mbuf) : Z * Z := (m_addr m, mb_room m).

Lemma last_suffix {A} (l k : list A) : l <> [] -> suffix l k -> last k = last l.
Proof. intros Hl [j ->]. by apply last_app_ne. Qed.

Lemma addr_of_last c c' : tag <$> c' = tag <$> c -> addr_of (last c') = addr_of (last c).
Proof.
  intros Ht. assert (Hl : tag <$> last c' = tag <$> last c) by by rewrite <- !fmap_last, Ht.
  destruct (last c'), (last c); try discriminate Hl; [|done]. by injection Hl.
Qed.

Lemma not_freed p m R : owns p (m :: R) -> SB_WAS_FREED m p = false.
Proof.
  intros Ho. pose proof (owns_wf _ _ Ho) as [[Ht _] _]%Forall_cons.
  unfold SB_WAS_FREED, MT_FREE. apply andb_false_intro2. lia.
Qed.

(** Removing from a chain [m]: what is left is [m']. *)
Definition removed (R : chain) (m : chain) (sb : sockbuf) (p : mpool)
    (m' : chain) (sb' : sockbuf) (p' : mpool) : Prop :=
  evolve R p m p' m' /\ suffix (tag <$> m') (tag <$> m) /\
  books sb sb' (chain_len m' - chain_len m) (chain_room m' - chain_room m).

Lemma removed_refl R m sb p : owns p (m ++ R) -> removed R m sb p m sb p.
Proof. intros. split; [by apply evolve_refl|split; [done|apply books_refl; lia]]. Qed.

Lemma removed_trans R m sb p m1 sb1 p1 m2 sb2 p2 :
  removed R m sb p m1 sb1 p1 -> removed R m1 sb1 p1 m2 sb2 p2 -> removed R m sb p m2 sb2 p2.
Proof.
  intros (He & Hs & Hk) (He' & Hs' & Hk'). split; [by eapply evolve_trans|].
  split; [by etrans|]. eapply books_eq; [by eapply books_trans|lia..].
Qed.

Lemma removed_head R h r sb p :
  owns p ((h :: r) ++ R) ->
  exists p1, m_free h r p = (r, p1) /\ removed R (h :: r) sb p r (sbfree sb h) p1 /\
    bytes p1 r = bytes p r.
Proof.
  intros Ho. assert (Ho1 : owns p (h :: r ++ R)) by owns_perm Ho.
  destruct (m_free_ok _ p h r Ho1) as (p1 & Hf & He). exists p1. split; [done|].
  pose proof (evolve_frame R r p [h] p1 [] He) as He2. split; [split; [|split]|].
  - done.
  - exists [tag h]. done.
  - simpl. eapply books_eq; [apply books_free|lia..].
  - apply bytes_same. intros x Hx. apply (ev_bytes _ _ _ _ _ He), elem_of_app. by left.
Qed.

Lemma trim_head_ok R h r (len : Z) sb p :
  owns p ((h :: r) ++ R) -> 0 <= len < m_len h ->
  let h' := h <| m_len ::= m_len h - len |> <| m_data ::= m_data h + len |> in
  removed R (h :: r) sb p (h' :: r) (sb <| sb_cc ::= u32 (sb_cc sb - len) |>) p /\
  bytes p (h' :: r) = drop (Z.to_nat len) (bytes p (h :: r)).
Proof.
  intros Ho Hl h'. pose proof (owns_wf _ _ Ho) as Hw. apply Forall_app in Hw as [Hw _].
  pose proof Hw as [Hh Hr]%Forall_cons.
  destruct (bytes_split_lt p h r len Hh ltac:(lia)) as [Hd _]. rewrite Hd.
  assert (Ht : h' = trim h len 0) by (unfold h', trim; by rewrite Z.sub_0_r).
  assert (Hh' : wf_mbuf p h') by (rewrite Ht; apply trim_wf; done || lia).
  split; [split; [|split]|].
  - apply evolve_in; [|by apply Forall_cons_2|done]. constructor; [done|apply same_ids_refl].
  - done.
  - simpl. change (mb_room h') with (mb_room h).
    apply (books_eq _ _ (- len) 0); [apply books_cc|lia..].
  - rewrite bytes_cons. f_equal. rewrite Ht. apply trim_head_bytes; done || lia.
Qed.

Lemma drop_chain_ok R m : forall len sb p,
  owns p (m ++ R) -> 0 <= len ->
  exists e len' m' sb' p', drop_chain len m sb p = (e, len', m', sb', p') /\
    removed R m sb p m' sb' p' /\
    match e with
    | DropDone => len <= chain_len m /\ bytes p' m' = drop (Z.to_nat len) (bytes p m)
    | DropMore => m' = [] /\ chain_len m < len /\ len' = len - chain_len m
    | DropCorrupt => False
    end.
Proof.
  induction m as [|h r IH]; intros len sb p Ho Hl; cbn [drop_chain].
  { destruct (len <=? 0) eqn:Hz.
    - exists DropDone, len, [], sb, p. split; [done|]. split; [by apply removed_refl|].
      split; [simpl; lia|]. unfold bytes; simpl; by rewrite drop_nil.
    - exists DropMore, len, [], sb, p. split; [done|]. split; [by apply removed_refl|].
      simpl. split_and!; lia || done. }
  pose proof (owns_wf _ _ Ho) as Hw. apply Forall_app in Hw as [[Hh Hr]%Forall_cons _].
  pose proof (chain_len_nonneg p r Hr) as Hlr.
  destruct (len <=? 0) eqn:Hz.
  { exists DropDone, len, (h :: r), sb, p. split; [done|]. split; [by apply removed_refl|].
    replace len with 0 by lia. split; [|done]. apply (chain_len_nonneg p). by apply Forall_cons_2. }
  rewrite (not_freed p h (r ++ R)) by exact Ho. destruct (len <? m_len h) eqn:Hlt.
  { destruct (trim_head_ok R h r len sb p Ho ltac:(lia)) as [Hrm Hb].
    eexists _, _, _, _, _. split; [done|]. split; [exact Hrm|]. split; [simpl; lia|exact Hb]. }
  destruct (removed_head R h r sb p Ho) as (p1 & -> & Hrm & Hb1).
  destruct (IH (len - m_len h) (sbfree sb h) p1) as (e & len' & m' & sb' & p' & Hd & Hrm' & Hres);
    [apply Hrm|lia|].
  eexists _, _, _, _, _. split; [exact Hd|]. split; [by eapply removed_trans|].
  destruct e; simpl; [|destruct Hres as (-> & ? & ->); split_and!; lia || done|done].
  destruct Hres as [? ->]. split; [lia|]. rewrite Hb1.
  destruct (bytes_split_l p h r len Hh ltac:(lia)) as [-> _]. done.
Qed.

Lemma drop_empty_ok R m : forall sb p,
  owns p (m ++ R) ->
  exists m' sb' p', drop_empty m sb p = (false, m', sb', p') /\ removed R m sb p m' sb' p' /\
    bytes p' m' = bytes p m /\ (m' = [] <-> bytes p m = []).
Proof.
  induction m as [|h r IH]; intros sb p Ho; cbn [drop_empty].
  { exists [], sb, p. split; [done|]. by split; [apply removed_refl|]. }
  pose proof (owns_wf _ _ Ho) as Hw. apply Forall_app in Hw as [[Hh Hr]%Forall_cons _].
  destruct (m_len h =? 0) eqn:Hz; simpl negb; cbn match.
  - rewrite (not_freed p h (r ++ R)) by exact Ho.
    destruct (removed_head R h r sb p Ho) as (p1 & -> & Hrm & Hb1).
    destruct (IH (sbfree sb h) p1) as (m' & sb' & p' & Hd & Hrm' & Hb & Hn); [apply Hrm|].
    exists m', sb', p'. split; [exact Hd|]. split; [by eapply removed_trans|].
    rewrite (bytes_cons p h), mbuf_bytes_0 by lia. simpl. by rewrite <- Hb1.
  - exists (h :: r), sb, p. split; [done|]. split; [by apply removed_refl|]. split; [done|].
    split; [done|]. intros Hb. pose proof (zlen_mbuf_bytes p h Hh) as Hl.
    rewrite bytes_cons in Hb. apply app_eq_nil in Hb as [Hb _]. rewrite Hb in Hl.
    rewrite zlen_nil in Hl. lia.
Qed.

Lemma removed_frame R K m sb p m' sb' p' :
  removed (K ++ R) m sb p m' sb' p' -> removed R (m ++ K) sb p (m' ++ K) sb' p'.
Proof.
  intros (He & Hs & Hk). split; [by apply evolve_frame|]. split.
  - rewrite !fmap_app. destruct Hs as [j ->]. exists j. by rewrite app_assoc.
  - rewrite !chain_len_app, !chain_room_app. eapply books_eq; [exact Hk|lia..].
Qed.

Lemma removed_bytes R m sb p m' sb' p' K :
  removed (K ++ R) m sb p m' sb' p' -> bytes p' K = bytes p K.
Proof.
  intros (He & _). apply bytes_same. intros x Hx. apply (ev_bytes _ _ _ _ _ He), elem_of_app. by left.
Qed.

Lemma removed_data R m sb p m' sb' p' next :
  removed (concat next ++ R) m sb p m' sb' p' -> bytes p' <$> next = bytes p <$> next.
Proof.
  intros (He & _). apply data_same. intros x Hx. apply (ev_bytes _ _ _ _ _ He), elem_of_app. by left.
Qed.

Lemma rdrop_split (len : Z) r d :
  0 <= len <= zlen r -> rdrop 0 (drop (Z.to_nat len) r :: d) = rdrop len (r :: d).
Proof.
  intros Hl. cbn [rdrop].
  assert (Hz : zlen (drop (Z.to_nat len) r) = zlen r - len).
  { unfold zlen in *. rewrite length_drop. lia. }
  rewrite Hz. destruct (Z.ltb_spec len (zlen r)), (Z.ltb_spec 0 (zlen r - len)); try lia; [done|].
  destruct (Z.eqb_spec len (zlen r)), (Z.eqb_spec 0 (zlen r - len)); try lia. done.
Qed.

Lemma drop_records_ok R next : forall m len sb p,
  owns p ((m ++ concat next) ++ R) -> 0 <= len <= chain_len (m ++ concat next) ->
  exists m' next' sb' p', drop_records len m next sb p = Some (false, m', next', sb', p') /\
    removed R (m ++ concat next) sb p (m' ++ concat next') sb' p' /\ suffix next' next /\
    rdrop 0 (bytes p' m' :: (bytes p' <$> next')) = rdrop len (bytes p m :: (bytes p <$> next)).
Proof.
  induction next as [|m2 next IH]; intros m len sb p Ho Hl.
  - simpl in *. rewrite app_nil_r in *.
    destruct (drop_chain_ok R m len sb p Ho ltac:(lia)) as (e & len' & m' & sb' & p' & -> & Hrm & He).
    destruct e; [|lia|done]. destruct He as [Hlen Hb].
    exists m', [], sb', p'. rewrite app_nil_r. split_and!; try done.
    rewrite (chain_len_bytes p m R Ho) in Hlen. rewrite Hb. apply rdrop_split. lia.
  - cbn [drop_records]. assert (Ho1 : owns p (m ++ concat (m2 :: next) ++ R)) by owns_perm Ho.
    destruct (drop_chain_ok _ m len sb p Ho1 ltac:(lia)) as
      (e & len' & m' & sb' & p' & -> & Hrm & He).
    pose proof (removed_frame R _ _ _ _ _ _ _ Hrm) as Hrm'.
    pose proof (removed_data R _ _ _ _ _ _ (m2 :: next) Hrm) as Hd.
    pose proof (chain_len_bytes p m _ Ho1) as Hlm.
    destruct e; [|..|done].
    + destruct He as [Hlen Hb]. exists m', (m2 :: next), sb', p'. split_and!; try done.
      rewrite Hd, Hb. apply rdrop_split. lia.
    + destruct He as (-> & Hlen & ->).
      destruct (IH m2 (len - chain_len m) sb' p') as
        (m1 & next1 & sb1 & p1 & Hx & Hrm1 & Hsuf & Hdata).
      { apply Hrm'. }
      { simpl in Hl. rewrite !chain_len_app in *. lia. }
      exists m1, next1, sb1, p1. split; [exact Hx|].
      split; [by eapply removed_trans|]. split; [by apply suffix_cons_r|].
      rewrite Hdata. cbn [fmap list_fmap] in Hd. rewrite Hd. cbn [rdrop].
      destruct (len <? _) eqn:?; [lia|]. destruct (len =? _) eqn:?; [lia|]. by rewrite <- Hlm.
Qed.

Lemma sb_ok_removed R sb m' next' sb1 p p' :
  sb_ok sb -> removed R (concat (sb_mb sb)) sb p (m' ++ concat next') sb1 p' ->
  suffix next' (sb_mb sb) ->
  let mb := match m' with [] => next' | _ => m' :: next' end in
  let sb2 := sb1 <| sb_mb ::= mb |> in
  let sb' := match mb with [] => sb2 <| sb_mbtail ::= 0 |> | _ => sb2 end in
  sb_ok sb' /\ same_limits sb sb' /\ sb_mb sb' = mb /\ concat mb = m' ++ concat next'.
Proof.
  intros [Hr Hcc Hmb Ht] (He & Hs & Hk) Hsuf mb sb2 sb'.
  destruct (books_limits _ _ _ _ Hk) as [Hlim _].
  assert (Hmb' : sb_mb sb' = mb) by (unfold sb'; by destruct mb).
  assert (Hc : concat mb = m' ++ concat next') by (unfold mb; by destruct m').
  destruct (books_counts _ _ _ _ _ _ (chain_len (concat mb)) (chain_room (concat mb)) Hk Hcc Hmb)
    as [Hcc' Hmb'']; [rewrite Hc; lia..|].
  split_and!; [|by unfold sb'; destruct mb|done|done].
  assert (Hne : Forall (fun r => r <> []) mb).
  { destruct Hsuf as [j Hj]. rewrite Hj in Hr. apply Forall_app in Hr as [_ Hr].
    unfold mb. destruct m'; [done|by apply Forall_cons_2]. }
  split; rewrite ?Hmb'; [done|by unfold sb'; destruct mb..|].
  intros Hn. assert (Hc2 : concat mb <> []).
  { destruct mb as [|r mb']; [done|]. apply Forall_cons in Hne as [Hr1 _]. by destruct r. }
  assert (Htail : sb_mbtail sb' = sb_mbtail sb).
  { destruct Hk as (c & n & -> & _). unfold sb'. by destruct mb. }
  rewrite Htail, Ht.
  - rewrite Hc in Hc2 |- *. destruct Hs as [j Hj].
    assert (Hl : tag <$> last (concat (sb_mb sb)) = tag <$> last (m' ++ concat next')).
    { rewrite <- !fmap_last, Hj. apply last_app_ne.
      intros Hnil%fmap_nil_inv. done. }
    destruct (last (concat (sb_mb sb))), (last (m' ++ concat next')); try discriminate Hl; [|done].
    by injection Hl.
  - intros Hnil. rewrite Hnil in Hs. destruct Hs as [j Hj]. rewrite Hc in Hc2.
    destruct (m' ++ concat next'); [done|]. by destruct j.
Qed.

Lemma sbdrop_ok R sb (len : Z) p :
  sb_ok sb -> owns p (concat (sb_mb sb) ++ R) -> 0 <= len <= chain_len (concat (sb_mb sb)) ->
  exists sb' p', sbdrop sb len p = Some (sb', p') /\
    evolve R p (concat (sb_mb sb)) p' (concat (sb_mb sb')) /\
    sb_data p' sb' = rdrop len (sb_data p sb) /\ sb_ok sb' /\ same_limits sb sb' /\
    suffix (tag <$> concat (sb_mb sb')) (tag <$> concat (sb_mb sb)).
Proof.
  intros Hok Ho Hl. unfold sbdrop.
  assert (Hguard : ng_mbufcheck_active p && match sb_mb sb with [] => true | _ => false end &&
     (negb (sb_cc sb =? 0) || negb (sb_mbcnt sb =? 0)) = false).
  { destruct Hok as [_ Hcc Hmb _]. destruct (sb_mb sb); [|by rewrite andb_false_r].
    rewrite Hcc, Hmb. simpl. by rewrite andb_false_r. }
  rewrite Hguard. set (mn := match sb_mb sb with m :: next => (m, next) | [] => ([], []) end).
  destruct mn as [m next] eqn:Hmn.
  assert (Hc : concat (sb_mb sb) = m ++ concat next /\ (sb_mb sb = [] -> m = [] /\ next = []) /\
    suffix next (sb_mb sb)).
  { unfold mn in Hmn. destruct (sb_mb sb) as [|m0 n0]; injection Hmn as <- <-; [done|].
    split_and!; try done. by apply suffix_cons_r. }
  destruct Hc as (Hc & Hnil & Hnext).
  rewrite Hc in Ho, Hl.
  destruct (drop_records_ok R next m len sb p Ho Hl) as
    (m1 & next1 & sb1 & p1 & -> & Hrm & Hsuf & Hdata). cbn [mbind option_bind].
  assert (Ho1 : owns p1 (m1 ++ concat next1 ++ R))
    by (rewrite app_assoc; apply Hrm).
  destruct (drop_empty_ok _ m1 sb1 p1 Ho1) as (m2 & sb2 & p2 & -> & Hrm2 & Hb2 & Hn2).
  pose proof (removed_data R _ _ _ _ _ _ next1 Hrm2) as Hd2.
  apply removed_frame in Hrm2.
  pose proof (removed_trans _ _ _ _ _ _ _ _ _ _ Hrm Hrm2) as Hrm3. rewrite <- Hc in Hrm3.
  destruct (sb_ok_removed R sb m2 next1 sb2 p p2 Hok Hrm3) as (Hok' & Hlim' & Hmb' & Hc');
    [by etrans|].
  set (mb := match m2 with [] => next1 | _ => m2 :: next1 end) in *. cbn zeta in *.
  set (sb' := match mb with [] => _ | _ => _ end) in *.
  change (match sb_mb (sb2 <| sb_mb ::= mb |>) with
          | [] => sb2 <| sb_mb ::= mb |> <| sb_mbtail ::= 0 |>
          | _ => sb2 <| sb_mb ::= mb |> end) with sb'.
  exists sb', p2. split; [done|]. rewrite Hmb', Hc'.
  split; [apply Hrm3|]. split; [|split_and!; try done; apply Hrm3].
  unfold sb_data. rewrite Hmb'. transitivity (rdrop len (bytes p m :: (bytes p <$> next))).
  - rewrite <- Hdata, <- Hd2, <- Hb2. unfold mb. cbn [rdrop]. rewrite <- Hb2 in Hn2.
    destruct m2 as [|h r].
    + done.
    + destruct (bytes p2 (h :: r)) as [|b l] eqn:Hbs; [by discriminate (proj2 Hn2 eq_refl)|].
      rewrite zlen_cons. pose proof (zlen_nonneg l).
      destruct (0 <? 1 + zlen l) eqn:?; [|lia]. rewrite <- Hbs. done.
  - unfold mn in Hmn. destruct (sb_mb sb) as [|m0 n0]; injection Hmn as <- <-; [|done].
    simpl in Hl. replace len with 0 by lia. done.
Qed.

Lemma droprecord_loop_ok R m : forall sb p,
  owns p (m ++ R) ->
  exists sb' p', droprecord_loop m sb p = (sb', p') /\ removed R m sb p [] sb' p'.
Proof.
  induction m as [|h r IH]; intros sb p Ho; cbn [droprecord_loop].
  { exists sb, p. split; [done|]. by apply removed_refl. }
  destruct (removed_head R h r sb p Ho) as (p1 & -> & Hrm & _).
  assert (Hnext : match r with [] => (sbfree sb h, p1) | _ => droprecord_loop r (sbfree sb h) p1 end =
                  droprecord_loop r (sbfree sb h) p1) by by destruct r.
  rewrite Hnext. destruct (IH (sbfree sb h) p1) as (sb' & p' & -> & Hrm'); [apply Hrm|].
  exists sb', p'. split; [done|]. by eapply removed_trans.
Qed.

Lemma books_set_mb sb sb' dc dn mb :
  books (sb <| sb_mb ::= mb |>) sb' dc dn ->
  exists sb1, books sb sb1 dc dn /\ sb' = sb1 <| sb_mb ::= mb |>.
Proof.
  intros (c & n & -> & Hc). exists (sb <| sb_cc ::= c |> <| sb_mbcnt ::= n |>).
  split; [|done]. by exists c, n.
Qed.

Lemma sbdroprecord_ok R sb p :
  sb_ok sb -> owns p (concat (sb_mb sb) ++ R) ->
  let '(sb', p') := sbdroprecord sb p in
  evolve R p (concat (sb_mb sb)) p' (concat (sb_mb sb')) /\
  sb_data p' sb' = tail (sb_data p sb) /\ sb_ok sb' /\ same_limits sb sb'.
Proof.
  intros Hok Ho. unfold sbdroprecord. destruct (sb_mb sb) as [|m next] eqn:Hmb.
  - cbv beta iota zeta. rewrite Hmb. change (sb_mb (sb <| sb_mbtail ::= 0 |>)) with (sb_mb sb).
    rewrite Hmb. split; [by apply evolve_refl|]. split; [|split; [|done]].
    + unfold sb_data. cbn. by rewrite Hmb.
    + destruct Hok as [Hr Hcc Hm Ht]. split; cbn; rewrite ?Hmb in *; done.
  - simpl in Ho. rewrite <- app_assoc in Ho.
    destruct (droprecord_loop_ok (concat next ++ R) m (sb <| sb_mb ::= next |>) p Ho)
      as (sb' & p' & -> & Hrm).
    pose proof (removed_data R _ _ _ _ _ _ next Hrm) as Hd.
    apply removed_frame in Hrm. destruct Hrm as (He & Hs & Hk).
    apply books_set_mb in Hk as (sb1 & Hk & ->).
    destruct (sb_ok_removed R sb [] next sb1 p p' Hok) as (Hok' & Hlim & Hmb' & _).
    { rewrite Hmb. by split. }
    { rewrite Hmb. by apply suffix_cons_r. }
    cbn beta iota zeta in *. change (sb_mb (sb1 <| sb_mb ::= next |>)) with next.
    split_and!; try done; [by rewrite Hmb'|].
    unfold sb_data. rewrite Hmb', Hmb. done.
Qed.

(** ** Flushing *)

Lemma rdrop_concat d : forall len, 0 <= len <= zlen (concat d) ->
  concat (rdrop len d) = drop (Z.to_nat len) (concat d).
Proof.
  induction d as [|r d IH]; intros len Hl; simpl; [by rewrite drop_nil|].
  simpl in Hl. rewrite zlen_app in Hl.
  destruct (Z.ltb_spec len (zlen r)); [simpl; rewrite drop_app_le; [done|unfold zlen in *; lia]|].
  assert (Hd : drop (Z.to_nat len) (r ++ concat d) = drop (Z.to_nat (len - zlen r)) (concat d)).
  { rewrite drop_app_ge by (unfold zlen in *; lia). f_equal. unfold zlen in *. lia. }
  rewrite Hd. destruct (Z.eqb_spec len (zlen r)) as [->|]; [|apply IH; lia].
  by rewrite Z.sub_diag.
Qed.

Lemma rdrop_all_length d : d <> [] -> (length (rdrop (zlen (concat d)) d) < length d)%nat.
Proof.
  induction d as [|r d IH]; [done|]. intros _. simpl. rewrite zlen_app.
  pose proof (zlen_nonneg (concat d)).
  destruct (Z.ltb_spec (zlen r + zlen (concat d)) (zlen r)); [lia|].
  destruct (Z.eqb_spec (zlen r + zlen (concat d)) (zlen r)); [lia|].
  replace (zlen r + zlen (concat d) - zlen r) with (zlen (concat d)) by lia.
  destruct d as [|r' d']; [simpl; lia|]. specialize (IH ltac:(done)). lia.
Qed.

(** The words do not wrap. *)
Definition sb_small (sb : sockbuf) : Prop :=
  Forall (fun m => 0 < mb_room m) (concat (sb_mb sb)) /\
  chain_room (concat (sb_mb sb)) < 4294967296 /\ chain_len (concat (sb_mb sb)) < 2147483648.

Lemma chain_room_tags c : chain_room c = fold_right Z.add 0 (snd <$> (tag <$> c)).
Proof. induction c as [|m c IH]; [done|]. simpl. by rewrite IH. Qed.

Lemma rooms_nonneg c : Forall (fun m => 0 < mb_room m) c -> 0 <= chain_room c.
Proof. induction 1; simpl; lia. Qed.

Lemma rooms_suffix c c' :
  suffix (tag <$> c') (tag <$> c) -> Forall (fun m => 0 < mb_room m) c ->
  Forall (fun m => 0 < mb_room m) c' /\ chain_room c' <= chain_room c.
Proof.
  intros [j Hj] Hf.
  assert (Hf' : Forall (fun t => 0 < snd t) (tag <$> c)) by by apply Forall_fmap.
  rewrite Hj in Hf'. apply Forall_app in Hf' as [Hfj Hf']. split.
  - rewrite Forall_fmap in Hf'. exact Hf'.
  - rewrite !chain_room_tags, Hj, fmap_app, foldr_app.
    set (k := foldr Z.add 0 (snd <$> (tag <$> c'))). clearbody k. clear -Hfj.
    induction Hfj as [|x l Hx Hl IH]; cbn [fmap list_fmap foldr]; [lia|]. cbn beta in Hx. lia.
Qed.

Lemma data_length p c R : owns p (concat c ++ R) -> zlen (concat (bytes p <$> c)) = chain_len (concat c).
Proof.
  intros Ho. rewrite (chain_len_bytes p _ R Ho). f_equal. clear.
  induction c as [|r c IH]; [done|]. cbn [fmap list_fmap concat].
  rewrite bytes_app. f_equal. exact IH.
Qed.

Lemma room_zero c : Forall (fun m => 0 < mb_room m) c -> chain_room c = 0 -> c = [].
Proof. destruct 1 as [|m c Hm Hc%rooms_nonneg]; [done|]. simpl. lia. Qed.

Lemma flush_loop_ok R fuel : forall sb p,
  sb_ok sb -> owns p (concat (sb_mb sb) ++ R) -> sb_small sb ->
  (length (sb_mb sb) <= fuel)%nat ->
  exists sb' p', flush_loop fuel sb p = Some (sb', p') /\
    evolve R p (concat (sb_mb sb)) p' [] /\ sb_cc sb' = 0 /\ sb_mbcnt sb' = 0 /\ sb_mb sb' = [] /\
    same_limits sb sb'.
Proof.
  induction fuel as [|fuel IH]; intros sb p Hok Ho (Hp & Hrm & Hln) Hfuel;
    pose proof Hok as [Hr Hcc Hmb _]; pose proof (rooms_nonneg _ Hp) as H0;
    rewrite u32_small in Hmb by lia; cbn [flush_loop];
    (assert (Hw : Forall (wf_mbuf p) (concat (sb_mb sb)))
       by (pose proof (owns_wf _ _ Ho) as [? _]%Forall_app; done));
    pose proof (chain_len_nonneg p _ Hw) as H1; rewrite u32_small in Hcc by lia;
    (destruct (sb_mbcnt sb =? 0) eqn:Hz;
      [assert (Hnil : concat (sb_mb sb) = []) by (apply room_zero; [done|lia]);
       rewrite Hnil in *;
       assert (Hmb0 : sb_mb sb = []) by
         (destruct (sb_mb sb) as [|r rs]; [done|]; apply Forall_cons in Hr as [Hr _]; by destruct r);
       exists sb, p; split; [done|]; split; [by apply evolve_refl|]; by split_and!|]).
  - destruct (sb_mb sb); [simpl in *; lia|simpl in Hfuel; lia].
  - rewrite s32_small by lia.
    destruct (sbdrop_ok R sb (sb_cc sb) p Hok Ho ltac:(lia)) as
      (sb1 & p1 & -> & He & Hd & Hok1 & Hlim & Hs). cbn [mbind option_bind].
    destruct (rooms_suffix _ _ Hs Hp) as [Hp1 Hrm1].
    assert (Hlen : length (sb_mb sb1) = length (sb_data p1 sb1)) by (unfold sb_data; by rewrite length_fmap).
    assert (Hsn : sb_data p sb <> []).
    { unfold sb_data. intros Hnil%fmap_nil_inv. rewrite Hnil in Hmb. simpl in Hmb. lia. }
    pose proof (data_length p (sb_mb sb) R Ho) as Hdl. fold (sb_data p sb) in Hdl.
    pose proof (rdrop_all_length _ Hsn) as Hlt. rewrite Hdl, <- Hcc, <- Hd, <- Hlen in Hlt.
    unfold sb_data in Hlt. rewrite length_fmap in Hlt.
    pose proof (data_length p1 (sb_mb sb1) R (ev_owns _ _ _ _ _ He)) as Hdl1.
    fold (sb_data p1 sb1) in Hdl1. rewrite Hd, rdrop_concat in Hdl1 by lia.
    assert (Hz1 : chain_len (concat (sb_mb sb1)) = 0).
    { rewrite <- Hdl1. unfold zlen in *. rewrite length_drop. lia. }
    destruct (IH sb1 p1 Hok1) as (sb' & p' & Hf & He' & Hres & Hres2 & Hres3 & Hl2);
      [apply He|split; [done|lia]|lia|].
    exists sb', p'. split; [done|]. split; [by eapply evolve_trans|].
    split_and!; try done. destruct Hlim as (?&?&?&?&?), Hl2 as (?&?&?&?&?).
    unfold same_limits. split_and!; congruence.
Qed.

Lemma sbflush_ok R fuel sb p :
  sb_ok sb -> owns p (concat (sb_mb sb) ++ R) -> sb_small sb ->
  (length (sb_mb sb) <= fuel)%nat -> Z.land (sb_flags sb) SB_LOCK = 0 ->
  exists sb' p', sbflush fuel sb p = Some (sb', p') /\
    evolve R p (concat (sb_mb sb)) p' [] /\ sb_ok sb' /\ sb_mb sb' = [] /\ sb_cc sb' = 0 /\
    sb_mbcnt sb' = 0 /\ same_limits sb sb'.
Proof.
  intros Hok Ho Hsm Hf Hlk. unfold sbflush. rewrite Hlk. simpl negb. cbn match.
  destruct (flush_loop_ok R fuel sb p Hok Ho Hsm Hf) as (sb' & p' & -> & He & Hc & Hm & Hb & Hl).
  cbn [mbind option_bind]. exists (sb' <| sb_mbtail ::= 0 |>), p'. cbn.
  rewrite Hc, Hb. simpl. split; [done|]. split; [done|]. split_and!; try done; try apply Hl.
  split; cbn; rewrite ?Hb, ?Hc, ?Hm; done.
Qed.

(** ** Reserving *)

Definition sb_cap (sb_max mclb : Z) : Z := sb_max / (MSIZE + mclb) * mclb.

Lemma sb_cap_range sb_max mclb :
  0 <= sb_max < 4294967296 -> 0 < mclb -> 0 <= sb_cap sb_max mclb /\ (sb_cap sb_max mclb = 0 \/ sb_cap sb_max mclb < sb_max).
Proof.
  intros Hs Hm. unfold sb_cap. assert (Hk : 0 < MSIZE + mclb) by (unfold MSIZE; lia).
  pose proof (Z.mul_div_le sb_max (MSIZE + mclb) Hk).
  pose proof (Z.div_pos sb_max (MSIZE + mclb) ltac:(lia) ltac:(lia)). unfold MSIZE in *. nia.
Qed.

(** A buffer reserved [cc] bytes. *)
Record reserved (sb_max cc : Z) (sb sb' : sockbuf) : Prop := {
  rs_hiwat : sb_hiwat sb' = cc;
  rs_mbmax : cc <= sb_mbmax sb' <= sb_max;
  rs_lowat : 0 <= sb_lowat sb' <= cc;
  rs_data : sb_mb sb' = sb_mb sb /\ sb_cc sb' = sb_cc sb /\ sb_mbcnt sb' = sb_mbcnt sb /\
            sb_mbtail sb' = sb_mbtail sb /\ sb_flags sb' = sb_flags sb }.

Lemma sbreserve_ok sb_max mclb sb cc :
  0 <= sb_max <= 2147483648 -> 0 < mclb -> 0 <= cc -> 0 <= sb_lowat sb < 2147483648 ->
  let '(ok, sb') := sbreserve sb_max mclb sb cc in
  ok = (cc <=? sb_cap sb_max mclb) /\
  if ok : bool then reserved sb_max cc sb sb' else sb' = sb.
Proof.
  intros Hs Hm Hc Hl. pose proof (sb_cap_range sb_max mclb ltac:(lia) Hm) as Hcap.
  unfold sbreserve. fold (sb_cap sb_max mclb). rewrite u32_small by lia.
  destruct (sb_cap sb_max mclb <? cc) eqn:Hlt; [split; [lia|done]|].
  cbv zeta. split; [lia|]. set (sb1 := _ <| sb_mbmax ::= _ |>).
  assert (Hmax : cc <= sb_mbmax sb1 <= sb_max).
  { cbn. unfold umin. rewrite u32_small, (u32_small sb_max), u32_small by (rewrite ?u32_small; lia).
    lia. }
  change (sb_hiwat sb1) with cc. change (sb_lowat sb1) with (sb_lowat sb).
  rewrite u32_small by lia. destruct (cc <? sb_lowat sb) eqn:Hlw.
  - rewrite s32_small by lia. split; [done|exact Hmax|cbn; lia|done].
  - split; [done|exact Hmax|change (sb_lowat sb1) with (sb_lowat sb); lia|done].
Qed.

(** * Properties *)

(** C15. [sbappend] and [sbappendrecord] queue a chain without losing, reordering
    or inventing a byte: [sbappend] extends the last record, reaching it through
    the tail pointer alone, [sbappendrecord] starts a new one.  Compression only
    frees mbufs whose bytes were copied, the byte and mbuf counters stay the
    totals and the tail pointer stays the last mbuf, and neither panics nor
    touches memory outside an mbuf. *)
Theorem sbappend_correct R sb m p :
  sb_ok sb -> owns p (concat (sb_mb sb) ++ m ++ R) -> m <> [] ->
  (exists sb' p', sbappend sb m p = Some (sb', p') /\
     added R sb m p (rappend (sb_data p sb) (bytes p m)) sb' p') /\
  (exists sb' p', sbappendrecord sb m p = Some (sb', p') /\
     added R sb m p (sb_data p sb ++ [bytes p m]) sb' p').
Proof. intros. split; [by apply sbappend_ok|by apply sbappendrecord_ok]. Qed.

Definition demo_sb : sockbuf := mk_sockbuf 0 4096 0 8192 1 [] 0 0 (0, 0).

Definition demo_sb1 : sockbuf :=
  mk_sockbuf 9 4096 272 8192 1 [demo_chain] (addr_of (last demo_chain)) 0 (0, 0).

Lemma demo_sb1_counts : chain_len demo_chain = 9 /\ chain_room demo_chain = 272.
Proof. vm_compute. done. Qed.

Lemma demo_sb1_ok : sb_ok demo_sb1.
Proof. split; [by apply Forall_cons_2|done..]. Qed.

Lemma demo_sb1_owns : owns demo_pool (concat (sb_mb demo_sb1) ++ [demo_loose] ++ []).
Proof. pose proof demo_owns as H. owns_perm H. Qed.

Lemma sbappend_correct_witness :
  exists sb' p', sbappend demo_sb1 [demo_loose] demo_pool = Some (sb', p') /\
    sb_data p' sb' = [[20; 21; 22; 23; 24; 203; 204; 205; 206; 0; 1; 2]] /\
    sb_cc sb' = 12 /\ sb_mbcnt sb' = 400.
Proof.
  destruct (sbappend_correct [] demo_sb1 [demo_loose] demo_pool demo_sb1_ok demo_sb1_owns)
    as [(sb' & p' & Hs & _ & Hd & _) _]; [discriminate|].
  exists sb', p'. split; [exact Hs|]. split; [rewrite Hd; vm_compute; reflexivity|].
  vm_compute in Hs. injection Hs as <- _. split; reflexivity.
Defined.

(** C16. [sbappendaddr] queues one record - the sender's name, the control data,
    the data, in this order - or leaves the buffer as it was and the chains with
    the caller: for want of space, for a name longer than an mbuf, or of mbufs.
    It never panics on a packet with a header, and when the packet header states
    the data's length a buffer within its high-water mark stays within it. *)
Theorem sbappendaddr_correct mget `{!Allocator mget} R sb asa sa_len m0 control p :
  sb_ok sb -> owns p (concat (sb_mb sb) ++ (control ++ m0) ++ R) ->
  head asa = Some sa_len -> 0 <= sa_len <= zlen asa -> sa_len < 256 ->
  (forall h, head m0 = Some h -> has h M_PKTHDR = true) -> pktlen_ok m0 ->
  sb_cc sb <= sb_hiwat sb < 2147483648 -> chain_len (control ++ m0) < 2147483648 - 256 ->
  exists ok sb' p', sbappendaddr mget sb asa m0 control p = Some (ok, sb', p') /\
    if ok : bool then
      added R sb (control ++ m0) p
        (sb_data p sb ++ [zslice asa 0 sa_len ++ bytes p control ++ bytes p m0]) sb' p' /\
      sb_cc sb' <= sb_hiwat sb'
    else sb' = sb /\ evolve (concat (sb_mb sb) ++ (control ++ m0) ++ R) p [] p' [].
Proof.
  intros Hok Ho Hsa Hl Hl2 Hh Hpk Hcc Hsz.
  destruct (sbappendaddr_ok mget R sb asa sa_len m0 control p Hok Ho Hsa Hl Hh)
    as (ok & sb' & p' & Hs & Hres).
  exists ok, sb', p'. split; [done|]. destruct ok; [|done].
  destruct Hres as (Hadd & Hcc' & Hspace). split; [done|].
  pose proof Hadd as (_ & _ & _ & Hhi & _). rewrite Hhi, Hcc'.
  assert (Hw : Forall (wf_mbuf p) control /\ Forall (wf_mbuf p) m0).
  { pose proof (owns_wf _ _ Ho) as Hw. rewrite !Forall_app in Hw. tauto. }
  pose proof (chain_len_nonneg p _ (proj1 Hw)). pose proof (chain_len_nonneg p _ (proj2 Hw)).
  pose proof (ok_cc _ Hok) as Hc0. pose proof (u32_range (chain_len (concat (sb_mb sb)))).
  rewrite chain_len_app in Hsz.
  assert (Hph : match m0 with h :: _ => ph_len (m_pkthdr h) | [] => 0 end = chain_len m0).
  { destruct m0 as [|h r]; [done|]. unfold pktlen_ok in Hpk. rewrite (Hh h) in Hpk by done. auto. }
  rewrite Hph, (s32_small (sa_len + _)), s32_small in Hspace by (rewrite ?s32_small; lia).
  unfold sbspace, imin in Hspace. rewrite (s32_small (sb_hiwat sb - sb_cc sb)) in Hspace by lia.
  rewrite u32_small by lia. lia.
Qed.

Definition demo_name : list Z := [4; 2; 7; 9].

Lemma sbappendaddr_correct_witness :
  exists sb' p', sbappendaddr MGET_list demo_sb demo_name demo_chain [demo_loose] demo_pool
                 = Some (true, sb', p') /\
    sb_data p' sb' = [[4; 2; 7; 9; 0; 1; 2; 20; 21; 22; 23; 24; 203; 204; 205; 206]] /\
    sb_cc sb' <= sb_hiwat sb'.
Proof.
  destruct (sbappendaddr_correct MGET_list [] demo_sb demo_name 4 demo_chain [demo_loose] demo_pool)
    as (ok & sb' & p' & Hs & Hres).
  - split; [constructor|reflexivity|reflexivity|intros H; destruct (H eq_refl)].
  - pose proof demo_owns as H. owns_perm H.
  - reflexivity.
  - vm_compute. split; discriminate.
  - reflexivity.
  - intros h [= <-]. reflexivity.
  - vm_compute. reflexivity.
  - vm_compute. split; [discriminate|reflexivity].
  - vm_compute. reflexivity.
  - exists sb', p'. vm_compute in Hs. injection Hs as <- <- <-. split; [vm_compute; reflexivity|].
    destruct Hres as [(_ & Hd & _) Hle]. split; [rewrite Hd; vm_compute; reflexivity|exact Hle].
Defined.

(** C17. [sbdrop] removes exactly the first [len] bytes of the queued data, record
    boundaries included, and [sbdroprecord] exactly the first record; the mbufs
    they exhaust return to the pool, what is left is untouched, and counters and
    tail pointer stay right.  Dropping what the buffer holds never panics. *)
Theorem sbdrop_correct R sb (len : Z) p :
  sb_ok sb -> owns p (concat (sb_mb sb) ++ R) -> 0 <= len <= chain_len (concat (sb_mb sb)) ->
  (exists sb' p', sbdrop sb len p = Some (sb', p') /\
     evolve R p (concat (sb_mb sb)) p' (concat (sb_mb sb')) /\
     sb_data p' sb' = rdrop len (sb_data p sb) /\
     concat (sb_data p' sb') = drop (Z.to_nat len) (concat (sb_data p sb)) /\
     sb_ok sb' /\ same_limits sb sb') /\
  let '(sb', p') := sbdroprecord sb p in
  evolve R p (concat (sb_mb sb)) p' (concat (sb_mb sb')) /\
  sb_data p' sb' = tail (sb_data p sb) /\ sb_ok sb' /\ same_limits sb sb'.
Proof.
  intros Hok Ho Hl. split; [|by apply sbdroprecord_ok].
  destruct (sbdrop_ok R sb len p Hok Ho Hl) as (sb' & p' & Hs & He & Hd & Hok' & Hlim & _).
  exists sb', p'. split_and!; try done. rewrite Hd. apply rdrop_concat.
  unfold sb_data. by rewrite (data_length p (sb_mb sb) R Ho).
Qed.

Lemma sbdrop_correct_witness :
  exists sb' p', sbdrop demo_sb1 6 demo_pool = Some (sb', p') /\
    sb_data p' sb' = [[204; 205; 206]] /\ sb_cc sb' = 3 /\ length (mfree p') = 3%nat.
Proof.
  destruct (sbdrop_correct [demo_loose] demo_sb1 6 demo_pool) as [(sb' & p' & Hs & _ & Hd & _) _].
  - exact demo_sb1_ok.
  - exact demo_sb1_owns.
  - vm_compute. split; discriminate.
  - exists sb', p'. split; [exact Hs|]. split; [rewrite Hd; vm_compute; reflexivity|].
    vm_compute in Hs. injection Hs as <- <-. split; reflexivity.
Defined.

(** C18. [sbflush] terminates - at most one [sbdrop] per record - and gives every
    mbuf of an unlocked buffer back to the pool, with no panic: the buffer ends
    empty and its counters at zero, records without data included. *)
Theorem sbflush_correct R fuel sb p :
  sb_ok sb -> owns p (concat (sb_mb sb) ++ R) -> sb_small sb ->
  (length (sb_mb sb) <= fuel)%nat -> Z.land (sb_flags sb) SB_LOCK = 0 ->
  exists sb' p', sbflush fuel sb p = Some (sb', p') /\
    evolve R p (concat (sb_mb sb)) p' [] /\ sb_ok sb' /\ sb_mb sb' = [] /\ sb_cc sb' = 0 /\
    sb_mbcnt sb' = 0 /\ same_limits sb sb'.
Proof. apply sbflush_ok. Qed.

Lemma sbflush_correct_witness :
  exists sb' p', sbflush 1 demo_sb1 demo_pool = Some (sb', p') /\
    sb_mb sb' = [] /\ sb_cc sb' = 0 /\ length (mfree p') = 4%nat.
Proof.
  destruct (sbflush_correct [demo_loose] 1 demo_sb1 demo_pool) as (sb' & p' & Hs & _ & _ & Hm & Hc & _).
  - exact demo_sb1_ok.
  - exact demo_sb1_owns.
  - split; [|vm_compute; split; reflexivity]. repeat apply Forall_cons_2; try apply Forall_nil_2; reflexivity.
  - apply le_n.
  - reflexivity.
  - exists sb', p'. split; [exact Hs|]. split; [exact Hm|]. split; [exact Hc|].
    vm_compute in Hs. injection Hs as _ <-. reflexivity.
Defined.

(** [soreserve] either reserves both directions or neither: it succeeds
    exactly when the two sizes, raised to the floor of one datagram, are within
    what the mbuf accounting backs; then each buffer's mark is the requested size,
    its mbuf limit is at least that and at most [sb_max], the low-water marks are
    positive and at most the marks, and no 32-bit product wrapped.  On failure the
    send side's reservation is undone and its queue flushed. *)
Theorem soreserve_correct R fuel sb_max mclb so_snd so_rcv sndcc rcvcc p :
  0 <= sb_max <= 2147483648 -> 0 < mclb < 2147483648 -> 0 <= sndcc -> 0 <= rcvcc ->
  0 <= sb_lowat so_snd < 2147483648 -> 0 <= sb_lowat so_rcv < 2147483648 ->
  sb_ok so_snd -> owns p (concat (sb_mb so_snd) ++ R) -> sb_small so_snd ->
  (length (sb_mb so_snd) <= fuel)%nat -> Z.land (sb_flags so_snd) SB_LOCK = 0 ->
  let scc := Z.max NG_SOBUF_MIN sndcc in
  let rcc := Z.max NG_SOBUF_MIN rcvcc in
  exists ok snd rcv p', soreserve fuel sb_max mclb so_snd so_rcv sndcc rcvcc p
                        = Some (ok, snd, rcv, p') /\
    ok = (scc <=? sb_cap sb_max mclb) && (rcc <=? sb_cap sb_max mclb) /\
    if ok : bool then
      p' = p /\ reserved sb_max scc so_snd snd /\ reserved sb_max rcc so_rcv rcv /\
      0 < sb_lowat snd /\ 0 < sb_lowat rcv
    else rcv = so_rcv /\ (snd = so_snd /\ p' = p \/
         sb_hiwat snd = 0 /\ sb_mbmax snd = 0 /\ sb_mb snd = [] /\
         evolve R p (concat (sb_mb so_snd)) p' []).
Proof.
  intros Hs Hm Hsc Hrc Hls Hlr Hok Ho Hsm Hf Hlk scc rcc. unfold soreserve.
  replace (if sndcc <? NG_SOBUF_MIN then NG_SOBUF_MIN else sndcc) with scc
    by (unfold scc; destruct (sndcc <? NG_SOBUF_MIN) eqn:?; lia).
  replace (if rcvcc <? NG_SOBUF_MIN then NG_SOBUF_MIN else rcvcc) with rcc
    by (unfold rcc; destruct (rcvcc <? NG_SOBUF_MIN) eqn:?; lia).
  assert (Hpos : 2048 <= scc /\ 2048 <= rcc) by (unfold scc, rcc, NG_SOBUF_MIN; lia).
  clearbody scc rcc.
  pose proof (sbreserve_ok sb_max mclb so_snd scc Hs ltac:(lia) ltac:(lia) Hls) as H1.
  destruct (sbreserve sb_max mclb so_snd scc) as [ok1 snd1]. destruct H1 as [-> H1].
  pose proof (sbreserve_ok sb_max mclb so_rcv rcc Hs ltac:(lia) ltac:(lia) Hlr) as H2.
  destruct (sbreserve sb_max mclb so_rcv rcc) as [ok2 rcv1]. destruct H2 as [-> H2].
  destruct (scc <=? sb_cap sb_max mclb) eqn:Hle; cbn [negb andb].
  2:{ subst snd1. exists false, so_snd, so_rcv, p. split_and!; auto. }
  destruct (rcc <=? sb_cap sb_max mclb) eqn:Hle2; cbn [negb].
  2:{ subst rcv1. destruct H1 as [_ _ _ (Hmb & Hcc & Hmc & Ht & Hfl)].
      assert (Hok1 : sb_ok snd1) by (destruct Hok; split; rewrite ?Hmb, ?Hcc, ?Hmc, ?Ht; done).
      unfold sb_small in Hsm. unfold sbrelease. rewrite <- Hmb in Ho, Hf, Hsm.
      destruct (sbflush_ok R fuel snd1 p Hok1 Ho Hsm Hf) as (sb' & p' & -> & He & _ & Hb & _);
        [by rewrite Hfl|]. cbn [mbind option_bind].
      eexists false, _, so_rcv, p'. split; [done|]. split; [done|]. split; [done|].
      right. rewrite <- Hmb. split; [done|]. split; [done|]. split; [exact Hb|exact He]. }
  pose proof (sb_cap_range sb_max mclb ltac:(lia) ltac:(lia)).
  destruct H1 as [Hh1 Hm1 Hl1 Hd1], H2 as [Hh2 Hm2 Hl2 Hd2].
  eexists true, _, _, p. split; [done|]. split; [done|]. split; [done|].
  set (rcv := if sb_lowat rcv1 =? 0 then _ else _).
  set (snd2 := if sb_lowat snd1 =? 0 then _ else _).
  assert (Hrcv : reserved sb_max rcc so_rcv rcv /\ 0 < sb_lowat rcv).
  { unfold rcv. destruct (sb_lowat rcv1 =? 0) eqn:?; (split; [split|]); try done; cbn; lia. }
  assert (Hsnd : sb_hiwat snd2 = scc /\ scc <= sb_mbmax snd2 <= sb_max /\ 0 < sb_lowat snd2 < 2147483648 /\
    sb_mb snd2 = sb_mb so_snd /\ sb_cc snd2 = sb_cc so_snd /\ sb_mbcnt snd2 = sb_mbcnt so_snd /\
            sb_mbtail snd2 = sb_mbtail so_snd /\ sb_flags snd2 = sb_flags so_snd).
  { unfold snd2. destruct (sb_lowat snd1 =? 0) eqn:?; cbn; rewrite ?s32_small by lia;
      (split; [exact Hh1|split; [exact Hm1|split; [lia|exact Hd1]]]). }
  destruct Hsnd as (Hs1 & Hs2 & Hs3 & Hs4). clearbody rcv snd2.
  rewrite Hs1, u32_small by lia. destruct (scc <? sb_lowat snd2) eqn:?.
  - rewrite s32_small by lia. split; [split; cbn; try done; lia|].
    split; [apply Hrcv|]. split; [cbn; lia|apply Hrcv].
  - split; [split; try done; lia|]. split; [apply Hrcv|]. split; [lia|apply Hrcv].
Qed.

Lemma soreserve_correct_witness :
  exists snd rcv p', soreserve 1 262144 2048 demo_sb1 demo_sb 0 65536 demo_pool
                     = Some (true, snd, rcv, p') /\
    sb_hiwat snd = 2048 /\ sb_hiwat rcv = 65536 /\ sb_mbmax rcv = 131072 /\ 0 < sb_lowat snd.
Proof.
  destruct (soreserve_correct [demo_loose] 1 262144 2048 demo_sb1 demo_sb 0 65536 demo_pool)
    as (ok & snd & rcv & p' & Hs & _ & Hres); try (vm_compute; done || (split; done)).
  - exact demo_sb1_ok.
  - exact demo_sb1_owns.
  - split; [|vm_compute; split; reflexivity]. repeat apply Forall_cons_2; try apply Forall_nil_2; reflexivity.
  - vm_compute in Hs. injection Hs as <- <- <- <-. do 3 eexists. split; [vm_compute; reflexivity|].
    destruct Hres as (_ & [Hh _ _ _] & [Hh2 _ _ _] & Hl & _).
    split; [exact Hh|]. split; [exact Hh2|]. split; [reflexivity|exact Hl].
Defined.
