(* ===== verification/Socket.v ===== *)
(** Sockets: connection states, the listen queues, wakeups and asynchronous
    events, and the sleep lock of a socket buffer ([kern/uipc_socket2.c],
    [sys/socketvar.h], [solisten] of [kern/uipc_socket.c]). *)
From S2P Require Import Prelude Mbuf Sockbuf.

(** * State *)

(** A socket.  Pointers to sockets, to library bases and to tasks are addresses,
    [0] the null pointer; the socket's own queue links are [so_q0] and [so_q]. *)
Record socket := mk_socket {
  so_type : Z; so_options : Z; so_linger : Z * Z; so_state : Z; so_proto : Z;
  so_head : Z; so_q0 : Z; so_q : Z; so_q0len : Z; so_qlen : Z; so_qlimit : Z;
  so_timeo : Z; so_error : Z; so_pgid : Z; so_eventmask : Z; so_events : Z;
  so_error_reported : Z; so_rcv : sockbuf; so_snd : sockbuf }.
#[export] Instance socket_eta : Eta socket := fun s =>
  mk_socket (so_type s) (so_options s) (so_linger s) (so_state s) (so_proto s)
    (so_head s) (so_q0 s) (so_q s) (so_q0len s) (so_qlen s) (so_qlimit s)
    (so_timeo s) (so_error s) (so_pgid s) (so_eventmask s) (so_events s)
    (so_error_reported s) (so_rcv s) (so_snd s).

(** The fields of a [struct SocketBase] used here. *)
Record SocketBase := mk_SocketBase { thisTask : Z; sigIOMask : Z; sigEventMask : Z }.

Definition SS_NOFDREF : Z := 1.
Definition SS_ISCONNECTED : Z := 2.
Definition SS_ISCONNECTING : Z := 4.
Definition SS_ISDISCONNECTING : Z := 8.
Definition SS_CANTSENDMORE : Z := 16.
Definition SS_CANTRCVMORE : Z := 32.
Definition SS_ASYNC : Z := 512.
Definition SS_ISCONFIRMING : Z := 1024.
Definition SO_ACCEPTCONN : Z := 2.
Definition FD_ACCEPT : Z := 1.
Definition FD_CONNECT : Z := 2.
Definition FD_READ : Z := 8.
Definition FD_WRITE : Z := 16.
Definition FD_ERROR : Z := 32.
Definition FD_CLOSE : Z := 64.
Definition SOMAXCONN : Z := 5.

(** A sleep channel: the address of [so_timeo], or of a buffer's [sb_cc] or
    [sb_flags] (the receive buffer's when the boolean is [true]). *)
Inductive channel := TimeoChan (so : Z) | CcChan (so : Z) (rcv : bool) | FlagsChan (so : Z) (rcv : bool).

(** What the code tells the rest of the system. *)
Inductive notice := Selwakeup (so : Z) (rcv : bool) | Wakeup (c : channel) | Signal (task mask : Z).

Record sowk := mk_sowk {
  ng_sowk_calls : Z; ng_sowk_rcv : Z; ng_sowk_wait : Z; ng_sowk_sel : Z; ng_sowk_async : Z }.

(** The kernel's sockets, the open bases, the notices sent so far and the pool. *)
Record net := mk_net {
  socks : gmap Z socket; bases : gmap Z SocketBase; notices : list notice;
  counters : sowk; pool : mpool }.
#[export] Instance net_eta : Eta net := fun s =>
  mk_net (socks s) (bases s) (notices s) (counters s) (pool s).

(** * The state monad: [None] is a panic or an access through a bad pointer *)

Definition st (A : Type) : Type := net -> option (A * net).
#[export] Instance st_ret : MRet st := fun A x s => Some (x, s).
#[export] Instance st_bind : MBind st := fun A B f m s => '(x, s) ← m s; f x s.

Definition panic {A} : st A := fun _ => None.
Definition sock (a : Z) : st socket := fun s => so ← socks s !! a; Some (so, s).
Definition upd (a : Z) (f : socket -> socket) : st unit :=
  fun s => so ← socks s !! a; Some (tt, s <| socks ::= <[a := f so]> (socks s) |>).
Definition base (a : Z) : st SocketBase := fun s => b ← bases s !! a; Some (b, s).
Definition emit (n : notice) : st unit := fun s => Some (tt, s <| notices ::= notices s ++ [n] |>).
Definition count (f : sowk -> sowk) : st unit :=
  fun s => Some (tt, s <| counters ::= f (counters s) |>).

Definition test (x mask : Z) : bool := negb (Z.land x mask =? 0).
Definition clear (x mask : Z) : Z := Z.land x (Z.lnot mask).

(** * Events and wakeups *)

(** [if (task) Signal(task, mask)] for the owner [a] of a socket. *)
Definition signal_base (a : Z) (mask : SocketBase -> Z) (guard : SocketBase -> bool) : st unit :=
  if a =? 0 then mret tt else
  b ← base a;
  if negb (thisTask b =? 0) && guard b then emit (Signal (thisTask b) (mask b)) else mret tt.

Definition soraise_event (so ev : Z) : st unit :=
  s ← sock so;
  if so_eventmask s =? 0 then mret tt else
  let err := negb (so_error s =? 0) && test (so_eventmask s) FD_ERROR &&
             negb (so_error s =? so_error_reported s) in
  let ev := if err then Z.lor ev FD_ERROR else ev in
  _ ← upd so (fun s => if err then s <| so_error_reported ::= so_error s |> else s);
  let fresh := Z.land (Z.land ev (so_eventmask s)) (Z.lnot (so_events s)) in
  if fresh =? 0 then mret tt else
  _ ← upd so (fun s => s <| so_events ::= Z.lor (so_events s) fresh |>);
  signal_base (so_pgid s) sigEventMask (fun b => negb (sigEventMask b =? 0)).

Definition buf (rcv : bool) (s : socket) : sockbuf := if rcv then so_rcv s else so_snd s.
Definition upd_buf (so : Z) (rcv : bool) (f : sockbuf -> sockbuf) : st unit :=
  upd so (fun s => if rcv then s <| so_rcv ::= f (so_rcv s) |> else s <| so_snd ::= f (so_snd s) |>).
Definition bump (b : bool) (x : Z) : Z := if b then u32 (x + 1) else x.

(** The accounting of a wakeup of [s]. *)
Definition sowk_count (rcv : bool) (s : socket) (c : sowk) : sowk :=
  let sbf := sb_flags (buf rcv s) in
  mk_sowk (bump true (ng_sowk_calls c)) (bump rcv (ng_sowk_rcv c))
    (bump (test sbf SB_WAIT) (ng_sowk_wait c)) (bump (test sbf SB_SEL) (ng_sowk_sel c))
    (bump (test (so_state s) SS_ASYNC) (ng_sowk_async c)).

(** [sowakeup(so, &so->so_rcv)] for [rcv = true], of [&so->so_snd] for [false].  The
    flags are read once: clearing [SB_SEL] leaves [SB_WAIT] as it was. *)
Definition sowakeup (so : Z) (rcv : bool) : st unit :=
  s ← sock so;
  let sbf := sb_flags (buf rcv s) in
  _ ← count (sowk_count rcv s);
  _ ← (if test sbf SB_SEL then
         _ ← upd_buf so rcv (fun b => b <| sb_flags ::= clear (sb_flags b) SB_SEL |>);
         emit (Selwakeup so rcv)
       else mret tt);
  _ ← (if test sbf SB_WAIT then
         _ ← upd_buf so rcv (fun b => b <| sb_flags ::= clear (sb_flags b) SB_WAIT |>);
         emit (Wakeup (CcChan so rcv))
       else mret tt);
  _ ← (if test (so_state s) SS_ASYNC then signal_base (so_pgid s) sigIOMask (fun _ => true)
       else mret tt);
  if so_eventmask s =? 0 then mret tt
  else soraise_event so
         (if rcv then if test (so_options s) SO_ACCEPTCONN then FD_ACCEPT else FD_READ
          else FD_WRITE).
Abbreviation sorwakeup so := (sowakeup so true).
Abbreviation sowwakeup so := (sowakeup so false).

(** * The listen queues *)

(** The link of queue [q] ([false]: [so_q0]; [true]: [so_q]). *)
Definition link (q : bool) (s : socket) : Z := if q then so_q s else so_q0 s.
Definition set_link (q : bool) (a : Z) (s : socket) : socket :=
  if q then s <| so_q ::= a |> else s <| so_q0 ::= a |>.
Definition add_len (q : bool) (d : Z) (s : socket) : socket :=
  if q then s <| so_qlen ::= s16 (so_qlen s + d) |> else s <| so_q0len ::= s16 (so_q0len s + d) |>.

(** The loop of [soqinsque]: the socket reached from the head whose link is null. *)
Fixpoint last_of (fuel : nat) (q : bool) (a : Z) : st Z :=
  match fuel with
  | O => panic
  | S fuel => s ← sock a; if link q s =? 0 then mret a else last_of fuel q (link q s)
  end.

Definition soqinsque (fuel : nat) (head so : Z) (q : bool) : st unit :=
  _ ← upd so (fun s => s <| so_head ::= head |>);
  _ ← upd head (add_len q 1);
  _ ← upd so (set_link q 0);
  prev ← last_of fuel q head;
  upd prev (set_link q so).

(** The socket before [so] in the queue of [prev]; [0]: [so] is not there. *)
Fixpoint prev_of (fuel : nat) (q : bool) (so prev : Z) : st Z :=
  match fuel with
  | O => panic
  | S fuel =>
      s ← sock prev;
      let next := link q s in
      if next =? so then mret prev else if next =? 0 then mret 0 else prev_of fuel q so next
  end.

Definition soqremque (fuel : nat) (so : Z) (q : bool) : st bool :=
  s ← sock so;
  prev ← prev_of fuel q so (so_head s);
  if prev =? 0 then mret false else
  let head := so_head s in
  _ ← upd prev (set_link q (link q s));
  _ ← upd head (add_len q (-1));
  _ ← upd so (fun s => s <| so_q0 ::= 0 |> <| so_q ::= 0 |> <| so_head ::= 0 |>);
  mret true.

(** * Connection states *)

Definition soisconnecting (so : Z) : st unit :=
  upd so (fun s => s <| so_state ::=
    Z.lor (clear (so_state s) (Z.lor SS_ISCONNECTED SS_ISDISCONNECTING)) SS_ISCONNECTING |>).

Definition soisconnected (fuel : nat) (so : Z) : st unit :=
  s ← sock so;
  let head := so_head s in
  _ ← upd so (fun s => s <| so_state ::=
        Z.lor (clear (so_state s) (Z.lor SS_ISCONNECTING (Z.lor SS_ISDISCONNECTING SS_ISCONFIRMING)))
          SS_ISCONNECTED |>);
  moved ← (if head =? 0 then mret false else soqremque fuel so false);
  if moved : bool then
    _ ← soqinsque fuel head so true;
    _ ← sorwakeup head;
    emit (Wakeup (TimeoChan head))
  else
    _ ← emit (Wakeup (TimeoChan so));
    s ← sock so;
    _ ← (if so_head s =? 0 then soraise_event so FD_CONNECT else mret tt);
    _ ← sorwakeup so;
    sowwakeup so.

Definition soisdisconnecting (so : Z) : st unit :=
  _ ← upd so (fun s => s <| so_state ::=
        Z.lor (clear (so_state s) SS_ISCONNECTING)
          (Z.lor SS_ISDISCONNECTING (Z.lor SS_CANTRCVMORE SS_CANTSENDMORE)) |>);
  _ ← emit (Wakeup (TimeoChan so));
  _ ← sowwakeup so;
  sorwakeup so.

Definition soisdisconnected (so : Z) : st unit :=
  _ ← upd so (fun s => s <| so_state ::=
        Z.lor (clear (so_state s) (Z.lor SS_ISCONNECTING (Z.lor SS_ISCONNECTED SS_ISDISCONNECTING)))
          (Z.lor SS_CANTRCVMORE SS_CANTSENDMORE) |>);
  _ ← emit (Wakeup (TimeoChan so));
  _ ← soraise_event so FD_CLOSE;
  _ ← sowwakeup so;
  sorwakeup so.

Definition socantsendmore (so : Z) : st unit :=
  _ ← upd so (fun s => s <| so_state ::= Z.lor (so_state s) SS_CANTSENDMORE |>);
  sowwakeup so.

Definition socantrcvmore (so : Z) : st unit :=
  _ ← upd so (fun s => s <| so_state ::= Z.lor (so_state s) SS_CANTRCVMORE |>);
  _ ← soraise_event so FD_CLOSE;
  sorwakeup so.

(** * New connections *)

Definition sb0 : sockbuf := mk_sockbuf 0 0 0 0 0 [] 0 0 (0, 0).
Definition socket0 : socket := mk_socket 0 0 (0, 0) 0 0 0 0 0 0 0 0 0 0 0 0 0 0 sb0 sb0.

Section conn.
(** [MALLOC] of a socket, and the protocol's [pr_usrreq]: the requests
    [PRU_ATTACH] and [PRU_LISTEN] of the protocol [so_proto], with the error they
    return. *)
Context (malloc : net -> option Z) (pru_attach pru_listen : Z -> st Z).
Context (sb_max mclb : Z).

(** [bzero] and the fields copied from the listening socket [h]. *)
Definition init_conn (so : Z) (h : socket) : st unit := fun s =>
  Some (tt, s <| socks ::= <[so :=
    socket0 <| so_type ::= so_type h |>
            <| so_options ::= clear (so_options h) SO_ACCEPTCONN |>
            <| so_linger ::= so_linger h |>
            <| so_state ::= Z.lor (so_state h) SS_NOFDREF |>
            <| so_proto ::= so_proto h |> <| so_timeo ::= so_timeo h |>
            <| so_pgid ::= so_pgid h |>]> (socks s) |>).

Definition reserve_conn (fuel : nat) (so : Z) (h : socket) : st unit := fun s =>
  n ← socks s !! so;
  '(_, snd, rcv, p) ← soreserve fuel sb_max mclb (so_snd n) (so_rcv n)
     (sb_hiwat (so_snd h)) (sb_hiwat (so_rcv h)) (pool s);
  Some (tt, s <| socks ::= <[so := n <| so_snd ::= snd |> <| so_rcv ::= rcv |>]> (socks s) |>
              <| pool ::= p |>).

Definition bsd_free (so : Z) : st unit := fun s =>
  Some (tt, s <| socks ::= delete so (socks s) |>).

Definition malloc_sock : st (option Z) := fun s => Some (malloc s, s).

(** The shorts are promoted to [int], so that the sums do not wrap. *)
Definition sonewconn (fuel : nat) (head connstatus : Z) : st Z :=
  h ← sock head;
  let soqueue := negb (connstatus =? 0) in
  if Z.quot (3 * so_qlimit h) 2 <? so_qlen h + so_q0len h then mret 0 else
  a ← malloc_sock;
  match a with
  | None => mret 0
  | Some so =>
      _ ← init_conn so h;
      _ ← reserve_conn fuel so h;
      _ ← soqinsque fuel head so soqueue;
      error ← pru_attach so;
      if negb (error =? 0) then
        _ ← soqremque fuel so soqueue;
        _ ← bsd_free so;
        mret 0
      else
        _ ← (if soqueue then
               _ ← sorwakeup head;
               _ ← emit (Wakeup (TimeoChan head));
               upd so (fun n => n <| so_state ::= Z.lor (so_state n) connstatus |>)
             else mret tt);
        mret so
  end.

Definition solisten (so backlog : Z) : st Z :=
  error ← pru_listen so;
  if negb (error =? 0) then mret error else
  _ ← upd so (fun s => if so_q s =? 0 then s <| so_options ::= Z.lor (so_options s) SO_ACCEPTCONN |> else s);
  _ ← upd so (fun s => s <| so_qlimit ::= umin (if backlog <? 0 then 0 else backlog) SOMAXCONN |>);
  mret 0.
End conn.

(** * The sleep lock of a buffer, and waiting *)

Definition sbselqueue (b : sockbuf) : sockbuf := b <| sb_flags ::= Z.lor (sb_flags b) SB_SEL |>.

(** The flags on going to sleep, and the time limit given to [tsleep], if any. *)
Definition sbwait (b : sockbuf) : sockbuf * option (Z * Z) :=
  (b <| sb_flags ::= Z.lor (sb_flags b) SB_WAIT |>,
   let '(s, u) := sb_timeo b in if (s =? 0) && (u =? 0) then None else Some (s, u)).

(** One turn of [sb_lock]'s loop: the lock taken ([true]), or the task about to
    sleep on the flags. *)
Definition sb_lock_turn (b : sockbuf) : bool * sockbuf :=
  if test (sb_flags b) SB_LOCK
  then (false, b <| sb_flags ::= Z.lor (sb_flags b) SB_WANT |>)
  else (true, b <| sb_flags ::= Z.lor (sb_flags b) SB_LOCK |>).

(** [sbunlock]: whether the sleepers are woken. *)
Definition sbunlock (b : sockbuf) : bool * sockbuf :=
  let b := b <| sb_flags ::= clear (sb_flags b) SB_LOCK |> in
  if test (sb_flags b) SB_WANT then (true, b <| sb_flags ::= clear (sb_flags b) SB_WANT |>)
  else (false, b).

(** A task and the lock: outside, asleep on the flags' channel, woken and about to
    test the flag again, or inside. *)
Inductive tstate := Idle | Asleep | Awake | Holds.
#[export] Instance tstate_eq_dec : EqDecision tstate.
Proof. solve_decision. Defined.

(** Woken by [wakeup]. *)
Definition wake (t : tstate) : tstate := match t with Asleep => Awake | t => t end.

(** The steps of the tasks that share a buffer.  A task runs until it sleeps or
    leaves the kernel, so a turn of the loop is one step; [tsleep] may also fail,
    and other code may change the other flags. *)
Inductive lock_step : sockbuf * list tstate -> sockbuf * list tstate -> Prop :=
| step_lock i b ts t got b' :
    ts !! i = Some t -> t = Idle \/ t = Awake -> sb_lock_turn b = (got, b') ->
    lock_step (b, ts) (b', <[i := if got : bool then Holds else Asleep]> ts)
| step_intr i b ts :
    ts !! i = Some Asleep -> lock_step (b, ts) (b, <[i := Idle]> ts)
| step_unlock i b ts woken b' :
    ts !! i = Some Holds -> sbunlock b = (woken, b') ->
    lock_step (b, ts) (b', (if woken : bool then wake else id) <$> <[i := Idle]> ts)
| step_other b b' ts :
    test (sb_flags b') SB_LOCK = test (sb_flags b) SB_LOCK ->
    test (sb_flags b') SB_WANT = test (sb_flags b) SB_WANT ->
    lock_step (b, ts) (b', ts).

(** * The queues as lists *)

(** Looking up a field in the heap of sockets, after an update. *)
Lemma proj_alter {B} (π : socket -> B) f i (h : gmap Z socket) j :
  (forall x, π (f x) = π x) -> π <$> alter f i h !! j = π <$> h !! j.
Proof.
  intros Hf. destruct (decide (i = j)) as [->|].
  - rewrite lookup_alter_eq. destruct (h !! j); simpl; by rewrite ?Hf.
  - by rewrite lookup_alter_ne.
Qed.
Lemma proj_alter_eq {B} (π : socket -> B) f (h : gmap Z socket) j b :
  (forall x, π (f x) = b) -> is_Some (h !! j) -> π <$> alter f j h !! j = Some b.
Proof. intros Hf [x Hx]. by rewrite lookup_alter_eq, Hx; simpl; rewrite Hf. Qed.
Lemma proj_alter_ne {B} (π : socket -> B) f i (h : gmap Z socket) j :
  i <> j -> π <$> alter f i h !! j = π <$> h !! j.
Proof. intros. by rewrite lookup_alter_ne. Qed.
Lemma is_Some_alter f i (h : gmap Z socket) j : is_Some (h !! j) -> is_Some (alter f i h !! j).
Proof. rewrite <- !elem_of_dom. by rewrite dom_alter_L. Qed.

Lemma upd_alter a f s : is_Some (socks s !! a) ->
  upd a f s = Some (tt, s <| socks ::= alter f a (socks s) |>).
Proof.
  intros [x Hx]. unfold upd. rewrite Hx. cbn.
  assert (Hal : <[a := f x]> (socks s) = alter f a (socks s)); [|by rewrite Hal].
  apply map_eq. intros j. destruct (decide (a = j)) as [->|].
  - by rewrite lookup_insert_eq, lookup_alter_eq, Hx.
  - by rewrite lookup_insert_ne, lookup_alter_ne.
Qed.

Definition lk (h : gmap Z socket) (q : bool) (a : Z) : option Z := link q <$> h !! a.

(** From [a] the links of queue [q] visit [l], and then end. *)
Fixpoint path (h : gmap Z socket) (q : bool) (a : Z) (l : list Z) : Prop :=
  match l with
  | [] => True
  | c :: l => lk h q a = Some c /\ c <> 0 /\ path h q c l
  end.
Definition endof (l : list Z) (a : Z) : Z := List.last l a.
#[global] Arguments endof : simpl never.
Definition qlist (h : gmap Z socket) (q : bool) (a : Z) (l : list Z) : Prop :=
  path h q a l /\ lk h q (endof l a) = Some 0.

Lemma endof_cons c l a : endof (c :: l) a = endof l c.
Proof.
  revert a c. induction l as [|d l IH]; intros a c; [done|].
  change (endof (c :: d :: l) a) with (endof (d :: l) a). by rewrite !IH.
Qed.
Lemma endof_app l k a : endof (l ++ k) a = endof k (endof l a).
Proof. revert a. induction l as [|c l IH]; intros a; [done|]. rewrite <- app_comm_cons, !endof_cons. apply IH. Qed.
Lemma endof_in l a : endof l a ∈ a :: l.
Proof.
  revert a. induction l as [|c l IH]; intros a; [by left|]. rewrite endof_cons. right. apply IH.
Qed.

Lemma path_app h q a l k : path h q a (l ++ k) <-> path h q a l /\ path h q (endof l a) k.
Proof.
  revert a. induction l as [|c l IH]; intros a; simpl.
  - unfold endof. simpl. tauto.
  - rewrite IH, endof_cons. tauto.
Qed.

(** A path is kept when the links it follows are. *)
Lemma path_keep h h' q a l p :
  (forall x, x ∈ a :: l -> x <> p -> lk h' q x = lk h q x) -> NoDup (a :: l) ->
  (p ∈ a :: l -> p = endof l a) -> path h q a l -> path h' q a l.
Proof.
  revert a. induction l as [|c l IH]; intros a Hlk Hn Hp; [done|].
  intros (H1 & H2 & H3). apply NoDup_cons in Hn as [Ha Hn]. rewrite endof_cons in Hp.
  assert (Hap : a <> p).
  { intros ->. specialize (Hp ltac:(by left)). apply Ha. rewrite Hp. apply endof_in. }
  split; [rewrite Hlk; [done|by left|done]|]. split; [done|]. apply IH; [|done| |done].
  - intros x Hx. apply Hlk. by right.
  - intros Hin. apply Hp. by right.
Qed.

Lemma qlist_keep h h' q a l :
  (forall x, x ∈ a :: l -> lk h' q x = lk h q x) -> qlist h q a l -> qlist h' q a l.
Proof.
  intros Hlk [Hp He]. split; [|by rewrite Hlk by apply endof_in].
  revert a Hlk Hp He. induction l as [|c l IH]; intros a Hlk Hp He; [done|].
  destruct Hp as (H1 & H2 & H3). split; [rewrite Hlk; [done|by left]|]. split; [done|].
  rewrite endof_cons in He. apply IH; try done. intros x Hx. apply Hlk. by right.
Qed.

Lemma last_of_ok q l : forall fuel a s,
  qlist (socks s) q a l -> (length l < fuel)%nat -> last_of fuel q a s = Some (endof l a, s).
Proof.
  induction l as [|c l IH]; intros fuel a s [Hp He] Hf;
    (destruct fuel as [|fuel]; [simpl in Hf; lia|]); cbn [last_of].
  - unfold endof, lk in He. simpl in He. unfold mbind, st_bind, sock.
    destruct (socks s !! a) as [x|]; [|done]. cbn. injection He as He. by rewrite He.
  - destruct Hp as (H1 & H2 & H3). unfold lk in H1. unfold mbind, st_bind, sock.
    destruct (socks s !! a) as [x|]; [|done]. cbn. injection H1 as H1. rewrite H1.
    destruct (c =? 0) eqn:?; [lia|]. rewrite endof_cons in *.
    apply IH; [done|]. simpl in Hf. lia.
Qed.

Lemma prev_of_in q k1 so k2 : forall fuel a s,
  qlist (socks s) q a (k1 ++ so :: k2) -> so ∉ k1 -> (length k1 < fuel)%nat ->
  prev_of fuel q so a s = Some (endof k1 a, s).
Proof.
  induction k1 as [|c l IH]; intros fuel a s [Hp He] Hn Hf;
    (destruct fuel as [|fuel]; [simpl in Hf; lia|]); cbn [prev_of];
    destruct Hp as (H1 & H2 & H3); unfold lk in H1; unfold mbind, st_bind, sock;
    (destruct (socks s !! a) as [x|]; [|done]); cbn; injection H1 as H1; rewrite H1.
  - by rewrite Z.eqb_refl.
  - apply not_elem_of_cons in Hn as [Hne Hn].
    destruct (c =? so) eqn:?; [lia|]. destruct (c =? 0) eqn:?; [lia|].
    rewrite endof_cons. rewrite <- app_comm_cons, endof_cons in He.
    apply IH; [done|done|]. simpl in Hf. lia.
Qed.

Lemma prev_of_out q so l : forall fuel a s,
  qlist (socks s) q a l -> so ∉ l -> so <> 0 -> (length l < fuel)%nat ->
  prev_of fuel q so a s = Some (0, s).
Proof.
  induction l as [|c l IH]; intros fuel a s [Hp He] Hn H0 Hf;
    (destruct fuel as [|fuel]; [simpl in Hf; lia|]); cbn [prev_of]; unfold mbind, st_bind, sock.
  - unfold endof, lk in He. simpl in He.
    destruct (socks s !! a) as [x|]; [|done]. cbn. injection He as He. rewrite He.
    destruct (0 =? so) eqn:?; [lia|done].
  - destruct Hp as (H1 & H2 & H3). unfold lk in H1.
    destruct (socks s !! a) as [x|]; [|done]. cbn. injection H1 as H1. rewrite H1.
    apply not_elem_of_cons in Hn as [Hne Hn].
    destruct (c =? so) eqn:?; [lia|]. destruct (c =? 0) eqn:?; [lia|].
    rewrite endof_cons in He. apply IH; try done. simpl in Hf. lia.
Qed.

(** ** What the queue operations do to the heap *)

Definition qlen (q : bool) (s : socket) : Z := if q then so_qlen s else so_q0len s.

(** All of a socket but its place in a listen queue. *)
Definition core (s : socket) : socket :=
  s <| so_head ::= 0 |> <| so_q0 ::= 0 |> <| so_q ::= 0 |> <| so_q0len ::= 0 |> <| so_qlen ::= 0 |>.

(** From heap [h] to [h'], queue [q] changes in the links of [so] and [prev], in the
    length held by [hd] and in the head of [so]. *)
Record qstep (h h' : gmap Z socket) (q : bool) (hd so prev d : Z) : Prop := {
  qs_link : forall x, x <> so -> x <> prev -> lk h' q x = lk h q x;
  qs_other : forall x, x <> so -> lk h' (negb q) x = lk h (negb q) x;
  qs_head : forall x, x <> so -> so_head <$> h' !! x = so_head <$> h !! x;
  qs_len : qlen q <$> h' !! hd = (fun s => s16 (qlen q s + d)) <$> h !! hd;
  qs_lens : forall x, x <> hd -> qlen q <$> h' !! x = qlen q <$> h !! x;
  qs_otherlen : forall x, qlen (negb q) <$> h' !! x = qlen (negb q) <$> h !! x;
  qs_core : forall x, core <$> h' !! x = core <$> h !! x }.

Lemma fmap_alter {B} (π : socket -> B) f i (h : gmap Z socket) j :
  π <$> alter f i h !! j = (fun x => π (if decide (i = j) then f x else x)) <$> h !! j.
Proof.
  destruct (decide (i = j)) as [->|].
  - rewrite lookup_alter_eq. by destruct (h !! j).
  - by rewrite lookup_alter_ne.
Qed.

(** A fact on the fields of the socket at some address, after some updates. *)
Ltac heap_field q :=
  unfold lk; rewrite ?fmap_alter; destruct q;
  match goal with |- ?π <$> ?m !! ?j = _ => destruct (m !! j) as [[]|]; simpl; [|done] end;
  repeat (case_decide; try congruence); done.

Lemma soqinsque_eff q l fuel hd so s :
  qlist (socks s) q hd l -> so ∉ hd :: l -> is_Some (socks s !! hd) -> is_Some (socks s !! so) ->
  (length l < fuel)%nat ->
  exists h', soqinsque fuel hd so q s = Some (tt, s <| socks ::= h' |>) /\
    qstep (socks s) h' q hd so (endof l hd) 1 /\
    lk h' q so = Some 0 /\ lk h' q (endof l hd) = Some so /\ so_head <$> h' !! so = Some hd /\
    lk h' (negb q) so = lk (socks s) (negb q) so.
Proof.
  intros Hq Hn Hhd Hso Hf. unfold soqinsque, mbind, st_bind.
  set (prev := endof l hd). assert (Hprev : prev ∈ hd :: l) by apply endof_in.
  assert (Hps : prev <> so) by (intros ->; done).
  assert (Hpd : is_Some (socks s !! prev)).
  { destruct Hq as [_ He]. unfold lk in He. fold prev in He. destruct (socks s !! prev); done. }
  apply not_elem_of_cons in Hn as [Hne Hn].
  do 3 (rewrite upd_alter by (cbn; repeat apply is_Some_alter; done); cbn).
  rewrite (last_of_ok q l).
  2:{ apply (qlist_keep (socks s)); [|done]. intros x Hx.
      assert (x <> so) by (intros ->; apply elem_of_cons in Hx as [?|?]; [by symmetry in H|done]).
      cbn. heap_field q. }
  2:{ done. }
  fold prev. cbn. rewrite upd_alter by (cbn; repeat apply is_Some_alter; done). cbn.
  eexists. split; [done|]. split; [split|]; intros;
    [heap_field q..|].
  destruct Hpd as [xp Hp], Hso as [xso Hso].
  split; [|split; [|split]]; unfold lk; rewrite ?fmap_alter, ?Hso, ?Hp;
    destruct q; simpl; repeat (case_decide; try congruence); done.
Qed.

Lemma path_nonzero h q a l x : path h q a l -> x ∈ l -> x <> 0.
Proof.
  revert a. induction l as [|c l IH]; intros a; [set_solver|].
  intros (_ & H0 & Hp) [->|Hx]%elem_of_cons; [done|]. by eapply IH.
Qed.

Lemma soqremque_eff q k1 k2 fuel hd so s :
  qlist (socks s) q hd (k1 ++ so :: k2) -> NoDup (hd :: k1 ++ so :: k2) -> hd <> 0 ->
  so_head <$> socks s !! so = Some hd -> (length k1 < fuel)%nat ->
  exists h', soqremque fuel so q s = Some (true, s <| socks ::= h' |>) /\
    qstep (socks s) h' q hd so (endof k1 hd) (-1) /\
    lk h' q (endof k1 hd) = lk (socks s) q so /\ lk h' q so = Some 0 /\
    lk h' (negb q) so = Some 0 /\ so_head <$> h' !! so = Some 0.
Proof.
  intros Hq Hn H0 Hhead Hf. unfold soqremque, mbind, st_bind, sock.
  destruct (socks s !! so) as [sk|] eqn:Hso; [|done]. injection Hhead as Hhead. cbn.
  apply NoDup_cons in Hn as [Hhd Hn]. apply NoDup_app in Hn as (Hn1 & Hd & Hn2).
  assert (Hk1 : so ∉ k1) by (intros Hin; apply (Hd so Hin); by left).
  rewrite Hhead, (prev_of_in q k1 so k2) by done. cbn.
  set (prev := endof k1 hd). assert (Hprev : prev ∈ hd :: k1) by apply endof_in.
  assert (Hps : prev <> so).
  { intros ->. apply elem_of_cons in Hprev as [->|?]; [|done]. apply Hhd.
    apply elem_of_app. right. by left. }
  assert (Hp0 : prev <> 0).
  { apply elem_of_cons in Hprev as [->|Hin]; [done|]. destruct Hq as [Hp _].
    apply (path_nonzero _ _ _ _ _ Hp), elem_of_app. by left. }
  assert (Hlinks : is_Some (socks s !! prev) /\ is_Some (socks s !! hd)).
  { destruct Hq as [Hp _]. pose proof Hp as Hp2. apply path_app in Hp2 as [_ [Hl _]].
    fold prev in Hl. unfold lk in Hl. destruct (socks s !! prev) eqn:?; [|done].
    split; [done|]. destruct k1 as [|c k1]; [by eauto|]. destruct Hp as [Hl2 _].
    unfold lk in Hl2. by destruct (socks s !! hd). }
  destruct Hlinks as [Hpd Hhds]. destruct (prev =? 0) eqn:?; [lia|].
  do 3 (rewrite upd_alter by (cbn; repeat apply is_Some_alter; by eauto); cbn).
  eexists. split; [done|]. split; [split|]; intros; [heap_field q..|].
  destruct Hpd as [xp Hp].
  split; [|split; [|split]]; unfold lk; rewrite ?fmap_alter, ?Hso, ?Hp;
    destruct q; simpl; repeat (case_decide; try congruence); done.
Qed.

(** ** Listening sockets *)

(** The socket [hd] listens: its partial connections are [l0], its completed ones
    [l1], in order of arrival. *)
Record listener (h : gmap Z socket) (hd : Z) (l0 l1 : list Z) : Prop := {
  li_q0 : qlist h false hd l0;
  li_q : qlist h true hd l1;
  li_nodup : NoDup (hd :: l0 ++ l1);
  li_nz : hd <> 0;
  li_len0 : so_q0len <$> h !! hd = Some (Z.of_nat (length l0));
  li_len1 : so_qlen <$> h !! hd = Some (Z.of_nat (length l1));
  li_head : forall x, x ∈ l0 ++ l1 -> so_head <$> h !! x = Some hd }.

(** The elements of queue [q]. *)
Definition sel (q : bool) (l0 l1 : list Z) : list Z := if q then l1 else l0.

Lemma listener_q h hd l0 l1 q : listener h hd l0 l1 -> qlist h q hd (sel q l0 l1).
Proof. intros []. by destruct q. Qed.
Lemma listener_len h hd l0 l1 q :
  listener h hd l0 l1 -> qlen q <$> h !! hd = Some (Z.of_nat (length (sel q l0 l1))).
Proof. intros []. by destruct q. Qed.
Lemma listener_hd h hd l0 l1 : listener h hd l0 l1 -> is_Some (h !! hd).
Proof. intros []. destruct (h !! hd); done. Qed.

Lemma listener_intro h hd l0 l1 q :
  qlist h q hd (sel q l0 l1) -> qlist h (negb q) hd (sel (negb q) l0 l1) ->
  NoDup (hd :: sel q l0 l1 ++ sel (negb q) l0 l1) -> hd <> 0 ->
  qlen q <$> h !! hd = Some (Z.of_nat (length (sel q l0 l1))) ->
  qlen (negb q) <$> h !! hd = Some (Z.of_nat (length (sel (negb q) l0 l1))) ->
  (forall x, x ∈ sel q l0 l1 ++ sel (negb q) l0 l1 -> so_head <$> h !! x = Some hd) ->
  listener h hd l0 l1.
Proof.
  destruct q; simpl; intros H1 H2 H3 H4 H5 H6 Hh; split; try done.
  - by rewrite (Permutation_app_comm l0 l1).
  - intros x Hx. apply Hh. by rewrite (Permutation_app_comm l1 l0).
Qed.

(** The queues of a listener do not depend on the rest of the heap. *)
Lemma listener_keep h h' hd l0 l1 :
  (forall x, x ∈ hd :: l0 ++ l1 -> h' !! x = h !! x \/
     exists s s', h !! x = Some s /\ h' !! x = Some s' /\ so_q0 s' = so_q0 s /\ so_q s' = so_q s /\
       so_q0len s' = so_q0len s /\ so_qlen s' = so_qlen s /\ so_head s' = so_head s) ->
  listener h hd l0 l1 -> listener h' hd l0 l1.
Proof.
  intros Hk [Hq0 Hq Hn Hz Hl0 Hl1 Hh].
  assert (Hin0 : forall x, x ∈ hd :: l0 -> x ∈ hd :: l0 ++ l1)
    by (intros x; rewrite !elem_of_cons, elem_of_app; tauto).
  assert (Hin1 : forall x, x ∈ hd :: l1 -> x ∈ hd :: l0 ++ l1)
    by (intros x; rewrite !elem_of_cons, elem_of_app; tauto).
  split; try done.
  - apply (qlist_keep h); [|done]. intros x Hx. unfold lk.
    destruct (Hk x (Hin0 x Hx)) as [->|(s & s' & -> & -> & ? & ? & _)]; simpl; congruence.
  - apply (qlist_keep h); [|done]. intros x Hx. unfold lk.
    destruct (Hk x (Hin1 x Hx)) as [->|(s & s' & -> & -> & ? & ? & _)]; simpl; congruence.
  - destruct (Hk hd ltac:(by left)) as [->|(s & s' & E & E' & ? & ? & ? & ? & _)]; [done|].
    rewrite E in Hl0. rewrite E'. simpl in *. congruence.
  - destruct (Hk hd ltac:(by left)) as [->|(s & s' & E & E' & ? & ? & ? & ? & _)]; [done|].
    rewrite E in Hl1. rewrite E'. simpl in *. congruence.
  - intros x Hx. specialize (Hh x Hx).
    destruct (Hk x ltac:(by right)) as [->|(s & s' & E & E' & ? & ? & ? & ? & ?)]; [done|].
    rewrite E in Hh. rewrite E'. simpl in *. congruence.
Qed.

Definition push (q : bool) (l0 l1 : list Z) (so : Z) : list Z * list Z :=
  if q then (l0, l1 ++ [so]) else (l0 ++ [so], l1).

Lemma soqinsque_ok q l0 l1 fuel hd so s :
  listener (socks s) hd l0 l1 -> so ∉ hd :: l0 ++ l1 -> so <> 0 -> is_Some (socks s !! so) ->
  (length (l0 ++ l1) < fuel)%nat -> Z.of_nat (length (l0 ++ l1)) < 32767 ->
  exists h', soqinsque fuel hd so q s = Some (tt, s <| socks ::= h' |>) /\
    listener h' hd (push q l0 l1 so).1 (push q l0 l1 so).2 /\
    (forall x, core <$> h' !! x = core <$> socks s !! x).
Proof.
  intros Hl Hn Hz Hso Hf Hlen. set (l := sel q l0 l1). set (lo := sel (negb q) l0 l1).
  assert (Hperm : l ++ lo ≡ₚ l0 ++ l1)
    by (unfold l, lo; destruct q; [apply Permutation_app_comm|done]).
  rewrite length_app in Hf, Hlen.
  assert (Hll : (length l <= length l0 + length l1)%nat) by (unfold l; destruct q; simpl; lia).
  rewrite <- Hperm in Hn. apply not_elem_of_cons in Hn as [Hhs Hn].
  apply not_elem_of_app in Hn as [Hnl Hnlo].
  pose proof (li_nodup _ _ _ _ Hl) as Hnd. rewrite <- Hperm in Hnd.
  pose proof Hnd as [Hhd Hnd2]%NoDup_cons. apply NoDup_app in Hnd2 as (Hndl & Hdis & Hndlo).
  apply not_elem_of_app in Hhd as [Hhl Hhlo].
  destruct (soqinsque_eff q l fuel hd so s) as (h' & -> & Hqs & Hls & Hlp & Hh & Hlo).
  { by apply listener_q. }
  { by apply not_elem_of_cons. }
  { by eapply listener_hd. }
  { done. }
  { lia. }
  destruct (listener_q _ _ _ _ q Hl) as [Hp He]. fold l in Hp, He.
  exists h'. split; [done|]. split; [|apply Hqs].
  assert (Hsel : sel q (push q l0 l1 so).1 (push q l0 l1 so).2 = l ++ [so] /\
    sel (negb q) (push q l0 l1 so).1 (push q l0 l1 so).2 = lo) by by destruct q.
  destruct Hsel as [Hsel Hselo]. apply (listener_intro h' hd _ _ q); rewrite ?Hsel, ?Hselo.
  - split.
    + apply path_app. split; [|done]. apply (path_keep (socks s) h' q hd l (endof l hd)); try done.
      * intros x Hx Hxp. apply Hqs; [|done]. intros ->. by apply elem_of_cons in Hx as [?|?].
      * by apply NoDup_cons.
    + by rewrite endof_app.
  - apply (qlist_keep (socks s)); [|by apply listener_q]. intros x Hx. apply Hqs. intros ->.
    by apply elem_of_cons in Hx as [?|?].
  - apply NoDup_cons. split.
    + rewrite !elem_of_app, list_elem_of_singleton. intros [[?|?]|?]; done.
    + apply NoDup_app. split; [|split; [|done]].
      * apply NoDup_app. split; [done|]. split; [|apply NoDup_singleton].
        intros x Hx ->%list_elem_of_singleton. done.
      * intros x [Hx| ->%list_elem_of_singleton]%elem_of_app; [by apply Hdis|done].
  - by apply Hl.
  - rewrite (qs_len _ _ _ _ _ _ _ Hqs).
    pose proof (listener_len _ _ _ _ q Hl) as Hq. fold l in Hq.
    destruct (socks s !! hd); [|done]. simpl in *. injection Hq as ->.
    rewrite length_app, s16_small by lia. simpl. f_equal. lia.
  - rewrite (qs_otherlen _ _ _ _ _ _ _ Hqs). by apply listener_len.
  - intros x Hx. rewrite <- app_assoc in Hx. destruct (decide (x = so)) as [->|Hxs]; [done|].
    rewrite (qs_head _ _ _ _ _ _ _ Hqs) by done. apply Hl. rewrite <- Hperm.
    rewrite !elem_of_app, list_elem_of_singleton in *. tauto.
Qed.

(** Taking the queue [k1 ++ so :: k2] apart. *)
Definition pull (q : bool) (l0 l1 k1 k2 : list Z) : list Z * list Z :=
  if q then (l0, k1 ++ k2) else (k1 ++ k2, l1).

Lemma soqremque_ok q l0 l1 k1 k2 fuel hd so s :
  listener (socks s) hd l0 l1 -> sel q l0 l1 = k1 ++ so :: k2 ->
  (length (l0 ++ l1) < fuel)%nat -> Z.of_nat (length (l0 ++ l1)) < 32768 ->
  exists h', soqremque fuel so q s = Some (true, s <| socks ::= h' |>) /\
    listener h' hd (pull q l0 l1 k1 k2).1 (pull q l0 l1 k1 k2).2 /\
    (forall x, core <$> h' !! x = core <$> socks s !! x) /\
    so_head <$> h' !! so = Some 0 /\ lk h' false so = Some 0 /\ lk h' true so = Some 0.
Proof.
  intros Hl Hsl Hf Hlen. set (lo := sel (negb q) l0 l1).
  assert (Hperm : (k1 ++ so :: k2) ++ lo ≡ₚ l0 ++ l1)
    by (rewrite <- Hsl; unfold lo; destruct q; [apply Permutation_app_comm|done]).
  assert (Hll : (length (k1 ++ so :: k2) <= length (l0 ++ l1))%nat)
    by (rewrite <- Hperm, (length_app (k1 ++ so :: k2) lo); lia).
  pose proof (li_nodup _ _ _ _ Hl) as Hnd. rewrite <- Hperm in Hnd.
  pose proof Hnd as [Hhd Hnd2]%NoDup_cons. apply NoDup_app in Hnd2 as (Hndl & Hdis & Hndlo).
  apply not_elem_of_app in Hhd as [Hhl Hhlo].
  pose proof (listener_q _ _ _ _ q Hl) as Hql. rewrite Hsl in Hql.
  assert (Hshd : so_head <$> socks s !! so = Some hd).
  { apply Hl. rewrite <- Hperm, !elem_of_app. left. right. by left. }
  pose proof Hndl as Hnd1. apply NoDup_app in Hnd1 as (Hndk1 & Hdk & [Hsk2 Hndk2]%NoDup_cons).
  assert (Hsk1 : so ∉ k1) by (intros Hin; apply (Hdk so Hin); by left).
  assert (Hhso : hd <> so) by (intros ->; apply Hhl, elem_of_app; right; by left).
  destruct (soqremque_eff q k1 k2 fuel hd so s) as (h' & -> & Hqs & Hlp & Hls & Hlo & Hh).
  { done. }
  { by apply NoDup_cons. }
  { apply Hl. }
  { done. }
  { rewrite (length_app k1) in Hll. lia. }
  exists h'. split; [done|].
  split; [|split; [apply Hqs|split; [done|destruct q; done]]].
  assert (Hsel : sel q (pull q l0 l1 k1 k2).1 (pull q l0 l1 k1 k2).2 = k1 ++ k2 /\
    sel (negb q) (pull q l0 l1 k1 k2).1 (pull q l0 l1 k1 k2).2 = lo) by by destruct q.
  destruct Hsel as [Hsel Hselo].
  destruct Hql as [Hp He]. apply path_app in Hp as [Hp1 Hp2]. destruct Hp2 as (Hpe & Hs0 & Hp2).
  rewrite endof_app, endof_cons in He. set (prev := endof k1 hd) in *.
  assert (Hprev : prev ∈ hd :: k1) by apply endof_in.
  assert (Hk2p : forall x, x ∈ k2 -> x <> prev).
  { intros x Hx ->. apply elem_of_cons in Hprev as [Hpv|Hin].
    - apply Hhl. rewrite <- Hpv. apply elem_of_app. right. by right.
    - apply (Hdk prev Hin). by right. }
  assert (Hkeep : forall x, x ∈ k2 -> lk h' q x = lk (socks s) q x).
  { intros x Hx. apply Hqs; [|by apply Hk2p]. by intros ->. }
  apply (listener_intro h' hd _ _ q); rewrite ?Hsel, ?Hselo.
  - split; [apply path_app; split|].
    + apply (path_keep (socks s) h' q hd k1 prev); try done.
      * intros x Hx Hxp. apply Hqs; [|done]. intros ->. by apply elem_of_cons in Hx as [?|?].
      * apply NoDup_cons. split; [|done]. intros Hin. apply Hhl, elem_of_app. by left.
    + fold prev. destruct k2 as [|c k2]; [done|]. destruct Hp2 as (Hc1 & Hc2 & Hc3).
      split; [by rewrite Hlp|]. split; [done|].
      apply (path_keep (socks s) h' q c k2 prev); try done.
      * intros x Hx _. by apply Hkeep.
      * intros Hin. by destruct (Hk2p prev Hin).
    + rewrite endof_app. fold prev. destruct k2 as [|c k2]; [by unfold endof; simpl; rewrite Hlp|].
      rewrite endof_cons in *. rewrite Hkeep; [done|]. apply endof_in.
  - apply (qlist_keep (socks s)); [|by apply listener_q]. intros x Hx. apply Hqs. intros ->.
    apply elem_of_cons in Hx as [?|Hx]; [done|].
    apply (Hdis so); [|done]. apply elem_of_app. right. by left.
  - rewrite <- Permutation_middle in Hnd. simpl in Hnd. rewrite perm_swap in Hnd.
    by apply NoDup_cons in Hnd as [_ Hnd].
  - by apply Hl.
  - rewrite (qs_len _ _ _ _ _ _ _ Hqs).
    pose proof (listener_len _ _ _ _ q Hl) as Hq. rewrite Hsl in Hq.
    destruct (socks s !! hd); [|done]. simpl in *. injection Hq as ->.
    rewrite !length_app in *. simpl length in *. rewrite s16_small by lia. f_equal. lia.
  - rewrite (qs_otherlen _ _ _ _ _ _ _ Hqs). by apply listener_len.
  - intros x Hx. assert (Hxs : x <> so).
    { intros ->. rewrite !elem_of_app in Hx. destruct Hx as [[?|?]|Hx]; try done.
      apply (Hdis so); [|done]. apply elem_of_app. right. by left. }
    rewrite (qs_head _ _ _ _ _ _ _ Hqs) by done. apply Hl. rewrite <- Hperm.
    rewrite !elem_of_app, elem_of_cons in *. tauto.
Qed.

Lemma soqremque_out q l0 l1 fuel hd so s :
  listener (socks s) hd l0 l1 -> so ∉ sel q l0 l1 -> so <> 0 ->
  so_head <$> socks s !! so = Some hd -> (length (l0 ++ l1) < fuel)%nat ->
  soqremque fuel so q s = Some (false, s).
Proof.
  intros Hl Hn H0 Hh Hf. unfold soqremque, mbind, st_bind, sock.
  destruct (socks s !! so) as [sk|]; [|done]. injection Hh as Hh. cbn. rewrite Hh.
  rewrite (prev_of_out q so (sel q l0 l1)); try done; [by apply listener_q|].
  rewrite length_app in Hf. destruct q; simpl; lia.
Qed.

(** ** Events *)

(** An error not yet announced, on a socket that reports errors. *)
Definition new_error (x : socket) : bool :=
  negb (so_error x =? 0) && test (so_eventmask x) FD_ERROR && negb (so_error x =? so_error_reported x).
(** The events [ev] brings that are selected and not yet pending. *)
Definition fresh_events (x : socket) (ev : Z) : Z :=
  Z.land (Z.land (if new_error x then Z.lor ev FD_ERROR else ev) (so_eventmask x))
         (Z.lnot (so_events x)).

(** The owner of the socket can be signalled through its base. *)
Definition owner_ok (s : net) (x : socket) : Prop :=
  so_pgid x = 0 \/ is_Some (bases s !! so_pgid x).
(** Its live task, and the signals it names. *)
Definition owner_signal (s : net) (x : socket) (mask : SocketBase -> Z) : list notice :=
  match bases s !! so_pgid x with
  | Some b => if (so_pgid x =? 0) || (thisTask b =? 0) then [] else [Signal (thisTask b) (mask b)]
  | None => []
  end.
Definition event_signal (s : net) (x : socket) : list notice :=
  match bases s !! so_pgid x with
  | Some b => if sigEventMask b =? 0 then [] else owner_signal s x sigEventMask
  | None => []
  end.

Definition post (s : net) (so : Z) (x : socket) (ns : list notice) : net :=
  s <| socks ::= <[so := x]> (socks s) |> <| notices ::= notices s ++ ns |>.

(** The socket after [soraise_event(so, ev)], and the notices sent. *)
Definition raised (x : socket) (ev : Z) : socket :=
  if so_eventmask x =? 0 then x else
  x <| so_error_reported ::= if new_error x then so_error x else so_error_reported x |>
    <| so_events ::= Z.lor (so_events x) (fresh_events x ev) |>.
Definition raised_notices (s : net) (x : socket) (ev : Z) : list notice :=
  if (so_eventmask x =? 0) || (fresh_events x ev =? 0) then [] else event_signal s x.

Lemma post_id s so x : socks s !! so = Some x -> post s so x [] = s.
Proof. intros H. unfold post. rewrite insert_id by done. destruct s. cbn. by rewrite app_nil_r. Qed.

Lemma signal_base_ok s x mask guard :
  owner_ok s x ->
  signal_base (so_pgid x) mask guard s =
    Some (tt, s <| notices ::= notices s ++
      (match bases s !! so_pgid x with
       | Some b => if guard b then owner_signal s x mask else [] | None => [] end) |>).
Proof.
  assert (Hnil : s <| notices ::= notices s ++ [] |> = s).
  { destruct s. cbn. by rewrite app_nil_r. }
  unfold signal_base, owner_signal. intros Ho. destruct (so_pgid x =? 0) eqn:Hz.
  - destruct (bases s !! so_pgid x) as [b|]; simpl; [destruct (guard b)|]; by rewrite Hnil.
  - destruct Ho as [?|[b Hb]]; [lia|]. unfold mbind, st_bind, base. rewrite Hb. cbn.
    destruct (thisTask b =? 0) eqn:?, (guard b); simpl; rewrite ?Hnil; done.
Qed.

Lemma upd_eq a f s x : socks s !! a = Some x ->
  upd a f s = Some (tt, s <| socks ::= <[a := f x]> (socks s) |>).
Proof. intros Hx. unfold upd. by rewrite Hx. Qed.

Lemma soraise_event_ok so ev s x :
  socks s !! so = Some x -> owner_ok s x ->
  soraise_event so ev s = Some (tt, post s so (raised x ev) (raised_notices s x ev)).
Proof.
  intros Hx Ho. unfold soraise_event, mbind, st_bind, sock. rewrite Hx. cbn.
  unfold raised_notices, raised. destruct (so_eventmask x =? 0) eqn:Hm; simpl orb.
  { by rewrite post_id. }
  fold (new_error x). fold (fresh_events x ev). rewrite (upd_eq _ _ _ x Hx). cbn.
  set (x1 := if new_error x then _ else x).
  assert (Hx1 : x1 = x <| so_error_reported ::= if new_error x then so_error x else so_error_reported x |>).
  { unfold x1. destruct (new_error x); [done|]. by destruct x. }
  destruct (fresh_events x ev =? 0) eqn:Hf.
  - unfold post. rewrite app_nil_r. cbn. do 3 f_equal.
    assert (fresh_events x ev = 0) as -> by lia. rewrite Z.lor_0_r, Hx1. by destruct s, x.
  - rewrite (upd_eq _ _ _ x1) by (cbn; by rewrite lookup_insert_eq). cbn. rewrite insert_insert_eq.
    match goal with |- context [signal_base _ ?m ?g ?s2] =>
      rewrite (signal_base_ok s2 x m g Ho) end.
    unfold post, event_signal, owner_signal. cbn.
    assert (Hev : so_events x1 = so_events x) by (rewrite Hx1; done). rewrite Hev, Hx1.
    destruct (bases s !! so_pgid x) as [b|]; [|done]. by destruct (sigEventMask b =? 0).
Qed.

Definition set_flag_buf (rcv : bool) (f : sockbuf -> sockbuf) (x : socket) : socket :=
  if rcv then x <| so_rcv ::= f (so_rcv x) |> else x <| so_snd ::= f (so_snd x) |>.

(** The socket after [sowakeup]'s wakeups, before its event. *)
Definition unflagged (rcv : bool) (x : socket) : socket :=
  let sbf := sb_flags (buf rcv x) in
  let x := if test sbf SB_SEL
           then set_flag_buf rcv (fun b => b <| sb_flags ::= clear (sb_flags b) SB_SEL |>) x else x in
  if test sbf SB_WAIT
  then set_flag_buf rcv (fun b => b <| sb_flags ::= clear (sb_flags b) SB_WAIT |>) x else x.

Definition wakeup_event (rcv : bool) (x : socket) : Z :=
  if rcv then if test (so_options x) SO_ACCEPTCONN then FD_ACCEPT else FD_READ else FD_WRITE.

Definition wakeup_notices (s : net) (so : Z) (rcv : bool) (x : socket) : list notice :=
  let sbf := sb_flags (buf rcv x) in
  (if test sbf SB_SEL then [Selwakeup so rcv] else []) ++
  (if test sbf SB_WAIT then [Wakeup (CcChan so rcv)] else []) ++
  (if test (so_state x) SS_ASYNC then owner_signal s x sigIOMask else []) ++
  raised_notices s (unflagged rcv x) (wakeup_event rcv x).

Lemma unflagged_fields rcv x :
  so_state (unflagged rcv x) = so_state x /\ so_pgid (unflagged rcv x) = so_pgid x /\
  so_eventmask (unflagged rcv x) = so_eventmask x /\ so_options (unflagged rcv x) = so_options x.
Proof. unfold unflagged. by repeat case_match; destruct rcv. Qed.

(** The state during an operation on one socket, relative to its start: each
    primitive moves it to the next such state. *)
Definition now (s : net) (so : Z) (x : socket) (ns : list notice) (c : sowk) : net :=
  post s so x ns <| counters ::= c |>.

Lemma now_upd_buf s so x ns c rcv f :
  upd_buf so rcv f (now s so x ns c) = Some (tt, now s so (set_flag_buf rcv f x) ns c).
Proof.
  unfold upd_buf. rewrite (upd_eq _ _ _ x) by (cbn; by rewrite lookup_insert_eq).
  unfold now, post. cbn. by rewrite insert_insert_eq.
Qed.
Lemma now_emit s so x ns c n : emit n (now s so x ns c) = Some (tt, now s so x (ns ++ [n]) c).
Proof. unfold emit, now, post. cbn. by rewrite app_assoc. Qed.
Lemma now_signal s so x ns c y mask guard :
  owner_ok s y ->
  signal_base (so_pgid y) mask guard (now s so x ns c) =
    Some (tt, now s so x (ns ++
      (match bases s !! so_pgid y with
       | Some b => if guard b then owner_signal s y mask else [] | None => [] end)) c).
Proof.
  intros Ho. rewrite (signal_base_ok (now s so x ns c) y mask guard Ho).
  unfold now, post, owner_signal. cbn. by rewrite app_assoc.
Qed.
Lemma now_raise s so x ns c ev :
  owner_ok s x ->
  soraise_event so ev (now s so x ns c) =
    Some (tt, now s so (raised x ev) (ns ++ raised_notices s x ev) c).
Proof.
  intros Ho. rewrite (soraise_event_ok so ev _ x) by (cbn; by rewrite ?lookup_insert_eq).
  unfold now, post, raised_notices, event_signal, owner_signal. cbn.
  by rewrite insert_insert_eq, app_assoc.
Qed.
Lemma now_start s so x : socks s !! so = Some x -> now s so x [] (counters s) = s.
Proof. intros Hx. unfold now. rewrite post_id by done. by destruct s. Qed.
Lemma now_sock s so x ns c : socks (now s so x ns c) !! so = Some x.
Proof. cbn. by rewrite lookup_insert_eq. Qed.

Lemma now_count s so x ns c f : count f (now s so x ns c) = Some (tt, now s so x ns (f c)).
Proof. done. Qed.

Lemma bind_ok {A B} (m : st A) (f : A -> st B) s a s' :
  m s = Some (a, s') -> (mbind f m) s = f a s'.
Proof. unfold mbind, st_bind. by intros ->. Qed.

(** Step over the first action of the goal, whose outcome [H] states. *)
Ltac st_step H := erewrite bind_ok by (eapply H; done); cbv beta.

Lemma sock_now s so x ns c : sock so (now s so x ns c) = Some (x, now s so x ns c).
Proof. unfold sock. by rewrite now_sock. Qed.

(** Clearing a flag of the buffer that is woken, with the notice [n]. *)
Lemma now_flag s so x ns c rcv (b : bool) flag n :
  (if b then
     _ ← upd_buf so rcv (fun b => b <| sb_flags ::= clear (sb_flags b) flag |>); emit n
   else mret tt) (now s so x ns c) =
  Some (tt, now s so (if b then set_flag_buf rcv (fun b => b <| sb_flags ::= clear (sb_flags b) flag |>) x
                      else x) (ns ++ if b then [n] else []) c).
Proof.
  destruct b; [|by rewrite app_nil_r]. st_step now_upd_buf. by rewrite now_emit.
Qed.

Lemma now_sowakeup s so x ns c rcv :
  owner_ok s x ->
  exists c', sowakeup so rcv (now s so x ns c) =
    Some (tt, now s so (raised (unflagged rcv x) (wakeup_event rcv x))
                (ns ++ wakeup_notices s so rcv x) c').
Proof.
  intros Ho. exists (sowk_count rcv x c). unfold sowakeup. st_step sock_now. st_step now_count.
  st_step now_flag. st_step now_flag.
  destruct (unflagged_fields rcv x) as (Fs & Fp & Fe & Fo).
  fold (unflagged rcv x). unfold wakeup_notices.
  set (sbf := sb_flags (buf rcv x)).
  erewrite bind_ok.
  2:{ instantiate (1 := now s so (unflagged rcv x)
        (((ns ++ (if test sbf SB_SEL then [Selwakeup so rcv] else [])) ++
          (if test sbf SB_WAIT then [Wakeup (CcChan so rcv)] else [])) ++
          (if test (so_state x) SS_ASYNC then owner_signal s x sigIOMask else [])) (sowk_count rcv x c)).
      destruct (test (so_state x) SS_ASYNC); [|by rewrite app_nil_r].
      rewrite (now_signal _ _ _ _ _ x) by done. unfold owner_signal. by destruct (bases s !! so_pgid x). }
  cbv beta. rewrite <- Fe. destruct (so_eventmask (unflagged rcv x) =? 0) eqn:Hm.
  - unfold raised, raised_notices. rewrite Hm. simpl orb. cbn match. rewrite app_nil_r, !app_assoc. done.
  - rewrite now_raise by (unfold owner_ok; by rewrite Fp). rewrite !app_assoc. done.
Qed.

(** ** Bits *)

Lemma land_state v m f : Z.land (Z.lor (clear v m) f) m = Z.land f m.
Proof.
  apply Z.bits_inj'. intros i Hi. unfold clear.
  rewrite !Z.land_spec, Z.lor_spec, Z.land_spec, Z.lnot_spec by lia.
  destruct (Z.testbit v i), (Z.testbit m i), (Z.testbit f i); done.
Qed.
Lemma lor_has v f : Z.land (Z.lor v f) f = f.
Proof.
  apply Z.bits_inj'. intros i Hi. rewrite Z.land_spec, Z.lor_spec.
  destruct (Z.testbit v i), (Z.testbit f i); done.
Qed.
Lemma test_has v f : f <> 0 -> test (Z.lor v f) f = true.
Proof. intros Hf. unfold test. rewrite lor_has. destruct (f =? 0) eqn:?; [lia|done]. Qed.

(** A selected event that was raised is pending. *)
Lemma raised_bit x ev i :
  0 <= i -> so_eventmask x <> 0 ->
  Z.testbit (so_events (raised x ev)) i =
  Z.testbit (so_events x) i ||
  (Z.testbit (so_eventmask x) i && (Z.testbit ev i || (new_error x && (i =? 5)))).
Proof.
  intros Hi Hm. unfold raised. destruct (so_eventmask x =? 0) eqn:?; [lia|].
  cbn. unfold fresh_events. rewrite Z.lor_spec, !Z.land_spec, Z.lnot_spec by lia.
  destruct (new_error x); simpl andb.
  - rewrite Z.lor_spec. assert (H5 : Z.testbit FD_ERROR i = (i =? 5)).
    { unfold FD_ERROR. change 32 with (2 ^ 5). rewrite Z.pow2_bits_eqb by lia. apply Z.eqb_sym. }
    rewrite H5. destruct (Z.testbit (so_events x) i), (Z.testbit ev i), (i =? 5), (Z.testbit (so_eventmask x) i); done.
  - destruct (Z.testbit (so_events x) i), (Z.testbit ev i), (Z.testbit (so_eventmask x) i); done.
Qed.

Lemma raised_pending x ev : ev <> 0 ->
  Z.land (so_eventmask x) ev = ev -> Z.land (so_events (raised x ev)) ev = ev.
Proof.
  intros H0 Hm. apply Z.bits_inj'. intros i Hi. rewrite Z.land_spec, raised_bit; [|done|].
  - assert (Hb : Z.testbit ev i = Z.testbit (so_eventmask x) i && Z.testbit ev i)
      by by rewrite <- Z.land_spec, Hm.
    destruct (Z.testbit ev i); [|by rewrite andb_false_r].
    rewrite andb_true_r in Hb. rewrite <- Hb. simpl. by rewrite orb_true_r.
  - intros Hz. rewrite Hz, Z.land_0_l in Hm. congruence.
Qed.

(** ** Connections *)

(** A socket's place in the queues. *)
Definition place (x : socket) : Z * Z * Z * Z * Z :=
  (so_q0 x, so_q x, so_q0len x, so_qlen x, so_head x).

Lemma raised_place x ev : place (raised x ev) = place x.
Proof. unfold raised. by case_match. Qed.
Lemma unflagged_place rcv x : place (unflagged rcv x) = place x.
Proof. unfold unflagged. by repeat case_match; destruct rcv. Qed.
Lemma raised_state x ev : so_state (raised x ev) = so_state x /\ so_options (raised x ev) = so_options x /\
  so_eventmask (raised x ev) = so_eventmask x /\ so_pgid (raised x ev) = so_pgid x.
Proof. unfold raised. by case_match. Qed.

Lemma listener_insert h hd l0 l1 a x x' :
  h !! a = Some x -> place x' = place x -> listener h hd l0 l1 -> listener (<[a := x']> h) hd l0 l1.
Proof.
  intros Ha Hp. apply listener_keep. intros y _. destruct (decide (a = y)) as [<-|].
  - right. exists x, x'. rewrite lookup_insert_eq. injection Hp as ? ? ? ? ?. by split_and!.
  - left. by rewrite lookup_insert_ne.
Qed.

(** What an operation on a socket that does not touch the queues leaves. *)
Definition conn_state (v : Z) : Z :=
  Z.lor (clear v (Z.lor SS_ISCONNECTING (Z.lor SS_ISDISCONNECTING SS_ISCONFIRMING))) SS_ISCONNECTED.

Lemma core_state x y : core x = core y -> so_state x = so_state y /\ so_options x = so_options y /\
  so_eventmask x = so_eventmask y /\ so_pgid x = so_pgid y /\ so_events x = so_events y.
Proof.
  intros H. split; [exact (f_equal so_state H)|]. split; [exact (f_equal so_options H)|].
  split; [exact (f_equal so_eventmask H)|]. split; [exact (f_equal so_pgid H)|].
  exact (f_equal so_events H).
Qed.

Lemma core_lookup (h h' : gmap Z socket) a x :
  (forall y, core <$> h' !! y = core <$> h !! y) -> h !! a = Some x ->
  exists x', h' !! a = Some x' /\ core x' = core x.
Proof.
  intros Hc Ha. specialize (Hc a). rewrite Ha in Hc. destruct (h' !! a) as [x'|]; [|done].
  exists x'. split; [done|]. exact (inj Some _ _ Hc).
Qed.

Lemma soisconnected_child fuel hd so k1 k2 l1 s x xhd :
  listener (socks s) hd (k1 ++ so :: k2) l1 -> socks s !! so = Some x ->
  socks s !! hd = Some xhd -> owner_ok s xhd ->
  (length (k1 ++ so :: k2 ++ l1) < fuel)%nat -> Z.of_nat (length (k1 ++ so :: k2 ++ l1)) < 32768 ->
  exists s' x' xhd' ns, soisconnected fuel so s = Some (tt, s') /\
    listener (socks s') hd (k1 ++ k2) (l1 ++ [so]) /\
    socks s' !! so = Some x' /\ so_state x' = conn_state (so_state x) /\
    socks s' !! hd = Some xhd' /\ so_eventmask xhd' = so_eventmask xhd /\
    (test (so_options xhd) SO_ACCEPTCONN = true -> Z.land (so_eventmask xhd) FD_ACCEPT = FD_ACCEPT ->
       Z.land (so_events xhd') FD_ACCEPT = FD_ACCEPT) /\
    notices s' = notices s ++ ns ++ [Wakeup (TimeoChan hd)].
Proof.
  intros Hl Hso Hhd Ho Hf Hsz.
  pose proof (li_nodup _ _ _ _ Hl) as Hnd. pose proof Hnd as [Hhdn _]%NoDup_cons.
  assert (Hne : hd <> so) by (intros ->; apply Hhdn; rewrite !elem_of_app, elem_of_cons; auto).
  assert (Hhead : so_head x = hd).
  { assert (Hin : so ∈ (k1 ++ so :: k2) ++ l1) by (rewrite !elem_of_app, elem_of_cons; auto).
    pose proof (li_head _ _ _ _ Hl so Hin) as Hh. rewrite Hso in Hh. by injection Hh. }
  assert (Hso0 : so <> 0).
  { destruct (li_q0 _ _ _ _ Hl) as [Hp _]. apply (path_nonzero _ _ _ _ _ Hp).
    rewrite elem_of_app, elem_of_cons. auto. }
  rewrite app_comm_cons, app_assoc in Hf, Hsz.
  unfold soisconnected. erewrite bind_ok by (unfold sock; by rewrite Hso).
  rewrite Hhead. erewrite bind_ok by (by apply upd_eq). cbv beta zeta.
  set (x1 := x <| so_state ::= _ |>). set (s1 := s <| socks ::= _ |>).
  assert (Hl1 : listener (socks s1) hd (k1 ++ so :: k2) l1) by by apply (listener_insert _ _ _ _ _ x).
  destruct (hd =? 0) eqn:Hz; [pose proof (li_nz _ _ _ _ Hl); lia|].
  destruct (soqremque_ok false _ l1 k1 k2 fuel hd so s1 Hl1 eq_refl Hf Hsz)
    as (h2 & E2 & Hl2 & Hc2 & _). simpl in Hl2.
  erewrite bind_ok by exact E2. cbv iota.
  assert (Hx2 : is_Some (h2 !! so)).
  { destruct (core_lookup (socks s1) h2 so x1 Hc2) as (? & -> & _); [|done].
    cbn. by rewrite lookup_insert_eq. }
  assert (Hout : so ∉ hd :: (k1 ++ k2) ++ l1).
  { apply not_elem_of_cons. split; [done|].
    rewrite <- app_assoc in Hnd. rewrite <- app_comm_cons in Hnd.
    rewrite <- Permutation_middle, app_assoc in Hnd.
    by apply NoDup_cons in Hnd as [_ [Hnd _]%NoDup_cons]. }
  set (s2 := s1 <| socks ::= h2 |>) in *.
  rewrite !length_app in Hf, Hsz. simpl length in Hf, Hsz.
  destruct (soqinsque_ok true (k1 ++ k2) l1 fuel hd so s2) as (h3 & E3 & Hl3 & Hc3);
    [done|done|done|done|rewrite !length_app; lia|rewrite !length_app; lia|].
  erewrite bind_ok by exact E3. set (s3 := s2 <| socks ::= h3 |>) in *. simpl in Hl3.
  assert (Hcore : forall y, core <$> h3 !! y = core <$> socks s1 !! y)
    by (intros y; rewrite Hc3; apply Hc2).
  destruct (core_lookup _ _ hd xhd Hcore) as (xh3 & Hxh3 & Hch).
  { cbn. by rewrite lookup_insert_ne. }
  destruct (core_lookup _ _ so x1 Hcore) as (x3 & Hx3 & Hcx).
  { cbn. by rewrite lookup_insert_eq. }
  apply core_state in Hch as (Hst & Hop & Hem & Hpg & Hevs).
  assert (Ho3 : owner_ok s3 xh3) by (unfold owner_ok; rewrite Hpg; exact Ho).
  destruct (now_sowakeup s3 hd xh3 [] (counters s3) true Ho3) as (c' & E4).
  rewrite now_start in E4 by exact Hxh3. erewrite bind_ok by exact E4.
  rewrite now_emit. destruct (unflagged_fields true xh3) as (F1 & F2 & F3 & F4).
  destruct (raised_state (unflagged true xh3) (wakeup_event true xh3)) as (G1 & G2 & G3 & G4).
  assert (Hpend : test (so_options xhd) SO_ACCEPTCONN = true ->
    Z.land (so_eventmask xhd) FD_ACCEPT = FD_ACCEPT ->
    Z.land (so_events (raised (unflagged true xh3) (wakeup_event true xh3))) FD_ACCEPT = FD_ACCEPT).
  { intros Hacc Hm. unfold wakeup_event. rewrite Hop, Hacc. apply raised_pending; [done|congruence]. }
  pose proof (raised_place (unflagged true xh3) (wakeup_event true xh3)) as Hpl.
  rewrite unflagged_place in Hpl.
  set (xf := raised _ _) in *. clearbody xf.
  eexists _, x3, xf, _. split; [done|]. cbn. rewrite lookup_insert_ne, lookup_insert_eq by done.
  split; [by apply (listener_insert _ _ _ _ _ xh3)|]. split; [exact Hx3|].
  split; [apply (core_state _ _ Hcx)|]. split; [done|]. split; [congruence|]. split; [done|].
  reflexivity.
Qed.

Lemma soreserve_empty fuel sb_max mclb a b p :
  exists ok snd rcv, soreserve fuel sb_max mclb sb0 sb0 a b p = Some (ok, snd, rcv, p).
Proof.
  unfold soreserve. set (sc := if a <? _ then _ else _). set (rc := if b <? _ then _ else _).
  assert (Hr : forall cc, exists ok sb, sbreserve sb_max mclb sb0 cc = (ok, sb) /\
    sb_mbcnt sb = 0 /\ sb_cc sb = 0 /\ sb_mb sb = [] /\ sb_flags sb = 0).
  { intros cc. unfold sbreserve. destruct (_ <? cc); [by do 2 eexists|].
    cbv zeta. case_match; by do 2 eexists. }
  destruct (Hr sc) as (ok & snd & -> & Hm & Hc & Hb & Hfl). destruct ok; cbn [negb].
  2:{ by do 3 eexists. }
  destruct (Hr rc) as (ok & rcv & -> & _). destruct ok; cbn [negb]; [by do 3 eexists|].
  unfold sbrelease, sbflush. rewrite Hfl. simpl negb. cbv iota.
  assert (Hfr : flush_loop fuel snd p = Some (snd, p))
    by (destruct fuel; cbn [flush_loop]; by rewrite Hm).
  rewrite Hfr. cbn. rewrite Hc, Hb. simpl. by do 3 eexists.
Qed.

Section conn_ok.
Context (malloc : net -> option Z) (pru_attach : Z -> st Z) (sb_max mclb : Z).
(** [MALLOC] gives unused memory; the protocol's attach request may change the
    socket it attaches, but no other socket and no queue. *)
Context (Hmalloc : forall s a, malloc s = Some a -> a <> 0 /\ socks s !! a = None).
Context (Hattach : forall a s x, socks s !! a = Some x ->
  exists e s' x', pru_attach a s = Some (e, s') /\ (forall y, y <> a -> socks s' !! y = socks s !! y) /\
    socks s' !! a = Some x' /\ place x' = place x /\ bases s' = bases s).

Lemma sonewconn_ok fuel hd status l0 l1 s xhd :
  listener (socks s) hd l0 l1 -> socks s !! hd = Some xhd -> owner_ok s xhd ->
  0 <= so_qlimit xhd ->
  (S (length (l0 ++ l1)) < fuel)%nat -> Z.of_nat (length (l0 ++ l1)) < 32767 ->
  exists r s', sonewconn malloc pru_attach sb_max mclb fuel hd status s = Some (r, s') /\
    (3 * so_qlimit xhd / 2 < Z.of_nat (length (l0 ++ l1)) -> r = 0 /\ s' = s) /\
    if r =? 0 then listener (socks s') hd l0 l1
    else socks s !! r = None /\
         let '(l0', l1') := push (negb (status =? 0)) l0 l1 r in
         listener (socks s') hd l0' l1' /\
         Z.of_nat (length (l0' ++ l1')) <= 3 * so_qlimit xhd / 2 + 1.
Proof using All.
  intros Hl Hhd Ho Hql Hf Hsz. unfold sonewconn.
  erewrite bind_ok by (unfold sock; by rewrite Hhd). cbv beta zeta.
  pose proof (li_len0 _ _ _ _ Hl) as H0. pose proof (li_len1 _ _ _ _ Hl) as H1.
  rewrite Hhd in H0, H1. injection H0 as H0. injection H1 as H1.
  rewrite H0, H1, Z.quot_div_nonneg by lia.
  assert (Hlen : Z.of_nat (length l1) + Z.of_nat (length l0) = Z.of_nat (length (l0 ++ l1)))
    by (rewrite length_app; lia).
  rewrite Hlen. destruct (_ <? _) eqn:Hlim.
  { exists 0, s. split; [done|]. split; [done|]. done. }
  assert (Hnolim : 3 * so_qlimit xhd / 2 < Z.of_nat (length (l0 ++ l1)) -> False) by lia.
  erewrite bind_ok by reflexivity. destruct (malloc s) as [so|] eqn:Hm.
  2:{ exists 0, s. split; [done|]. split; [tauto|done]. }
  destruct (Hmalloc _ _ Hm) as [Hso0 Hnone].
  erewrite bind_ok by reflexivity. set (n0 := socket0 <| so_type ::= _ |> <| so_options ::= _ |>
    <| so_linger ::= _ |> <| so_state ::= _ |> <| so_proto ::= _ |> <| so_timeo ::= _ |> <| so_pgid ::= _ |>).
  set (s1 := s <| socks ::= _ |>).
  destruct (soreserve_empty fuel sb_max mclb (sb_hiwat (so_snd xhd)) (sb_hiwat (so_rcv xhd)) (pool s))
    as (ok & snd & rcv & Er).
  assert (Er1 : reserve_conn sb_max mclb fuel so xhd s1 =
     Some (tt, s1 <| socks ::= <[so := n0 <| so_snd ::= snd |> <| so_rcv ::= rcv |>]> (socks s1) |> <| pool ::= pool s |>)).
  { unfold reserve_conn. cbn. rewrite lookup_insert_eq. cbn. rewrite Er. done. }
  erewrite bind_ok by exact Er1. set (n1 := n0 <| so_snd ::= snd |> <| so_rcv ::= rcv |>) in *.
  set (s2 := s1 <| socks ::= _ |> <| pool ::= _ |>) in *.
  assert (Hso2 : socks s2 = <[so := n1]> (socks s)) by (cbn; by rewrite insert_insert_eq).
  assert (Hout : so ∉ hd :: l0 ++ l1).
  { intros [->|Hin]%elem_of_cons; [by rewrite Hhd in Hnone|].
    pose proof (li_head _ _ _ _ Hl so Hin) as Hh. by rewrite Hnone in Hh. }
  assert (Hl2 : listener (socks s2) hd l0 l1).
  { rewrite Hso2. revert Hl. apply listener_keep. intros y Hy. left. rewrite lookup_insert_ne; [done|].
    by intros ->. }
  set (q := negb (status =? 0)).
  destruct (soqinsque_ok q l0 l1 fuel hd so s2 Hl2 Hout Hso0) as (h3 & E3 & Hl3 & Hc3);
    [rewrite Hso2, lookup_insert_eq; done|lia|lia|].
  erewrite bind_ok by exact E3. set (s3 := s2 <| socks ::= h3 |>).
  destruct (core_lookup _ _ so n1 Hc3) as (n3 & Hn3 & _); [by rewrite Hso2, lookup_insert_eq|].
  destruct (core_lookup _ _ hd xhd Hc3) as (xh3 & Hxh3 & Hch).
  { rewrite Hso2, lookup_insert_ne; [done|]. intros ->. apply Hout. by left. }
  destruct (Hattach so s3 n3 Hn3) as (e & s4 & n4 & E4 & Hoth & Hn4 & Hpl & Hbs).
  erewrite bind_ok by exact E4.
  assert (Hl4 : listener (socks s4) hd (push q l0 l1 so).1 (push q l0 l1 so).2).
  { revert Hl3. apply listener_keep. intros y _. destruct (decide (y = so)) as [->|Hy].
    - right. exists n3, n4. injection Hpl as ? ? ? ? ?. by split_and!.
    - left. by apply Hoth. }
  assert (Hne : hd <> so) by (intros ->; apply Hout; by left).
  assert (Hplen : length ((push q l0 l1 so).1 ++ (push q l0 l1 so).2) = S (length (l0 ++ l1)))
    by (destruct q; simpl; rewrite !length_app; simpl; lia).
  destruct (e =? 0); cbn [negb]; cbv iota.
  2:{ destruct (soqremque_ok q (push q l0 l1 so).1 (push q l0 l1 so).2 (sel q l0 l1) [] fuel hd so s4 Hl4)
        as (h5 & E5 & Hl5 & _); [by destruct q|lia|lia|].
      erewrite bind_ok by exact E5. erewrite bind_ok by reflexivity.
      eexists 0, _. split; [done|]. split; [tauto|]. cbv iota.
      assert (Hpull : (pull q (push q l0 l1 so).1 (push q l0 l1 so).2 (sel q l0 l1) []).1 = l0 /\
                      (pull q (push q l0 l1 so).1 (push q l0 l1 so).2 (sel q l0 l1) []).2 = l1)
        by (destruct q; simpl; by rewrite app_nil_r).
      destruct Hpull as [Hp1 Hp2]. rewrite Hp1, Hp2 in Hl5. revert Hl5. apply listener_keep. intros y Hy. left. cbn.
      rewrite lookup_delete_ne; [done|]. by intros ->. }
  assert (Hfin : forall s', listener (socks s') hd (push q l0 l1 so).1 (push q l0 l1 so).2 ->
    if so =? 0 then listener (socks s') hd l0 l1
    else socks s !! so = None /\ (let '(l0', l1') := push q l0 l1 so in
         listener (socks s') hd l0' l1' /\
         Z.of_nat (length (l0' ++ l1')) <= 3 * so_qlimit xhd / 2 + 1)).
  { intros s' Hl'. destruct (so =? 0) eqn:?; [lia|]. split; [done|].
    destruct (push q l0 l1 so) as [l0' l1']. simpl in *. split; [done|]. lia. }
  destruct q eqn:Hq.
  - assert (Hxh4 : socks s4 !! hd = Some xh3) by by rewrite Hoth.
    apply core_state in Hch as (_ & _ & _ & Hpg & _).
    assert (Ho4 : owner_ok s4 xh3) by (unfold owner_ok; rewrite Hpg, Hbs; exact Ho).
    destruct (now_sowakeup s4 hd xh3 [] (counters s4) true Ho4) as (c' & E6).
    rewrite now_start in E6 by exact Hxh4.
    pose proof (raised_place (unflagged true xh3) (wakeup_event true xh3)) as Hpl2.
    rewrite unflagged_place in Hpl2. set (xf := raised _ _) in *. clearbody xf.
    erewrite bind_ok.
    2:{ erewrite bind_ok by exact E6. erewrite bind_ok by apply now_emit. apply upd_eq.
        cbn. by rewrite lookup_insert_ne. }
    cbv beta. eexists so, _. split; [done|]. split; [tauto|]. apply Hfin.
    apply (listener_insert _ _ _ _ _ n4); [cbn; by rewrite lookup_insert_ne|done|].
    by apply (listener_insert _ _ _ _ _ xh3).
  - erewrite bind_ok by reflexivity. exists so, s4. split; [done|]. split; [tauto|]. by apply Hfin.
Qed.
End conn_ok.

(** ** The sleep lock *)

Lemma test_pow f k : 0 <= k -> test f (2 ^ k) = Z.testbit f k.
Proof.
  intros Hk. unfold test. destruct (Z.testbit f k) eqn:Hb.
  - destruct (Z.eqb_spec (Z.land f (2 ^ k)) 0) as [H0|]; [|done].
    assert (Hc : Z.testbit (Z.land f (2 ^ k)) k = true)
      by (rewrite Z.land_spec, Hb, Z.pow2_bits_true by lia; done).
    rewrite H0, Z.bits_0 in Hc. done.
  - assert (Hz : Z.land f (2 ^ k) = 0); [|by rewrite Hz].
    apply Z.bits_inj'. intros i Hi. rewrite Z.land_spec, Z.pow2_bits_eqb, Z.bits_0 by lia.
    destruct (Z.eqb_spec k i) as [<-|]; [by rewrite Hb|by rewrite andb_false_r].
Qed.
Lemma test_lock f : test f SB_LOCK = Z.testbit f 0.
Proof. exact (test_pow f 0 ltac:(lia)). Qed.
Lemma test_want f : test f SB_WANT = Z.testbit f 1.
Proof. exact (test_pow f 1 ltac:(lia)). Qed.

Record lock_inv (c : sockbuf * list tstate) : Prop := {
  lv_held : test (sb_flags c.1) SB_LOCK = true <-> exists i, c.2 !! i = Some Holds;
  lv_one : forall i j, c.2 !! i = Some Holds -> c.2 !! j = Some Holds -> i = j;
  lv_asleep : forall i, c.2 !! i = Some Asleep ->
    test (sb_flags c.1) SB_LOCK = true /\ test (sb_flags c.1) SB_WANT = true }.

Lemma turn_spec b got b' : sb_lock_turn b = (got, b') ->
  got = negb (test (sb_flags b) SB_LOCK) /\ test (sb_flags b') SB_LOCK = true /\
  (if got : bool then test (sb_flags b') SB_WANT = test (sb_flags b) SB_WANT
   else test (sb_flags b') SB_WANT = true).
Proof.
  unfold sb_lock_turn. destruct (test (sb_flags b) SB_LOCK) eqn:Hl; intros [= <- <-];
    cbn; rewrite !test_lock, !test_want, !Z.lor_spec in *; [by rewrite Hl, orb_true_r|].
  by rewrite orb_true_r, orb_false_r.
Qed.

Lemma unlock_spec b woken b' : sbunlock b = (woken, b') ->
  woken = test (sb_flags b) SB_WANT /\ test (sb_flags b') SB_LOCK = false.
Proof.
  assert (Hw : test (clear (sb_flags b) SB_LOCK) SB_WANT = test (sb_flags b) SB_WANT).
  { rewrite !test_want. unfold clear. rewrite Z.land_spec. by rewrite andb_true_r. }
  unfold sbunlock. cbn. rewrite Hw. destruct (test (sb_flags b) SB_WANT); intros [= <- <-];
    cbn; rewrite test_lock; unfold clear; rewrite !Z.land_spec; simpl; by rewrite ?andb_false_r.
Qed.

Lemma insert_cases {A} (l : list A) i j x y :
  <[i := x]> l !! j = Some y -> j = i /\ x = y \/ j <> i /\ l !! j = Some y.
Proof.
  intros H. destruct (decide (j = i)) as [->|].
  - left. split; [done|]. pose proof (lookup_lt_Some _ _ _ H) as Hl. rewrite length_insert in Hl.
    rewrite list_lookup_insert_eq in H by done. by injection H.
  - right. split; [done|]. by rewrite list_lookup_insert_ne in H by done.
Qed.

Lemma lock_inv_step c c' : lock_step c c' -> lock_inv c -> lock_inv c'.
Proof.
  intros Hs [Hh Ho Ha]. destruct Hs as [i b ts t got b' Hi Ht Hturn|i b ts Hi|i b ts woken b' Hi Hu|b b' ts Hl Hw];
    simpl in *.
  - apply turn_spec in Hturn as (-> & Hl & Hw). pose proof (lookup_lt_Some _ _ _ Hi) as Hlt.
    destruct (test (sb_flags b) SB_LOCK) eqn:Hlk; simpl in *.
    + assert (Hkeep : forall j, <[i:=Asleep]> ts !! j = Some Holds <-> ts !! j = Some Holds).
      { intros j. split.
        - intros [[_ ?]|[_ ?]]%insert_cases; done.
        - intros Hj. rewrite list_lookup_insert_ne; [done|]. intros ->.
          rewrite Hi in Hj. injection Hj as ->. by destruct Ht. }
      split; simpl.
      * rewrite Hl. split; [|done]. intros _. destruct (proj1 Hh eq_refl) as [j Hj]. exists j. by apply Hkeep.
      * intros j k Hj%Hkeep Hk%Hkeep. by apply Ho.
      * done.
    + assert (Hno : forall j, ts !! j <> Some Holds)
        by (intros j Hj; by discriminate (proj2 Hh (ex_intro _ j Hj))).
      split; simpl.
      * rewrite Hl. split; [|done]. intros _. exists i. by apply list_lookup_insert_eq.
      * intros j k [[-> _]|[_ Hj]]%insert_cases [[-> _]|[_ Hk]]%insert_cases;
          [done|by destruct (Hno k)|by destruct (Hno j)|by destruct (Hno j)].
      * intros j [[_ ?]|[_ Hj]]%insert_cases; [done|]. destruct (Ha j Hj). done.
  - split; simpl.
    + rewrite Hh. split; intros [j Hj].
      * exists j. rewrite list_lookup_insert_ne; [done|]. intros ->. by rewrite Hi in Hj.
      * apply insert_cases in Hj as [[_ ?]|[_ ?]]; [done|by exists j].
    + intros j k [[_ ?]|[_ ?]]%insert_cases [[_ ?]|[_ ?]]%insert_cases; try done. by apply Ho.
    + intros j [[_ ?]|[_ Hj]]%insert_cases; [done|]. by apply (Ha j).
  - apply unlock_spec in Hu as (-> & Hl).
    assert (Hno : forall j x, (if test (sb_flags b) SB_WANT then wake else id) <$> <[i:=Idle]> ts !! j = Some x ->
      x <> Holds /\ x <> Asleep).
    { intros j x Hj. destruct (<[i:=Idle]> ts !! j) as [y|] eqn:Hy; [|done]. simpl in Hj.
      injection Hj as <-. apply insert_cases in Hy as [[_ <-]|[Hne Hy]];
        [by destruct (test (sb_flags b) SB_WANT)|].
      assert (y <> Holds) by (intros ->; apply Hne; by apply Ho).
      destruct (test (sb_flags b) SB_WANT) eqn:Hw; [by destruct y|].
      change (id y) with y. split; [done|]. intros ->. destruct (Ha j Hy) as [_ ?]. done. }
    split; simpl.
    + rewrite Hl. split; [done|]. intros [j Hj]. rewrite list_lookup_fmap in Hj. by destruct (Hno j _ Hj).
    + intros j k Hj. rewrite list_lookup_fmap in Hj. by destruct (Hno j _ Hj).
    + intros j Hj. rewrite list_lookup_fmap in Hj. by destruct (Hno j _ Hj).
  - split; simpl; rewrite ?Hl, ?Hw; done.
Qed.

Lemma lock_inv_steps c c' : rtc lock_step c c' -> lock_inv c -> lock_inv c'.
Proof. induction 1 as [|c c1 c2 Hs _ IH]; [done|]. intros Hi. apply IH. by eapply lock_inv_step. Qed.

(** * Properties *)

(** C19. The listen queues, links in the sockets, implement lists: [soqinsque]
    appends a socket to a queue of a listening socket, [soqremque] takes out
    exactly the socket it is given and says so, or finds it absent and changes
    nothing.  Lengths, order, the other queue and all else of every socket are
    kept, a removed socket is unlinked, and both walks end. *)
Theorem listen_queues_correct q l0 l1 fuel hd so s :
  listener (socks s) hd l0 l1 -> so <> 0 -> (length (l0 ++ l1) < fuel)%nat ->
  Z.of_nat (length (l0 ++ l1)) < 32767 ->
  (so ∉ hd :: l0 ++ l1 -> is_Some (socks s !! so) ->
     exists h', soqinsque fuel hd so q s = Some (tt, s <| socks ::= h' |>) /\
       listener h' hd (push q l0 l1 so).1 (push q l0 l1 so).2 /\
       forall x, core <$> h' !! x = core <$> socks s !! x) /\
  (forall k1 k2, sel q l0 l1 = k1 ++ so :: k2 ->
     exists h', soqremque fuel so q s = Some (true, s <| socks ::= h' |>) /\
       listener h' hd (pull q l0 l1 k1 k2).1 (pull q l0 l1 k1 k2).2 /\
       (forall x, core <$> h' !! x = core <$> socks s !! x) /\
       so_head <$> h' !! so = Some 0 /\ lk h' false so = Some 0 /\ lk h' true so = Some 0) /\
  (so ∉ sel q l0 l1 -> so_head <$> socks s !! so = Some hd ->
     soqremque fuel so q s = Some (false, s)).
Proof.
  intros Hl H0 Hf Hsz. split; [|split].
  - intros. by apply soqinsque_ok.
  - intros. apply soqremque_ok; try done. lia.
  - intros. by eapply soqremque_out.
Qed.

(** A listening socket at 100 with the partial connections 200 and 300 and the
    completed connection 400; 500 is a socket of its own. *)
Definition demo_sock (state options head q0 q q0len qlen qlimit : Z) : socket :=
  mk_socket 1 options (0, 0) state 1 head q0 q q0len qlen qlimit 0 0 700 (Z.lor FD_ACCEPT FD_ERROR) 0 0 sb0 sb0.
Definition demo_net : net := mk_net
  {[ 100 := demo_sock 0 SO_ACCEPTCONN 0 200 400 2 1 5;
     200 := demo_sock SS_ISCONNECTING 0 100 300 0 0 0 0;
     300 := demo_sock SS_ISCONNECTING 0 100 0 0 0 0 0;
     400 := demo_sock SS_ISCONNECTED 0 100 0 0 0 0 0;
     500 := demo_sock 0 0 0 0 0 0 0 0 ]}
  {[ 700 := mk_SocketBase 800 1 16 ]} [] (mk_sowk 0 0 0 0 0) demo_pool.

Lemma demo_listener : listener (socks demo_net) 100 [200; 300] [400].
Proof.
  split; try (vm_compute; done); [split; vm_compute; repeat split; try discriminate; done..| |].
  - apply NoDup_ListNoDup. repeat constructor; simpl; lia.
  - intros x Hx. simpl in Hx. rewrite !elem_of_cons, elem_of_nil in Hx.
    destruct Hx as [->|[->|[->|[]]]]; reflexivity.
Qed.

Lemma listen_queues_correct_witness :
  exists h', soqremque 10 200 false demo_net = Some (true, demo_net <| socks ::= h' |>) /\
    listener h' 100 [300] [400] /\ lk h' false 100 = Some 300.
Proof.
  destruct (listen_queues_correct false [200; 300] [400] 10 100 200 demo_net demo_listener)
    as (_ & Hr & _); [discriminate|simpl; lia|simpl; lia|].
  destruct (Hr [] [300] eq_refl) as (h' & E & Hl & _). exists h'. split; [exact E|].
  split; [exact Hl|]. destruct Hl as [[[H _] _] _ _ _ _ _ _]. exact H.
Defined.

(** C20. When the handshake of a queued connection completes, [soisconnected]
    moves it from the partial queue to the end of the completed one - accepted in
    the order the handshakes completed - marks it connected and no longer
    connecting, and tells the listening socket: sleepers in [accept] are woken,
    and an application that selected [FD_ACCEPT] has it pending. *)
Theorem soisconnected_correct fuel hd so k1 k2 l1 s x xhd :
  listener (socks s) hd (k1 ++ so :: k2) l1 -> socks s !! so = Some x ->
  socks s !! hd = Some xhd -> owner_ok s xhd ->
  (length (k1 ++ so :: k2 ++ l1) < fuel)%nat -> Z.of_nat (length (k1 ++ so :: k2 ++ l1)) < 32768 ->
  exists s' x' xhd' ns, soisconnected fuel so s = Some (tt, s') /\
    listener (socks s') hd (k1 ++ k2) (l1 ++ [so]) /\
    socks s' !! so = Some x' /\ test (so_state x') SS_ISCONNECTED = true /\
    Z.land (so_state x') (Z.lor SS_ISCONNECTING (Z.lor SS_ISDISCONNECTING SS_ISCONFIRMING)) = 0 /\
    socks s' !! hd = Some xhd' /\ so_eventmask xhd' = so_eventmask xhd /\
    (test (so_options xhd) SO_ACCEPTCONN = true -> Z.land (so_eventmask xhd) FD_ACCEPT = FD_ACCEPT ->
       Z.land (so_events xhd') FD_ACCEPT = FD_ACCEPT) /\
    notices s' = notices s ++ ns ++ [Wakeup (TimeoChan hd)].
Proof.
  intros Hl Hso Hhd Ho Hf Hsz.
  destruct (soisconnected_child fuel hd so k1 k2 l1 s x xhd Hl Hso Hhd Ho Hf Hsz)
    as (s' & x' & xhd' & ns & E & Hl' & Hx' & Hst & Hrest).
  exists s', x', xhd', ns. split; [done|]. split; [done|]. split; [done|].
  rewrite Hst. split; [by apply test_has|]. split; [by apply land_state|done].
Qed.

Lemma soisconnected_correct_witness :
  exists s', soisconnected 10 300 demo_net = Some (tt, s') /\
    listener (socks s') 100 [200] [400; 300] /\
    notices s' = [Signal 800 16; Wakeup (TimeoChan 100)].
Proof.
  destruct (soisconnected_correct 10 100 300 [200] [] [400] demo_net
    (demo_sock SS_ISCONNECTING 0 100 0 0 0 0 0) (demo_sock 0 SO_ACCEPTCONN 0 200 400 2 1 5))
    as (s' & x' & xhd' & ns & E & Hl & _).
  - exact demo_listener.
  - reflexivity.
  - reflexivity.
  - right. vm_compute. by eexists.
  - simpl. lia.
  - simpl. lia.
  - exists s'. split; [exact E|]. split; [exact Hl|].
    vm_compute in E. injection E as <-. reflexivity.
Defined.

(** C21. [sonewconn] queues one new socket on a listening socket, partial or
    complete as [connstatus] says, behind those already there, or leaves the
    queues as they were: over the backlog, out of memory, or when the protocol
    refuses the new socket, which is then unlinked and freed.  The two queues
    together never hold more than one socket above 3/2 of the backlog. *)
Theorem sonewconn_correct malloc pru_attach sb_max mclb
  (Hmalloc : forall s a, malloc s = Some a -> a <> 0 /\ socks s !! a = None)
  (Hattach : forall a s x, socks s !! a = Some x ->
    exists e s' x', pru_attach a s = Some (e, s') /\ (forall y, y <> a -> socks s' !! y = socks s !! y) /\
      socks s' !! a = Some x' /\ place x' = place x /\ bases s' = bases s)
  fuel hd connstatus l0 l1 s xhd :
  listener (socks s) hd l0 l1 -> socks s !! hd = Some xhd -> owner_ok s xhd ->
  0 <= so_qlimit xhd ->
  (S (length (l0 ++ l1)) < fuel)%nat -> Z.of_nat (length (l0 ++ l1)) < 32767 ->
  exists r s', sonewconn malloc pru_attach sb_max mclb fuel hd connstatus s = Some (r, s') /\
    (3 * so_qlimit xhd / 2 < Z.of_nat (length (l0 ++ l1)) -> r = 0 /\ s' = s) /\
    if r =? 0 then listener (socks s') hd l0 l1
    else socks s !! r = None /\
         let '(l0', l1') := push (negb (connstatus =? 0)) l0 l1 r in
         listener (socks s') hd l0' l1' /\
         Z.of_nat (length (l0' ++ l1')) <= 3 * so_qlimit xhd / 2 + 1.
Proof. intros. by apply (sonewconn_ok malloc pru_attach sb_max mclb Hmalloc Hattach). Qed.

(** The first free multiple of 100 above the sockets in use, and a protocol that
    accepts every socket. *)
Definition demo_malloc (s : net) : option Z :=
  if decide (socks s !! 600 = None) then Some 600 else None.
Definition demo_attach (a : Z) : st Z := fun s => match socks s !! a with Some _ => Some (0, s) | None => None end.

Lemma sonewconn_correct_witness :
  exists s', sonewconn demo_malloc demo_attach 262144 2048 10 100 0 demo_net = Some (600, s') /\
    listener (socks s') 100 [200; 300; 600] [400].
Proof.
  destruct (sonewconn_correct demo_malloc demo_attach 262144 2048) with (fuel := 10%nat) (hd := 100)
    (connstatus := 0) (l0 := [200; 300]) (l1 := [400]) (s := demo_net)
    (xhd := demo_sock 0 SO_ACCEPTCONN 0 200 400 2 1 5) as (r & s' & E & _ & Hres).
  - intros s a. unfold demo_malloc. destruct (decide _) as [Hd|]; [|discriminate].
    intros [= <-]. split; [discriminate|exact Hd].
  - intros a s x Hx. exists 0, s, x. unfold demo_attach. rewrite Hx.
    repeat split.
  - exact demo_listener.
  - reflexivity.
  - right. vm_compute. by eexists.
  - simpl. lia.
  - simpl. lia.
  - simpl. lia.
  - exists s'. assert (Hr : r = 600) by (vm_compute in E; injection E as <- _; reflexivity).
    subst r. split; [exact E|]. destruct Hres as [_ [Hl _]]. exact Hl.
Defined.

(** C22. [soraise_event] records exactly the selected events: those raised, and
    [FD_ERROR] when the socket has an error not announced before; nothing pending
    is lost.  It signals the owner's live task at most once, and only when a bit
    became pending: raising the same event again, before the application
    collects, changes nothing and signals nobody.  An error is announced once:
    after collection it is not announced again. *)
Theorem soraise_event_correct so ev s x :
  socks s !! so = Some x -> owner_ok s x ->
  exists s' x', soraise_event so ev s = Some (tt, s') /\ socks s' !! so = Some x' /\
    (forall a, a <> so -> socks s' !! a = socks s !! a) /\
    (forall i, 0 <= i -> Z.testbit (so_events x') i =
       Z.testbit (so_events x) i ||
       (Z.testbit (so_eventmask x) i && (Z.testbit ev i || (new_error x && (i =? 5))))) /\
    notices s' = notices s ++ (if so_events x' =? so_events x then [] else event_signal s x) /\
    (length (event_signal s x) <= 1)%nat /\
    soraise_event so ev s' = Some (tt, s') /\
    new_error x' = false.
Proof.
  intros Hx Ho. rewrite (soraise_event_ok so ev s x Hx Ho).
  eexists _, (raised x ev). split; [done|]. split; [cbn; by rewrite lookup_insert_eq|].
  split; [intros a Ha; cbn; by rewrite lookup_insert_ne|].
  assert (Hbits : forall i, 0 <= i -> Z.testbit (so_events (raised x ev)) i =
     Z.testbit (so_events x) i ||
     (Z.testbit (so_eventmask x) i && (Z.testbit ev i || (new_error x && (i =? 5))))).
  { intros i Hi. destruct (Z.eqb_spec (so_eventmask x) 0) as [Hm|Hm]; [|by apply raised_bit].
    unfold raised. rewrite Hm, Z.bits_0. simpl. by rewrite orb_false_r. }
  assert (Herr : new_error (raised x ev) = false).
  { unfold raised. destruct (so_eventmask x =? 0) eqn:Hm.
    - unfold new_error, test. replace (so_eventmask x) with 0 by lia.
      rewrite Z.land_0_l. by rewrite andb_false_r.
    - unfold new_error at 1. cbn. destruct (new_error x) eqn:Hn.
      + by rewrite Z.eqb_refl, andb_false_r.
      + exact Hn. }
  assert (Hfresh : fresh_events (raised x ev) ev = 0).
  { apply Z.bits_inj'. intros i Hi. unfold fresh_events. rewrite Herr.
    rewrite !Z.land_spec, Z.lnot_spec, Z.bits_0, Hbits by lia.
    destruct (raised_state x ev) as (_ & _ & -> & _).
    destruct (Z.testbit (so_events x) i), (Z.testbit (so_eventmask x) i), (Z.testbit ev i); done. }
  split; [exact Hbits|]. split; [|split; [|split; [|exact Herr]]].
  - cbn. f_equal. unfold raised_notices. destruct (so_eventmask x =? 0) eqn:Hm; simpl orb.
    { unfold raised. rewrite Hm, Z.eqb_refl. done. }
    assert (Heq : (so_events (raised x ev) =? so_events x) = (fresh_events x ev =? 0)); [|by rewrite Heq].
    unfold raised. rewrite Hm. cbn.
    destruct (Z.eqb_spec (fresh_events x ev) 0) as [->|Hf]; [by rewrite Z.lor_0_r, Z.eqb_refl|].
    apply Z.eqb_neq. intros He. apply Hf. apply Z.bits_inj'. intros i Hi. rewrite Z.bits_0.
    apply (f_equal (fun z => Z.testbit z i)) in He. rewrite Z.lor_spec in He.
    unfold fresh_events in *. rewrite !Z.land_spec, Z.lnot_spec in * by lia.
    destruct (Z.testbit (so_events x) i); [by rewrite andb_false_r|].
    by destruct (Z.testbit _ i), (Z.testbit (so_eventmask x) i).
  - unfold event_signal, owner_signal. destruct (bases s !! so_pgid x) as [b|]; [|simpl; lia].
    destruct (sigEventMask b =? 0), ((so_pgid x =? 0) || (thisTask b =? 0)); simpl; lia.
  - rewrite (soraise_event_ok so ev _ (raised x ev)).
    + do 2 f_equal. unfold post at 1, raised_notices. rewrite Hfresh, orb_true_r.
      assert (Hr : raised (raised x ev) ev = raised x ev).
      { unfold raised at 1. rewrite Hfresh, Herr, Z.lor_0_r. case_match; [done|]. by destruct (raised x ev). }
      rewrite Hr. unfold post. cbn. rewrite insert_insert_eq, app_nil_r. done.
    + cbn. by rewrite lookup_insert_eq.
    + unfold owner_ok. destruct (raised_state x ev) as (_ & _ & _ & ->). exact Ho.
Qed.

Lemma soraise_event_correct_witness :
  exists s', soraise_event 100 FD_ACCEPT demo_net = Some (tt, s') /\
    notices s' = [Signal 800 16] /\ soraise_event 100 FD_ACCEPT s' = Some (tt, s').
Proof.
  destruct (soraise_event_correct 100 FD_ACCEPT demo_net (demo_sock 0 SO_ACCEPTCONN 0 200 400 2 1 5))
    as (s' & x' & E & _ & _ & _ & _ & _ & Hi & _).
  - reflexivity.
  - right. vm_compute. by eexists.
  - exists s'. split; [exact E|]. split; [|exact Hi].
    vm_compute in E. injection E as <-. reflexivity.
Defined.

(** C23. The sleep lock of a socket buffer, from any start with the lock free and
    no task in it: at every reachable moment at most one task is inside, the flag
    says whether one is, and no wakeup is lost - a task sleeps only while the lock
    is held and its holder is going to wake the sleepers. *)
Theorem sblock_correct b n c :
  test (sb_flags b) SB_LOCK = false ->
  rtc lock_step (b, replicate n Idle) c ->
  (forall i j, c.2 !! i = Some Holds -> c.2 !! j = Some Holds -> i = j) /\
  (test (sb_flags c.1) SB_LOCK = true <-> exists i, c.2 !! i = Some Holds) /\
  (forall i, c.2 !! i = Some Asleep ->
     (exists j, c.2 !! j = Some Holds) /\ (sbunlock c.1).1 = true).
Proof.
  intros Hb Hr. assert (Hi : lock_inv c).
  { apply (lock_inv_steps _ _ Hr). split; simpl.
    - rewrite Hb. split; [done|]. intros [i Hi]. by apply lookup_replicate in Hi as [? _].
    - intros i j Hi. by apply lookup_replicate in Hi as [? _].
    - intros i Hi. by apply lookup_replicate in Hi as [? _]. }
  destruct Hi as [Hh Ho Ha]. split; [done|]. split; [done|].
  intros i Hi. destruct (Ha i Hi) as [Hl Hw]. split; [by apply Hh|].
  destruct (sbunlock c.1) as [w b'] eqn:Hu. apply unlock_spec in Hu as [-> _]. exact Hw.
Qed.

Lemma sblock_correct_witness :
  exists b', rtc lock_step (demo_sb, [Idle; Idle]) (b', [Holds; Asleep]) /\ (sbunlock b').1 = true.
Proof.
  assert (Hr : rtc lock_step (demo_sb, replicate 2 Idle)
     (demo_sb <| sb_flags ::= 1 |> <| sb_flags ::= 3 |>, [Holds; Asleep])).
  { eapply rtc_l; [apply (step_lock 0 demo_sb (replicate 2 Idle) Idle true (demo_sb <| sb_flags ::= 1 |>))|].
    - reflexivity.
    - left. reflexivity.
    - reflexivity.
    - eapply rtc_l; [|apply rtc_refl].
      apply (step_lock 1 _ [Holds; Idle] Idle false); [reflexivity|left; reflexivity|reflexivity]. }
  destruct (sblock_correct demo_sb 2 _ ltac:(reflexivity) Hr) as (_ & _ & Ha).
  eexists. split; [exact Hr|]. destruct (Ha 1%nat eq_refl) as [_ Hu]. exact Hu.
Defined.
