(* ===== verification/IpReass.v ===== *)
(** Reassembly of IP fragments: the queues, their caps and their timers
    ([ip_reass], [ip_freef], [ip_slowtimo], [ip_drain] and the fragment part of
    [ipintr] in [netinet/ip_input.c]; the structures of [netinet/ip_var.h]). *)
From S2P Require Import Prelude Mbuf.

(** * Data *)

(** A fragment: the fields of its header used here, and its mbuf chain.  The
    doubly linked list of [ipf_next] and [ipf_prev] is the list structure. *)
Record ipasfrag := mk_ipasfrag {
  ip_hl : Z; ipf_mff : Z; ip_len : Z; ip_id : Z; ip_off : Z; ip_p : Z;
  ip_src : Z; ip_dst : Z; ip_m : chain }.
#[export] Instance ipasfrag_eta : Eta ipasfrag := fun f =>
  mk_ipasfrag (ip_hl f) (ipf_mff f) (ip_len f) (ip_id f) (ip_off f) (ip_p f)
    (ip_src f) (ip_dst f) (ip_m f).

(** A reassembly queue, living in the mbuf [ipq_m]. *)
Record ipq := mk_ipq {
  ipq_ttl : Z; ipq_p : Z; ipq_id : Z; ipq_frags : list ipasfrag;
  ipq_src : Z; ipq_dst : Z; ipq_nfrags : Z; ipq_m : mbuf }.
#[export] Instance ipq_eta : Eta ipq := fun q =>
  mk_ipq (ipq_ttl q) (ipq_p q) (ipq_id q) (ipq_frags q) (ipq_src q) (ipq_dst q)
    (ipq_nfrags q) (ipq_m q).

(** The globals.  [ipq_head] is the circular list [ipq], newest queue first. *)
Record ipst := mk_ipst {
  ipq_head : list ipq; ip_nfrags : Z; ips_fragments : Z; ips_fragdropped : Z;
  ips_fragtimeout : Z; ips_reassembled : Z; ips_toosmall : Z; ip_pool : mpool }.
#[export] Instance ipst_eta : Eta ipst := fun s =>
  mk_ipst (ipq_head s) (ip_nfrags s) (ips_fragments s) (ips_fragdropped s)
    (ips_fragtimeout s) (ips_reassembled s) (ips_toosmall s) (ip_pool s).

Definition IP_MAXFRAGPACKETS : Z := 8.
Definition IP_MAXFRAGSPERPACKET : Z := 64.
Definition IPFRAGTTL : Z := 60.
Definition MT_FTABLE : Z := 11.
Definition IP_DF : Z := 16384.
Definition IP_MF : Z := 8192.
Definition IP_SIZE : Z := 20.       (* sizeof(struct ip) *)

(** [(u_short)ip_off] and [(u_short)ip_len]. *)
Definition off (f : ipasfrag) : Z := u16 (ip_off f).
Definition len (f : ipasfrag) : Z := u16 (ip_len f).

(** * Freeing *)

Fixpoint free_frags (fs : list ipasfrag) (p : mpool) : mpool :=
  match fs with
  | [] => p
  | q :: fs => free_frags fs (m_freem (ip_m q) p)
  end.

(** [ip_freef(fp)], for the queue [fp] at position [i]. *)
Definition ip_freef (i : nat) (s : ipst) : ipst :=
  match ipq_head s !! i with
  | None => s
  | Some fp =>
      let p := free_frags (ipq_frags fp) (ip_pool s) in
      let '(_, p) := m_free (ipq_m fp) [] p in
      s <| ipq_head ::= delete i (ipq_head s) |> <| ip_pool ::= p |>
        <| ip_nfrags ::= if 0 <? ip_nfrags s then ip_nfrags s - 1 else ip_nfrags s |>
  end.

Fixpoint drain_loop (fuel : nat) (s : ipst) : ipst :=
  match fuel, ipq_head s with
  | S fuel, _ :: _ => drain_loop fuel (ip_freef 0 (s <| ips_fragdropped ::= ips_fragdropped s + 1 |>))
  | _, _ => s
  end.
Definition ip_drain (s : ipst) : ipst := drain_loop (length (ipq_head s)) s.

(** What [MGET] does first when no mbuf is free: [m_reclaim] calls [ip_drain], the one
    [pr_drain] of the protocol tables.  Without a queue it is the pool's own [m_reclaim]. *)
Definition ip_reclaim (s : ipst) : ipst :=
  match mfree (ip_pool s), ipq_head s with
  | [], _ :: _ =>
      let s := ip_drain s in
      s <| ip_pool ::= ip_pool s <| stat ::= stat (ip_pool s) <| m_drain ::= u32 (m_drain (stat (ip_pool s)) + 1) |> |> |>
  | _, _ => s
  end.

(** * Reassembly *)

Definition dropfrag (m : chain) (s : ipst) : ipst :=
  s <| ips_fragdropped ::= ips_fragdropped s + 1 |> <| ip_pool ::= m_freem m (ip_pool s) |>.

(** The fragments up to the first that begins after [ip] does, and the rest. *)
Fixpoint find_after (ip : ipasfrag) (fs : list ipasfrag) : list ipasfrag * list ipasfrag :=
  match fs with
  | [] => ([], [])
  | q :: fs' =>
      if off ip <? off q then ([], fs)
      else let '(b, a) := find_after ip fs' in (q :: b, a)
  end.

(** What the fragment before [ip] already holds is dropped from [ip]; [None]: it
    holds all of it. *)
Definition trim_front (prev : option ipasfrag) (ip : ipasfrag) : option ipasfrag :=
  match prev with
  | None => Some ip
  | Some q =>
      let i := off q + len q - off ip in
      if 0 <? i then
        if len ip <=? i then None
        else Some (ip <| ip_m ::= m_adj (ip_m ip) i |> <| ip_off ::= s16 (ip_off ip + i) |>
                      <| ip_len ::= s16 (ip_len ip - i) |>)
      else Some ip
  end.

(** Succeeding fragments that [ip] overlaps are trimmed, or dequeued and freed
    when it covers them: what remains of [fs], and how many were dequeued. *)
Fixpoint trim_after (ip : ipasfrag) (fs : list ipasfrag) (p : mpool)
  : list ipasfrag * Z * mpool :=
  match fs with
  | [] => ([], 0, p)
  | q :: fs' =>
      if off q <? off ip + len ip then
        let i := off ip + len ip - off q in
        if i <? len q then
          (q <| ip_len ::= s16 (ip_len q - i) |> <| ip_off ::= s16 (ip_off q + i) |>
             <| ip_m ::= m_adj (ip_m q) i |> :: fs', 0, p)
        else
          let '(fs', n, p) := trim_after ip fs' (m_freem (ip_m q) p) in (fs', n + 1, p)
      else (fs, 0, p)
  end.

(** The scan for completeness: the total when the fragments are contiguous. *)
Fixpoint contiguous (next : Z) (fs : list ipasfrag) : option Z :=
  match fs with
  | [] => Some next
  | q :: fs => if negb (off q =? u16 next) then None else contiguous (next + len q) fs
  end.

(** [m_cat] of the later fragments onto the first; [None]: a memory error. *)
Fixpoint cat_frags (m : chain) (fs : list ipasfrag) (p : mpool) : option (chain * mpool) :=
  match fs with
  | [] => Some (m, p)
  | q :: fs => '(m, p) ← m_cat m (ip_m q) p; cat_frags m fs p
  end.

(** Make the header of the first mbuf visible, and the packet's total right. *)
Definition show_header (hlen : Z) (m : chain) : chain :=
  match m with
  | [] => []
  | h :: r =>
      let h := h <| m_len ::= m_len h + hlen |> <| m_data ::= m_data h - hlen |> in
      (if has h M_PKTHDR then set_pktlen h (chain_len (h :: r)) else h) :: r
  end.

(** The reassembled datagram of the queue [fp] at position [i]; the header
    changes only in the fields named here. *)
Definition complete (i : nat) (fp : ipq) (next : Z) (s : ipst)
  : option (option ipasfrag * ipst) :=
  match ipq_frags fp with
  | [] => None
  | f :: fs =>
      match ip_m f with
      | [] => None
      | m :: t =>
          '(c, p) ← m_cat [m] t (ip_pool s);
          '(c, p) ← cat_frags c fs p;
          let '(_, p) := m_free (ipq_m fp) [] p in
          let ip := f <| ip_len ::= s16 next |> <| ip_src ::= ipq_src fp |>
                      <| ip_dst ::= ipq_dst fp |> <| ip_m ::= show_header (ip_hl f * 4) c |> in
          Some (Some ip, s <| ipq_head ::= delete i (ipq_head s) |> <| ip_pool ::= p |>)
      end
  end.

(** From the label [insert] on: [before] and [after] are what surrounds [ip] in the
    queue [fp] at position [i]. *)
Definition ip_insert (i : nat) (fp : ipq) (before after : list ipasfrag) (ip : ipasfrag)
    (s : ipst) : option (option ipasfrag * ipst) :=
  if IP_MAXFRAGSPERPACKET <=? ipq_nfrags fp then
    let fp := fp <| ipq_frags ::= before ++ after |> in
    Some (None, dropfrag (ip_m ip) (s <| ipq_head ::= <[i := fp]> (ipq_head s) |>))
  else
    let fp := fp <| ipq_frags ::= before ++ ip :: after |>
                 <| ipq_nfrags ::= u16 (ipq_nfrags fp + 1) |> in
    let s := s <| ipq_head ::= <[i := fp]> (ipq_head s) |> in
    match contiguous 0 (ipq_frags fp), last (ipq_frags fp) with
    | Some next, Some q =>
        if negb (ipf_mff q =? 0) then Some (None, s)
        else if 32767 <? next then
          let s := ip_freef i s in
          Some (None, s <| ips_fragdropped ::= ips_fragdropped s + 1 |>)
        else complete i fp next s
    | _, _ => Some (None, s)
    end.

Section reass.
Context (mget : Z -> mpool -> option mbuf * mpool).

(** A new queue for the first fragment of a datagram to arrive. *)
Definition new_queue (ip : ipasfrag) (s : ipst) : option ipq * ipst :=
  let s := if (IP_MAXFRAGPACKETS <=? ip_nfrags s) && negb (Nat.eqb (length (ipq_head s)) 0)
           then ip_freef (length (ipq_head s) - 1) s else s in
  let s := ip_reclaim s in
  let '(t, p) := mget MT_FTABLE (ip_pool s) in
  let s := s <| ip_pool ::= p |> in
  match t with
  | None => (None, s)
  | Some t =>
      let fp := mk_ipq IPFRAGTTL (ip_p ip) (ip_id ip) [] (ip_src ip) (ip_dst ip) 0 t in
      (Some fp, s <| ipq_head ::= fp :: ipq_head s |> <| ip_nfrags ::= ip_nfrags s + 1 |>)
  end.

Definition strip_header (ip : ipasfrag) : ipasfrag :=
  match ip_m ip with
  | [] => ip
  | m :: r =>
      ip <| ip_m ::= (m <| m_data ::= m_data m + ip_hl ip * 4 |>
                        <| m_len ::= m_len m - ip_hl ip * 4 |>) :: r |>
  end.

(** [None]: a memory error; otherwise the datagram, if it is complete. *)
Definition ip_reass (ip : ipasfrag) (fp : option nat) (s : ipst)
  : option (option ipasfrag * ipst) :=
  let ip := strip_header ip in
  match fp with
  | None =>
      match new_queue ip s with
      | (None, s) => Some (None, dropfrag (ip_m ip) s)
      | (Some fp, s) => ip_insert 0 fp [] [] ip s
      end
  | Some i =>
      fp ← ipq_head s !! i;
      let '(before, after) := find_after ip (ipq_frags fp) in
      match trim_front (last before) ip with
      | None => Some (None, dropfrag (ip_m ip) s)
      | Some ip =>
          let '(after, n, p) := trim_after ip after (ip_pool s) in
          let fp := fp <| ipq_nfrags ::= u16 (ipq_nfrags fp - n) |> in
          ip_insert i fp before after ip (s <| ip_pool ::= p |>)
      end
  end.

(** ** The fragment part of [ipintr] *)

Definition same_datagram (ip : ipasfrag) (fp : ipq) : bool :=
  (ip_id ip =? ipq_id fp) && (ip_src ip =? ipq_src fp) && (ip_dst ip =? ipq_dst fp) &&
  (ip_p ip =? ipq_p fp).

Fixpoint find_queue (ip : ipasfrag) (qs : list ipq) : option nat :=
  match qs with
  | [] => None
  | q :: qs => if same_datagram ip q then Some O else S <$> find_queue ip qs
  end.

(** [ip_len] without the header, [ipf_mff], and [ip_off] in bytes. *)
Definition frag_fields (ip : ipasfrag) : ipasfrag :=
  ip <| ip_len ::= s16 (ip_len ip - ip_hl ip * 4) |>
     <| ipf_mff ::= if Z.land (ip_off ip) IP_MF =? 0 then 0 else 1 |>
     <| ip_off ::= s16 (ip_off ip * 8) |>.

(** For a datagram with [ip_off &~ IP_DF]: the datagram to deliver, if any. *)
Definition ip_fragment (fuel : nat) (ip : ipasfrag) (s : ipst)
  : option (option ipasfrag * ipst) :=
  '(m, s) ← match ip_m ip with
            | h :: _ =>
                if has h M_EXT then
                  let s := ip_reclaim s in
                  '(m, p) ← m_pullup mget fuel (ip_m ip) IP_SIZE (ip_pool s);
                  Some (m, s <| ip_pool ::= p |>)
                else Some (ip_m ip, s)
            | [] => None
            end;
  match m with
  | [] => Some (None, s <| ips_toosmall ::= ips_toosmall s + 1 |>)
  | _ =>
      let ip := ip <| ip_m ::= m |> in
      let fp := find_queue ip (ipq_head s) in
      let ip := frag_fields ip in
      if negb (ipf_mff ip =? 0) || negb (ip_off ip =? 0) then
        '(r, s) ← ip_reass ip fp (s <| ips_fragments ::= ips_fragments s + 1 |>);
        Some (r, match r with Some _ => s <| ips_reassembled ::= ips_reassembled s + 1 |> | None => s end)
      else Some (Some ip, match fp with Some i => ip_freef i s | None => s end)
  end.
End reass.

(** * Timers *)

(** The walk of [ip_slowtimo], from position [i] of the queues; at most [fuel]
    steps (the code's own trap is 2000). *)
Fixpoint slowtimo_walk (fuel : nat) (i : nat) (s : ipst) : ipst :=
  match fuel, ipq_head s !! i with
  | S fuel, Some fp =>
      let fp := fp <| ipq_ttl ::= u8 (ipq_ttl fp - 1) |> in
      let s := s <| ipq_head ::= <[i := fp]> (ipq_head s) |> in
      if ipq_ttl fp =? 0 then
        slowtimo_walk fuel i (ip_freef i (s <| ips_fragtimeout ::= ips_fragtimeout s + 1 |>))
      else slowtimo_walk fuel (S i) s
  | _, _ => s
  end.
Definition ip_slowtimo (s : ipst) : ipst := slowtimo_walk 2000 0 s.

(** * What the queues hold *)

Definition frag_mbufs (fs : list ipasfrag) : chain := concat (ip_m <$> fs).
(** The mbuf a queue lives in, whose length is of no account. *)
Definition qmbuf (q : ipq) : mbuf := ipq_m q <| m_len ::= 0 |>.
Definition held (q : ipq) : chain := qmbuf q :: frag_mbufs (ipq_frags q).
Definition held_by (qs : list ipq) : chain := concat (held <$> qs).

(** Where the data of an mbuf may begin. *)
Definition hdr_base (m : mbuf) : Z := if has m M_PKTHDR then PKTHDR_SIZE else 0.

(** The header of [n] bytes stripped from a chain is still in front of its data. *)
Definition header_room (n : Z) (c : chain) : Prop :=
  match c with
  | h :: _ => has h M_EXT = false /\ 0 <= n /\ hdr_base h + n <= m_data h
  | [] => False
  end.
Definition frag_ok (f : ipasfrag) : Prop := header_room (ip_hl f * 4) (ip_m f).

Lemma header_room_nil n c : header_room n c -> c <> [].
Proof. by intros ? ->. Qed.

Lemma adj_head_head len h r l c :
  adj_head len (h :: r) = (l, c) ->
  exists h' r', c = h' :: r' /\ m_flags h' = m_flags h /\ m_data h <= m_data h'.
Proof.
  cbn [adj_head]. destruct (len <=? 0) eqn:?; [intros [= _ <-]; do 2 eexists; split; [done|split; [done|lia]]|].
  destruct (m_len h <=? len).
  - destruct (adj_head _ r) as [l' c']. intros [= _ <-]. do 2 eexists. split; [done|split; [done|cbn; lia]].
  - intros [= _ <-]. do 2 eexists. split; [done|]. split; [done|]. cbn. lia.
Qed.

Lemma header_room_adj n c i : 0 <= i -> header_room n c -> header_room n (m_adj c i).
Proof.
  intros Hi. destruct c as [|h r]; [done|]. intros (Hx & Hn & Hr). unfold m_adj.
  destruct (0 <=? i) eqn:?; [|lia].
  destruct (adj_head i (h :: r)) as [l c] eqn:Ha.
  destruct (adj_head_head _ _ _ _ _ Ha) as (h' & r' & -> & Hf & Hd).
  unfold header_room, hdr_base, has in *.
  destruct (negb (Z.land (m_flags h) M_PKTHDR =? 0)) eqn:Hp; cbn; rewrite Hf, ?Hp; split_and!; done || lia.
Qed.

Lemma cat_loop_data m n p c p' :
  cat_loop m n p = Some (c, p') -> exists h r, c = h :: r /\ m_flags h = m_flags m /\ m_data h = m_data m.
Proof.
  revert m p. induction n as [|x n IH]; intros m p; cbn [cat_loop].
  { intros [= <- _]. by do 2 eexists. }
  case_match; [intros [= <- _]; by do 2 eexists|].
  destruct (m_read p x 0 (m_len x)) as [src|]; cbn [mbind option_bind]; [|done].
  destruct (m_write m (m_len m) src) as [m1|] eqn:Hw; cbn [mbind option_bind]; [|done].
  unfold m_write in Hw. destruct (blit _ _ _); cbn [mbind option_bind] in Hw; [|done].
  injection Hw as <-. destruct (m_free x n p) as [nx p1].
  destruct nx.
  - intros [= <- _]. by do 2 eexists.
  - intros Hc. destruct (IH _ _ Hc) as (h & r & -> & Hf & Hd). by exists h, r.
Qed.

Lemma header_room_cat n c k p c' p' :
  header_room n c -> m_cat c k p = Some (c', p') -> header_room n c'.
Proof.
  destruct c as [|h [|h2 r]]; [done| |]; intros Hr; cbn [m_cat].
  - intros Hc. destruct (cat_loop_data _ _ _ _ _ Hc) as (h' & r' & -> & Hf & Hd).
    unfold header_room, hdr_base, has in *. by rewrite Hf, Hd.
  - destruct (match r with [] => _ | _ => _ end) as [[c1 p1]|]; cbn [mbind option_bind]; [|done].
    by intros [= <- _].
Qed.

(** ** Consuming part of what is held *)

(** What [op] frees, seen from those who keep [K]. *)
Lemma freem_ok R c p : owns p (c ++ R) -> evolve R p c (m_freem c p) [].
Proof. apply m_freem_ok. Qed.

Lemma free_frags_ok R fs : forall p,
  owns p (frag_mbufs fs ++ R) -> evolve R p (frag_mbufs fs) (free_frags fs p) [].
Proof.
  induction fs as [|f fs IH]; intros p Ho; cbn [free_frags]; [by apply evolve_refl|].
  unfold frag_mbufs in *. cbn in *. rewrite <- app_assoc in Ho.
  pose proof (m_freem_ok _ _ _ Ho) as He. apply evolve_frame in He.
  eapply evolve_trans; [exact He|]. simpl. apply IH. apply He.
Qed.

Lemma ip_freef_ok R i pre fp post s :
  ipq_head s = pre ++ fp :: post -> i = length pre -> owns (ip_pool s) (held fp ++ R) ->
  let s' := ip_freef i s in
  ipq_head s' = pre ++ post /\ evolve R (ip_pool s) (held fp) (ip_pool s') [] /\
  ip_nfrags s' = (if 0 <? ip_nfrags s then ip_nfrags s - 1 else ip_nfrags s).
Proof.
  intros Hh -> Ho. unfold ip_freef. rewrite Hh, list_lookup_middle by done.
  unfold held in Ho. assert (Ho1 : owns (ip_pool s) (frag_mbufs (ipq_frags fp) ++ qmbuf fp :: R)).
  { revert Ho. apply owns_Permutation. simpl. by rewrite Permutation_middle. }
  pose proof (free_frags_ok (qmbuf fp :: R) _ _ Ho1) as He.
  set (p1 := free_frags _ _) in *.
  destruct (m_free_len_ok R p1 (ipq_m fp) 0 []) as (p2 & Hf & He2); [apply He|].
  rewrite Hf. cbn. split; [by rewrite delete_middle|]. split; [|done].
  apply (evolve_frame R [qmbuf fp]) in He.
  eapply evolve_trans; [|exact He2]. eapply evolve_perm; [| |exact He]; [|done].
  unfold held. rewrite Permutation_app_comm. done.
Qed.

(** ** Reclaiming *)

Lemma held_by_cons q qs : held_by (q :: qs) = held q ++ held_by qs.
Proof. done. Qed.

Lemma drain_evolve R fuel : forall s,
  (length (ipq_head s) <= fuel)%nat -> owns (ip_pool s) (held_by (ipq_head s) ++ R) ->
  let s' := drain_loop fuel s in
  ipq_head s' = [] /\ ip_nfrags s' <= ip_nfrags s /\ (0 <= ip_nfrags s -> 0 <= ip_nfrags s') /\
  evolve R (ip_pool s) (held_by (ipq_head s)) (ip_pool s') [].
Proof.
  induction fuel as [|fuel IH]; intros s Hf Ho; cbn [drain_loop].
  { assert (He : ipq_head s = []) by (destruct (ipq_head s); simpl in Hf; [done|lia]).
    rewrite He in *. split; [done|]. split; [lia|]. split; [done|by apply evolve_refl]. }
  destruct (ipq_head s) as [|q qs] eqn:Hh.
  { split; [done|]. split; [lia|]. split; [done|by apply evolve_refl]. }
  set (s1 := s <| ips_fragdropped ::= _ |>). rewrite held_by_cons, <- app_assoc in Ho.
  destruct (ip_freef_ok _ 0 [] q qs s1 Hh eq_refl Ho) as (Hh' & He & Hn). cbn [app length] in *.
  apply evolve_frame in He. cbn [app] in He. change (ip_nfrags s1) with (ip_nfrags s) in Hn.
  destruct (IH (ip_freef 0 s1)) as (H1 & H2 & H3 & H4);
    [rewrite Hh'; lia|rewrite Hh'; apply (ev_owns _ _ _ _ _ He)|].
  split; [exact H1|]. split; [destruct (0 <? ip_nfrags s); lia|].
  split; [intros H0; apply H3; destruct (0 <? ip_nfrags s) eqn:?; lia|].
  rewrite Hh' in H4. by eapply evolve_trans.
Qed.

Lemma drain_empty s : ipq_head (ip_drain s) = [].
Proof.
  unfold ip_drain. remember (length (ipq_head s)) as n eqn:Hn. revert s Hn.
  induction n as [|n IH]; intros s Hn; cbn [drain_loop]; [by destruct (ipq_head s)|].
  destruct (ipq_head s) as [|q qs] eqn:Hh; [done|]. apply IH. unfold ip_freef. cbn. rewrite Hh. cbn.
  destruct (m_free _ _ _). cbn. by injection Hn.
Qed.

(** The queues stay, or all are gone because no mbuf was free. *)
Definition spared (s : ipst) (qs : list ipq) : Prop :=
  qs = ipq_head s \/ mfree (ip_pool s) = [] /\ qs = [].

Lemma ip_reclaim_ok R s :
  owns (ip_pool s) (held_by (ipq_head s) ++ R) ->
  let s' := ip_reclaim s in
  (s' = s \/ mfree (ip_pool s) = [] /\ ipq_head s' = []) /\ ip_reclaim s' = s' /\
  ip_nfrags s' <= ip_nfrags s /\ (0 <= ip_nfrags s -> 0 <= ip_nfrags s') /\
  evolve R (ip_pool s) (held_by (ipq_head s)) (ip_pool s') (held_by (ipq_head s')).
Proof.
  intros Ho s'. assert (Hsame : ip_reclaim s = s -> (s' = s \/ mfree (ip_pool s) = [] /\ ipq_head s' = []) /\
    ip_reclaim s' = s' /\ ip_nfrags s' <= ip_nfrags s /\ (0 <= ip_nfrags s -> 0 <= ip_nfrags s') /\
    evolve R (ip_pool s) (held_by (ipq_head s)) (ip_pool s') (held_by (ipq_head s'))).
  { unfold s'. intros E. rewrite !E. split; [by left|]. split; [done|]. split; [lia|]. split; [done|]. by apply evolve_refl. }
  destruct (mfree (ip_pool s)) eqn:Hm; [|apply Hsame; unfold ip_reclaim; by rewrite Hm].
  destruct (ipq_head s) as [|q qs] eqn:Hh; [apply Hsame; unfold ip_reclaim; by rewrite Hm, Hh|]. clear Hsame.
  rewrite <- Hh in Ho |- *. destruct (drain_evolve R _ s (Nat.le_refl _) Ho) as (H1 & H2 & H3 & H4).
  fold (ip_drain s) in *. set (s1 := ip_drain s <| ip_pool ::= ip_pool (ip_drain s) <| stat ::= stat (ip_pool (ip_drain s))
    <| m_drain ::= u32 (m_drain (stat (ip_pool (ip_drain s))) + 1) |> |> |>).
  assert (E : s' = s1) by (unfold s', ip_reclaim; by rewrite Hm, Hh).
  assert (Hh1 : ipq_head s1 = []) by exact H1. rewrite E.
  split; [by right|]. split; [unfold ip_reclaim; rewrite Hh1; by destruct (mfree (ip_pool s1))|].
  split; [exact H2|]. split; [exact H3|]. rewrite Hh1.
  destruct H4 as [[? ? ? ? ?] ? ? ?]. by split.
Qed.

Lemma reclaim_spared s : ip_reclaim s = s \/ mfree (ip_pool s) = [] /\ ipq_head (ip_reclaim s) = [] ->
  spared s (ipq_head (ip_reclaim s)).
Proof. intros [->|[? ->]]; [by left|by right]. Qed.

(** ** Completion *)

Lemma frag_mbufs_app a b : frag_mbufs (a ++ b) = frag_mbufs a ++ frag_mbufs b.
Proof. unfold frag_mbufs. by rewrite fmap_app, concat_app. Qed.
Lemma frag_mbufs_cons f fs : frag_mbufs (f :: fs) = ip_m f ++ frag_mbufs fs.
Proof. done. Qed.
Lemma held_by_app a b : held_by (a ++ b) = held_by a ++ held_by b.
Proof. unfold held_by. by rewrite fmap_app, concat_app. Qed.

Lemma show_header_ok n c p :
  header_room n c -> Forall (wf_mbuf p) c ->
  Forall2 same_id c (show_header n c) /\ Forall (wf_mbuf p) (show_header n c) /\
  drop (Z.to_nat n) (bytes p (show_header n c)) = bytes p c /\ pktlen_ok (show_header n c).
Proof.
  destruct c as [|h r]; [done|]. intros (Hx & Hn & Hr) [Hh Hw]%Forall_cons. unfold show_header.
  set (h1 := h <| m_len ::= _ |> <| m_data ::= _ |>).
  destruct Hh as (Ht & Hl & Hd & Hf & Hz & Hs & Hp).
  assert (Hb : 0 <= hdr_base h) by (unfold hdr_base; case_match; unfold PKTHDR_SIZE; lia).
  assert (Hh1 : wf_mbuf p h1).
  { unfold wf_mbuf. change (storage p h1) with (storage p h). change (has h1) with (has h). cbn.
    split_and!; try lia. intros Hph _. unfold hdr_base in Hr. rewrite Hph in Hr. lia. }
  destruct (if_pktlen (has h1 M_PKTHDR) h1 (chain_len (h1 :: r)) p) as (Hid & Hwf & Hbm & Hlm & Hfm).
  set (h2 := if has h1 M_PKTHDR then _ else h1) in *.
  split; [|split; [|split]].
  - constructor; [|apply same_ids_refl]. exact Hid.
  - apply Forall_cons_2; auto.
  - rewrite bytes_cons, Hbm. unfold mbuf_bytes at 1. change (storage p h1) with (storage p h). cbn.
    rewrite Z.add_comm, zslice_app by lia. rewrite <- app_assoc, drop_app_length'.
    + unfold mbuf_bytes. by rewrite Z.sub_add.
    + pose proof (zslice_len (storage p h) (m_data h - n) n ltac:(lia) ltac:(lia) ltac:(lia)) as Hlz.
      unfold zlen in Hlz. lia.
  - intros Hph. unfold h2 in *. destruct (has h1 M_PKTHDR) eqn:Hp1; [|by rewrite Hp1 in Hph].
    cbn. done.
Qed.

Lemma cat_frags_ok R fs : forall c p,
  c <> [] -> owns p ((c ++ frag_mbufs fs) ++ R) ->
  exists c' p', cat_frags c fs p = Some (c', p') /\ evolve R p (c ++ frag_mbufs fs) p' c' /\
    bytes p' c' = bytes p c ++ bytes p (frag_mbufs fs) /\
    (forall n, header_room n c -> header_room n c').
Proof.
  induction fs as [|f fs IH]; intros c p Hc Ho; cbn [cat_frags].
  { exists c, p. split; [done|]. change (frag_mbufs []) with (@nil mbuf) in *. rewrite app_nil_r in *.
    split; [by apply evolve_refl|]. split; [|done]. unfold bytes at 3. simpl. by rewrite app_nil_r. }
  rewrite frag_mbufs_cons in *.
  assert (Ho1 : owns p ((c ++ ip_m f) ++ frag_mbufs fs ++ R)).
  { revert Ho. apply owns_Permutation. by rewrite <- !app_assoc. }
  destruct (m_cat_ok _ c (ip_m f) p Hc Ho1) as (c1 & p1 & E & He & Hb & h & h' & r & _ & Hc1 & _).
  rewrite E. cbn [mbind option_bind].
  pose proof (evolve_frame R (frag_mbufs fs) _ _ _ _ He) as He2. rewrite <- app_assoc in He2.
  destruct (IH c1 p1) as (c' & p' & E' & He' & Hb' & Hr'); [by rewrite Hc1|apply He2|].
  exists c', p'. split; [done|]. split; [by eapply evolve_trans|]. split.
  - rewrite Hb', Hb, bytes_app, <- app_assoc. do 2 f_equal. apply bytes_same.
    intros m Hm. apply (ev_bytes _ _ _ _ _ He), elem_of_app. by left.
  - intros n Hn. apply Hr'. by eapply header_room_cat.
Qed.

Lemma complete_ok R i pre fp post f fs next s :
  ipq_head s = pre ++ fp :: post -> i = length pre -> ipq_frags fp = f :: fs -> frag_ok f ->
  owns (ip_pool s) (held fp ++ R) ->
  exists d s', complete i fp next s = Some (Some d, s') /\ ipq_head s' = pre ++ post /\
    evolve R (ip_pool s) (held fp) (ip_pool s') (ip_m d) /\
    drop (Z.to_nat (ip_hl d * 4)) (bytes (ip_pool s') (ip_m d)) = bytes (ip_pool s) (frag_mbufs (f :: fs)) /\
    pktlen_ok (ip_m d) /\ ip_hl d = ip_hl f /\ ip_len d = s16 next /\
    ip_src d = ipq_src fp /\ ip_dst d = ipq_dst fp /\ ip_nfrags s' = ip_nfrags s.
Proof.
  intros Hh -> Hfr Hok Ho. unfold complete, frag_ok in *. rewrite Hfr.
  unfold held in *. rewrite Hfr, frag_mbufs_cons in *.
  destruct (ip_m f) as [|m t] eqn:Hm; [done|].
  assert (Ho1 : owns (ip_pool s) (([m] ++ t) ++ frag_mbufs fs ++ qmbuf fp :: R)).
  { revert Ho. apply owns_Permutation. simpl. rewrite <- !Permutation_middle. rewrite <- app_assoc.
    apply Permutation_swap. }
  destruct (m_cat_ok _ [m] t (ip_pool s) ltac:(done) Ho1)
    as (c1 & p1 & E1 & He1 & Hb1 & h & h' & r & _ & Hc1 & _).
  rewrite E1. cbn [mbind option_bind].
  assert (Hr1 : header_room (ip_hl f * 4) c1) by (apply (header_room_cat _ [m] t _ _ _ Hok E1)).
  pose proof (evolve_frame (qmbuf fp :: R) (frag_mbufs fs) _ _ _ _ He1) as He1'.
  destruct (cat_frags_ok (qmbuf fp :: R) fs c1 p1) as (c2 & p2 & E2 & He2 & Hb2 & Hr2);
    [by rewrite Hc1|apply He1'|].
  rewrite E2. cbn [mbind option_bind].
  pose proof (evolve_trans _ _ _ _ _ _ _ He1' He2) as He12.
  assert (Ho2 : owns p2 (qmbuf fp :: c2 ++ R)).
  { pose proof (ev_owns _ _ _ _ _ He12) as Ho2. revert Ho2. apply owns_Permutation.
    by rewrite Permutation_middle. }
  destruct (m_free_len_ok (c2 ++ R) p2 (ipq_m fp) 0 [] Ho2) as (p3 & E3 & He3). rewrite E3.
  specialize (Hr2 _ Hr1).
  assert (Hw2 : Forall (wf_mbuf p3) c2).
  { pose proof (owns_wf _ _ (ev_owns _ _ _ _ _ He3)) as Hw. simpl in Hw.
    by apply Forall_app in Hw as [Hw _]. }
  destruct (show_header_ok _ _ _ Hr2 Hw2) as (Hid & Hwf & Hbs & Hpk).
  eexists _, _. split; [reflexivity|].
  split; [change (delete (length pre) (ipq_head s) = pre ++ post); by rewrite Hh, delete_middle|].
  split; [|split; [|split; [exact Hpk|done]]].
  - eapply evolve_retouch; [exact Hid|exact Hwf|].
    apply (evolve_frame R [qmbuf fp]) in He12.
    apply (evolve_frame R c2) in He3.
    eapply evolve_trans; [eapply evolve_perm; [| |exact He12]|exact He3].
    + rewrite Permutation_app_comm. done.
    + rewrite Permutation_app_comm. done.
  - etrans; [exact Hbs|]. rewrite (bytes_same p2 p3) by (intros x Hx; apply (ev_bytes _ _ _ _ _ He3), elem_of_app; by left).
    rewrite Hb2, Hb1, <- bytes_app. change ([m] ++ t) with (m :: t). rewrite (bytes_app (ip_pool s)).
    f_equal. apply bytes_same. intros x Hx. apply (ev_bytes _ _ _ _ _ He1), elem_of_app. by left.
Qed.

(** * Fragments of one datagram *)

Definition covers (f : ipasfrag) (x : Z) : Prop := off f <= x < off f + len f.
Definition cov (fs : list ipasfrag) (x : Z) : Prop := Exists (fun f => covers f x) fs.

(** [f] carries its part of the payload [D], and says whether more follows. *)
Definition piece (D : list Z) (p : mpool) (f : ipasfrag) : Prop :=
  frag_ok f /\ 0 < len f /\ off f + len f <= zlen D /\
  bytes p (ip_m f) = zslice D (off f) (len f) /\ (ipf_mff f = 0 <-> off f + len f = zlen D).

(** In order, without overlap, from [lo] on. *)
Fixpoint sep (lo : Z) (fs : list ipasfrag) : Prop :=
  match fs with
  | [] => True
  | f :: fs => lo <= off f /\ sep (off f + len f) fs
  end.
Definition upto (lo : Z) (fs : list ipasfrag) : Z :=
  match last fs with Some f => off f + len f | None => lo end.

Lemma u16_s16 x : u16 (s16 x) = u16 x.
Proof. word_solve. Qed.
Lemma u16_shift x i : 0 <= i -> u16 x + i < 65536 -> u16 (x + i) = u16 x + i.
Proof. word_solve. Qed.
Lemma u16_unshift x i : 0 <= i <= u16 x -> u16 (x - i) = u16 x - i.
Proof. word_solve. Qed.

(** [f'] is [f] without its first [i] bytes. *)
Definition trimmed (i : Z) (f f' : ipasfrag) : Prop :=
  ip_m f' = m_adj (ip_m f) i /\ ip_off f' = s16 (ip_off f + i) /\ ip_len f' = s16 (ip_len f - i) /\
  ip_hl f' = ip_hl f /\ ipf_mff f' = ipf_mff f.

Lemma trimmed_range D p i f f' :
  zlen D <= 65535 -> piece D p f -> 0 < i < len f -> trimmed i f f' ->
  off f' = off f + i /\ len f' = len f - i.
Proof.
  intros HD (_ & _ & He & _) Hi (_ & Ho & Hl & _). unfold off, len in *.
  rewrite Ho, Hl, !u16_s16. pose proof (u16_range (ip_off f)). pose proof (u16_range (ip_len f)).
  rewrite u16_shift, u16_unshift by lia. done.
Qed.

Lemma piece_trim D p i f f' :
  zlen D <= 65535 -> piece D p f -> Forall (wf_mbuf p) (ip_m f) -> 0 < i < len f -> trimmed i f f' ->
  piece D p f'.
Proof.
  intros HD Hp Hw Hi Ht. destruct (trimmed_range D p i f f' HD Hp Hi Ht) as [Ho Hl].
  destruct Hp as (Hok & Hlen & He & Hb & Hm). destruct Ht as (Hm' & _ & _ & Hhl & Hmf).
  unfold piece, frag_ok in *. rewrite Hhl, Hm', Ho, Hl, Hmf.
  split; [apply header_room_adj; [lia|done]|]. split; [lia|]. split; [lia|]. split.
  - destruct (m_adj_ok p (ip_m f) i Hw) as (-> & _). rewrite Hb. unfold adj_spec.
    destruct (0 <=? i) eqn:?; [|lia].
    pose proof (u16_range (ip_off f)). unfold off, len in *.
    unfold zslice. rewrite skipn_firstn_comm, drop_drop. f_equal; [lia|]. f_equal. lia.
  - replace (off f + i + (len f - i)) with (off f + len f) by lia. done.
Qed.

Lemma piece_pos D p f : piece D p f -> 0 <= off f /\ 0 < len f.
Proof. intros (_ & ? & _). split; [|done]. unfold off. apply u16_range. Qed.

Lemma piece_bytes D p p' f :
  (forall m, m ∈ ip_m f -> mbuf_bytes p' m = mbuf_bytes p m) -> piece D p f -> piece D p' f.
Proof. intros Hb. unfold piece. by rewrite (bytes_same p p'). Qed.

Lemma pieces_bytes D p p' fs :
  (forall m, m ∈ frag_mbufs fs -> mbuf_bytes p' m = mbuf_bytes p m) ->
  Forall (piece D p) fs -> Forall (piece D p') fs.
Proof.
  induction fs as [|f fs IH]; intros Hb Hf; [constructor|]. apply Forall_cons in Hf as [H1 H2].
  rewrite frag_mbufs_cons in Hb. apply Forall_cons_2.
  - eapply piece_bytes; [|done]. intros m Hm. apply Hb, elem_of_app. by left.
  - apply IH; [|done]. intros m Hm. apply Hb, elem_of_app. by right.
Qed.

Lemma cov_app a b x : cov (a ++ b) x <-> cov a x \/ cov b x.
Proof. apply Exists_app. Qed.
Lemma cov_cons f fs x : cov (f :: fs) x <-> covers f x \/ cov fs x.
Proof. apply Exists_cons. Qed.

Lemma sep_weaken lo lo' fs : lo <= lo' -> sep lo' fs -> sep lo fs.
Proof. destruct fs; simpl; [done|]. intros ? [? ?]. split; [lia|done]. Qed.
Lemma upto_cons lo f fs : upto lo (f :: fs) = upto (off f + len f) fs.
Proof. unfold upto. rewrite last_cons. by destruct (last fs). Qed.

Lemma sep_app lo a b : sep lo (a ++ b) <-> sep lo a /\ sep (upto lo a) b.
Proof.
  revert lo. induction a as [|f a IH]; intros lo; [by unfold upto; simpl; tauto|].
  rewrite upto_cons. simpl. rewrite IH. tauto.
Qed.

Lemma upto_ge D p lo fs : Forall (piece D p) fs -> sep lo fs -> lo <= upto lo fs.
Proof.
  intros Hf. revert lo. induction Hf as [|f fs H1 _ IH]; intros lo; [unfold upto; simpl; lia|].
  intros [? Hs]. rewrite upto_cons. specialize (IH _ Hs). pose proof (piece_pos _ _ _ H1). lia.
Qed.
Lemma upto_le D p lo fs : Forall (piece D p) fs -> lo <= zlen D -> upto lo fs <= zlen D.
Proof.
  intros Hf Hl. unfold upto. destruct (last fs) as [f|] eqn:E; [|done].
  apply last_Some in E as [fs' ->]. apply Forall_app in Hf as [_ [H1 _]%Forall_cons]. apply H1.
Qed.
Lemma cov_range D p lo fs x : Forall (piece D p) fs -> sep lo fs -> cov fs x -> lo <= x < upto lo fs.
Proof.
  intros Hf. revert lo. induction Hf as [|f fs H1 Hf IH]; intros lo Hs Hc; [by inversion Hc|].
  destruct Hs as [Hlo Hs]. pose proof (piece_pos _ _ _ H1). rewrite upto_cons.
  pose proof (upto_ge _ _ _ _ Hf Hs). apply cov_cons in Hc as [Hc|Hc].
  - unfold covers in Hc. lia.
  - specialize (IH _ Hs Hc). lia.
Qed.

(** ** The steps of [ip_reass] on the pieces *)

Lemma find_after_ok ip fs b a :
  find_after ip fs = (b, a) ->
  fs = b ++ a /\ Forall (fun q => off q <= off ip) b /\
  (forall q, head a = Some q -> off ip < off q).
Proof.
  revert b a. induction fs as [|q fs IH]; intros b a; cbn [find_after].
  { intros [= <- <-]. split; [done|]. by split; [constructor|]. }
  destruct (off ip <? off q) eqn:?.
  { intros [= <- <-]. split; [done|]. split; [constructor|]. intros q' [= <-]. lia. }
  destruct (find_after ip fs) as [b' a']. intros [= <- <-].
  destruct (IH b' a' eq_refl) as (-> & Hb & Ha). split; [done|]. split; [|done].
  apply Forall_cons_2; [lia|done].
Qed.

Lemma trim_front_ok D p lo b ip :
  zlen D <= 65535 -> Forall (piece D p) b -> sep lo b -> Forall (fun q => off q <= off ip) b ->
  0 <= lo <= off ip -> piece D p ip -> Forall (wf_mbuf p) (ip_m ip) ->
  match trim_front (last b) ip with
  | None => forall x, covers ip x -> cov b x
  | Some ip' => piece D p ip' /\ off ip <= off ip' /\ off ip' + len ip' = off ip + len ip /\
      upto lo b <= off ip' /\ (off ip' = off ip \/ off ip' = upto lo b) /\
      (forall x, cov b x \/ covers ip' x <-> cov b x \/ covers ip x) /\
      ip_hl ip' = ip_hl ip /\ Forall2 same_id (ip_m ip) (ip_m ip') /\ Forall (wf_mbuf p) (ip_m ip')
  end.
Proof.
  intros HD Hb Hs Hle Hlo Hip Hw. unfold upto. destruct (last b) as [q|] eqn:Hq; simpl.
  2:{ apply last_None in Hq as ->. split_and!; done || lia. }
  apply last_Some in Hq as [b' ->]. apply Forall_app in Hb as [Hb' [Hpq _]%Forall_cons].
  apply Forall_app in Hle as [_ [Hqle _]%Forall_cons].
  assert (Hcq : forall x, covers q x -> cov (b' ++ [q]) x).
  { intros x Hx. apply cov_app. right. apply cov_cons. by left. }
  destruct (0 <? _) eqn:Hi.
  2:{ split_and!; done || lia. }
  destruct (len ip <=? _) eqn:Hl.
  { intros x Hx. apply Hcq. unfold covers in *. lia. }
  set (i := off q + len q - off ip) in *.
  set (ip' := ip <| ip_m ::= _ |> <| ip_off ::= _ |> <| ip_len ::= _ |>).
  assert (Ht : trimmed i ip ip') by done.
  destruct (trimmed_range D p i ip ip' HD Hip ltac:(lia) Ht) as [Ho' Hl'].
  destruct (m_adj_ok p (ip_m ip) i Hw) as (_ & Hid & Hwf).
  split; [apply (piece_trim D p i ip ip'); done || lia|]. split; [lia|]. split; [lia|]. split; [lia|].
  split; [right; lia|]. split; [|split; [done|by split]].
  intros x. split; (intros [Hx|Hx]; [by left|]); unfold covers in *; rewrite ?Ho', ?Hl' in *.
  - right. lia.
  - destruct (decide (x < off q + len q)); [left; apply Hcq; unfold covers; lia|right; lia].
Qed.

Lemma trim_after_ok D R ip a : forall p,
  zlen D <= 65535 -> 0 < len ip -> sep (off ip) a -> Forall (piece D p) a ->
  owns p (frag_mbufs a ++ R) ->
  exists a' n p', trim_after ip a p = (a', n, p') /\
    evolve R p (frag_mbufs a) p' (frag_mbufs a') /\ Forall (piece D p') a' /\
    sep (off ip + len ip) a' /\
    (forall x, cov a' x \/ covers ip x <-> cov a x \/ covers ip x) /\
    0 <= n /\ Z.of_nat (length a') + n = Z.of_nat (length a).
Proof.
  induction a as [|q a IH]; intros p HD Hip Hs Hp Ho; cbn [trim_after].
  { exists [], 0, p. split; [done|]. split; [by apply evolve_refl|]. by split_and!. }
  apply Forall_cons in Hp as [Hq Hp]. destruct Hs as [Hoq Hs].
  rewrite frag_mbufs_cons in Ho. rewrite <- app_assoc in Ho.
  destruct (off q <? _) eqn:Hlt.
  2:{ exists (q :: a), 0, p. split; [done|]. rewrite frag_mbufs_cons.
      split; [apply evolve_refl; by rewrite <- app_assoc|]. split; [by apply Forall_cons_2|].
      split; [split; [lia|done]|]. by split. }
  set (i := off ip + len ip - off q). destruct (i <? len q) eqn:Hil.
  - set (q' := q <| ip_len ::= _ |> <| ip_off ::= _ |> <| ip_m ::= _ |>).
    assert (Ht : trimmed i q q') by done.
    pose proof (owns_wf _ _ Ho) as Hw. apply Forall_app in Hw as [Hwq Hw].
    destruct (trimmed_range D p i q q' HD Hq ltac:(lia) Ht) as [Ho' Hl'].
    destruct (m_adj_ok p (ip_m q) i Hwq) as (_ & Hid & Hwf).
    eexists (q' :: a), 0, p. split; [done|]. rewrite !frag_mbufs_cons. split; [|split; [|split; [|split]]].
    + change (ip_m q') with (m_adj (ip_m q) i). apply evolve_in; [|apply Forall_app_2; [done|]|by rewrite <- app_assoc].
      * by apply Forall2_app.
      * by apply Forall_app in Hw as [? _].
    + apply Forall_cons_2; [|done]. apply (piece_trim D p i q q'); done || lia.
    + split; [lia|]. rewrite Ho', Hl'. by replace (off q + i + (len q - i)) with (off q + len q) by lia.
    + intros x. rewrite !cov_cons. unfold covers. rewrite Ho', Hl'.
      split; (intros [[?|?]|?]; [|by left; right|]);
        [destruct (decide (x < off q + len q)); [left; left; lia|lia]|by right|
         destruct (decide (x < off ip + len ip)); [right; lia|left; left; lia]|by right].
    + simpl. lia.
  - pose proof (m_freem_ok (ip_m q) (frag_mbufs a ++ R) p Ho) as Hf.
    set (p1 := m_freem (ip_m q) p) in *.
    pose proof (evolve_frame R (frag_mbufs a) _ _ _ _ Hf) as Hf2.
    destruct (IH p1) as (a' & n & p' & -> & He & Hpa & Hsa & Hc & Hn & Hlen); [done|done| | |apply Hf2|].
    { eapply sep_weaken; [|exact Hs]. pose proof (piece_pos _ _ _ Hq). lia. }
    { eapply pieces_bytes; [|exact Hp]. intros m Hm. apply (ev_bytes _ _ _ _ _ Hf), elem_of_app. by left. }
    exists a', (n + 1), p'. split; [done|]. rewrite frag_mbufs_cons.
    split; [by eapply evolve_trans|]. split; [done|]. split; [done|]. split; [|simpl; lia].
    intros x. rewrite Hc, cov_cons. split; [tauto|]. intros [[Hx|?]|?]; [|by left|by right].
    right. unfold covers in *. lia.
Qed.

(** The scan: contiguous pieces from [lo] on are the payload from [lo] on. *)
Lemma contiguous_ok D p fs : forall lo n,
  zlen D <= 65535 -> Forall (piece D p) fs -> sep lo fs -> 0 <= lo <= zlen D ->
  contiguous lo fs = Some n ->
  n = upto lo fs /\ bytes p (frag_mbufs fs) = zslice D lo (n - lo).
Proof.
  induction fs as [|f fs IH]; intros lo n HD Hp Hs Hlo; cbn [contiguous].
  { intros [= <-]. split; [done|]. by rewrite Z.sub_diag, zslice_nil. }
  apply Forall_cons in Hp as [Hf Hp]. destruct Hs as [_ Hs]. rewrite u16_small by lia.
  destruct (off f =? lo) eqn:E; cbn [negb]; [|done]. assert (off f = lo) as Hof by lia. clear E.
  pose proof Hf as (_ & Hl & He & Hb & _). intros Hn. rewrite Hof in *.
  destruct (IH (lo + len f) n HD Hp Hs ltac:(lia) Hn) as [Hu Hbs].
  pose proof (upto_ge _ _ _ _ Hp Hs). rewrite upto_cons, Hof. split; [done|].
  rewrite frag_mbufs_cons, bytes_app, Hb, Hbs.
  replace (n - lo) with (len f + (n - (lo + len f))) by lia.
  rewrite (zslice_app D lo) by lia. done.
Qed.

Lemma contiguous_complete D p fs : forall lo,
  zlen D <= 65535 -> Forall (piece D p) fs -> sep lo fs -> 0 <= lo <= zlen D ->
  (forall x, lo <= x < zlen D -> cov fs x) -> contiguous lo fs = Some (zlen D).
Proof.
  induction fs as [|f fs IH]; intros lo HD Hp Hs Hlo Hc; cbn [contiguous].
  { f_equal. destruct (decide (lo = zlen D)) as [|Hne]; [done|].
    specialize (Hc lo ltac:(lia)). by inversion Hc. }
  apply Forall_cons in Hp as [Hf Hp]. pose proof Hf as (_ & Hl & He & _ & _).
  destruct Hs as [Hof Hs]. pose proof (upto_le D p (off f + len f) fs Hp He) as Hu.
  rewrite u16_small by lia.
  assert (Heq : off f = lo).
  { specialize (Hc lo ltac:(lia)). apply cov_cons in Hc as [Hc|Hc]; [unfold covers in Hc; lia|].
    pose proof (cov_range _ _ _ _ _ Hp Hs Hc). lia. }
  rewrite Heq, Z.eqb_refl in *. cbn [negb]. apply IH; try done; [lia|].
  intros x Hx. specialize (Hc x ltac:(lia)). apply cov_cons in Hc as [Hc|Hc]; [|done].
  unfold covers in Hc. lia.
Qed.

Lemma contiguous_cov D p fs : forall lo n,
  zlen D <= 65535 -> Forall (piece D p) fs -> sep lo fs -> 0 <= lo <= zlen D ->
  contiguous lo fs = Some n -> forall x, lo <= x < n -> cov fs x.
Proof.
  induction fs as [|f fs IH]; intros lo n HD Hp Hs Hlo; cbn [contiguous]; [intros [= <-]; lia|].
  apply Forall_cons in Hp as [Hf Hp]. destruct Hs as [_ Hs]. rewrite u16_small by lia.
  destruct (off f =? lo) eqn:E; cbn [negb]; [|done]. assert (off f = lo) as Hof by lia. clear E.
  pose proof Hf as (_ & Hl & He & _ & _). rewrite Hof in *. intros Hn x Hx. apply cov_cons.
  destruct (decide (x < lo + len f)); [left; unfold covers; lia|].
  right. apply (IH (lo + len f) n); done || lia.
Qed.

(** ** Insertion and the whole of [ip_reass] *)

Lemma insert_middle {A} (pre : list A) x y post :
  <[length pre := y]> (pre ++ x :: post) = pre ++ y :: post.
Proof. rewrite insert_app_r_alt by lia. by rewrite Nat.sub_diag. Qed.

Lemma ip_insert_ok D K pre fp0 fp post before after ip s :
  let fs := before ++ ip :: after in
  ipq_head s = pre ++ fp0 :: post -> zlen D <= 32767 ->
  Forall (piece D (ip_pool s)) fs -> sep 0 fs -> 0 <= ipq_nfrags fp < IP_MAXFRAGSPERPACKET ->
  owns (ip_pool s) ((qmbuf fp :: frag_mbufs fs) ++ K) ->
  exists r s', ip_insert (length pre) fp before after ip s = Some (r, s') /\
    ip_nfrags s' = ip_nfrags s /\
    match r with
    | None =>
        ip_pool s' = ip_pool s /\
        ipq_head s' = pre ++ (fp <| ipq_frags ::= fs |> <| ipq_nfrags ::= ipq_nfrags fp + 1 |>) :: post /\
        ~ (forall x, 0 <= x < zlen D -> cov fs x)
    | Some d =>
        evolve K (ip_pool s) (qmbuf fp :: frag_mbufs fs) (ip_pool s') (ip_m d) /\
        ipq_head s' = pre ++ post /\ drop (Z.to_nat (ip_hl d * 4)) (bytes (ip_pool s') (ip_m d)) = D /\
        pktlen_ok (ip_m d) /\ ip_len d = zlen D /\ ip_src d = ipq_src fp /\ ip_dst d = ipq_dst fp /\
        (forall x, 0 <= x < zlen D -> cov fs x)
    end.
Proof.
  intros fs Hh HD Hp Hs Hn Ho. unfold ip_insert, IP_MAXFRAGSPERPACKET in *.
  destruct (64 <=? ipq_nfrags fp) eqn:?; [lia|]. rewrite u16_small by lia. rewrite Hh, insert_middle.
  fold fs. set (fp' := fp <| ipq_frags ::= fs |> <| ipq_nfrags ::= _ |>).
  set (s1 := s <| ipq_head ::= pre ++ fp' :: post |>). change (ipq_frags fp') with fs.
  assert (Hne : exists q fs', fs = fs' ++ [q]).
  { destruct (last fs) as [q|] eqn:E; [apply last_Some in E as [k E]; by exists q, k|].
    apply last_None in E. by destruct before. }
  destruct Hne as (q & fs' & Hfs). assert (Hlast : last fs = Some q) by (by rewrite Hfs, last_snoc).
  rewrite Hlast.
  assert (Hup : upto 0 fs = off q + len q) by (unfold upto; by rewrite Hfs, last_snoc).
  assert (Hq : piece D (ip_pool s) q).
  { rewrite Hfs in Hp. by apply Forall_app in Hp as [_ [? _]%Forall_cons]. }
  pose proof Hq as (_ & Hql & Hqe & _ & Hmff).
  pose proof (zlen_nonneg D) as HD0.
  assert (Hnot : forall P : Prop, (contiguous 0 fs = None \/ ipf_mff q <> 0) ->
     ~ (forall x, 0 <= x < zlen D -> cov fs x)).
  { intros _ Hc Hall.
    pose proof (contiguous_complete D _ fs 0 ltac:(lia) Hp Hs ltac:(lia) Hall) as Hcc.
    destruct (contiguous_ok D _ fs 0 _ ltac:(lia) Hp Hs ltac:(lia) Hcc) as [Hu _].
    destruct Hc as [Hc|Hc]; [by rewrite Hc in Hcc|]. apply Hc, Hmff. lia. }
  destruct (contiguous 0 fs) as [n|] eqn:Hc.
  2:{ exists None, s1. split; [done|]. split; [done|]. split; [done|]. split; [done|].
      apply (Hnot True). by left. }
  destruct (contiguous_ok D _ fs 0 n ltac:(lia) Hp Hs ltac:(lia) Hc) as [Hu Hb].
  destruct (ipf_mff q =? 0) eqn:Hm; cbn [negb].
  2:{ exists None, s1. split; [done|]. split; [done|]. split; [done|]. split; [done|].
      apply (Hnot True). right. lia. }
  assert (Hnd : n = zlen D) by (rewrite Hu, Hup; apply Hmff; lia).
  destruct (32767 <? n) eqn:?; [lia|].
  destruct fs as [|f0 fs0] eqn:Hfs0; [by destruct before|].
  destruct (complete_ok K (length pre) pre fp' post f0 fs0 n s1) as
    (d & s' & E & Hh' & He & Hbd & Hpk & Hhl & Hlen & Hsrc & Hdst & Hnf); [done|done|done| |exact Ho|].
  { apply Forall_cons in Hp as [(Hok & _) _]. exact Hok. }
  exists (Some d), s'. split; [exact E|]. split; [done|]. split; [exact He|]. split; [done|].
  split; [etrans; [exact Hbd|]|].
  - change (ip_pool s1) with (ip_pool s). rewrite Hb, Hnd, Z.sub_0_r. by apply zslice_full.
  - split; [done|]. split; [rewrite Hlen, s16_small; lia|]. split; [done|]. split; [done|].
    intros x Hx. apply (contiguous_cov D (ip_pool s) (f0 :: fs0) 0 n); done || lia.
Qed.

(** The queue [fp] gathers the datagram [D], which is not complete yet. *)
Definition queue_ok (D : list Z) (p : mpool) (fp : ipq) : Prop :=
  Forall (piece D p) (ipq_frags fp) /\ sep 0 (ipq_frags fp) /\
  ipq_nfrags fp = Z.of_nat (length (ipq_frags fp)) /\
  ~ (forall x, 0 <= x < zlen D -> cov (ipq_frags fp) x).

(** The fragment [ip], its header still in front, carries a part of [D]. *)
Definition arrives (D : list Z) (p : mpool) (ip : ipasfrag) : Prop :=
  (forall h, head (ip_m ip) = Some h -> ip_hl ip * 4 <= m_len h) /\ piece D p (strip_header ip).

Lemma strip_header_ok p ip :
  (forall h, head (ip_m ip) = Some h -> ip_hl ip * 4 <= m_len h) -> frag_ok (strip_header ip) ->
  Forall (wf_mbuf p) (ip_m ip) ->
  Forall2 same_id (ip_m ip) (ip_m (strip_header ip)) /\ Forall (wf_mbuf p) (ip_m (strip_header ip)).
Proof.
  intros Hl Hok Hw. unfold strip_header in *. destruct (ip_m ip) as [|h r] eqn:Hm; [rewrite Hm; done|].
  specialize (Hl h eq_refl). apply Forall_cons in Hw as [Hh Hr]. cbn in Hok |- *.
  destruct Hok as (_ & Hn & _). split.
  - constructor; [done|apply same_ids_refl].
  - apply Forall_cons_2; [|done].
    set (h1 := h <| m_data ::= _ |> <| m_len ::= _ |>).
    destruct Hh as (?&?&?&?&?&?&Hp). unfold wf_mbuf.
    change (storage p h1) with (storage p h). change (has h1) with (has h). cbn.
    split_and!; lia.
Qed.

Lemma held_by_middle pre q post : held_by (pre ++ q :: post) ≡ₚ held q ++ held_by pre ++ held_by post.
Proof. rewrite held_by_app, held_by_cons. solve_Permutation. Qed.

(** The fields a fragment is matched against. *)
Definition same_key (fp fp' : ipq) : Prop :=
  ipq_id fp = ipq_id fp' /\ ipq_p fp = ipq_p fp' /\ ipq_src fp = ipq_src fp' /\ ipq_dst fp = ipq_dst fp'.
Lemma same_key_datagram fp fp' i : same_key fp fp' -> same_datagram i fp = same_datagram i fp'.
Proof. unfold same_datagram. by intros (-> & -> & -> & ->). Qed.

(** A fragment that brings nothing new is freed, and nothing else changes. *)
Lemma reass_drop_ok R D pre fp post ip s :
  ipq_head s = pre ++ fp :: post -> queue_ok D (ip_pool s) fp ->
  owns (ip_pool s) ((held_by (ipq_head s) ++ ip_m ip) ++ R) ->
  let s' := dropfrag (ip_m ip) s in
  evolve R (ip_pool s) (held_by (ipq_head s) ++ ip_m ip) (ip_pool s') (held_by (ipq_head s')) /\
  queue_ok D (ip_pool s') fp.
Proof.
  intros Hh (Hp & Hs & Hn & Hi) Ho s'.
  assert (He : evolve (held_by (ipq_head s) ++ R) (ip_pool s) (ip_m ip) (ip_pool s') []).
  { apply m_freem_ok. revert Ho. apply owns_Permutation. solve_Permutation. }
  split.
  - pose proof (evolve_frame _ _ _ _ _ _ He) as Hf. eapply evolve_perm; [| |exact Hf]; [solve_Permutation|done].
  - split; [|done]. eapply pieces_bytes; [|exact Hp]. intros m Hm. apply (ev_bytes _ _ _ _ _ He).
    rewrite Hh, held_by_middle. unfold held. rewrite !elem_of_app, elem_of_cons. auto.
Qed.

(** A fragment that begins after all of [b] ends takes its place before [a]. *)
Lemma reass_store_ok R D pre fp post b a ip s :
  ipq_head s = pre ++ fp :: post -> ipq_frags fp = b ++ a -> zlen D <= 32767 ->
  queue_ok D (ip_pool s) fp -> piece D (ip_pool s) ip -> upto 0 b <= off ip -> sep (off ip) a ->
  ipq_nfrags fp < IP_MAXFRAGSPERPACKET ->
  owns (ip_pool s) ((held_by (ipq_head s) ++ ip_m ip) ++ R) ->
  exists a' n p1 r s', trim_after ip a (ip_pool s) = (a', n, p1) /\
    ip_insert (length pre) (fp <| ipq_nfrags ::= u16 (ipq_nfrags fp - n) |>) b a' ip
      (s <| ip_pool ::= p1 |>) = Some (r, s') /\
    ip_nfrags s' = ip_nfrags s /\
    evolve R (ip_pool s) (held_by (ipq_head s) ++ ip_m ip) (ip_pool s')
      (held_by (ipq_head s') ++ match r with Some d => ip_m d | None => [] end) /\
    match r with
    | None =>
        exists fp', ipq_head s' = pre ++ fp' :: post /\ queue_ok D (ip_pool s') fp' /\
          same_key fp' fp /\ ipq_nfrags fp' <= ipq_nfrags fp + 1 /\
          forall x, cov (ipq_frags fp') x <-> cov (ipq_frags fp) x \/ covers ip x
    | Some d =>
        ipq_head s' = pre ++ post /\ drop (Z.to_nat (ip_hl d * 4)) (bytes (ip_pool s') (ip_m d)) = D /\
        pktlen_ok (ip_m d) /\ ip_len d = zlen D /\ ip_src d = ipq_src fp /\ ip_dst d = ipq_dst fp /\
        forall x, 0 <= x < zlen D -> cov (ipq_frags fp) x \/ covers ip x
    end.
Proof.
  intros Hh Hba HD (Hp & Hs & Hnf & Hinc) Hip Hub Hsa2 Hcap Ho.
  set (p := ip_pool s) in *. set (Q := held_by pre ++ held_by post).
  rewrite Hba in Hp, Hs. apply Forall_app in Hp as [Hpb Hpa]. apply sep_app in Hs as [Hsb _].
  assert (HQ : held_by (ipq_head s) ++ ip_m ip ≡ₚ
    frag_mbufs a ++ (qmbuf fp :: frag_mbufs b) ++ ip_m ip ++ Q).
  { rewrite Hh, held_by_middle. unfold held, Q. rewrite Hba, frag_mbufs_app. solve_Permutation. }
  set (K := (qmbuf fp :: frag_mbufs b) ++ ip_m ip ++ Q).
  destruct (trim_after_ok D (K ++ R) ip a p ltac:(lia) ltac:(apply Hip) Hsa2 Hpa)
    as (a' & n & p1 & Hta & He & Hpa' & Hsa' & Hcov & Hn & Hlen).
  { rewrite HQ in Ho. unfold K. by rewrite <- app_assoc in Ho. }
  set (fp1 := fp <| ipq_nfrags ::= u16 (ipq_nfrags fp - n) |>).
  rewrite Hba, length_app in Hnf. unfold IP_MAXFRAGSPERPACKET in *.
  assert (Hn1 : ipq_nfrags fp1 = Z.of_nat (length b + length a')) by (cbn; rewrite u16_small; lia).
  assert (Hps : Forall (piece D p1) (b ++ ip :: a')).
  { apply Forall_app_2; [|apply Forall_cons_2; [|exact Hpa']];
      (eapply pieces_bytes || eapply piece_bytes); [|done|..|done]; intros m Hm;
      apply (ev_bytes _ _ _ _ _ He); unfold K; rewrite !elem_of_app, elem_of_cons; auto. }
  assert (Hss : sep 0 (b ++ ip :: a')) by (apply sep_app; split; [done|]; split; [done|exact Hsa']).
  pose proof (evolve_frame _ _ _ _ _ _ He) as He1.
  destruct (ip_insert_ok D (Q ++ R) pre fp fp1 post b a' ip (s <| ip_pool ::= p1 |>))
    as (r & s' & E & Hnfr & Hres); [exact Hh|done|exact Hps|exact Hss|unfold IP_MAXFRAGSPERPACKET; lia| |].
  { pose proof (ev_owns _ _ _ _ _ He1) as Ho1. revert Ho1. apply owns_Permutation.
    unfold K. rewrite frag_mbufs_app, frag_mbufs_cons. cbn. solve_Permutation. }
  assert (Hev : evolve R p (held_by (ipq_head s) ++ ip_m ip) p1
     ((qmbuf fp :: frag_mbufs (b ++ ip :: a')) ++ Q)).
  { eapply evolve_perm; [| |exact He1]; [by rewrite HQ|].
    unfold K. rewrite frag_mbufs_app, frag_mbufs_cons. solve_Permutation. }
  assert (Hcovs : forall x, cov (b ++ ip :: a') x <-> cov (ipq_frags fp) x \/ covers ip x).
  { intros x. rewrite Hba, !cov_app, cov_cons. specialize (Hcov x). tauto. }
  exists a', n, p1, r, s'. split; [exact Hta|]. split; [exact E|]. split; [exact Hnfr|].
  destruct r as [d|].
  - destruct Hres as (He3 & Hh' & Hd & Hpk & Hlend & Hsrc & Hdst & Hall).
    split; [|split_and!; try done; intros x Hx; by apply Hcovs, Hall].
    apply evolve_frame in He3. rewrite Hh', held_by_app. fold Q. eapply evolve_trans; [exact Hev|].
    eapply evolve_perm; [reflexivity| |exact He3]. solve_Permutation.
  - destruct Hres as (Hpool & Hh' & Hnall). rewrite Hpool, app_nil_r, Hh'. split.
    + eapply evolve_perm; [reflexivity| |exact Hev]. rewrite held_by_middle. unfold held, Q. cbn. done.
    + eexists. split; [reflexivity|]. split.
      * split; [exact Hps|]. split; [exact Hss|].
        split; [|exact Hnall]. change (ipq_nfrags fp1 + 1 = Z.of_nat (length (b ++ ip :: a'))).
        rewrite Hn1, length_app. cbn [length]. lia.
      * split; [done|]. split; [|exact Hcovs]. change (ipq_nfrags fp1 + 1 <= ipq_nfrags fp + 1). lia.
Qed.

Lemma ip_reass_ok mget R D ip pre fp post s :
  ipq_head s = pre ++ fp :: post -> zlen D <= 32767 ->
  owns (ip_pool s) ((held_by (ipq_head s) ++ ip_m ip) ++ R) ->
  queue_ok D (ip_pool s) fp -> arrives D (ip_pool s) ip ->
  ipq_nfrags fp < IP_MAXFRAGSPERPACKET ->
  exists r s', ip_reass mget ip (Some (length pre)) s = Some (r, s') /\
    ip_nfrags s' = ip_nfrags s /\
    evolve R (ip_pool s) (held_by (ipq_head s) ++ ip_m ip) (ip_pool s')
      (held_by (ipq_head s') ++ match r with Some d => ip_m d | None => [] end) /\
    match r with
    | None =>
        exists fp', ipq_head s' = pre ++ fp' :: post /\ queue_ok D (ip_pool s') fp' /\
          same_key fp' fp /\ ipq_nfrags fp' <= ipq_nfrags fp + 1 /\
          forall x, cov (ipq_frags fp') x <-> cov (ipq_frags fp) x \/ covers (strip_header ip) x
    | Some d =>
        ipq_head s' = pre ++ post /\ drop (Z.to_nat (ip_hl d * 4)) (bytes (ip_pool s') (ip_m d)) = D /\
        pktlen_ok (ip_m d) /\ ip_len d = zlen D /\ ip_src d = ipq_src fp /\ ip_dst d = ipq_dst fp /\
        forall x, 0 <= x < zlen D -> cov (ipq_frags fp) x \/ covers (strip_header ip) x
    end.
Proof.
  intros Hh HD Ho Hq (Hl & Hip) Hcap. unfold ip_reass. set (p := ip_pool s) in *.
  pose proof (owns_wf _ _ Ho) as Hw. rewrite !Forall_app in Hw. destruct Hw as [[Hwq Hwip] _].
  destruct (strip_header_ok p ip Hl (proj1 Hip) Hwip) as [Hid1 Hw1].
  remember (strip_header ip) as ip1 eqn:Hip1. clear Hip1.
  assert (Hin : forall m, Forall2 same_id (ip_m ip) m -> Forall (wf_mbuf p) m ->
    evolve R p (held_by (ipq_head s) ++ ip_m ip) p (held_by (ipq_head s) ++ m)).
  { intros m Hm Hwm. apply evolve_in; [by apply Forall2_app|by apply Forall_app_2|done]. }
  replace (ipq_head s !! length pre) with (Some fp) by (by rewrite Hh, list_lookup_middle).
  cbn [mbind option_bind]. destruct (find_after ip1 (ipq_frags fp)) as [b a] eqn:Hfa.
  destruct (find_after_ok _ _ _ _ Hfa) as (Hba & Hble & Hahd).
  pose proof Hq as (Hpf & Hsf & _). rewrite Hba in Hpf, Hsf.
  apply Forall_app in Hpf as [Hpb _]. apply sep_app in Hsf as [Hsb Hsa].
  pose proof (trim_front_ok D p 0 b ip1 ltac:(lia) Hpb Hsb Hble
    ltac:(pose proof (piece_pos _ _ _ Hip); lia) Hip Hw1) as Htf.
  destruct (trim_front (last b) ip1) as [ip2|].
  - destruct Htf as (Hp2 & Hge & Hend & Hub & Hor & Hcov & Hhl2 & Hid2 & Hw2).
    pose proof (Hin (ip_m ip2) (same_ids_trans _ _ _ Hid1 Hid2) Hw2) as Hev.
    assert (Hsa2 : sep (off ip2) a).
    { destruct a as [|q a']; [done|]. specialize (Hahd q eq_refl). destruct Hsa. split; [lia|done]. }
    destruct (reass_store_ok R D pre fp post b a ip2 s Hh Hba HD Hq Hp2 Hub Hsa2 Hcap
      (ev_owns _ _ _ _ _ Hev)) as (a' & n & p1 & r & s' & Hta & E & Hn & He & Hres).
    fold p in Hta. rewrite Hta. exists r, s'. split; [exact E|]. split; [exact Hn|].
    split; [by eapply evolve_trans|].
    assert (Hc : forall x, cov (ipq_frags fp) x \/ covers ip2 x <-> cov (ipq_frags fp) x \/ covers ip1 x).
    { intros x. specialize (Hcov x). rewrite Hba, cov_app. tauto. }
    destruct r as [d|].
    + destruct Hres as (H1 & H2 & H3 & H4 & H5 & H6 & H7). split_and!; try done.
      intros x Hx. by apply Hc, H7.
    + destruct Hres as (fp' & H1 & H2 & H3 & H4 & H5). exists fp'. split_and!; try done.
      intros x. by rewrite H5, Hc.
  - pose proof (Hin (ip_m ip1) Hid1 Hw1) as Hev.
    destruct (reass_drop_ok R D pre fp post ip1 s Hh Hq (ev_owns _ _ _ _ _ Hev)) as [He Hq'].
    exists None, (dropfrag (ip_m ip1) s). split; [done|]. split; [done|].
    rewrite app_nil_r. split; [by eapply evolve_trans|]. exists fp. split_and!; try done; [lia|].
    intros x. rewrite Hba, cov_app. specialize (Htf x). tauto.
Qed.

(** * Fragments arriving *)

(** [ips] arrive in this order, until one completes the datagram: what is
    delivered, and what has not been looked at. *)
Fixpoint arrivals mget (fuel : nat) (ips : list ipasfrag) (s : ipst)
  : option (option ipasfrag * list ipasfrag * ipst) :=
  match ips with
  | [] => Some (None, [], s)
  | ip :: ips =>
      '(r, s) ← ip_fragment mget fuel ip s;
      match r with
      | Some d => Some (Some d, ips, s)
      | None => arrivals mget fuel ips s
      end
  end.

(** What [ip] carries once its header is out of the way. *)
Definition carried (ip : ipasfrag) : ipasfrag := strip_header (frag_fields ip).

(** [ip], as [ipintr] finds it, is a fragment of the datagram [D]. *)
Definition fragment_of (D : list Z) (p : mpool) (ip : ipasfrag) : Prop :=
  (forall h, head (ip_m ip) = Some h -> has h M_EXT = false) /\ arrives D p (frag_fields ip) /\
  (ipf_mff (frag_fields ip) <> 0 \/ ip_off (frag_fields ip) <> 0).

Definition all_of (D : list Z) (fs : list ipasfrag) : Prop := forall x, 0 <= x < zlen D -> cov fs x.

Lemma find_queue_middle ip pre fp post :
  Forall (fun q => same_datagram ip q = false) pre -> same_datagram ip fp = true ->
  find_queue ip (pre ++ fp :: post) = Some (length pre).
Proof. induction 1 as [|q pre Hq _ IH]; intros Hf; simpl; [by rewrite Hf|]. by rewrite Hq, IH. Qed.

Lemma find_queue_none ip qs :
  Forall (fun q => same_datagram ip q = false) qs -> find_queue ip qs = None.
Proof. induction 1 as [|q qs Hq _ IH]; simpl; [done|]. by rewrite Hq, IH. Qed.

Lemma stripped_bytes p p' h n :
  0 <= n -> 0 <= m_data h ->
  mbuf_bytes p' h = mbuf_bytes p h ->
  let h' := h <| m_data ::= m_data h + n |> <| m_len ::= m_len h - n |> in
  mbuf_bytes p' h' = mbuf_bytes p h'.
Proof.
  intros Hn Hd Hb h'.
  assert (Hs : forall q, mbuf_bytes q h' = drop (Z.to_nat n) (mbuf_bytes q h)).
  { intros q. unfold mbuf_bytes. change (storage q h') with (storage q h). cbn.
    unfold zslice. rewrite skipn_firstn_comm, drop_drop. f_equal; [lia|]. f_equal. lia. }
  by rewrite !Hs, Hb.
Qed.

Lemma arrives_frame D p p' ip :
  (forall m, m ∈ ip_m ip -> mbuf_bytes p' m = mbuf_bytes p m) ->
  arrives D p ip -> arrives D p' ip.
Proof.
  intros Hb [Hl Hp]. split; [done|]. eapply piece_bytes; [|exact Hp].
  destruct Hp as [Hok _]. unfold frag_ok, strip_header in *.
  destruct (ip_m ip) as [|h r] eqn:Hm; [by rewrite Hm|]. cbn in Hok |- *.
  destruct Hok as (_ & Hn & Hd). intros m [->|Hr]%elem_of_cons.
  - apply stripped_bytes; [done| |apply Hb; left].
    unfold hdr_base, PKTHDR_SIZE in Hd. case_match; lia.
  - apply Hb. by right.
Qed.

Lemma ip_fragment_plain mget fuel ip s h :
  head (ip_m ip) = Some h -> has h M_EXT = false ->
  let ip' := frag_fields ip in let fp := find_queue ip (ipq_head s) in
  negb (ipf_mff ip' =? 0) || negb (ip_off ip' =? 0) = true ->
  ip_fragment mget fuel ip s =
    ('(r, s) ← ip_reass mget ip' fp (s <| ips_fragments ::= ips_fragments s + 1 |>);
     Some (r, match r with Some _ => s <| ips_reassembled ::= ips_reassembled s + 1 |> | None => s end)).
Proof.
  intros Hh Hx ip' fp Hf. unfold ip_fragment. unfold ip', fp in *. destruct ip as [hl mff l id o pp src dst m]. destruct m as [|h' m]; [done|].
  injection Hh as ->. cbn [ip_m]. rewrite Hx. cbn [mbind option_bind]. cbv iota.
  change (mk_ipasfrag hl mff l id o pp src dst (h :: m) <| ip_m ::= h :: m |>)
    with (mk_ipasfrag hl mff l id o pp src dst (h :: m)).
  rewrite Hf. done.
Qed.

Lemma fragment_frame D p p' ips :
  (forall m, m ∈ frag_mbufs ips -> mbuf_bytes p' m = mbuf_bytes p m) ->
  Forall (fragment_of D p) ips -> Forall (fragment_of D p') ips.
Proof.
  intros Hb Hf. rewrite Forall_forall in Hf |- *. intros ip Hip.
  destruct (Hf ip Hip) as (Hx & Ha & Hm). split_and!; try done.
  eapply arrives_frame; [|exact Ha]. intros m Hm'. apply Hb. unfold frag_mbufs.
  apply list_elem_of_In, in_concat. exists (ip_m ip).
  split; apply list_elem_of_In; [by apply list_elem_of_fmap_2|exact Hm'].
Qed.

Lemma arrives_head D p ip : arrives D p (frag_fields ip) -> exists h, head (ip_m ip) = Some h.
Proof.
  intros [_ [Hok _]]. destruct ip as [hl mff l id o pp src dst [|h r]]; [done|]. by exists h.
Qed.

(** The queue [fp] at its place, and fragments of its datagram arriving: they are
    gathered until every byte is there, and then the datagram is delivered. *)
Lemma arrivals_ok mget fuel R D pre post ips : forall fp s,
  ipq_head s = pre ++ fp :: post -> zlen D <= 32767 ->
  owns (ip_pool s) ((held_by (ipq_head s) ++ frag_mbufs ips) ++ R) ->
  queue_ok D (ip_pool s) fp -> Forall (fragment_of D (ip_pool s)) ips ->
  Forall (fun ip => same_datagram ip fp = true /\ Forall (fun q => same_datagram ip q = false) pre) ips ->
  ipq_nfrags fp + Z.of_nat (length ips) <= IP_MAXFRAGSPERPACKET ->
  exists r rest s', arrivals mget fuel ips s = Some (r, rest, s') /\
    ip_nfrags s' = ip_nfrags s /\
    evolve R (ip_pool s) (held_by (ipq_head s) ++ frag_mbufs ips) (ip_pool s')
      (held_by (ipq_head s') ++ match r with Some d => ip_m d | None => [] end ++ frag_mbufs rest) /\
    match r with
    | None => rest = [] /\ ~ all_of D (ipq_frags fp ++ map carried ips)
    | Some d => exists seen last, ips = seen ++ last :: rest /\
        ~ all_of D (ipq_frags fp ++ map carried seen) /\
        all_of D (ipq_frags fp ++ map carried (seen ++ [last])) /\
        ipq_head s' = pre ++ post /\
        drop (Z.to_nat (ip_hl d * 4)) (bytes (ip_pool s') (ip_m d)) = D /\
        pktlen_ok (ip_m d) /\ ip_len d = zlen D /\ ip_src d = ipq_src fp /\ ip_dst d = ipq_dst fp
    end.
Proof.
  induction ips as [|ip ips IH]; intros fp s Hh HD Ho Hq Hf Hk Hcap.
  { exists None, [], s. split; [done|]. split; [done|]. split; [by apply evolve_refl|].
    split; [done|]. rewrite app_nil_r. apply Hq. }
  apply Forall_cons in Hf as [(Hx & Ha & Hmo) Hf]. apply Forall_cons in Hk as [[Hk1 Hk2] Hk].
  destruct (arrives_head _ _ _ Ha) as [h Hhd].
  cbn [arrivals]. rewrite (ip_fragment_plain mget fuel ip s h Hhd (Hx h Hhd))
    by (apply orb_true_iff; rewrite !negb_true_iff, !Z.eqb_neq; done).
  rewrite Hh, (find_queue_middle ip pre fp post Hk2 Hk1), <- Hh.
  rewrite frag_mbufs_cons in *.
  set (s0 := s <| ips_fragments ::= _ |>).
  destruct (ip_reass_ok mget (frag_mbufs ips ++ R) D (frag_fields ip) pre fp post s0)
    as (r & s1 & E & Hn & He & Hres); [exact Hh|done| |exact Hq|exact Ha|cbn [length] in Hcap; lia|].
  { change (ip_m (frag_fields ip)) with (ip_m ip). change (ip_pool s0) with (ip_pool s).
    change (ipq_head s0) with (ipq_head s). by rewrite <- !app_assoc in *. }
  rewrite E. cbn [mbind option_bind].
  change (ip_m (frag_fields ip)) with (ip_m ip) in He. change (ip_pool s0) with (ip_pool s) in He.
  change (ipq_head s0) with (ipq_head s) in He. change (ip_nfrags s0) with (ip_nfrags s) in Hn.
  pose proof (evolve_frame _ _ _ _ _ _ He) as He1. rewrite <- !app_assoc in He1.
  destruct r as [d|].
  - destruct Hres as (Hh' & Hd & Hpk & Hl & Hs & Hdst & Hall).
    eexists (Some d), ips, _. split; [reflexivity|]. split; [exact Hn|]. split; [exact He1|].
    exists [], ip. split; [done|]. rewrite app_nil_r. split; [apply Hq|]. split; [|done].
    intros x Hx'. apply cov_app. destruct (Hall x Hx') as [?|?]; [by left|right]. by left.
  - destruct Hres as (fp' & Hh' & Hq' & Hkey & Hcnt & Hcov).
    destruct (IH fp' s1) as (r & rest & s' & E' & Hn' & He' & Hr); [done|done| |done| | | |].
    + rewrite <- !app_assoc. rewrite app_nil_r in He. apply (ev_owns _ _ _ _ _ He).
    + eapply fragment_frame; [|exact Hf]. intros m Hm. apply (ev_bytes _ _ _ _ _ He), elem_of_app. by left.
    + eapply Forall_impl; [exact Hk|]. intros i [H1 H2]. by rewrite (same_key_datagram fp' fp).
    + cbn [length] in Hcap. lia.
    + assert (Hcc : forall l, all_of D (ipq_frags fp' ++ l) <-> all_of D (ipq_frags fp ++ carried ip :: l)).
      { intros l. unfold all_of. setoid_rewrite cov_app. setoid_rewrite cov_cons. setoid_rewrite Hcov.
        change (strip_header (frag_fields ip)) with (carried ip).
        split; intros H x Hx'; specialize (H x Hx'); tauto. }
      exists r, rest, s'. split; [exact E'|]. split; [by rewrite Hn', Hn|].
      split; [eapply evolve_trans; [exact He1|exact He']|].
      destruct r as [d|].
      * destruct Hr as (seen & lst & -> & H1 & H2 & H3 & H4 & H5 & H6 & H7 & H8).
        exists (ip :: seen), lst. cbn [map app]. rewrite <- !Hcc.
        destruct Hkey as (_ & _ & <- & <-). done.
      * cbn [map]. rewrite <- Hcc. exact Hr.
Qed.

(** The first fragment of a datagram to arrive: a queue is made for it. *)
Lemma ip_reass_first_ok mget `{!Allocator mget} R D ip t p1 s :
  ip_reclaim s = s -> ip_nfrags s < IP_MAXFRAGPACKETS -> mget MT_FTABLE (ip_pool s) = (Some t, p1) -> zlen D <= 32767 ->
  owns (ip_pool s) ((held_by (ipq_head s) ++ ip_m ip) ++ R) -> arrives D (ip_pool s) ip ->
  exists r s', ip_reass mget ip None s = Some (r, s') /\ ip_nfrags s' = ip_nfrags s + 1 /\
    evolve R (ip_pool s) (held_by (ipq_head s) ++ ip_m ip) (ip_pool s')
      (held_by (ipq_head s') ++ match r with Some d => ip_m d | None => [] end) /\
    match r with
    | None =>
        exists fp', ipq_head s' = fp' :: ipq_head s /\ queue_ok D (ip_pool s') fp' /\
          ipq_nfrags fp' = 1 /\ (forall i, same_datagram i fp' = same_datagram i
            (mk_ipq 0 (ip_p ip) (ip_id ip) [] (ip_src ip) (ip_dst ip) 0 t)) /\
          ipq_src fp' = ip_src ip /\ ipq_dst fp' = ip_dst ip /\
          forall x, cov (ipq_frags fp') x <-> covers (strip_header ip) x
    | Some d =>
        ipq_head s' = ipq_head s /\ drop (Z.to_nat (ip_hl d * 4)) (bytes (ip_pool s') (ip_m d)) = D /\
        pktlen_ok (ip_m d) /\ ip_len d = zlen D /\ ip_src d = ip_src ip /\ ip_dst d = ip_dst ip /\
        forall x, 0 <= x < zlen D -> covers (strip_header ip) x
    end.
Proof.
  intros Hrec Hn Hg HD Ho (Hl & Hip). unfold ip_reass, new_queue.
  pose proof (owns_wf _ _ Ho) as Hw. rewrite !Forall_app in Hw. destruct Hw as [[Hwq Hwip] _].
  destruct (strip_header_ok (ip_pool s) ip Hl (proj1 Hip) Hwip) as [Hid1 Hw1].
  assert (Hev0 : evolve R (ip_pool s) (held_by (ipq_head s) ++ ip_m ip) (ip_pool s)
    (held_by (ipq_head s) ++ ip_m (strip_header ip))).
  { apply evolve_in; [by apply Forall2_app|by apply Forall_app_2|done]. }
  assert (Hk : ip_p (strip_header ip) = ip_p ip /\ ip_id (strip_header ip) = ip_id ip /\
    ip_src (strip_header ip) = ip_src ip /\ ip_dst (strip_header ip) = ip_dst ip)
    by (unfold strip_header; by destruct (ip_m ip)).
  destruct Hk as (-> & -> & -> & ->). remember (strip_header ip) as ip1. clear Heqip1.
  replace (IP_MAXFRAGPACKETS <=? ip_nfrags s) with false by lia. cbn [andb]. cbv zeta. rewrite Hrec, Hg.
  pose proof (alloc_ok MT_FTABLE (ip_pool s) _ _ _ ltac:(vm_compute; split; reflexivity)
    (ev_owns _ _ _ _ _ Hev0) Hg) as (_ & _ & _ & Hev1).
  set (fp := mk_ipq _ _ _ _ _ _ _ _). set (s1 := _ <| ipq_head ::= _ |> <| ip_nfrags ::= _ |>).
  apply (evolve_frame R) in Hev1. cbn [app] in Hev1.
  pose proof (evolve_trans _ _ _ _ _ _ _ Hev0 Hev1) as Hev.
  pose proof (alloc_ok MT_FTABLE (ip_pool s) _ _ _ ltac:(vm_compute; split; reflexivity)
    (ev_owns _ _ _ _ _ Hev0) Hg) as (_ & _ & _ & Hev1').
  assert (Hp1 : piece D p1 ip1).
  { eapply piece_bytes; [|exact Hip]. intros m Hm. apply (ev_bytes _ _ _ _ _ Hev1').
    rewrite !elem_of_app. auto. }
  destruct (ip_insert_ok D (held_by (ipq_head s) ++ R) [] fp fp (ipq_head s) [] [] ip1 s1)
    as (r & s' & E & Hnf & Hres); [done|done|apply Forall_cons_2; [exact Hp1|constructor]| |done| |].
  { split; [apply (piece_pos _ _ _ Hip)|done]. }
  { pose proof (ev_owns _ _ _ _ _ Hev) as Ho1. revert Ho1. apply owns_Permutation.
    cbn [app]. rewrite frag_mbufs_cons. cbn. rewrite app_nil_r.
    change (qmbuf fp) with (t <| m_len ::= 0 |>). solve_Permutation. }
  exists r, s'. split; [exact E|]. split; [exact Hnf|].
  destruct r as [d|].
  - destruct Hres as (He & Hh' & Hd & Hpk & Hlen & Hs & Hdst & Hall).
    split; [|split_and!; try done; intros x Hx; specialize (Hall x Hx)].
    + eapply evolve_trans; [exact Hev|]. apply evolve_frame in He. rewrite Hh'. cbn [app].
      eapply evolve_perm; [| |exact He]; [|solve_Permutation].
      cbn [app]. rewrite frag_mbufs_cons. cbn. rewrite app_nil_r.
      change (qmbuf fp) with (t <| m_len ::= 0 |>). solve_Permutation.
    + by apply cov_cons in Hall as [?|?%Exists_nil].
  - destruct Hres as (Hpool & Hh' & Hnall). rewrite Hpool, Hh', app_nil_r. split.
    + eapply evolve_perm; [reflexivity| |exact Hev]. cbn [app]. rewrite held_by_cons.
      change (held _) with (t <| m_len ::= 0 |> :: ip_m ip1 ++ []). rewrite app_nil_r. solve_Permutation.
    + eexists. split; [reflexivity|]. split.
      * split; [apply Forall_cons_2; [exact Hp1|constructor]|]. split; [split; [apply (piece_pos _ _ _ Hip)|done]|]. by split.
      * split; [done|]. split; [done|]. split; [done|]. split; [done|]. intros x. cbn [app ipq_frags].
        change (cov [ip1] x <-> covers ip1 x). rewrite cov_cons. split; [intros [?|?%Exists_nil]; done|by left].
Qed.

(** Reclaiming does not look at the counter of fragments. *)
Lemma drain_fragments fuel n : forall s,
  drain_loop fuel (s <| ips_fragments ::= n |>) = drain_loop fuel s <| ips_fragments ::= n |>.
Proof.
  induction fuel as [|fuel IH]; intros s; cbn [drain_loop]; [done|].
  change (ipq_head (s <| ips_fragments ::= n |>)) with (ipq_head s). destruct (ipq_head s) as [|q qs] eqn:Hh; [done|].
  rewrite <- IH. f_equal. unfold ip_freef. cbn. rewrite Hh. cbn. by destruct (m_free _ _ _).
Qed.
Lemma reclaim_fragments s n : ip_reclaim (s <| ips_fragments ::= n |>) = ip_reclaim s <| ips_fragments ::= n |>.
Proof.
  unfold ip_reclaim, ip_drain. cbn [ip_pool ipq_head ips_fragments].
  change (ip_pool (s <| ips_fragments ::= n |>)) with (ip_pool s).
  change (ipq_head (s <| ips_fragments ::= n |>)) with (ipq_head s). destruct (mfree _); [|done].
  destruct (ipq_head s) eqn:E; [done|]. rewrite drain_fragments. done.
Qed.
Lemma drain_fragments_same fuel : forall s, ips_fragments (drain_loop fuel s) = ips_fragments s.
Proof.
  induction fuel as [|fuel IH]; intros s; cbn [drain_loop]; [done|].
  destruct (ipq_head s) as [|q qs] eqn:Hh; [done|]. rewrite IH. unfold ip_freef. cbn. rewrite Hh. cbn. by destruct (m_free _ _ _).
Qed.

(** The first fragment of a datagram finds the queues as reclaiming leaves them. *)
Lemma arrivals_reclaim mget fuel R D ip ips s :
  ip_nfrags s < IP_MAXFRAGPACKETS -> owns (ip_pool s) (held_by (ipq_head s) ++ R) ->
  fragment_of D (ip_pool s) ip -> find_queue ip (ipq_head s) = None ->
  arrivals mget fuel (ip :: ips) s = arrivals mget fuel (ip :: ips) (ip_reclaim s).
Proof.
  intros Hn Ho (Hx & Ha & Hmo) Hq. destruct (ip_reclaim_ok R s Ho) as (Hsp & Hid & Hn' & _ & _).
  destruct (arrives_head _ _ _ Ha) as [h Hhd]. specialize (Hx h Hhd).
  assert (Hq' : find_queue ip (ipq_head (ip_reclaim s)) = None) by (destruct Hsp as [->|[_ ->]]; done).
  assert (Hf : ips_fragments (ip_reclaim s) = ips_fragments s).
  { unfold ip_reclaim. destruct (mfree _); [|done]. destruct (ipq_head s); [done|]. apply drain_fragments_same. }
  cbn [arrivals]. f_equal. rewrite !(ip_fragment_plain mget fuel ip _ h Hhd Hx)
    by (apply orb_true_iff; rewrite !negb_true_iff, !Z.eqb_neq; done).
  rewrite Hq, Hq', Hf. f_equal. unfold ip_reass, new_queue.
  change (ip_nfrags (?s <| ips_fragments ::= _ |>)) with (ip_nfrags s).
  replace (IP_MAXFRAGPACKETS <=? ip_nfrags s) with false by lia.
  replace (IP_MAXFRAGPACKETS <=? ip_nfrags (ip_reclaim s)) with false by lia. cbn [andb]. cbv zeta.
  by rewrite !reclaim_fragments, Hid.
Qed.

Lemma ip_reass_datagram mget `{!Allocator mget} fuel R D ip ips t p1 s :
  ip_reclaim s = s -> ip_nfrags s < IP_MAXFRAGPACKETS -> mget MT_FTABLE (ip_pool s) = (Some t, p1) ->
  zlen D <= 32767 -> Z.of_nat (length (ip :: ips)) <= IP_MAXFRAGSPERPACKET ->
  owns (ip_pool s) ((held_by (ipq_head s) ++ frag_mbufs (ip :: ips)) ++ R) ->
  Forall (fragment_of D (ip_pool s)) (ip :: ips) ->
  Forall (fun i => ip_id i = ip_id ip /\ ip_src i = ip_src ip /\ ip_dst i = ip_dst ip /\
    ip_p i = ip_p ip) ips ->
  find_queue ip (ipq_head s) = None ->
  exists r rest s', arrivals mget fuel (ip :: ips) s = Some (r, rest, s') /\
    ip_nfrags s' = ip_nfrags s + 1 /\
    evolve R (ip_pool s) (held_by (ipq_head s) ++ frag_mbufs (ip :: ips)) (ip_pool s')
      (held_by (ipq_head s') ++ match r with Some d => ip_m d | None => [] end ++ frag_mbufs rest) /\
    match r with
    | None => rest = [] /\ ~ all_of D (map carried (ip :: ips))
    | Some d => exists seen last, ip :: ips = seen ++ last :: rest /\
        ~ all_of D (map carried seen) /\ all_of D (map carried (seen ++ [last])) /\
        ipq_head s' = ipq_head s /\
        drop (Z.to_nat (ip_hl d * 4)) (bytes (ip_pool s') (ip_m d)) = D /\
        pktlen_ok (ip_m d) /\ ip_len d = zlen D /\ ip_src d = ip_src ip /\ ip_dst d = ip_dst ip
    end.
Proof.
  intros Hrec Hn Hg HD Hcap Ho [(Hx & Ha & Hmo) Hf]%Forall_cons Hkey Hq.
  destruct (arrives_head _ _ _ Ha) as [h Hhd].
  cbn [arrivals]. rewrite (ip_fragment_plain mget fuel ip s h Hhd (Hx h Hhd))
    by (apply orb_true_iff; rewrite !negb_true_iff, !Z.eqb_neq; done).
  rewrite Hq. rewrite frag_mbufs_cons in *.
  set (s0 := s <| ips_fragments ::= _ |>).
  destruct (ip_reass_first_ok mget (frag_mbufs ips ++ R) D (frag_fields ip) t p1 s0)
    as (r & s1 & E & Hn1 & He & Hres); [unfold s0; by rewrite reclaim_fragments, Hrec|exact Hn|exact Hg|done| |exact Ha|].
  { change (ip_m (frag_fields ip)) with (ip_m ip). change (ip_pool s0) with (ip_pool s).
    change (ipq_head s0) with (ipq_head s). by rewrite <- !app_assoc in *. }
  rewrite E. cbn [mbind option_bind].
  change (ip_m (frag_fields ip)) with (ip_m ip) in He. change (ip_pool s0) with (ip_pool s) in He.
  change (ipq_head s0) with (ipq_head s) in *. change (ip_nfrags s0) with (ip_nfrags s) in Hn1.
  pose proof (evolve_frame _ _ _ _ _ _ He) as He1. rewrite <- !app_assoc in He1.
  assert (HD0 : ~ all_of D []).
  { pose proof (piece_pos _ _ _ (proj2 Ha)). destruct Ha as (_ & _ & Hl & He0 & _).
    intros H0. specialize (H0 0 ltac:(lia)). by apply Exists_nil in H0. }
  destruct r as [d|].
  - destruct Hres as (Hh' & Hd & Hpk & Hl & Hs & Hdst & Hall).
    eexists (Some d), ips, _. split; [reflexivity|]. split; [exact Hn1|]. split; [exact He1|].
    exists [], ip. split; [done|]. split; [exact HD0|]. split; [|done].
    intros x Hx'. apply cov_cons. left. apply (Hall x Hx').
  - destruct Hres as (fp' & Hh' & Hq' & Hcnt & Hsame & Hsrc & Hdst & Hcov).
    destruct (arrivals_ok mget fuel R D [] (ipq_head s) ips fp' s1)
      as (r & rest & s' & E' & Hn' & He' & Hr); [done|done| |done| | | |].
    + rewrite <- !app_assoc. rewrite app_nil_r in He. apply (ev_owns _ _ _ _ _ He).
    + eapply fragment_frame; [|exact Hf]. intros m Hm. apply (ev_bytes _ _ _ _ _ He), elem_of_app. by left.
    + eapply Forall_impl; [exact Hkey|]. intros i (H1 & H2 & H3 & H4). split; [|constructor].
      rewrite Hsame. unfold same_datagram. cbn. rewrite H1, H2, H3, H4, !Z.eqb_refl. done.
    + rewrite Hcnt. cbn [length] in Hcap. lia.
    + assert (Hcc : forall l, all_of D (ipq_frags fp' ++ l) <-> all_of D (carried ip :: l)).
      { intros l. unfold all_of. setoid_rewrite cov_app. setoid_rewrite cov_cons. setoid_rewrite Hcov.
        change (strip_header (frag_fields ip)) with (carried ip). done. }
      exists r, rest, s'. split; [exact E'|]. split; [by rewrite Hn', Hn1|].
      split; [eapply evolve_trans; [exact He1|exact He']|].
      destruct r as [d|].
      * destruct Hr as (seen & lst & -> & H1 & H2 & H3 & H4 & H5 & H6 & H7 & H8).
        exists (ip :: seen), lst. cbn [map app]. rewrite <- !Hcc.
        change (ip_src (frag_fields ip)) with (ip_src ip) in Hsrc.
        change (ip_dst (frag_fields ip)) with (ip_dst ip) in Hdst. by rewrite <- Hsrc, <- Hdst.
      * cbn [map]. rewrite <- Hcc. exact Hr.
Qed.

(** With the free list empty or not. *)
Lemma ip_reass_gathered mget `{!Allocator mget} fuel R D ip ips t p1 s :
  ip_nfrags s < IP_MAXFRAGPACKETS -> mget MT_FTABLE (ip_pool (ip_reclaim s)) = (Some t, p1) ->
  zlen D <= 32767 -> Z.of_nat (length (ip :: ips)) <= IP_MAXFRAGSPERPACKET ->
  owns (ip_pool s) ((held_by (ipq_head s) ++ frag_mbufs (ip :: ips)) ++ R) ->
  Forall (fragment_of D (ip_pool s)) (ip :: ips) ->
  Forall (fun i => ip_id i = ip_id ip /\ ip_src i = ip_src ip /\ ip_dst i = ip_dst ip /\
    ip_p i = ip_p ip) ips ->
  find_queue ip (ipq_head s) = None ->
  exists r rest s', arrivals mget fuel (ip :: ips) s = Some (r, rest, s') /\
    ip_nfrags s' = ip_nfrags (ip_reclaim s) + 1 /\
    evolve R (ip_pool s) (held_by (ipq_head s) ++ frag_mbufs (ip :: ips)) (ip_pool s')
      (held_by (ipq_head s') ++ match r with Some d => ip_m d | None => [] end ++ frag_mbufs rest) /\
    match r with
    | None => rest = [] /\ ~ all_of D (map carried (ip :: ips))
    | Some d => exists seen last, ip :: ips = seen ++ last :: rest /\
        ~ all_of D (map carried seen) /\ all_of D (map carried (seen ++ [last])) /\
        spared s (ipq_head s') /\
        drop (Z.to_nat (ip_hl d * 4)) (bytes (ip_pool s') (ip_m d)) = D /\
        pktlen_ok (ip_m d) /\ ip_len d = zlen D /\ ip_src d = ip_src ip /\ ip_dst d = ip_dst ip
    end.
Proof.
  intros Hn Hg HD Hcap Ho Hf Hkey Hq. pose proof Hf as [Hf1 _]%Forall_cons. rewrite <- app_assoc in Ho.
  rewrite (arrivals_reclaim mget fuel _ D ip ips s Hn Ho Hf1 Hq).
  destruct (ip_reclaim_ok _ s Ho) as (Hsp & Hid & Hn' & _ & Hev). pose proof (evolve_frame _ _ _ _ _ _ Hev) as Hev1.
  destruct (ip_reass_datagram mget fuel R D ip ips t p1 (ip_reclaim s)) as (r & rest & s' & E & H1 & He & Hr); try done.
  - lia.
  - pose proof (ev_owns _ _ _ _ _ Hev) as Ho1. by rewrite <- app_assoc.
  - eapply fragment_frame; [|exact Hf]. intros m Hm. apply (ev_bytes _ _ _ _ _ Hev), elem_of_app. by left.
  - destruct Hsp as [->|[_ ->]]; done.
  - exists r, rest, s'. split; [exact E|]. split; [exact H1|]. split; [by eapply evolve_trans|].
    destruct r as [d|]; [|exact Hr]. destruct Hr as (seen & lst & H2 & H3 & H4 & H5 & H6). exists seen, lst.
    split; [exact H2|]. split; [exact H3|]. split; [exact H4|]. split; [|exact H6]. rewrite H5. by apply reclaim_spared.
Qed.

(** C24.  Fragments of a datagram [D] (at most 32767 bytes of payload), in any
    order, overlapping and repeated in any way, are gathered until every byte of [D]
    has arrived, and not before; then one packet is delivered, whose payload is
    exactly [D], under a header with the total length and the addresses of the
    datagram, its packet-header total right; the queues that were there before stay
    as they were, unless no mbuf was free and they have been drained, and every mbuf is in
    the packet delivered, in a queue, or back in the pool.  (The queue was counted in
    [ip_nfrags] and completion does not uncount it.) *)
Theorem ip_reass_correct mget `{!Allocator mget} fuel R D ip ips t p1 s :
  ip_nfrags s < IP_MAXFRAGPACKETS -> mget MT_FTABLE (ip_pool (ip_reclaim s)) = (Some t, p1) ->
  zlen D <= 32767 -> Z.of_nat (length (ip :: ips)) <= IP_MAXFRAGSPERPACKET ->
  owns (ip_pool s) ((held_by (ipq_head s) ++ frag_mbufs (ip :: ips)) ++ R) ->
  Forall (fragment_of D (ip_pool s)) (ip :: ips) ->
  Forall (fun i => ip_id i = ip_id ip /\ ip_src i = ip_src ip /\ ip_dst i = ip_dst ip /\
    ip_p i = ip_p ip) ips ->
  find_queue ip (ipq_head s) = None ->
  exists r rest s', arrivals mget fuel (ip :: ips) s = Some (r, rest, s') /\
    ip_nfrags s' = ip_nfrags (ip_reclaim s) + 1 /\
    evolve R (ip_pool s) (held_by (ipq_head s) ++ frag_mbufs (ip :: ips)) (ip_pool s')
      (held_by (ipq_head s') ++ match r with Some d => ip_m d | None => [] end ++ frag_mbufs rest) /\
    match r with
    | None => rest = [] /\ ~ all_of D (map carried (ip :: ips))
    | Some d => exists seen last, ip :: ips = seen ++ last :: rest /\
        ~ all_of D (map carried seen) /\ all_of D (map carried (seen ++ [last])) /\
        spared s (ipq_head s') /\
        drop (Z.to_nat (ip_hl d * 4)) (bytes (ip_pool s') (ip_m d)) = D /\
        pktlen_ok (ip_m d) /\ ip_len d = zlen D /\ ip_src d = ip_src ip /\ ip_dst d = ip_dst ip
    end.
Proof. by apply ip_reass_gathered. Qed.

(** Two fragments of an 11-byte payload, one mbuf each, and a queue-less state. *)
Definition demo_frag (addr data total fragoff : Z) : ipasfrag :=
  mk_ipasfrag 5 0 total 77 fragoff 17 1 2 [demo_mbuf addr total data 0 0 0].
Definition demo_frag1 : ipasfrag := demo_frag 4480 0 28 IP_MF.
Definition demo_frag2 : ipasfrag := demo_frag 4736 8 23 1.
Definition demo_ipst : ipst := mk_ipst [] 0 0 0 0 0 0 demo_pool.
Definition demo_payload : list Z := map Z.of_nat (seq 20 11).

Lemma demo_frags_owned : owns demo_pool (frag_mbufs [demo_frag2; demo_frag1]).
Proof.
  pose proof demo_owns as [_ _ Hf _ Hc]. split; [split| |exact Hf| |exact Hc].
  - apply (bool_decide_unpack _). vm_compute. exact I.
  - repeat apply Forall_cons_2; try apply Forall_nil_2; done.
  - repeat apply Forall_cons_2; try apply Forall_nil_2;
      vm_compute; repeat split; try discriminate; try done.
  - intros a. specialize (Hc a). change (refs _ a) with 0. lia.
Qed.
Lemma demo_fragments : Forall (fragment_of demo_payload demo_pool) [demo_frag2; demo_frag1].
Proof.
  repeat apply Forall_cons_2; [| |constructor]; (split; [by intros h [= <-]|split; [split|]]).
  1,4: intros h [= <-]; vm_compute; discriminate.
  1,3: vm_compute; repeat split; try discriminate; done.
  - right. vm_compute. discriminate.
  - left. vm_compute. discriminate.
Qed.

Lemma ip_reass_correct_witness :
  exists d s', arrivals MGET_list 8 [demo_frag2; demo_frag1] demo_ipst = Some (Some d, [], s') /\
    ip_len d = 11 /\ drop 20 (bytes (ip_pool s') (ip_m d)) = demo_payload /\ ip_nfrags s' = 1 /\
    ipq_head s' = [].
Proof.
  destruct (ip_reass_correct MGET_list 8 [] demo_payload demo_frag2 [demo_frag1]
    (mget_init MT_FTABLE (demo_mbuf 4224 0 0 0 0 0)) (snd (MGET_list MT_FTABLE demo_pool)) demo_ipst)
    as (r & rest & s' & E & Hn & _ & Hr).
  - reflexivity.
  - reflexivity.
  - vm_compute. discriminate.
  - vm_compute. discriminate.
  - rewrite app_nil_r. exact demo_frags_owned.
  - exact demo_fragments.
  - apply Forall_cons_2; [split_and!; reflexivity|constructor].
  - reflexivity.
  - destruct r as [d|].
    + assert (rest = []) as ->.
      { vm_compute in E. by injection E as _ <- _. }
      destruct Hr as (seen & lst & _ & _ & _ & Hh & Hd & _ & Hl & _). exists d, s'.
      split; [exact E|]. split; [exact Hl|]. split; [|split; [exact Hn|by destruct Hh as [Hh|[_ Hh]]]].
      replace (Z.to_nat (ip_hl d * 4)) with 20%nat in Hd; [exact Hd|].
      clear Hd. vm_compute in E. by injection E as <- _.
    + exfalso. clear Hr Hn. vm_compute in E. discriminate.
Defined.

(** * Any fragments at all *)

(** A queue whose fragments can still be put together: their headers are in front of
    them, they are counted, and time is left. *)
Definition queue_safe (fp : ipq) : Prop :=
  Forall frag_ok (ipq_frags fp) /\ ipq_nfrags fp = Z.of_nat (length (ipq_frags fp)) /\
  ipq_nfrags fp <= IP_MAXFRAGSPERPACKET /\ 0 < ipq_ttl fp <= IPFRAGTTL.

Definition queues_safe (s : ipst) : Prop :=
  Forall queue_safe (ipq_head s) /\ Z.of_nat (length (ipq_head s)) <= IP_MAXFRAGPACKETS /\
  Z.of_nat (length (ipq_head s)) <= ip_nfrags s.

Lemma trim_after_safe R ip a : forall p,
  owns p (frag_mbufs a ++ R) -> Forall frag_ok a ->
  exists a' n p', trim_after ip a p = (a', n, p') /\ evolve R p (frag_mbufs a) p' (frag_mbufs a') /\
    Forall frag_ok a' /\ 0 <= n /\ Z.of_nat (length a') + n = Z.of_nat (length a).
Proof.
  induction a as [|q a IH]; intros p Ho Hok; cbn [trim_after].
  { exists [], 0, p. split; [done|]. split; [by apply evolve_refl|]. done. }
  destruct (off q <? _) eqn:Hlt.
  2:{ exists (q :: a), 0, p. split; [done|]. split; [by apply evolve_refl|]. split; [done|]. lia. }
  apply Forall_cons in Hok as [Hq Hok]. rewrite frag_mbufs_cons, <- app_assoc in Ho.
  set (i := off ip + len ip - off q). destruct (i <? len q) eqn:Hil.
  - pose proof (owns_wf _ _ Ho) as Hw. rewrite !Forall_app in Hw. destruct Hw as (Hwq & Hw & _).
    destruct (m_adj_ok p (ip_m q) i Hwq) as (_ & Hid & Hwf).
    eexists (_ :: a), 0, p. split; [reflexivity|]. rewrite !frag_mbufs_cons. split.
    + apply evolve_in; [by apply Forall2_app|by apply Forall_app_2|by rewrite <- app_assoc].
    + split; [|cbn [length]; lia]. apply Forall_cons_2; [|done]. apply header_room_adj; [lia|done].
  - pose proof (m_freem_ok (ip_m q) (frag_mbufs a ++ R) p Ho) as Hf.
    pose proof (evolve_frame R (frag_mbufs a) _ _ _ _ Hf) as Hf2.
    destruct (IH _ (ev_owns _ _ _ _ _ Hf2) Hok) as (a' & n & p' & -> & He & Hok' & Hn & Hlen).
    exists a', (n + 1), p'. split; [done|]. rewrite frag_mbufs_cons.
    split; [by eapply evolve_trans|]. split; [done|]. cbn [length]. lia.
Qed.

(** The queue being worked on stays, as [qs], or goes. *)
Definition stays_or_goes (pre post : list ipq) (s s' : ipst) (qs : list ipq) : Prop :=
  ipq_head s' = pre ++ qs ++ post /\ Forall queue_safe qs /\ (length qs <= 1)%nat /\
  Z.of_nat (length (ipq_head s')) <= ip_nfrags s' <= ip_nfrags s.

Lemma complete_goes K pre fp post f fs next s :
  ipq_head s = pre ++ fp :: post -> ipq_frags fp = f :: fs -> frag_ok f ->
  Z.of_nat (length (ipq_head s)) <= ip_nfrags s -> owns (ip_pool s) (held fp ++ K) ->
  exists d s', complete (length pre) fp next s = Some (Some d, s') /\
    stays_or_goes pre post s s' [] /\ evolve K (ip_pool s) (held fp) (ip_pool s') (ip_m d).
Proof.
  intros Hh Hf Hok Hn Ho.
  destruct (complete_ok K (length pre) pre fp post f fs next s Hh eq_refl Hf Hok Ho)
    as (d & s' & E & Hh' & He & _ & _ & _ & _ & _ & _ & Hnf).
  exists d, s'. split; [done|]. split; [|done]. split; [done|]. split; [constructor|]. split; [simpl; lia|].
  rewrite Hh', Hnf. rewrite Hh in Hn. rewrite length_app in *. cbn [length] in Hn. lia.
Qed.

Lemma ip_freef_goes K pre fp post s :
  ipq_head s = pre ++ fp :: post -> Z.of_nat (length (ipq_head s)) <= ip_nfrags s ->
  owns (ip_pool s) (held fp ++ K) ->
  stays_or_goes pre post s (ip_freef (length pre) s) [] /\
  evolve K (ip_pool s) (held fp) (ip_pool (ip_freef (length pre) s)) [].
Proof.
  intros Hh Hn Ho. destruct (ip_freef_ok K (length pre) pre fp post s Hh eq_refl Ho) as (Hh' & He & Hnf).
  split; [|done]. split; [done|]. split; [constructor|]. split; [simpl; lia|].
  rewrite Hh', Hnf. rewrite Hh in Hn. rewrite length_app in *. cbn [length] in Hn. case_match; lia.
Qed.

Lemma ip_insert_safe K pre fp0 fp post before after ip s :
  let fs := before ++ ip :: after in
  ipq_head s = pre ++ fp0 :: post -> Forall frag_ok fs ->
  ipq_nfrags fp = Z.of_nat (length (before ++ after)) -> ipq_nfrags fp <= IP_MAXFRAGSPERPACKET ->
  0 < ipq_ttl fp <= IPFRAGTTL -> Z.of_nat (length (ipq_head s)) <= ip_nfrags s ->
  owns (ip_pool s) ((qmbuf fp :: frag_mbufs fs) ++ K) ->
  exists r s' qs, ip_insert (length pre) fp before after ip s = Some (r, s') /\
    stays_or_goes pre post s s' qs /\
    evolve K (ip_pool s) (qmbuf fp :: frag_mbufs fs) (ip_pool s')
      (held_by qs ++ match r with Some d => ip_m d | None => [] end).
Proof.
  intros fs Hh Hok Hnf Hcap Httl Hn Ho. unfold ip_insert. rewrite Hh.
  assert (Hlen : forall x, Z.of_nat (length (pre ++ x :: post)) <= ip_nfrags s).
  { intros x. rewrite Hh in Hn. rewrite length_app in *. exact Hn. }
  unfold IP_MAXFRAGSPERPACKET in *. destruct (64 <=? ipq_nfrags fp) eqn:?; rewrite insert_middle.
  - set (fp1 := fp <| ipq_frags ::= before ++ after |>).
    assert (Ho1 : owns (ip_pool s) (ip_m ip ++ held fp1 ++ K)).
    { revert Ho. apply owns_Permutation. change (held fp1) with (qmbuf fp :: frag_mbufs (before ++ after)). unfold fs.
      rewrite !frag_mbufs_app, frag_mbufs_cons. solve_Permutation. }
    pose proof (m_freem_ok _ _ _ Ho1) as He. eexists None, _, [fp1]. split; [reflexivity|]. split.
    + split; [done|]. split; [|split; [simpl; lia|split; [apply Hlen|apply Z.le_refl]]].
      apply Forall_cons_2; [|constructor]. unfold fs in Hok.
      apply Forall_app in Hok as [H1 [_ H2]%Forall_cons]. split; [by apply Forall_app_2|].
      split; [exact Hnf|]. split; [exact Hcap|exact Httl].
    + apply evolve_frame in He. eapply evolve_perm; [| |exact He].
      * change (held fp1) with (qmbuf fp :: frag_mbufs (before ++ after)). unfold fs.
        rewrite !frag_mbufs_app, frag_mbufs_cons. solve_Permutation.
      * unfold held_by. cbn. rewrite !app_nil_r. done.
  - fold fs. set (fp1 := fp <| ipq_frags ::= fs |> <| ipq_nfrags ::= _ |>).
    set (s1 := s <| ipq_head ::= pre ++ fp1 :: post |>). change (ipq_frags fp1) with fs.
    assert (Hkeep : stays_or_goes pre post s s1 [fp1]).
    { split; [done|]. split; [|split; [simpl; lia|split; [apply Hlen|apply Z.le_refl]]].
      apply Forall_cons_2; [|constructor]. rewrite length_app in Hnf.
      assert (Hn1 : ipq_nfrags fp1 = Z.of_nat (length fs)).
      { unfold fs. rewrite length_app. cbn [length]. cbn. rewrite u16_small; lia. }
      split; [exact Hok|]. split; [exact Hn1|]. split; [|exact Httl].
      rewrite Hn1. unfold fs, IP_MAXFRAGSPERPACKET. rewrite length_app. cbn [length]. lia. }
    assert (Hevk : evolve K (ip_pool s) (qmbuf fp :: frag_mbufs fs) (ip_pool s1) (held_by [fp1] ++ [])).
    { rewrite app_nil_r. unfold held_by. cbn. rewrite app_nil_r. by apply evolve_refl. }
    destruct (contiguous 0 fs) as [n|];
      [|exists None, s1, [fp1]; split; [done|]; split; [exact Hkeep|exact Hevk]].
    destruct (last fs) as [q|] eqn:Hlast;
      [|exists None, s1, [fp1]; split; [done|]; split; [exact Hkeep|exact Hevk]].
    destruct (ipf_mff q =? 0); cbn [negb];
      [|exists None, s1, [fp1]; split; [done|]; split; [exact Hkeep|exact Hevk]].
    destruct (32767 <? n).
    + destruct (ip_freef_goes K pre fp1 post s1 eq_refl (Hlen fp1) Ho) as [Hg He].
      eexists None, _, []. split; [reflexivity|]. by split.
    + destruct fs as [|f0 fs0] eqn:Hfs0; [done|].
      apply Forall_cons in Hok as [Hok0 _].
      destruct (complete_goes K pre fp1 post f0 fs0 n s1 eq_refl eq_refl Hok0 (Hlen fp1) Ho) as (d & s' & E & Hg & He).
      exists (Some d), s', []. split; [exact E|]. split; [exact Hg|exact He].
Qed.

(** A header that is wholly in an mbuf of its own storage. *)
Definition header_own (ip : ipasfrag) : Prop :=
  match ip_m ip with
  | h :: _ => has h M_EXT = false /\ 0 <= ip_hl ip * 4 <= m_len h
  | [] => False
  end.

(** What [ipintr] hands over: such a header, or one without options at the front of a
    cluster, for which [m_pullup] is called. *)
Definition header_in (fuel : nat) (ip : ipasfrag) : Prop :=
  header_own ip \/
  match ip_m ip with
  | h :: _ => has h M_EXT = true /\ 0 <= ip_hl ip * 4 <= IP_SIZE /\
      (length (ip_m ip) <= fuel)%nat /\ chain_len (ip_m ip) < 2147483648
  | [] => False
  end.

Lemma strip_header_safe R p ip :
  header_own ip -> owns p (ip_m ip ++ R) ->
  frag_ok (strip_header ip) /\ evolve R p (ip_m ip) p (ip_m (strip_header ip)).
Proof.
  intros Hin Ho. pose proof (owns_wf _ _ Ho) as Hw. apply Forall_app in Hw as [Hw _].
  assert (Hok : frag_ok (strip_header ip)).
  { unfold header_own, frag_ok, strip_header in *. destruct (ip_m ip) as [|h r]; [done|].
    destruct Hin as [Hx Hl]. apply Forall_cons in Hw as [(_ & _ & ? & _ & _ & _ & Hp) _]. cbn.
    split; [done|]. split; [lia|]. unfold hdr_base. change (has (h <| m_data ::= _ |> <| m_len ::= _ |>)) with (has h).
    destruct (has h M_PKTHDR); [specialize (Hp eq_refl Hx)|]; lia. }
  split; [done|]. destruct (strip_header_ok p ip) as [H1 H2]; [|done|done|by apply evolve_in].
  unfold header_own in Hin. intros h Hh. destruct (ip_m ip); [done|]. injection Hh as ->. lia.
Qed.

Lemma find_queue_Some ip qs i :
  find_queue ip qs = Some i ->
  exists pre fp post, qs = pre ++ fp :: post /\ i = length pre /\ same_datagram ip fp = true.
Proof.
  revert i. induction qs as [|q qs IH]; intros i; simpl; [done|].
  destruct (same_datagram ip q) eqn:E; [intros [= <-]; by exists [], q, qs|].
  destruct (find_queue ip qs) as [j|]; [|done]. intros [= <-].
  destruct (IH j eq_refl) as (pre & fp & post & -> & -> & ?). by exists (q :: pre), fp, post.
Qed.

(** After a step on one queue, all queues are safe. *)
Lemma queues_after pre fp post s s' qs :
  ipq_head s = pre ++ fp :: post -> queues_safe s -> stays_or_goes pre post s s' qs -> queues_safe s'.
Proof.
  intros Hh (Hs & H8 & Hn) (Hh' & Hqs & Hl & Hn' & Hle). rewrite Hh in Hs, H8.
  apply Forall_app in Hs as [H1 [_ H2]%Forall_cons]. split; [|split].
  - rewrite Hh'. by repeat apply Forall_app_2.
  - rewrite Hh'. rewrite length_app in *. cbn [length] in H8. rewrite length_app. lia.
  - exact Hn'.
Qed.

Lemma ip_reass_held_safe mget R ip pre fp post s :
  ipq_head s = pre ++ fp :: post -> queues_safe s -> header_own ip ->
  owns (ip_pool s) ((held_by (ipq_head s) ++ ip_m ip) ++ R) ->
  exists r s', ip_reass mget ip (Some (length pre)) s = Some (r, s') /\ queues_safe s' /\
    evolve R (ip_pool s) (held_by (ipq_head s) ++ ip_m ip) (ip_pool s')
      (held_by (ipq_head s') ++ match r with Some d => ip_m d | None => [] end).
Proof.
  intros Hh Hsafe Hin Ho. unfold ip_reass. set (Q := held_by pre ++ held_by post).
  assert (HQ : forall c, held_by (ipq_head s) ++ c ≡ₚ c ++ held fp ++ Q).
  { intros c. rewrite Hh, held_by_middle. unfold Q. solve_Permutation. }
  rewrite HQ in Ho. rewrite <- app_assoc in Ho.
  destruct (strip_header_safe ((held fp ++ Q) ++ R) (ip_pool s) ip Hin Ho) as [Hok0 He0].
  remember (strip_header ip) as ip1. clear Heqip1.
  replace (ipq_head s !! length pre) with (Some fp) by (by rewrite Hh, list_lookup_middle).
  cbn [mbind option_bind]. destruct (find_after ip1 (ipq_frags fp)) as [b a] eqn:Hfa.
  destruct (find_after_ok _ _ _ _ Hfa) as (Hba & _ & _).
  pose proof Hsafe as (Hall & H8 & Hnq). rewrite Hh in Hall.
  apply Forall_app in Hall as [_ [(Hfr & Hnf & Hcap & Httl) _]%Forall_cons].
  assert (Hheld : held fp = (qmbuf fp :: frag_mbufs b) ++ frag_mbufs a)
    by (unfold held; by rewrite Hba, frag_mbufs_app).
  rewrite Hba in Hfr, Hnf. apply Forall_app in Hfr as [Hfb Hfa2].
  destruct (trim_front (last b) ip1) as [ip2|] eqn:Htf.
  2:{ eexists None, _. split; [reflexivity|]. split; [exact Hsafe|]. rewrite app_nil_r.
      pose proof (m_freem_ok _ _ _ (ev_owns _ _ _ _ _ He0)) as He.
      pose proof (evolve_trans _ _ _ _ _ _ _ He0 He) as He'. apply evolve_frame in He'.
      eapply evolve_perm; [| |exact He']; [by rewrite HQ|].
      change (ipq_head (dropfrag _ s)) with (ipq_head s).
      rewrite <- (app_nil_r (held_by (ipq_head s))), HQ. done. }
  assert (He1 : evolve ((held fp ++ Q) ++ R) (ip_pool s) (ip_m ip) (ip_pool s) (ip_m ip2) /\ frag_ok ip2).
  { unfold trim_front in Htf. destruct (last b) as [q|]; [|by injection Htf as <-].
    destruct (0 <? _) eqn:?; [|by injection Htf as <-].
    destruct (len ip1 <=? _); [done|]. injection Htf as <-.
    pose proof (owns_wf _ _ (ev_owns _ _ _ _ _ He0)) as Hw. apply Forall_app in Hw as [Hw _].
    destruct (m_adj_ok _ (ip_m ip1) (off q + len q - off ip1) Hw) as (_ & Hid & Hwf).
    split; [by eapply evolve_retouch|]. apply header_room_adj; [lia|done]. }
  destruct He1 as [He1 Hok2]. pose proof (evolve_frame _ _ _ _ _ _ He1) as Hf1.
  assert (Ho2 : owns (ip_pool s) (frag_mbufs a ++ ((qmbuf fp :: frag_mbufs b) ++ ip_m ip2 ++ Q) ++ R)).
  { pose proof (ev_owns _ _ _ _ _ He1) as Ho2. revert Ho2. apply owns_Permutation.
    rewrite Hheld. solve_Permutation. }
  destruct (trim_after_safe _ ip2 a _ Ho2 Hfa2) as (a' & n & p1 & -> & He2 & Hfa' & Hn & Hlen).
  pose proof (evolve_frame _ _ _ _ _ _ He2) as Hf2.
  set (fp1 := fp <| ipq_nfrags ::= _ |>). set (s1 := s <| ip_pool ::= p1 |>).
  unfold IP_MAXFRAGSPERPACKET in *. rewrite length_app in Hnf.
  assert (Hn1 : ipq_nfrags fp1 = Z.of_nat (length b + length a')) by (cbn; rewrite u16_small; lia).
  destruct (ip_insert_safe (Q ++ R) pre fp fp1 post b a' ip2 s1) as (r & s' & qs & E & Hg & He3);
    [done|apply Forall_app_2; [done|by apply Forall_cons_2]|by rewrite length_app|
     unfold IP_MAXFRAGSPERPACKET; lia|done|done| |].
  { pose proof (ev_owns _ _ _ _ _ Hf2) as Ho3. revert Ho3. apply owns_Permutation.
    rewrite frag_mbufs_app, frag_mbufs_cons. change (qmbuf fp1) with (qmbuf fp). solve_Permutation. }
  exists r, s'. split; [exact E|]. split; [exact (queues_after pre fp post s s' qs Hh Hsafe Hg)|].
  apply evolve_frame in He3. destruct Hg as (Hh' & _).
  eapply evolve_trans; [eapply evolve_perm; [| |exact Hf1]; [by rewrite HQ|reflexivity]|].
  eapply evolve_trans; [eapply evolve_perm; [| |exact Hf2]; [rewrite Hheld; solve_Permutation|reflexivity]|].
  eapply evolve_perm; [| |exact He3].
  - rewrite frag_mbufs_app, frag_mbufs_cons. change (qmbuf fp1) with (qmbuf fp). solve_Permutation.
  - rewrite Hh', !held_by_app. unfold Q. solve_Permutation.
Qed.

(** Making room: the oldest queue goes when the counter is at the cap. *)
Lemma evict_safe R s :
  queues_safe s -> owns (ip_pool s) (held_by (ipq_head s) ++ R) ->
  let s' := if (IP_MAXFRAGPACKETS <=? ip_nfrags s) && negb (Nat.eqb (length (ipq_head s)) 0)
            then ip_freef (length (ipq_head s) - 1) s else s in
  queues_safe s' /\ Z.of_nat (length (ipq_head s')) < IP_MAXFRAGPACKETS /\
  evolve R (ip_pool s) (held_by (ipq_head s)) (ip_pool s') (held_by (ipq_head s')).
Proof.
  intros Hsafe Ho s'. pose proof Hsafe as (Hall & H8 & Hn). unfold IP_MAXFRAGPACKETS in *.
  destruct (decide (ipq_head s = [])) as [He|He].
  { assert (s' = s) as -> by (unfold s'; by rewrite He, andb_false_r). rewrite He in *.
    split; [done|]. split; [done|by apply evolve_refl]. }
  assert (Hne : length (ipq_head s) <> 0%nat) by (by rewrite length_zero_iff_nil).
  unfold s'. replace (Nat.eqb _ _) with false by (symmetry; by apply Nat.eqb_neq).
  destruct (8 <=? ip_nfrags s) eqn:Hc; cbn [andb negb].
  2:{ split; [done|]. split; [lia|]. by apply evolve_refl. }
  destruct (exists_last He) as (pre & fp & Hh).
  assert (Hi : (length (ipq_head s) - 1 = length pre)%nat) by (rewrite Hh, length_app; simpl; lia).
  rewrite Hi. assert (Ho1 : owns (ip_pool s) (held fp ++ held_by pre ++ R)).
  { revert Ho. apply owns_Permutation. rewrite Hh, held_by_app. unfold held_by at 2. cbn. solve_Permutation. }
  destruct (ip_freef_goes _ pre fp [] s Hh Hn Ho1) as [Hg Hev].
  split; [exact (queues_after pre fp [] s _ [] Hh Hsafe Hg)|]. apply evolve_frame in Hev.
  destruct Hg as (Hh' & _). cbn [app] in *. rewrite app_nil_r in Hh'. rewrite Hh'. split; [lia|].
  eapply evolve_perm; [| |exact Hev]; [|done]. rewrite Hh, held_by_app. unfold held_by at 3. cbn. solve_Permutation.
Qed.

Lemma reclaim_safe R s :
  queues_safe s -> owns (ip_pool s) (held_by (ipq_head s) ++ R) ->
  let s' := ip_reclaim s in
  queues_safe s' /\ Z.of_nat (length (ipq_head s')) <= Z.of_nat (length (ipq_head s)) /\
  evolve R (ip_pool s) (held_by (ipq_head s)) (ip_pool s') (held_by (ipq_head s')).
Proof.
  intros Hs Ho. destruct (ip_reclaim_ok R s Ho) as (Hsp & _ & _ & H0 & Hev). cbv zeta.
  destruct Hsp as [E|[_ E]]; [rewrite E in *; split; [done|]; split; [lia|done]|].
  split; [|split; [rewrite E; simpl; lia|done]]. destruct Hs as (_ & _ & Hn). unfold queues_safe, IP_MAXFRAGPACKETS. rewrite E.
  split; [constructor|]. split; [done|]. simpl. apply H0. lia.
Qed.

Lemma new_queue_safe mget `{!Allocator mget} R ip s :
  queues_safe s -> owns (ip_pool s) (held_by (ipq_head s) ++ R) ->
  let '(q, s') := new_queue mget ip s in
  queues_safe s' /\ evolve R (ip_pool s) (held_by (ipq_head s)) (ip_pool s') (held_by (ipq_head s')) /\
  (forall fp, q = Some fp -> exists qs, ipq_head s' = fp :: qs /\ ipq_frags fp = [] /\ queue_safe fp).
Proof.
  intros Hsafe Ho. unfold new_queue.
  destruct (evict_safe R s Hsafe Ho) as (Hsafe0 & Hlt0 & He0). set (s0 := if _ && _ then _ else s) in *. cbv zeta.
  destruct (reclaim_safe R s0 Hsafe0 (ev_owns _ _ _ _ _ He0)) as (Hsafe1 & Hle & He1).
  pose proof (evolve_trans _ _ _ _ _ _ _ He0 He1) as He1'. clear He1. rename He1' into He1.
  set (s1 := ip_reclaim s0) in *.
  assert (Hlt : Z.of_nat (length (ipq_head s1)) < IP_MAXFRAGPACKETS) by lia.
  destruct (mget MT_FTABLE (ip_pool s1)) as [t p] eqn:Hg.
  pose proof (alloc_ok MT_FTABLE _ _ _ _ ltac:(vm_compute; split; reflexivity) (ev_owns _ _ _ _ _ He1) Hg) as Ha.
  destruct t as [t|].
  - destruct Ha as (_ & _ & _ & He2). apply evolve_frame in He2. cbn [app] in He2.
    set (fp := mk_ipq _ _ _ _ _ _ _ _).
    assert (Hfp : queue_safe fp).
    { split; [constructor|]. split; [done|]. vm_compute. split; [discriminate|]. by split. }
    destruct Hsafe1 as (Hall & _ & Hn1). split; [|split].
    + split; [by apply Forall_cons_2|]. cbn [ipq_head ip_nfrags]. 
      change (ipq_head (_ <| ipq_head ::= _ |> <| ip_nfrags ::= _ |>)) with (fp :: ipq_head s1).
      change (ip_nfrags (_ <| ipq_head ::= _ |> <| ip_nfrags ::= _ |>)) with (ip_nfrags s1 + 1).
      cbn [length]. lia.
    + eapply evolve_trans; [exact He1|]. exact He2.
    + intros fp' [= <-]. by exists (ipq_head s1).
  - split; [exact Hsafe1|]. split; [|done].
    apply evolve_frame in Ha. cbn [app] in Ha. by eapply evolve_trans.
Qed.

Lemma ip_reass_new_safe mget `{!Allocator mget} R ip s :
  queues_safe s -> header_own ip -> owns (ip_pool s) ((held_by (ipq_head s) ++ ip_m ip) ++ R) ->
  exists r s', ip_reass mget ip None s = Some (r, s') /\ queues_safe s' /\
    evolve R (ip_pool s) (held_by (ipq_head s) ++ ip_m ip) (ip_pool s')
      (held_by (ipq_head s') ++ match r with Some d => ip_m d | None => [] end).
Proof.
  intros Hsafe Hin Ho. unfold ip_reass.
  assert (Ho0 : owns (ip_pool s) (ip_m ip ++ held_by (ipq_head s) ++ R))
    by (revert Ho; apply owns_Permutation; solve_Permutation).
  destruct (strip_header_safe _ _ _ Hin Ho0) as [Hok He0].
  remember (strip_header ip) as ip1. clear Heqip1. pose proof (evolve_frame _ _ _ _ _ _ He0) as Hf0.
  assert (Ho1 : owns (ip_pool s) (held_by (ipq_head s) ++ ip_m ip1 ++ R)).
  { pose proof (ev_owns _ _ _ _ _ He0) as Ho1. revert Ho1. apply owns_Permutation. solve_Permutation. }
  pose proof (new_queue_safe mget _ ip1 s Hsafe Ho1) as Hnew.
  destruct (new_queue mget ip1 s) as [q s1]. destruct Hnew as (Hsafe1 & He1 & Hq).
  pose proof (evolve_frame _ _ _ _ _ _ He1) as Hf1.
  assert (Hev : evolve R (ip_pool s) (held_by (ipq_head s) ++ ip_m ip) (ip_pool s1) (held_by (ipq_head s1) ++ ip_m ip1)).
  { eapply evolve_trans; [|exact Hf1]. eapply evolve_perm; [| |exact Hf0]; solve_Permutation. }
  destruct q as [fp|].
  - destruct (Hq fp eq_refl) as (qs & Hh & Hfr & _ & Hnf & _ & Httl). rewrite Hfr in Hnf.
    destruct (ip_insert_safe (held_by qs ++ R) [] fp fp qs [] [] ip1 s1) as (r & s' & ks & E & Hg & He);
      [done|apply Forall_cons_2; [done|constructor]|done|by rewrite Hnf|done|apply Hsafe1| |].
    { pose proof (ev_owns _ _ _ _ _ Hev) as Ho2. revert Ho2. apply owns_Permutation.
      rewrite Hh, held_by_cons. unfold held. rewrite Hfr. cbn [app]. rewrite frag_mbufs_cons.
      change (frag_mbufs []) with (@nil mbuf). rewrite app_nil_r. solve_Permutation. }
    exists r, s'. split; [exact E|]. split; [exact (queues_after [] fp qs s1 s' ks Hh Hsafe1 Hg)|].
    eapply evolve_trans; [exact Hev|]. apply evolve_frame in He. destruct Hg as (Hh' & _).
    eapply evolve_perm; [| |exact He].
    + rewrite Hh, held_by_cons. unfold held. rewrite Hfr. cbn [app]. rewrite frag_mbufs_cons.
      change (frag_mbufs []) with (@nil mbuf). rewrite app_nil_r. solve_Permutation.
    + rewrite Hh'. cbn [app]. rewrite held_by_app. solve_Permutation.
  - eexists None, _. split; [reflexivity|]. split; [exact Hsafe1|]. rewrite app_nil_r.
    eapply evolve_trans; [exact Hev|].
    change (ipq_head (dropfrag _ s1)) with (ipq_head s1).
    assert (Ho2 : owns (ip_pool s1) (ip_m ip1 ++ held_by (ipq_head s1) ++ R)).
    { pose proof (ev_owns _ _ _ _ _ Hev) as Ho2. revert Ho2. apply owns_Permutation. solve_Permutation. }
    pose proof (m_freem_ok _ _ _ Ho2) as He. apply evolve_frame in He.
    eapply evolve_perm; [| |exact He]; [solve_Permutation|done].
Qed.

(** Once the header is in an mbuf of its own. *)
Lemma ip_fragment_own mget `{!Allocator mget} fuel R ip s :
  queues_safe s -> header_own ip -> owns (ip_pool s) ((held_by (ipq_head s) ++ ip_m ip) ++ R) ->
  exists r s', ip_fragment mget fuel ip s = Some (r, s') /\ queues_safe s' /\
    evolve R (ip_pool s) (held_by (ipq_head s) ++ ip_m ip) (ip_pool s')
      (held_by (ipq_head s') ++ match r with Some d => ip_m d | None => [] end).
Proof.
  intros Hsafe Hin Ho. unfold header_own in Hin. destruct (ip_m ip) as [|h c] eqn:Hm; [done|].
  unfold ip_fragment. rewrite Hm. destruct Hin as [Hx Hl]. rewrite Hx. cbn [mbind option_bind]. cbv iota.
  replace (ip <| ip_m ::= h :: c |>) with ip by (destruct ip; cbn in Hm |- *; by subst).
  set (fp := find_queue ip (ipq_head s)).
  assert (Hfp : forall i, fp = Some i -> exists pre q post, ipq_head s = pre ++ q :: post /\ i = length pre).
  { intros i Hi. destruct (find_queue_Some _ _ _ Hi) as (pre & q & post & ? & ? & _). by exists pre, q, post. }
  rewrite <- Hm in Ho |- *. destruct (negb _ || negb _).
  - set (s2 := s <| ips_fragments ::= _ |>).
    assert (Hin : header_own (frag_fields ip)).
    { unfold header_own. change (ip_m (frag_fields ip)) with (ip_m ip). by rewrite Hm. }
    assert (Hr : exists r s', ip_reass mget (frag_fields ip) fp s2 = Some (r, s') /\ queues_safe s' /\
      evolve R (ip_pool s) (held_by (ipq_head s) ++ ip_m ip) (ip_pool s')
        (held_by (ipq_head s') ++ match r with Some d => ip_m d | None => [] end)).
    { destruct fp as [i|]; [|exact (ip_reass_new_safe mget R (frag_fields ip) s2 Hsafe Hin Ho)].
      destruct (Hfp i eq_refl) as (pre & q & post & Hh & ->).
      exact (ip_reass_held_safe mget R (frag_fields ip) pre q post s2 Hh Hsafe Hin Ho). }
    destruct Hr as (r & s' & -> & Hs' & He). cbn [mbind option_bind].
    exists r. destruct r; eexists; (split; [reflexivity|]; by split).
  - eexists (Some (frag_fields ip)), _. split; [reflexivity|].
    destruct fp as [i|]; [|split; [exact Hsafe|by apply evolve_refl]].
    destruct (Hfp i eq_refl) as (pre & q & post & Hh & ->).
    assert (Ho1 : owns (ip_pool s) (held q ++ (held_by pre ++ held_by post) ++ ip_m ip ++ R)).
    { revert Ho. apply owns_Permutation. rewrite Hh, held_by_middle. solve_Permutation. }
    destruct (ip_freef_goes _ pre q post s Hh (proj2 (proj2 Hsafe)) Ho1) as [Hg He].
    split; [exact (queues_after pre q post s _ [] Hh Hsafe Hg)|]. destruct Hg as (Hh' & _).
    rewrite app_assoc in He. apply evolve_frame in He. rewrite Hh'. cbn [app]. rewrite held_by_app.
    eapply evolve_perm; [| |exact He]; [|done]. rewrite Hh, held_by_middle. solve_Permutation.
Qed.

(** A fragment in a cluster goes on as what [m_pullup] makes of it. *)
Lemma ip_fragment_cluster mget fuel ip s h c m p :
  ip_m ip = h :: c -> has h M_EXT = true ->
  m_pullup mget fuel (h :: c) IP_SIZE (ip_pool (ip_reclaim s)) = Some (m, p) ->
  match m with x :: _ => has x M_EXT = false | [] => True end ->
  let s1 := ip_reclaim s <| ip_pool ::= p |> in
  ip_fragment mget fuel ip s =
    match m with
    | [] => Some (None, s1 <| ips_toosmall ::= ips_toosmall s1 + 1 |>)
    | _ => ip_fragment mget fuel (ip <| ip_m ::= m |>) s1
    end.
Proof.
  intros Hm Hx Hp Hm'. cbv zeta. unfold ip_fragment at 1. rewrite Hm, Hx. cbn [mbind option_bind]. cbv zeta.
  rewrite Hp. cbn [mbind option_bind]. destruct m as [|x m]; [done|]. unfold ip_fragment.
  change (ip_m (ip <| ip_m ::= x :: m |>)) with (x :: m). cbv iota. rewrite Hm'. done.
Qed.

Lemma ip_fragment_ok mget `{!Allocator mget} fuel R ip s :
  queues_safe s -> header_in fuel ip -> owns (ip_pool s) ((held_by (ipq_head s) ++ ip_m ip) ++ R) ->
  exists r s', ip_fragment mget fuel ip s = Some (r, s') /\ queues_safe s' /\
    evolve R (ip_pool s) (held_by (ipq_head s) ++ ip_m ip) (ip_pool s')
      (held_by (ipq_head s') ++ match r with Some d => ip_m d | None => [] end).
Proof.
  intros Hsafe [Hin|Hin] Ho; [by apply ip_fragment_own|]. destruct (ip_m ip) as [|h c] eqn:Hm; [done|].
  destruct Hin as (Hx & Hhl & Hf & Hl). rewrite <- app_assoc in Ho.
  destruct (reclaim_safe _ s Hsafe Ho) as (Hsafe1 & _ & Hev1). pose proof (evolve_frame _ _ _ _ _ _ Hev1) as Hf1.
  set (s1 := ip_reclaim s) in *.
  assert (Ho1 : owns (ip_pool s1) ((h :: c) ++ held_by (ipq_head s1) ++ R)).
  { pose proof (ev_owns _ _ _ _ _ Hf1) as Ho1. revert Ho1. apply owns_Permutation. solve_Permutation. }
  destruct (m_pullup_ok mget _ fuel h c IP_SIZE _ Ho1 Hf Hl) as (c' & p' & E & Hev2 & Hpul).
  assert (Hev : evolve R (ip_pool s) (held_by (ipq_head s) ++ h :: c) p' (held_by (ipq_head s1) ++ c')).
  { eapply evolve_trans; [exact Hf1|]. apply evolve_frame in Hev2. eapply evolve_perm; [| |exact Hev2]; solve_Permutation. }
  assert (Hx' : match c' with x :: _ => has x M_EXT = false | [] => True end).
  { destruct c' as [|x c']; [done|]. by destruct Hpul as (m & r & [= <- <-] & _ & _ & _ & _ & Hpx). }
  rewrite (ip_fragment_cluster mget fuel ip s h c c' p' Hm Hx E Hx'). fold s1. destruct c' as [|x c'].
  - rewrite app_nil_r in Hev. eexists None, _. split; [reflexivity|]. rewrite app_nil_r. by split.
  - destruct Hpul as (m & r & [= <- <-] & Hlen & _ & _ & _); [done|].
    destruct (ip_fragment_own mget fuel R (ip <| ip_m ::= x :: c' |>) (s1 <| ip_pool ::= p' |>)) as (r & s' & Er & Hs' & Her).
    + exact Hsafe1.
    + unfold header_own. cbn. split; [done|]. lia.
    + apply (ev_owns _ _ _ _ _ Hev).
    + exists r, s'. split; [exact Er|]. split; [exact Hs'|]. eapply evolve_trans; [exact Hev|exact Her].
Qed.

(** C25.  Whatever fragments arrive - overlapping, inconsistent, endless, of any
    number of datagrams, in mbufs or in clusters, there without options - the fragment
    path of [ipintr] returns, also when no mbuf is free and the queues are drained under it;
    there are never more than 8 queues nor more than 64 fragments on one, the counter
    never falls below the number of queues, and no mbuf is lost or used twice: each is on
    a queue, in the packet handed on, or back in the pool.  (With options in a cluster
    the first mbuf's length can become negative: see [options_in_cluster].) *)
Theorem ip_fragment_safe mget `{!Allocator mget} fuel R ip s :
  queues_safe s -> header_in fuel ip -> owns (ip_pool s) ((held_by (ipq_head s) ++ ip_m ip) ++ R) ->
  exists r s', ip_fragment mget fuel ip s = Some (r, s') /\ queues_safe s' /\
    evolve R (ip_pool s) (held_by (ipq_head s) ++ ip_m ip) (ip_pool s')
      (held_by (ipq_head s') ++ match r with Some d => ip_m d | None => [] end).
Proof. by apply ip_fragment_ok. Qed.

Lemma ip_fragment_safe_witness :
  exists r s', ip_fragment MGET_list 8 demo_frag2 demo_ipst = Some (r, s') /\ queues_safe s' /\
    length (ipq_head s') = 1%nat.
Proof.
  destruct (ip_fragment_safe MGET_list 8 (ip_m demo_frag1) demo_frag2 demo_ipst) as (r & s' & E & Hs & _).
  - split; [constructor|]. split; vm_compute; discriminate.
  - left. vm_compute. repeat split; discriminate.
  - exact demo_frags_owned.
  - exists r, s'. split; [exact E|]. split; [exact Hs|]. clear Hs. vm_compute in E. by injection E as _ <-.
Defined.

(** * The timers *)

(** A queue [k] ticks older. *)
Definition aged (k : Z) (q : ipq) : ipq := q <| ipq_ttl ::= ipq_ttl q - k |>.
(** The queues with more than [k] ticks left, [k] ticks later. *)
Fixpoint survivors (k : Z) (qs : list ipq) : list ipq :=
  match qs with
  | [] => []
  | q :: qs => if k <? ipq_ttl q then aged k q :: survivors k qs else survivors k qs
  end.
Definition gone (k : Z) (qs : list ipq) : Z := Z.of_nat (length qs) - Z.of_nat (length (survivors k qs)).

Lemma survivors_length k qs : (length (survivors k qs) <= length qs)%nat.
Proof. induction qs as [|q qs IH]; simpl; [done|]. case_match; simpl; lia. Qed.

Lemma survivors_0 qs : Forall queue_safe qs -> survivors 0 qs = qs.
Proof.
  induction 1 as [|q qs (_ & _ & _ & Ht) _ IH]; simpl; [done|].
  replace (0 <? ipq_ttl q) with true by lia. rewrite IH. f_equal. unfold aged. rewrite Z.sub_0_r. by destruct q.
Qed.

Lemma survivors_survivors j k qs : 0 <= k -> 0 <= j -> survivors j (survivors k qs) = survivors (k + j) qs.
Proof.
  intros Hk Hj. induction qs as [|q qs IH]; simpl; [done|].
  destruct (k <? ipq_ttl q) eqn:?; simpl.
  - change (ipq_ttl (aged k q)) with (ipq_ttl q - k). rewrite IH.
    replace (j <? ipq_ttl q - k) with (k + j <? ipq_ttl q) by (apply eq_true_iff_eq; lia).
    case_match; [|done]. f_equal. unfold aged. cbn. by rewrite Z.sub_add_distr.
  - rewrite IH. by replace (k + j <? ipq_ttl q) with false by lia.
Qed.

Lemma survivors_all k qs : Forall queue_safe qs -> IPFRAGTTL <= k -> survivors k qs = [].
Proof.
  intros Hq Hk. induction Hq as [|q qs (_ & _ & _ & Ht) _ IH]; simpl; [done|].
  by replace (k <? ipq_ttl q) with false by lia.
Qed.

Lemma survivors_safe k qs : 0 <= k -> Forall queue_safe qs -> Forall queue_safe (survivors k qs).
Proof.
  intros Hk. induction 1 as [|q qs (H1 & H2 & H3 & Ht) _ IH]; simpl; [constructor|].
  destruct (k <? ipq_ttl q) eqn:?; [|done]. apply Forall_cons_2; [|done].
  split; [done|]. split; [done|]. split; [done|]. cbn. lia.
Qed.

Lemma slowtimo_step fuel pre q qs s :
  ipq_head s = pre ++ q :: qs -> 0 < ipq_ttl q <= IPFRAGTTL ->
  slowtimo_walk (S fuel) (length pre) s =
    let s1 := s <| ipq_head ::= pre ++ aged 1 q :: qs |> in
    if ipq_ttl q - 1 =? 0
    then slowtimo_walk fuel (length pre) (ip_freef (length pre) (s1 <| ips_fragtimeout ::= ips_fragtimeout s + 1 |>))
    else slowtimo_walk fuel (S (length pre)) s1.
Proof.
  intros Hh Ht. cbn [slowtimo_walk]. rewrite Hh, list_lookup_middle, insert_middle by done. cbv zeta.
  unfold IPFRAGTTL in *. rewrite u8_small by lia. done.
Qed.

Lemma slowtimo_walk_ok R fuel pre qs : forall s,
  ipq_head s = pre ++ qs -> (length qs <= fuel)%nat -> Forall queue_safe qs ->
  Z.of_nat (length (ipq_head s)) <= ip_nfrags s ->
  owns (ip_pool s) (held_by (ipq_head s) ++ R) ->
  let s' := slowtimo_walk fuel (length pre) s in
  ipq_head s' = pre ++ survivors 1 qs /\ ip_nfrags s' = ip_nfrags s - gone 1 qs /\
  ips_fragtimeout s' = ips_fragtimeout s + gone 1 qs /\
  evolve R (ip_pool s) (held_by (ipq_head s)) (ip_pool s') (held_by (ipq_head s')).
Proof.
  revert fuel pre. induction qs as [|q qs IH]; intros fuel pre s Hh Hf Hq Hn Ho.
  { assert (slowtimo_walk fuel (length pre) s = s) as ->.
    { destruct fuel; [done|]. simpl. by rewrite Hh, app_nil_r, lookup_ge_None_2 by lia. }
    unfold gone. simpl. split; [done|]. split; [lia|]. split; [lia|]. by apply evolve_refl. }
  apply Forall_cons in Hq as [(Hq1 & Hq2 & Hq3 & Hq4) Hq]. destruct fuel as [|fuel]; [simpl in Hf; lia|].
  cbn [survivors length]. rewrite (slowtimo_step fuel pre q qs s Hh Hq4). cbv zeta.
  set (s1 := s <| ipq_head ::= pre ++ aged 1 q :: qs |>).
  assert (Hhb : held_by (ipq_head s1) = held_by (ipq_head s)) by (rewrite Hh; change (ipq_head s1) with (pre ++ aged 1 q :: qs); by rewrite !held_by_app, !held_by_cons).
  assert (Ho1 : owns (ip_pool s1) (held_by (ipq_head s1) ++ R)) by (by rewrite Hhb).
  assert (Hl1 : Z.of_nat (length (ipq_head s1)) <= ip_nfrags s1).
  { rewrite Hh in Hn. cbn. rewrite length_app in *. exact Hn. }
  rewrite <- Hhb. destruct (ipq_ttl q - 1 =? 0) eqn:Hz.
  - replace (1 <? ipq_ttl q) with false by lia.
    set (s2 := s1 <| ips_fragtimeout ::= _ |>).
    assert (Ho2 : owns (ip_pool s2) (held (aged 1 q) ++ held_by (pre ++ qs) ++ R)).
    { revert Ho1. apply owns_Permutation. change (ipq_head s1) with (pre ++ aged 1 q :: qs).
      rewrite held_by_middle, held_by_app. solve_Permutation. }
    destruct (ip_freef_goes _ pre (aged 1 q) qs s2 eq_refl Hl1 Ho2) as [(Hh' & _ & _ & Hn' & _) He].
    cbn [app] in Hh'.
    assert (Hcnt : ip_nfrags (ip_freef (length pre) s2) = ip_nfrags s - 1 /\
       ips_fragtimeout (ip_freef (length pre) s2) = ips_fragtimeout s + 1).
    { unfold ip_freef. change (ipq_head s2) with (pre ++ aged 1 q :: qs).
      rewrite list_lookup_middle by done. destruct (m_free _ _ _). cbn.
      rewrite Hh, length_app in Hn. cbn [length] in Hn. by replace (0 <? ip_nfrags s) with true by lia. }
    destruct (IH fuel pre (ip_freef (length pre) s2)) as (H1 & H2 & H3 & H4);
      [done|simpl in Hf; lia|done|exact Hn'|rewrite Hh'; apply (ev_owns _ _ _ _ _ He)|].
    split; [exact H1|]. unfold gone in *. cbn [survivors length].
    replace (1 <? ipq_ttl q) with false by lia.
    rewrite (proj1 Hcnt) in H2. rewrite (proj2 Hcnt) in H3. split; [lia|]. split; [lia|].
    eapply evolve_trans; [|exact H4]. rewrite Hh'. apply evolve_frame in He.
    eapply evolve_perm; [| |exact He]; [|done].
    change (ipq_head s1) with (pre ++ aged 1 q :: qs). rewrite held_by_middle, held_by_app. done.
  - replace (1 <? ipq_ttl q) with true by lia.
    destruct (IH fuel (pre ++ [aged 1 q]) s1) as (H1 & H2 & H3 & H4);
      [by rewrite <- app_assoc|simpl in Hf; lia|done|exact Hl1|exact Ho1|].
    rewrite length_app, Nat.add_comm in H1, H2, H3, H4. cbn [length Nat.add] in H1, H2, H3, H4.
    rewrite <- app_assoc in H1. split; [exact H1|]. unfold gone in *. cbn [survivors length].
    replace (1 <? ipq_ttl q) with true by lia. cbn [length].
    change (ip_nfrags s1) with (ip_nfrags s) in H2. change (ips_fragtimeout s1) with (ips_fragtimeout s) in H3.
    split; [lia|]. split; [lia|]. exact H4.
Qed.

Lemma ip_slowtimo_ok R s :
  queues_safe s -> owns (ip_pool s) (held_by (ipq_head s) ++ R) ->
  let s' := ip_slowtimo s in
  queues_safe s' /\ ipq_head s' = survivors 1 (ipq_head s) /\
  ip_nfrags s' = ip_nfrags s - gone 1 (ipq_head s) /\
  ips_fragtimeout s' = ips_fragtimeout s + gone 1 (ipq_head s) /\
  evolve R (ip_pool s) (held_by (ipq_head s)) (ip_pool s') (held_by (ipq_head s')).
Proof.
  intros (Hq & H8 & Hn) Ho. unfold ip_slowtimo, IP_MAXFRAGPACKETS in *.
  destruct (slowtimo_walk_ok R 2000 [] (ipq_head s) s eq_refl ltac:(lia) Hq Hn Ho) as (H1 & H2 & H3 & H4).
  cbn [length app] in *. split; [|done]. pose proof (survivors_length 1 (ipq_head s)).
  unfold gone in *. split; [rewrite H1; by apply survivors_safe|]. unfold IP_MAXFRAGPACKETS.
  rewrite H1, H2. lia.
Qed.

Lemma drain_loop_ok R fuel : forall s,
  (length (ipq_head s) <= fuel)%nat -> Z.of_nat (length (ipq_head s)) <= ip_nfrags s ->
  owns (ip_pool s) (held_by (ipq_head s) ++ R) ->
  let s' := drain_loop fuel s in
  ipq_head s' = [] /\ evolve R (ip_pool s) (held_by (ipq_head s)) (ip_pool s') [] /\
  ips_fragdropped s' = ips_fragdropped s + Z.of_nat (length (ipq_head s)).
Proof.
  induction fuel as [|fuel IH]; intros s Hf Hn Ho; cbn [drain_loop].
  { assert (He : ipq_head s = []) by (destruct (ipq_head s); simpl in Hf; [done|lia]).
    rewrite He in *. split; [done|]. split; [by apply evolve_refl|simpl; lia]. }
  destruct (ipq_head s) as [|q qs] eqn:Hh.
  { split; [done|]. split; [by apply evolve_refl|simpl; lia]. }
  set (s1 := s <| ips_fragdropped ::= _ |>).
  assert (Ho1 : owns (ip_pool s1) (held q ++ held_by qs ++ R)) by (by rewrite held_by_cons, <- app_assoc in Ho).
  destruct (ip_freef_goes _ [] q qs s1 Hh ltac:(change (ipq_head s1) with (ipq_head s); by rewrite Hh) Ho1)
    as [(Hh' & _ & _ & Hn' & _) He].
  cbn [app length] in *. apply evolve_frame in He. cbn [app] in He.
  assert (Hd : ips_fragdropped (ip_freef 0 s1) = ips_fragdropped s + 1).
  { unfold ip_freef. change (ipq_head s1) with (ipq_head s). rewrite Hh. cbn. by destruct (m_free _ _ _). }
  destruct (IH (ip_freef 0 s1)) as (H1 & H2 & H3);
    [rewrite Hh'; lia|exact Hn'|rewrite Hh'; apply (ev_owns _ _ _ _ _ He)|].
  split; [exact H1|]. rewrite Hh' in H2, H3. split; [by eapply evolve_trans|]. lia.
Qed.

(** C26.  No queue lives for ever: after [k] ticks of the slow timer without an
    arrival, exactly the queues that had more than [k] ticks left remain, [k] ticks
    older and in the same order, the others counted as timed out and uncounted, their
    mbufs back in the pool; after 60 ticks none is left.  [ip_drain] frees them all at
    once. *)
Theorem ip_slowtimo_correct R k s :
  queues_safe s -> owns (ip_pool s) (held_by (ipq_head s) ++ R) ->
  (let s' := Nat.iter k ip_slowtimo s in let k := Z.of_nat k in
   queues_safe s' /\ ipq_head s' = survivors k (ipq_head s) /\
   ip_nfrags s' = ip_nfrags s - gone k (ipq_head s) /\
   ips_fragtimeout s' = ips_fragtimeout s + gone k (ipq_head s) /\
   evolve R (ip_pool s) (held_by (ipq_head s)) (ip_pool s') (held_by (ipq_head s')) /\
   (IPFRAGTTL <= k -> ipq_head s' = [])) /\
  (let s' := ip_drain s in
   ipq_head s' = [] /\ evolve R (ip_pool s) (held_by (ipq_head s)) (ip_pool s') [] /\
   ips_fragdropped s' = ips_fragdropped s + Z.of_nat (length (ipq_head s))).
Proof.
  intros Hs Ho. split; [|by apply drain_loop_ok; [|apply Hs|]]. induction k as [|k IH].
  - cbv zeta. change (Nat.iter 0 ip_slowtimo s) with s. unfold gone.
    rewrite survivors_0 by apply Hs. split; [done|]. split; [done|]. split; [lia|]. split; [lia|].
    split; [by apply evolve_refl|]. unfold IPFRAGTTL. lia.
  - cbv zeta in *. destruct IH as (H1 & H2 & H3 & H4 & H5 & _). set (s1 := Nat.iter k ip_slowtimo s) in *.
    change (Nat.iter (S k) ip_slowtimo s) with (ip_slowtimo s1).
    destruct (ip_slowtimo_ok R s1 H1 (ev_owns _ _ _ _ _ H5)) as (K1 & K2 & K3 & K4 & K5).
    assert (Hk : ipq_head (ip_slowtimo s1) = survivors (Z.of_nat (S k)) (ipq_head s)).
    { rewrite K2, H2, survivors_survivors by lia. f_equal. lia. }
    assert (Hg : gone 1 (ipq_head s1) = gone (Z.of_nat (S k)) (ipq_head s) - gone (Z.of_nat k) (ipq_head s)).
    { unfold gone. rewrite <- K2, Hk, H2. lia. }
    split; [exact K1|]. split; [exact Hk|]. split; [lia|]. split; [lia|].
    split; [by eapply evolve_trans|]. intros Hl. rewrite Hk. apply survivors_all; [apply Hs|done].
Qed.

(** One queue, holding [demo_frag2]. *)
Definition demo_queued : ipst :=
  match ip_fragment MGET_list 8 demo_frag2 demo_ipst with Some (_, s) => s | None => demo_ipst end.

Lemma demo_queued_ok :
  queues_safe demo_queued /\ owns (ip_pool demo_queued) (held_by (ipq_head demo_queued) ++ ip_m demo_frag1).
Proof.
  destruct (ip_fragment_ok MGET_list 8 (ip_m demo_frag1) demo_frag2 demo_ipst) as (r & s' & E & Hs & He).
  - split; [constructor|]. split; vm_compute; discriminate.
  - left. vm_compute. repeat split; discriminate.
  - exact demo_frags_owned.
  - assert (s' = demo_queued) as <- by (unfold demo_queued; by rewrite E). split; [exact Hs|].
    assert (r = None) as -> by (vm_compute in E; by injection E as <- _).
    pose proof (ev_owns _ _ _ _ _ He) as Ho. by rewrite app_nil_r in Ho.
Qed.

Lemma ip_slowtimo_correct_witness :
  length (ipq_head demo_queued) = 1%nat /\ ipq_head (Nat.iter 60 ip_slowtimo demo_queued) = [] /\
  ip_nfrags (Nat.iter 60 ip_slowtimo demo_queued) = 0.
Proof.
  destruct (ip_slowtimo_correct (ip_m demo_frag1) 60 demo_queued (proj1 demo_queued_ok) (proj2 demo_queued_ok))
    as [(_ & H1 & H2 & _ & _ & H3) _].
  split; [vm_compute; reflexivity|]. split; [apply H3; vm_compute; discriminate|].
  etrans; [exact H2|]. vm_compute. reflexivity.
Defined.

(** * Where the code differs from its comments *)

(** Eight datagrams reassembled leave the counter at the cap: from then on a new
    datagram evicts the one healthy queue there is. *)
Example ip_nfrags_drift :
  match ip_fragment MGET_list 8 (demo_frag1 <| ip_id ::= 78 |>) (demo_queued <| ip_nfrags ::= 8 |>) with
  | Some (None, s) => map ipq_id (ipq_head demo_queued) = [77] /\ map ipq_id (ipq_head s) = [78]
  | _ => False
  end.
Proof. vm_compute. split; reflexivity. Qed.

(** At the cap on fragments the arriving one is dropped after the fragments behind it
    have been trimmed: bytes 16 to 19 had arrived, and are lost. *)
Definition demo_full : ipst :=
  let frag i := mk_ipasfrag 5 1 8 77 (16 * Z.of_nat i) 17 1 2 [demo_mbuf (8192 + 128 * Z.of_nat i) 8 20 0 0 0] in
  demo_ipst <| ipq_head ::=
    [mk_ipq 60 17 77 (map frag (seq 0 64)) 1 2 64 (demo_mbuf 4224 0 0 0 0 0)] |> <| ip_nfrags ::= 1 |>.
Definition first_covering (x : Z) (s : ipst) : bool :=
  existsb (fun f => (off f <=? x) && (x <? off f + len f)) (concat (map ipq_frags (ipq_head s))).

Example cap_loses_bytes :
  match ip_fragment MGET_list 8 (demo_frag1 <| ip_off ::= IP_MF + 1 |> <| ip_len ::= 32 |>) demo_full with
  | Some (None, s) =>
      map ipq_nfrags (ipq_head s) = [64] /\
      first_covering 16 demo_full = true /\ first_covering 16 s = false /\ first_covering 8 s = false
  | _ => False
  end.
Proof. vm_compute. repeat split. Qed.

(** A fragment with 40 bytes of options in a cluster: [ipintr] pulls up 20 bytes, of
    which [m_pullup] makes 40, and [ip_reass] then takes 60 off the first mbuf. *)
Definition demo_cluster_pool : mpool :=
  demo_pool <| mcls ::= {[ 9000 := mk_mcluster 1 (map Z.of_nat (seq 0 128)) ]} |>.

Example options_in_cluster :
  match ip_fragment MGET_list 8 (mk_ipasfrag 15 0 88 77 IP_MF 17 1 2 [demo_mbuf 4480 88 0 M_EXT 0 9000])
          (demo_ipst <| ip_pool ::= demo_cluster_pool |>) with
  | Some (None, s) => map (fun q => map (fun f => map m_len (ip_m f)) (ipq_frags q)) (ipq_head s) = [[[-20; 48]]]
  | _ => False
  end.
Proof. vm_compute. reflexivity. Qed.

(** Without options the header fits what is pulled up: the fragment is queued. *)
Example cluster_pulled_up :
  match ip_fragment MGET_list 8 (mk_ipasfrag 5 0 88 77 IP_MF 17 1 2 [demo_mbuf 4480 88 0 M_EXT 0 9000])
          (demo_ipst <| ip_pool ::= demo_cluster_pool |>) with
  | Some (None, s) => map (fun q => map (fun f => map m_len (ip_m f)) (ipq_frags q)) (ipq_head s) = [[[20; 48]]]
  | _ => False
  end.
Proof. vm_compute. reflexivity. Qed.

(** No mbuf is free when the first fragment of another datagram arrives: the queue there
    was is drained, and one of its mbufs becomes the new queue. *)
Example drained_for_new :
  match ip_fragment MGET_list 8 (demo_frag1 <| ip_id ::= 78 |>)
          (demo_queued <| ip_pool ::= ip_pool demo_queued <| mfree ::= [] |> |>) with
  | Some (None, s) => map ipq_id (ipq_head s) = [78] /\ ip_nfrags s = 1 /\ ips_fragdropped s = 1
  | _ => False
  end.
Proof. vm_compute. repeat split. Qed.
