(* ===== verification/Ip.v ===== *)
(** The internet header: its fields, its bytes, and how the stack reads, writes and
    sums it in the first mbuf of a packet ([netinet/ip.h], and the accesses of
    [ip_input.c] and [ip_output.c]). *)
From S2P Require Import Prelude Mbuf InCksum.

(** [struct ip]; the machine is big-endian, so the fields are the same in memory and
    on the wire.  [ip_len] and [ip_off] are [short]. *)
Record ip := mk_ip {
  iph_v : Z; iph_hl : Z; iph_tos : Z; iph_len : Z; iph_id : Z; iph_off : Z;
  iph_ttl : Z; iph_p : Z; iph_sum : Z; iph_src : Z; iph_dst : Z }.
#[export] Instance ip_eta : Eta ip := fun h =>
  mk_ip (iph_v h) (iph_hl h) (iph_tos h) (iph_len h) (iph_id h) (iph_off h)
    (iph_ttl h) (iph_p h) (iph_sum h) (iph_src h) (iph_dst h).

Definition IPVERSION : Z := 4.
Definition IP_HSIZE : Z := 20.       (* sizeof(struct ip) *)

(** [IP_SET_VHL(ip, v, hlen)]: [hlen] in bytes. *)
Definition IP_SET_VHL (h : ip) (v hlen : Z) : ip := h <| iph_v ::= v |> <| iph_hl ::= hlen / 4 |>.

Definition hi8 (x : Z) : Z := u16 x / 256.
Definition lo8 (x : Z) : Z := u16 x mod 256.
Definition bytes32 (x : Z) : list Z :=
  [u32 x / 16777216; u32 x / 65536 mod 256; u32 x / 256 mod 256; u32 x mod 256].

Definition ip_bytes (h : ip) : list Z :=
  [iph_v h * 16 + iph_hl h; iph_tos h; hi8 (iph_len h); lo8 (iph_len h);
   hi8 (iph_id h); lo8 (iph_id h); hi8 (iph_off h); lo8 (iph_off h);
   iph_ttl h; iph_p h; hi8 (iph_sum h); lo8 (iph_sum h)] ++ bytes32 (iph_src h) ++ bytes32 (iph_dst h).

Definition ip_parse (l : list Z) : option ip :=
  match l with
  | [vhl; tos; l1; l0; i1; i0; o1; o0; ttl; p; c1; c0; s3; s2; s1; s0; d3; d2; d1; d0] =>
      Some (mk_ip (vhl / 16) (vhl mod 16) tos (s16 (be16 l1 l0)) (be16 i1 i0) (s16 (be16 o1 o0))
              ttl p (be16 c1 c0) (be32 s3 s2 s1 s0) (be32 d3 d2 d1 d0))
  | _ => None
  end.

(** The fields are in the ranges of their types. *)
Definition ip_ok (h : ip) : Prop :=
  0 <= iph_v h < 16 /\ 0 <= iph_hl h < 16 /\ byteP (iph_tos h) /\ s16 (iph_len h) = iph_len h /\
  u16 (iph_id h) = iph_id h /\ s16 (iph_off h) = iph_off h /\ byteP (iph_ttl h) /\ byteP (iph_p h) /\
  u16 (iph_sum h) = iph_sum h /\ u32 (iph_src h) = iph_src h /\ u32 (iph_dst h) = iph_dst h.

Lemma be16_hi_lo x : be16 (hi8 x) (lo8 x) = u16 x.
Proof. unfold be16, hi8, lo8. pose proof (Z.div_mod (u16 x) 256). lia. Qed.
Lemma be32_bytes32 x : match bytes32 x with [a; b; c; d] => be32 a b c d = u32 x | _ => False end.
Proof. unfold bytes32, be32. Z.div_mod_to_equations. lia. Qed.
Lemma hi8_byte x : byteP (hi8 x).
Proof. unfold hi8, byteP. pose proof (u16_range x). Z.div_mod_to_equations. lia. Qed.
Lemma lo8_byte x : byteP (lo8 x).
Proof. unfold lo8, byteP. Z.div_mod_to_equations. lia. Qed.
Lemma bytes32_bytes x : bytesP (bytes32 x).
Proof.
  pose proof (u32_range x). unfold bytes32, bytesP.
  repeat apply Forall_cons_2; [..|constructor]; unfold byteP; Z.div_mod_to_equations; lia.
Qed.
#[export] Hint Resolve hi8_byte lo8_byte bytes32_bytes : word.

Lemma ip_bytes_len h : zlen (ip_bytes h) = IP_HSIZE.
Proof. done. Qed.

Lemma ip_bytes_ok h : ip_ok h -> bytesP (ip_bytes h).
Proof.
  intros (?&?&?&?&?&?&?&?&?&?&?). unfold ip_bytes, bytesP. apply Forall_app_2.
  - repeat apply Forall_cons_2; [..|constructor]; auto with word; unfold byteP in *; lia.
  - apply Forall_app_2; apply bytes32_bytes.
Qed.

Lemma ip_ok_sum h s : ip_ok h -> u16 s = s -> ip_ok (h <| iph_sum ::= s |>).
Proof. destruct h. unfold ip_ok. cbn -[s16 u16 u32]. tauto. Qed.

Lemma ip_parse_bytes h : ip_ok h -> ip_parse (ip_bytes h) = Some h.
Proof.
  intros (Hv & Hhl & Htos & Hlen & Hid & Hoff & Httl & Hp & Hsum & Hsrc & Hdst).
  pose proof (be32_bytes32 (iph_src h)) as Hs. pose proof (be32_bytes32 (iph_dst h)) as Hd.
  unfold ip_bytes, bytes32 in *. cbn [app ip_parse]. rewrite !be16_hi_lo, Hs, Hd, Hsrc, Hdst, Hid, Hsum.
  assert (Hss : forall x, s16 (u16 x) = s16 x) by (intros; word_solve).
  rewrite !Hss, Hlen, Hoff. rewrite Z.div_add_l, Z.div_small, Z.add_0_r by lia.
  rewrite Z.add_comm, Z.mod_add, Z.mod_small by lia. by destruct h.
Qed.

(** * The header in memory *)

(** Writing the bytes at [mtod(m)], in the mbuf or in its cluster; [None] when that
    leaves the storage. *)
Definition mtod_write (p : mpool) (m : mbuf) (src : list Z) : option (mbuf * mpool) :=
  if has m M_EXT then
    c ← mcls p !! ext_buf (m_ext m);
    b ← blit (mcl_buf c) (m_data m) src;
    Some (m, p <| mcls ::= <[ext_buf (m_ext m) := c <| mcl_buf ::= b |>]> (mcls p) |>)
  else m ← m_write m 0 src; Some (m, p).

(** [mtod(m, struct ip * )]. *)
Definition mtod_ip (p : mpool) (m : mbuf) : option ip :=
  b ← m_read p m 0 IP_HSIZE; ip_parse b.

(** The mbufs as [in_cksum] sees them.  [M_HDR] is [sizeof(struct m_hdr)]. *)
Definition M_HDR : Z := MSIZE - MLEN.
Definition mtod_odd (m : mbuf) : bool :=
  Z.odd (if has m M_EXT then ext_buf (m_ext m) + m_data m else m_addr m + M_HDR + m_data m).
Definition ckbufs (p : mpool) (c : chain) : list ckbuf :=
  map (fun m => mk_ckbuf (mtod_odd m) (mbuf_bytes p m)) c.

(** The common end of building a header: [opts] go behind it, the sum field is
    cleared, and the sum over [hlen] bytes is stored.  [junk] is what [in_cksum]
    finds in its uninitialised local. *)
Definition finish_header (junk : Z) (h : ip) (opts : list Z) (hlen : Z) (c : chain) (p : mpool)
  : option (chain * mpool) :=
  match c with
  | [] => None
  | m :: r =>
      let h := h <| iph_sum ::= 0 |> in
      '(m, p) ← mtod_write p m (ip_bytes h ++ opts);
      sum ← in_cksum junk (ckbufs p (m :: r)) hlen;
      '(m, p) ← mtod_write p m (ip_bytes (h <| iph_sum ::= sum |>));
      Some (m :: r, p)
  end.

(** ** Laws *)

Lemma ck_bytes_ckbufs p c : ck_bytes (ckbufs p c) = bytes p c.
Proof. unfold ck_bytes, ckbufs, bytes. rewrite map_map. done. Qed.


Lemma blit_tail dst off src :
  0 <= off -> off + zlen src <= zlen dst ->
  exists d, blit dst off src = Some d /\ zlen d = zlen dst /\
    forall n, zslice d off n = take (Z.to_nat n) (src ++ drop (Z.to_nat (off + zlen src)) dst).
Proof.
  intros Ho Hl. destruct (blit_ok dst off src Ho Hl) as (d & Hb & Hd & _). exists d.
  split; [done|]. split; [done|]. intros n. unfold blit in Hb.
  destruct (_ || _) eqn:?; [done|]. injection Hb as <-. unfold zslice. f_equal.
  assert (Ht : length (take (Z.to_nat off) dst) = Z.to_nat off) by (rewrite length_take; unfold zlen in *; lia).
  by rewrite drop_app_ge, Ht, Nat.sub_diag, drop_0 by lia.
Qed.

(** [m'] is [m] with other bytes in it. *)
Definition rewritten (m m' : mbuf) : Prop :=
  m_len m' = m_len m /\ m_data m' = m_data m /\ m_addr m' = m_addr m /\ same_hdr m m' /\ m_ext m' = m_ext m.

Lemma rewritten_trans a b c : rewritten a b -> rewritten b c -> rewritten a c.
Proof.
  intros (H1 & H2 & H3 & ((H4 & H5) & H6 & H7 & H8) & H9) (K1 & K2 & K3 & ((K4 & K5) & K6 & K7 & K8) & K9).
  unfold rewritten, same_hdr, same_id. split_and!; congruence.
Qed.

Lemma take_take_app {A} (l k : list A) n : (length l <= n)%nat -> take n (l ++ k) = l ++ take (n - length l) k.
Proof. intros. rewrite take_app, take_ge; [done|lia]. Qed.

Lemma mtod_write_ok p m src :
  wf_mbuf p m -> has m M_EXT = false -> zlen src <= m_len m ->
  exists m', mtod_write p m src = Some (m', p) /\ rewritten m m' /\ wf_mbuf p m' /\
    mbuf_bytes p m' = src ++ drop (length src) (mbuf_bytes p m).
Proof.
  intros (Ht & Hl & Hd & Hf & Hz & Hs & Hp) Hx Hsrc. pose proof (zlen_nonneg src).
  rewrite storage_eq, Hx in Hs.
  destruct (blit_tail (m_dat m) (m_data m) src ltac:(lia) ltac:(lia)) as (d & Hb & Hdl & Hsl).
  unfold mtod_write, m_write. rewrite Hx, Z.add_0_r, Hb. cbn [mbind option_bind].
  set (m' := m <| m_dat ::= d |>). exists m'. split; [done|].
  assert (Hr : rewritten m m') by (unfold rewritten, same_hdr, same_id; split_and!; done).
  assert (Hst : storage p m' = d) by (rewrite storage_eq; change (has m' M_EXT) with (has m M_EXT); by rewrite Hx).
  split; [done|]. split.
  - unfold wf_mbuf. rewrite Hst. change (has m') with (has m). cbn. rewrite Hdl. split_and!; try done; lia.
  - unfold mbuf_bytes at 1. rewrite Hst. change (m_data m') with (m_data m). change (m_len m') with (m_len m).
    rewrite Hsl. unfold mbuf_bytes. rewrite storage_eq, Hx. unfold zslice.
    rewrite take_take_app by (unfold zlen in *; lia). f_equal.
    rewrite skipn_firstn_comm, drop_drop. f_equal.
    f_equal. unfold zlen in *. lia.
Qed.

Lemma ip_bytes_sum h s :
  u16 s = s ->
  ip_bytes (h <| iph_sum ::= s |>) = take 10 (ip_bytes h) ++ [s / 256; s mod 256] ++ drop 12 (ip_bytes h).
Proof. intros Hs. unfold ip_bytes, hi8, lo8. cbn [iph_sum field_map]. cbn. by rewrite Hs. Qed.

(** The header built is the one asked for but for its sum, the options follow it,
    the rest of the packet is as it was, and the sum verifies. *)
Lemma finish_header_ok junk h opts hlen m r p :
  wf_mbuf p m -> has m M_EXT = false -> ip_ok h -> bytesP opts ->
  IP_HSIZE + zlen opts <= m_len m -> bytesP (drop (20 + length opts) (bytes p (m :: r))) -> zlen (bytes p (m :: r)) <= 65535 ->
  IP_HSIZE <= hlen ->
  exists m' sum, finish_header junk h opts hlen (m :: r) p = Some (m' :: r, p) /\
    rewritten m m' /\ wf_mbuf p m' /\ u16 sum = sum /\
    let bs := ip_bytes (h <| iph_sum ::= sum |>) ++ opts ++ drop (20 + length opts) (bytes p (m :: r)) in
    bytes p (m' :: r) = bs /\ bytesP bs /\ rfc1071 (take (Z.to_nat hlen) bs) = 0.
Proof.
  intros Hw Hx Hh Ho Hlen Hb Hmax Hhl. unfold finish_header.
  set (h0 := h <| iph_sum ::= 0 |>).
  assert (Hh0 : ip_ok h0) by (by apply ip_ok_sum).
  pose proof Hw as (_ & Hml & _).
  destruct (mtod_write_ok p m (ip_bytes h0 ++ opts) Hw Hx) as (m1 & E1 & Hr1 & Hw1 & Hb1);
    [rewrite zlen_app, ip_bytes_len; lia|].
  rewrite E1. cbn [mbind option_bind].
  set (old := bytes p (m :: r)) in *.
  assert (Hbs : forall m' (l : list Z), length l = 20%nat -> mbuf_bytes p m' = l ++ opts ++ drop (20 + length opts) (mbuf_bytes p m) ->
     bytes p (m' :: r) = l ++ opts ++ drop (20 + length opts) old).
  { intros m' l Hl E. unfold old. rewrite !bytes_cons, E, <- !app_assoc. f_equal. f_equal.
    rewrite drop_app_le; [done|]. pose proof (zlen_mbuf_bytes p m Hw). unfold zlen, IP_HSIZE in *. lia. }
  assert (H20 : length (ip_bytes h0) = 20%nat) by done.
  assert (E0 : bytes p (m1 :: r) = ip_bytes h0 ++ opts ++ drop (20 + length opts) old).
  { apply Hbs; [done|]. rewrite Hb1, <- app_assoc, length_app, H20. done. }
  assert (HbP : bytesP (ip_bytes h0 ++ opts ++ drop (20 + length opts) old)).
  { apply Forall_app_2; [by apply ip_bytes_ok|]. by apply Forall_app_2. }
  assert (Hlb : zlen (bytes p (m1 :: r)) <= 65535).
  { rewrite E0. pose proof (zlen_bytes p [m] ltac:(by constructor)) as Hzm.
    unfold zlen, IP_HSIZE in *. rewrite !length_app, length_drop, H20.
    assert (m_len m <= Z.of_nat (length old)); [|lia].
    unfold old. rewrite bytes_cons, length_app. pose proof (zlen_mbuf_bytes p m Hw). unfold zlen in *. lia. }
  rewrite in_cksum_ok, ck_bytes_ckbufs; rewrite ?ck_bytes_ckbufs; [|by rewrite E0|unfold IP_HSIZE in *; lia|done].
  rewrite E0. cbn [mbind option_bind]. set (n := Z.to_nat hlen).
  set (sum := rfc1071 _). set (tl := drop (20 + length opts) old) in *.
  assert (Hsplit : ip_bytes h0 ++ opts ++ tl = take 10 (ip_bytes h0) ++ [0; 0] ++ (drop 12 (ip_bytes h0) ++ opts ++ tl)) by done.
  assert (Htk : forall a b, take n (take 10 (ip_bytes h0) ++ [a; b] ++ (drop 12 (ip_bytes h0) ++ opts ++ tl)) =
     take 10 (ip_bytes h0) ++ [a; b] ++ take (n - 12) (drop 12 (ip_bytes h0) ++ opts ++ tl)).
  { intros a b. unfold n, IP_HSIZE in *. rewrite take_take_app by (simpl; lia). f_equal. cbn [length].
    replace (Z.to_nat hlen - length (take 10 (ip_bytes h0)))%nat with (S (S (Z.to_nat hlen - 12))) by (simpl; lia). done. }
  assert (Hsum : rfc1071 (take 10 (ip_bytes h0) ++ [0; 0] ++ take (n - 12) (drop 12 (ip_bytes h0) ++ opts ++ tl)) = sum)
    by (unfold sum; by rewrite Hsplit, Htk).
  set (post := take (n - 12) (drop 12 (ip_bytes h0) ++ opts ++ tl)) in *.
  assert (HbP0 : bytesP (take 10 (ip_bytes h0) ++ [0; 0] ++ post))
    by (rewrite <- Htk, <- Hsplit; by apply Forall_take).
  destruct (rfc1071_verify (take 10 (ip_bytes h0)) post sum HbP0 eq_refl Hsum) as [Hv1 Hv2].
  assert (Hs16 : u16 sum = sum).
  { apply u16_small. rewrite <- Hsum. pose proof (rfc1071_range _ HbP0). lia. }
  pose proof Hr1 as (Hl1 & _ & _ & (Hid1 & Hf1 & _) & _).
  destruct (mtod_write_ok p m1 (ip_bytes (h0 <| iph_sum ::= sum |>)) Hw1) as (m2 & E2 & Hr2 & Hw2 & Hb2);
    [unfold has; by rewrite Hf1|rewrite ip_bytes_len, Hl1; pose proof (zlen_nonneg opts); lia|].
  rewrite E2. cbn [mbind option_bind]. exists m2, sum. split; [done|].
  split; [by eapply rewritten_trans|]. split; [done|]. split; [done|]. cbv zeta.
  assert (Eb : bytes p (m2 :: r) = ip_bytes (h <| iph_sum ::= sum |>) ++ opts ++ tl).
  { apply (Hbs m2 (ip_bytes (h <| iph_sum ::= sum |>))); [done|].
    rewrite Hb2, Hb1, length_app, H20, <- app_assoc. reflexivity. }
  split; [exact Eb|]. rewrite (ip_bytes_sum h sum Hs16).
  change (take 10 (ip_bytes h)) with (take 10 (ip_bytes h0)). change (drop 12 (ip_bytes h)) with (drop 12 (ip_bytes h0)).
  rewrite <- !app_assoc. cbn [app]. split.
  - assert (Hs2 : byteP (sum / 256) /\ byteP (sum mod 256))
      by (pose proof (u16_range sum); unfold byteP; Z.div_mod_to_equations; lia).
    rewrite Hsplit in HbP. apply Forall_app in HbP as [K1 K2]. apply Forall_app in K2 as [_ K3].
    apply Forall_app_2; [exact K1|]. apply Forall_cons_2; [apply Hs2|]. apply Forall_cons_2; [apply Hs2|exact K3].
  - etrans; [|exact Hv2]. f_equal. apply (Htk (sum / 256) (sum mod 256)).
Qed.
