(* ===== verification/IpOutput.v ===== *)
(** The end of [ip_output] ([netinet/ip_output.c]): sending a packet that fits, or
    cutting it into fragments, with [ip_optcopy]; the interface it hands packets to,
    and the loopback interface ([net/if_loop.c]) as one. *)
From S2P Require Import Prelude Mbuf InCksum IpReass Ip.

Definition MT_HEADER : Z := 2.
Definition max_linkhdr : Z := 0.
Definition ENOBUFS : Z := 55.
Definition EHOSTUNREACH : Z := 65.
Definition EMSGSIZE : Z := 40.

(** * Interfaces

    What [ip_output] uses of an interface.  [if_output] answers [None] when it panics.
    [if_held] is what the interface holds on to, [if_sent] the packets it has accepted
    and not let go of, as bytes. *)
Class NetIf (D : Type) := {
  if_output : D -> chain -> mpool -> option (Z * D * mpool);
  if_held : D -> chain;
  if_sent : D -> mpool -> list (list Z) }.

(** A packet is led by its packet header. *)
Definition led (c : chain) : Prop := exists m r, c = m :: r /\ has m M_PKTHDR = true.

(** What it relies on: [if_output] takes the packet over, whatever it answers, and has
    accepted it when it answers 0. *)
Class NetIfLaws (D : Type) `{NetIf D} := {
  if_output_takes R d c p :
    led c -> owns p ((c ++ if_held d) ++ R) ->
    exists e d' p', if_output d c p = Some (e, d', p') /\
      evolve R p (c ++ if_held d) p' (if_held d') /\
      if_sent d' p' = if_sent d p ++ (if e =? 0 then [bytes p c] else []);
  if_sent_frame d p p' :
    (forall m, m ∈ if_held d -> mbuf_bytes p' m = mbuf_bytes p m) -> if_sent d p' = if_sent d p }.

(** * Options *)

Definition IPOPT_EOL : Z := 0.
Definition IPOPT_NOP : Z := 1.
Definition IPOPT_COPIED (o : Z) : bool := negb (Z.land o 128 =? 0).

(** The options copied: [cp] is the memory from the options on, [cnt] their length.
    [None]: a read past the memory, or a loop that does not end ([cnt] iterations
    suffice for one that does). *)
Fixpoint optcopy_loop (fuel : nat) (cp : list Z) (cnt : Z) : option (list Z) :=
  if cnt <=? 0 then Some [] else
  match fuel with
  | O => None
  | S fuel =>
      opt ← zget cp 0;
      if opt =? IPOPT_EOL then Some [] else
      optlen ← (if opt =? IPOPT_NOP then Some 1 else zget cp 1);
      let optlen := if cnt <? optlen then cnt else optlen in
      rest ← optcopy_loop fuel (drop (Z.to_nat optlen) cp) (cnt - optlen);
      Some ((if IPOPT_COPIED opt then zslice cp 0 optlen else []) ++ rest)
  end.

(** Padding to a multiple of four. *)
Definition opt_pad (l : list Z) : list Z := l ++ replicate (Z.to_nat ((- zlen l) mod 4)) IPOPT_EOL.

Definition ip_optcopy (h : ip) (cp : list Z) : option (list Z) :=
  let cnt := iph_hl h * 4 - IP_HSIZE in
  l ← optcopy_loop (Z.to_nat cnt) cp cnt; Some (opt_pad l).

(** * Fragmenting *)

Record ostat := mk_ostat { ips_fragmented : Z; ips_ofragments : Z }.
#[export] Instance ostat_eta : Eta ostat := fun s => mk_ostat (ips_fragmented s) (ips_ofragments s).

Section output.
Context (mget : Z -> mpool -> option mbuf * mpool) (junk : Z).

(** [MGETHDR]. *)
Definition mgethdr (t : Z) (p : mpool) : option mbuf * mpool :=
  let '(m, p) := mget t p in
  ((fun m => m <| m_data ::= PKTHDR_SIZE |> <| m_flags ::= M_PKTHDR |>) <$> m, p).

(** The header of the fragment at [off], of [len] bytes at most: the header, its
    options, and the length of its data. *)
Definition frag_header (h : ip) (cp : list Z) (hlen off len : Z) : option (ip * list Z * Z) :=
  '(mh, opts) ← (if IP_HSIZE <? hlen then
                   opts ← ip_optcopy h cp;
                   Some (IP_SET_VHL h IPVERSION (zlen opts + IP_HSIZE), opts)
                 else Some (h, []));
  let o := s16 (Z.shiftr (off - hlen) 3 + Z.land (iph_off h) (Z.lnot IP_MF)) in
  let o := if Z.land (iph_off h) IP_MF =? 0 then o else s16 (Z.lor o IP_MF) in
  let '(len, o) := if u16 (iph_len h) <=? off + len then (u16 (iph_len h) - off, o)
                   else (len, s16 (Z.lor o IP_MF)) in
  Some (mh <| iph_off ::= o |> <| iph_len ::= s16 (u16 (len + (IP_HSIZE + zlen opts))) |>, opts, len).

(** A fragment, of the packet [m0] with the header [h], and the length of its data;
    no chain when memory is short; [None]: a memory error. *)
Definition make_frag (m0 : chain) (h : ip) (cp : list Z) (hlen off len : Z) (p : mpool)
  : option (chain * Z * mpool) :=
  let '(m, p) := mgethdr MT_HEADER p in
  match m with
  | None => Some ([], len, p)
  | Some m =>
      '(mh, opts, len) ← frag_header h cp hlen off len;
      let mhlen := IP_HSIZE + zlen opts in
      let m := m <| m_data ::= m_data m + max_linkhdr |> <| m_len ::= mhlen |> in
      '(c, p) ← m_copym mget m0 off len p;
      match c with
      | [] => let '(_, p) := m_free m [] p in Some ([], len, p)
      | _ =>
          let m := m <| m_pkthdr ::= mk_pkthdr (mhlen + len) 0 (csum (m_pkthdr m)) |> in
          '(c, p) ← finish_header junk mh opts mhlen (m :: c) p;
          Some (c, len, p)
      end
  end.

(** The loop: every fragment but the first is made; [None]: a memory error, or no
    end. *)
Fixpoint frag_loop (fuel : nat) (m0 : chain) (h : ip) (cp : list Z) (hlen off len : Z)
    (frags : list chain) (s : ostat) (p : mpool) : option (Z * list chain * ostat * mpool) :=
  if u16 (iph_len h) <=? off then Some (0, frags, s, p) else
  match fuel with
  | O => None
  | S fuel =>
      '(c, len, p) ← make_frag m0 h cp hlen off len p;
      match c with
      | [] => Some (ENOBUFS, frags, s, p)
      | _ => frag_loop fuel m0 h cp hlen (off + len) len (frags ++ [c])
               (s <| ips_ofragments ::= ips_ofragments s + 1 |>) p
      end
  end.

(** The first fragment: the packet cut to [len] bytes of data. *)
Definition first_frag (m0 : chain) (h : ip) (hlen len : Z) (p : mpool) : option (chain * mpool) :=
  let c := m_adj m0 (hlen + len - u16 (iph_len h)) in
  match c with
  | [] => None
  | m :: r =>
      let m := set_pktlen m (hlen + len) in
      let h := h <| iph_len ::= s16 (u16 (hlen + len)) |> <| iph_off ::= s16 (u16 (Z.lor (iph_off h) IP_MF)) |> in
      finish_header junk h [] hlen (m :: r) p
  end.

(** All the fragments, the first one first; with an error, what is left to free. *)
Definition ip_frags (m0 : chain) (h : ip) (cp : list Z) (hlen len : Z) (s : ostat) (p : mpool)
  : option (Z * list chain * ostat * mpool) :=
  '(error, frags, s, p) ← frag_loop (Z.to_nat (u16 (iph_len h))) m0 h cp hlen (hlen + len) len [] s p;
  if error =? 0 then
    '(c, p) ← first_frag m0 h hlen len p; Some (0, c :: frags, s, p)
  else Some (error, m0 :: frags, s, p).

(** ** [sendorfree] *)
Context {D : Type} `{NetIf D}.

Fixpoint sendorfree (error : Z) (pkts : list chain) (d : D) (p : mpool) : option (Z * D * mpool) :=
  match pkts with
  | [] => Some (error, d, p)
  | m :: pkts =>
      if error =? 0 then
        '(error, d, p) ← if_output d m p; sendorfree error pkts d p
      else sendorfree error pkts d (m_freem m p)
  end.

(** [ip_output] once the interface is known: the packet [m0] with the header [h] in
    its first mbuf, of [hlen] bytes. *)
Definition ip_send (if_mtu : Z) (m0 : chain) (h : ip) (hlen : Z) (d : D) (s : ostat) (p : mpool)
  : option (Z * D * ostat * mpool) :=
  if u16 (iph_len h) <=? u16 if_mtu then
    '(c, p) ← finish_header junk h [] hlen m0 p;
    '(error, d, p) ← if_output d c p; Some (error, d, s, p)
  else
    let s := s <| ips_fragmented ::= ips_fragmented s + 1 |> in
    let len := Z.land (if_mtu - hlen) (Z.lnot 7) in
    if negb (Z.land (iph_off h) IP_DF =? 0) || (len <? 8) then
      Some (EMSGSIZE, d, s, m_freem m0 p)
    else
      cp ← (m ← head m0; Some (drop (Z.to_nat (m_data m + IP_HSIZE)) (storage p m)));
      '(error, pkts, s, p) ← ip_frags m0 h cp hlen len s p;
      '(error, d, p) ← sendorfree error pkts d p; Some (error, d, s, p).
End output.

(** * Options: laws *)

Lemma optcopy_len fuel : forall cp cnt l,
  bytesP cp -> 0 <= cnt -> optcopy_loop fuel cp cnt = Some l -> zlen l <= cnt /\ bytesP l.
Proof.
  assert (Hnil : forall cnt, 0 <= cnt -> zlen (@nil Z) <= cnt /\ bytesP [])
    by (intros; rewrite zlen_nil; by split; [|constructor]).
  induction fuel as [|fuel IH]; intros cp cnt l Hb Hc; cbn [optcopy_loop];
    (destruct (cnt <=? 0) eqn:?; [intros [= <-]; by apply Hnil|]); [done|].
  destruct (zget cp 0) as [opt|] eqn:H0; cbn [mbind option_bind]; [|done].
  destruct (opt =? IPOPT_EOL); [intros [= <-]; by apply Hnil|].
  destruct (if opt =? IPOPT_NOP then Some 1 else zget cp 1) as [ol|] eqn:H1; cbn [mbind option_bind]; [|done].
  assert (0 <= ol).
  { destruct (opt =? IPOPT_NOP); [injection H1 as <-; lia|].
    apply (zget_byte _ _ _ Hb) in H1. lia. }
  set (n := if cnt <? ol then cnt else ol). assert (0 <= n <= cnt) by (unfold n; destruct (cnt <? ol) eqn:?; lia).
  destruct (optcopy_loop fuel _ _) as [rest|] eqn:Hr; cbn [mbind option_bind]; [|done].
  intros [= <-]. destruct (IH _ (cnt - n) _ (Forall_drop _ _ _ Hb) ltac:(lia) Hr) as [Hl HP].
  rewrite zlen_app. split.
  - destruct (IPOPT_COPIED opt); [|rewrite zlen_nil; lia].
    assert (zlen (zslice cp 0 n) <= n); [|lia]. unfold zlen, zslice. rewrite length_take. lia.
  - apply Forall_app_2; [|done]. destruct (IPOPT_COPIED opt); [|constructor].
    unfold zslice. by apply Forall_take, Forall_drop.
Qed.

Lemma opt_pad_ok l cnt :
  bytesP l -> zlen l <= cnt -> cnt mod 4 = 0 ->
  zlen (opt_pad l) <= cnt /\ zlen (opt_pad l) mod 4 = 0 /\ bytesP (opt_pad l).
Proof.
  intros Hb Hl Hc. unfold opt_pad. rewrite zlen_app.
  assert (Hr : zlen (replicate (Z.to_nat (- zlen l mod 4)) IPOPT_EOL) = - zlen l mod 4).
  { unfold zlen at 1. rewrite length_replicate. Z.div_mod_to_equations. lia. }
  rewrite Hr. clear Hr. generalize dependent (zlen l). intros n Hl.
  split; [Z.div_mod_to_equations; lia|].
  split; [by rewrite Z.add_mod_idemp_r, Z.add_opp_diag_r by lia|].
  apply Forall_app_2; [done|]. apply Forall_replicate. unfold IPOPT_EOL, byteP. lia.
Qed.

Lemma ip_optcopy_ok h cp opts :
  bytesP cp -> IP_HSIZE <= iph_hl h * 4 -> ip_optcopy h cp = Some opts ->
  zlen opts <= iph_hl h * 4 - IP_HSIZE /\ zlen opts mod 4 = 0 /\ bytesP opts.
Proof.
  intros Hb Hh. unfold ip_optcopy.
  destruct (optcopy_loop _ _ _) as [l|] eqn:Hl; cbn [mbind option_bind]; [|done]. intros [= <-].
  destruct (optcopy_len _ _ _ _ Hb (proj2 (Z.le_0_sub _ _) Hh) Hl). apply opt_pad_ok; [done|done|].
  unfold IP_HSIZE. Z.div_mod_to_equations. lia.
Qed.

(** The options [os] of an option area: single bytes, options with their length, one that
    claims more than there is cut, up to the end or [EOL]; none has the length 0. *)
Inductive option_area : list Z -> list (list Z) -> Prop :=
  | area_nil : option_area [] []
  | area_eol l : option_area (IPOPT_EOL :: l) []
  | area_nop l os : option_area l os -> option_area (IPOPT_NOP :: l) ([IPOPT_NOP] :: os)
  | area_opt l t n os :
      zget l 0 = Some t -> zget l 1 = Some n -> t <> IPOPT_EOL -> t <> IPOPT_NOP -> 0 < n <= zlen l ->
      option_area (drop (Z.to_nat n) l) os -> option_area l (take (Z.to_nat n) l :: os)
  | area_cut l t n :
      zget l 0 = Some t -> zget l 1 = Some n -> t <> IPOPT_EOL -> t <> IPOPT_NOP -> zlen l < n -> option_area l [l].

(** Those that are copied. *)
Definition copied_opts (os : list (list Z)) : list Z :=
  opt_pad (concat (List.filter (fun o => IPOPT_COPIED (List.hd 0 o)) os)).

(** The options of the fragment at [o]: all of them in the first one. *)
Definition frag_opts (opts : list Z) (os : list (list Z)) (o : Z) : list Z :=
  if o =? 0 then opts else copied_opts os.

Lemma hd_take l n t : zget l 0 = Some t -> (0 < n)%nat -> List.hd 0 (take n l) = t.
Proof. destruct l as [|x l], n; intros [= ->]; done || lia. Qed.

Lemma optcopy_area opts os :
  option_area opts os -> forall fuel rest, (length opts <= fuel)%nat ->
  optcopy_loop fuel (opts ++ rest) (zlen opts) =
    Some (concat (List.filter (fun o => IPOPT_COPIED (List.hd 0 o)) os)).
Proof.
  induction 1 as [|l|l os _ IH|l t n os H0 H1 Ht1 Ht2 Hn _ IH|l t n H0 H1 Ht1 Ht2 Hn]; intros fuel rest Hf.
  - by destruct fuel.
  - destruct fuel as [|fuel]; [simpl in Hf; lia|]. cbn [optcopy_loop]. rewrite zlen_cons.
    pose proof (zlen_nonneg l). destruct (_ <=? 0) eqn:?; [lia|]. done.
  - destruct fuel as [|fuel]; [simpl in Hf; lia|]. cbn [optcopy_loop]. rewrite zlen_cons.
    pose proof (zlen_nonneg l). destruct (1 + zlen l <=? 0) eqn:?; [lia|].
    change (zget ((IPOPT_NOP :: l) ++ rest) 0) with (Some IPOPT_NOP). cbn [mbind option_bind].
    change (IPOPT_NOP =? IPOPT_EOL) with false. change (IPOPT_NOP =? IPOPT_NOP) with true. cbv iota. cbn [mbind option_bind].
    destruct (1 + zlen l <? 1) eqn:?; [lia|]. change (drop (Z.to_nat 1) ((IPOPT_NOP :: l) ++ rest)) with (l ++ rest).
    replace (1 + zlen l - 1) with (zlen l) by lia. rewrite IH by (simpl in Hf; lia). done.
  - pose proof (zget_Some _ _ _ H1). destruct fuel as [|fuel]; [unfold zlen in *; lia|]. cbn [optcopy_loop].
    destruct (zlen l <=? 0) eqn:?; [lia|]. rewrite (zget_app_l l rest 0), H0 by lia. cbn [mbind option_bind].
    destruct (t =? IPOPT_EOL) eqn:?; [lia|]. destruct (t =? IPOPT_NOP) eqn:?; [lia|].
    rewrite (zget_app_l l rest 1), H1 by lia. cbn [mbind option_bind]. destruct (zlen l <? n) eqn:?; [lia|].
    assert (Hln : (Z.to_nat n <= length l)%nat) by (unfold zlen in *; lia).
    rewrite drop_app_le by done. replace (zlen l - n) with (zlen (drop (Z.to_nat n) l))
      by (unfold zlen in *; rewrite length_drop; lia).
    rewrite IH by (rewrite length_drop; lia). cbn [mbind option_bind]. f_equal. cbn [List.filter].
    rewrite (hd_take l _ t) by (done || lia). unfold zslice. rewrite drop_0, take_app_le by done.
    by destruct (IPOPT_COPIED t).
  - pose proof (zget_Some _ _ _ H1). destruct fuel as [|fuel]; [unfold zlen in *; lia|]. cbn [optcopy_loop].
    destruct (zlen l <=? 0) eqn:?; [lia|]. rewrite (zget_app_l l rest 0), H0 by lia. cbn [mbind option_bind].
    destruct (t =? IPOPT_EOL) eqn:?; [lia|]. destruct (t =? IPOPT_NOP) eqn:?; [lia|].
    rewrite (zget_app_l l rest 1), H1 by lia. cbn [mbind option_bind]. destruct (zlen l <? n) eqn:?; [|lia].
    rewrite Z.sub_diag. assert (E : forall f c, optcopy_loop f c 0 = Some []) by (by intros [|f] c). rewrite E.
    cbn [mbind option_bind List.filter]. unfold zslice. rewrite drop_0.
    replace (Z.to_nat (zlen l)) with (length l) by (unfold zlen; lia). rewrite take_app_length.
    destruct l as [|x l]; [done|]. injection H0 as ->. cbn [List.hd]. by destruct (IPOPT_COPIED t).
Qed.

Lemma ip_optcopy_area h opts os rest :
  option_area opts os -> zlen opts = iph_hl h * 4 - IP_HSIZE -> ip_optcopy h (opts ++ rest) = Some (copied_opts os).
Proof.
  intros Ha Hl. unfold ip_optcopy. rewrite <- Hl. rewrite (optcopy_area opts os Ha) by (unfold zlen; lia). done.
Qed.

Lemma copied_none opts os : option_area opts os -> opts = [] -> copied_opts os = [].
Proof. intros [] ?; try done; subst; done. Qed.

(** * Fragments on the wire *)

Lemma lor_MF x : 0 <= x < 8192 -> Z.lor x IP_MF = x + IP_MF.
Proof.
  intros Hx. assert (Hl : Z.land x IP_MF = 0).
  { apply Z.bits_inj'. intros n Hn. rewrite Z.land_spec, Z.bits_0. unfold IP_MF.
    change 8192 with (2 ^ 13). rewrite Z.pow2_bits_eqb by lia. destruct (13 =? n) eqn:E; [|by rewrite andb_false_r].
    assert (n = 13) as -> by lia. rewrite andb_true_r. destruct (decide (x = 0)) as [->|]; [apply Z.bits_0|].
    apply Z.bits_above_log2; [lia|]. apply Z.log2_lt_pow2; lia. }
  pose proof (Z.add_lor_land x IP_MF). lia.
Qed.
Lemma land_MF x (b : bool) : 0 <= x < 8192 -> Z.land (x + if b then IP_MF else 0) IP_MF = if b then IP_MF else 0.
Proof.
  intros Hx. destruct b; [rewrite <- lor_MF by done|rewrite Z.add_0_r].
  - rewrite Z.land_lor_distr_l, Z.land_diag. pose proof (Z.add_lor_land x IP_MF) as Hs.
    rewrite lor_MF in Hs by done. by replace (Z.land x IP_MF) with 0 by lia.
  - pose proof (Z.add_lor_land x IP_MF) as Hs. rewrite lor_MF in Hs by done. lia.
Qed.

(** A packet with [n] bytes of the payload [D] of the datagram [h], from [o] on: the
    datagram's header but for length, offset and sum, whose sum verifies, [MF] telling
    whether more follows, and the options [ops] gives for [o]. *)
Definition wire_frag (h : ip) (ops : Z -> list Z) (D : list Z) (o n : Z) (bs : list Z) : Prop :=
  let opts := ops o in
  exists mh, bs = ip_bytes mh ++ opts ++ zslice D o n /\ ip_ok mh /\ bytesP bs /\
    iph_v mh = IPVERSION /\ iph_hl mh * 4 = IP_HSIZE + zlen opts /\
    iph_len mh = IP_HSIZE + zlen opts + n /\ zlen opts <= iph_hl h * 4 - IP_HSIZE /\
    o mod 8 = 0 /\ 0 <= o /\ 0 < n /\ o + n <= zlen D /\
    iph_off mh = o / 8 + (if o + n =? zlen D then 0 else IP_MF) /\
    iph_tos mh = iph_tos h /\ iph_id mh = iph_id h /\ iph_ttl mh = iph_ttl h /\ iph_p mh = iph_p h /\
    iph_src mh = iph_src h /\ iph_dst mh = iph_dst h /\
    rfc1071 (take (Z.to_nat (iph_hl mh * 4)) bs) = 0.

(** The packets [cs] carry [D] from [o] on, in steps of [len]. *)
Fixpoint wire_frags (p : mpool) (h : ip) (ops : Z -> list Z) (D : list Z) (len o : Z) (cs : list chain) : Prop :=
  match cs with
  | [] => zlen D <= o
  | c :: cs =>
      wire_frag h ops D o (Z.min len (zlen D - o)) (bytes p c) /\ pktlen_ok c /\
      wire_frags p h ops D len (o + len) cs
  end.

Lemma wire_frags_frame p p' h ops D len o cs :
  (forall m, m ∈ concat cs -> mbuf_bytes p' m = mbuf_bytes p m) ->
  wire_frags p h ops D len o cs -> wire_frags p' h ops D len o cs.
Proof.
  revert o. induction cs as [|c cs IH]; intros o Hb; [done|]. cbn [wire_frags concat] in *.
  intros (H1 & H2 & H3). rewrite (bytes_same p p'); [split; [done|split; [done|]]|].
  - apply IH; [|done]. intros m Hm. apply Hb, elem_of_app. by right.
  - intros m Hm. apply Hb, elem_of_app. by left.
Qed.

(** ** The header of a fragment *)

(** The datagram handed to [ip_output]: not itself a fragment, and of this payload. *)
Definition datagram (h : ip) (hlen : Z) (D : list Z) : Prop :=
  ip_ok h /\ iph_v h = IPVERSION /\ iph_hl h * 4 = hlen /\ IP_HSIZE <= hlen /\
  iph_off h = 0 /\ hlen + zlen D <= 32767 /\ iph_len h = hlen + zlen D.

Lemma frag_header_ok h cp hlen D off len opts :
  datagram h hlen D -> bytesP cp -> (IP_HSIZE < hlen -> ip_optcopy h cp = Some opts) ->
  (hlen <= IP_HSIZE -> opts = []) ->
  0 < len -> len mod 8 = 0 -> (off - hlen) mod 8 = 0 -> hlen < off < hlen + zlen D ->
  exists mh, frag_header h cp hlen off len = Some (mh, opts, Z.min len (hlen + zlen D - off)) /\
    ip_ok mh /\ bytesP opts /\ iph_v mh = IPVERSION /\ iph_hl mh * 4 = IP_HSIZE + zlen opts /\
    zlen opts <= hlen - IP_HSIZE /\ 
    (let n := Z.min len (hlen + zlen D - off) in
     iph_len mh = IP_HSIZE + zlen opts + n /\
     iph_off mh = (off - hlen) / 8 + (if off - hlen + n =? zlen D then 0 else IP_MF)) /\
    iph_tos mh = iph_tos h /\ iph_id mh = iph_id h /\ iph_ttl mh = iph_ttl h /\ iph_p mh = iph_p h /\
    iph_src mh = iph_src h /\ iph_dst mh = iph_dst h.
Proof.
  intros (Hok & Hv & Hhl & Hh20 & Hoff & Hmax & Hlen) Hcp Hopt Hopt0 Hpos Hl8 Ho8 Hrange.
  unfold frag_header. rewrite Hoff.
  assert (Ho : exists mh, (if IP_HSIZE <? hlen then
       opts ← ip_optcopy h cp; Some (IP_SET_VHL h IPVERSION (zlen opts + IP_HSIZE), opts)
     else Some (h, [])) = Some (mh, opts) /\ zlen opts <= hlen - IP_HSIZE /\ bytesP opts /\
     mh = h <| iph_hl ::= iph_hl mh |> /\ iph_hl mh * 4 = IP_HSIZE + zlen opts).
  { destruct (IP_HSIZE <? hlen) eqn:?.
    - rewrite Hopt by lia. cbn [mbind option_bind]. eexists _. split; [reflexivity|].
      destruct (ip_optcopy_ok h cp opts Hcp ltac:(lia) (Hopt ltac:(lia))) as (H1 & H2 & H3).
      split; [lia|]. split; [done|]. cbn. split; [by rewrite <- Hv; destruct h|].
      unfold IP_HSIZE in *. Z.div_mod_to_equations. lia.
    - exists h. rewrite Hopt0 by lia. split; [done|]. rewrite zlen_nil. split; [lia|]. split; [constructor|].
      split; [by destruct h|lia]. }
  destruct Ho as (mh & -> & Hol & Hob & Hmh & Hmhl). cbn [mbind option_bind].
  rewrite Hlen. change (Z.land 0 (Z.lnot IP_MF)) with 0. change (Z.land 0 IP_MF =? 0) with true. cbv iota.
  rewrite Z.shiftr_div_pow2 by lia. change (2 ^ 3) with 8. rewrite Z.add_0_r. rewrite (u16_small (hlen + zlen D)) by (unfold IP_HSIZE in *; lia).
  set (q := (off - hlen) / 8). assert (Hq : 0 <= q < 4096 /\ off - hlen = 8 * q)
    by (unfold q; unfold IP_HSIZE in *; Z.div_mod_to_equations; lia).
  rewrite (s16_small q), lor_MF by lia. unfold IP_MF at 1. rewrite (s16_small (q + 8192)) by lia.
  assert (Hhl16 : 0 <= iph_hl mh < 16 /\ 0 <= iph_v h < 16).
  { destruct Hok as (? & ? & _). unfold IP_HSIZE in *. pose proof (zlen_nonneg opts). lia. }
  set (n := Z.min len (hlen + zlen D - off)).
  assert (Hsel : (if hlen + zlen D <=? off + len then (hlen + zlen D - off, q) else (len, q + 8192)) =
     (n, q + (if off - hlen + n =? zlen D then 0 else IP_MF))).
  { unfold n, IP_MF. destruct (hlen + zlen D <=? off + len) eqn:?.
    - rewrite Z.min_r by lia. destruct (_ =? zlen D) eqn:?; [by rewrite Z.add_0_r|lia].
    - rewrite Z.min_l by lia. destruct (_ =? zlen D) eqn:?; [lia|done]. }
  rewrite Hsel. cbv iota. pose proof (zlen_nonneg opts). unfold IP_HSIZE in *.
  rewrite (u16_small (n + _)), (s16_small (n + _)) by (unfold n; lia).
  eexists _. split; [reflexivity|]. rewrite Hmh. cbn -[s16 u16 u32 Z.mul Z.add Z.sub Z.div Z.eqb Z.min].
  split; [|split; [done|split; [done|split; [done|split; [done|split; [split; [lia|done]|done]]]]]].
  destruct Hok as (H1&H2&H3&H4&H5&H6&H7&H8&H9&H10&H11). unfold ip_ok. cbn -[s16 u16 u32 Z.mul Z.add Z.sub Z.div Z.eqb Z.min].
  split; [done|]. split; [lia|]. split; [done|]. split; [apply s16_small; unfold n; lia|].
  split; [done|]. split; [apply s16_small; unfold IP_MF; destruct (_ =? zlen D); lia|]. done.
Qed.

(** * The loop *)

Lemma copym_loop_length mget off0 hdr m : forall len off top p ok top' p',
  copym_loop mget off0 hdr len off m top p = Some (ok, top', p') ->
  (length top' <= length top + length m)%nat.
Proof.
  revert hdr. induction m as [|h m IH]; intros hdr len off top p ok top' p'; cbn [copym_loop];
    (destruct (len <=? 0); [intros [= _ <- _]; lia|]); [intros [= _ <- _]; lia|].
  destruct (mget (m_type h) p) as [[n|] p1]; [|intros [= _ <- _]; lia].
  set (n1 := if hdr then _ else n). set (n2 := n1 <| m_len ::= _ |>).
  destruct (if has h M_EXT then _ else _) as [[n3 p2]|]; cbn [mbind option_bind]; [|done].
  intros Hl. apply IH in Hl. rewrite length_app in Hl. cbn [length] in *. lia.
Qed.

Lemma skip_length off m off' m' : skip off m = Some (off', m') -> (length m' <= length m)%nat.
Proof.
  revert off. induction m as [|h m IH]; intros off; cbn [skip];
    (destruct (off <=? 0); [by intros [= _ <-]|]); [done|].
  destruct (off <? m_len h); [by intros [= _ <-]|]. intros H%IH. simpl. lia.
Qed.

Lemma m_copym_length mget m off len p c p' :
  m_copym mget m off len p = Some (c, p') -> (length c <= length m)%nat.
Proof.
  unfold m_copym. destruct (_ || _); [intros [= <- _]; simpl; lia|].
  destruct m as [|h m]; [by intros [= <- _]|]. destruct (skip off (h :: m)) as [[o k]|] eqn:Hs;
    [|intros [= <- _]; simpl; lia].
  apply skip_length in Hs.
  destruct (copym_loop _ _ _ _ _ _ _ _) as [[[ok top] p1]|] eqn:Hc; cbn [mbind option_bind]; [|done].
  apply copym_loop_length in Hc. destruct ok; intros [= <- _]; simpl in *; lia.
Qed.

Lemma refs_length c a : refs c a <= Z.of_nat (length c).
Proof.
  induction c as [|m c IH]; [done|]. rewrite refs_cons. cbn [length]. pose proof (is_ref_bound a m). lia.
Qed.

Section loop_ok.
Context (mget : Z -> mpool -> option mbuf * mpool) `{!Allocator mget} (junk : Z).
(** The packet [m0], held, with the datagram's header and the payload [D]. *)
Context (m0 : chain) (h : ip) (hlen : Z) (D cp opts0 : list Z).
Context (Hdg : datagram h hlen D) (HD : bytesP D) (Hcp : bytesP cp)
  (Hopt : IP_HSIZE < hlen -> ip_optcopy h cp = Some opts0) (Hopt0 : hlen <= IP_HSIZE -> opts0 = []).
Context (ops : Z -> list Z) (Hops : forall o, 0 < o -> ops o = opts0).

(** [m0] is as it was. *)
Definition intact (p : mpool) : Prop :=
  Forall (wf_mbuf p) m0 /\ drop (Z.to_nat hlen) (bytes p m0) = D /\ chain_len m0 = hlen + zlen D.

Lemma intact_evolve R p H p' H' :
  (forall m, m ∈ m0 -> m ∈ R) -> evolve R p H p' H' -> intact p -> intact p'.
Proof using.
  intros Hin He (Hw & Hd & Hl). split; [|split; [|done]].
  - pose proof (owns_wf _ _ (ev_owns _ _ _ _ _ He)) as Hw'. apply Forall_app in Hw' as [_ Hw'].
    rewrite Forall_forall in Hw' |- *. auto.
  - rewrite (bytes_same p p'); [done|]. intros m Hm. by apply (ev_bytes _ _ _ _ _ He), Hin.
Qed.

(** The slice of [m0] a fragment copies. *)
Lemma intact_slice p off n :
  intact p -> hlen <= off -> zslice (bytes p m0) off n = zslice D (off - hlen) n.
Proof using Hdg.
  intros (_ & Hd & _) Ho. destruct Hdg as (_ & _ & _ & Hh & _). unfold IP_HSIZE in Hh.
  rewrite <- Hd. unfold zslice. rewrite drop_drop. do 2 f_equal. lia.
Qed.

Lemma mgethdr_ok R p :
  owns p R ->
  match mgethdr mget MT_HEADER p with
  | (None, p') => evolve R p [] p' []
  | (Some m, p') => m_data m = PKTHDR_SIZE /\ has m M_EXT = false /\ has m M_PKTHDR = true /\
      forall n, 0 <= n <= 60 -> forall ph, let m' := m <| m_len ::= n |> <| m_pkthdr ::= ph |> in
        wf_mbuf p' m' /\ evolve R p [] p' [m']
  end.
Proof using All.
  intros Ho. unfold mgethdr. pose proof (mget_ok mget MT_HEADER p R ltac:(vm_compute; by split) Ho) as Hg.
  destruct (mget MT_HEADER p) as [[m|] p']; cbn [fmap option_fmap option_map]; [|apply Hg].
  destruct Hg as (Hb & _ & Ht & Hd & Hf & Hz & Hev).
  set (m1 := m <| m_data ::= _ |> <| m_flags ::= _ |>).
  split; [done|]. split; [done|]. split; [done|]. intros n Hn ph. set (m' := m1 <| m_len ::= n |> <| m_pkthdr ::= ph |>).
  assert (Hw : wf_mbuf p' m').
  { apply (fresh_wf p' m' n); try done; cbn; [rewrite Ht; vm_compute; by split|lia|].
    unfold PKTHDR_SIZE, MLEN. lia. }
  split; [done|]. by apply Hev.
Qed.

Lemma make_frag_ok R off len p :
  owns p R -> (forall m, m ∈ m0 -> m ∈ R) -> intact p ->
  (forall a, refcnt p a + Z.of_nat (length m0) < 32768) ->
  0 < len -> len mod 8 = 0 -> (off - hlen) mod 8 = 0 -> hlen < off < hlen + zlen D ->
  exists c n p', make_frag mget junk m0 h cp hlen off len p = Some (c, n, p') /\
    evolve R p [] p' c /\ (forall a, refcnt p' a <= refcnt p a + Z.of_nat (length m0)) /\
    (c <> [] -> n = Z.min len (hlen + zlen D - off) /\ led c /\ pktlen_ok c /\
       wire_frag h ops D (off - hlen) n (bytes p' c)).
Proof using All.
  intros Ho Hin Hi Hrc Hpos Hl8 Ho8 Hrange. unfold make_frag.
  assert (Hrefs : forall R p p' c, evolve R p [] p' c -> (forall a, refs c a <= Z.of_nat (length m0)) ->
     forall a, refcnt p' a <= refcnt p a + Z.of_nat (length m0)).
  { intros R1 q q' c He Hc a. pose proof (ev_slack _ _ _ _ _ He a). specialize (Hc a).
    change (refs [] a) with 0 in *. lia. }
  pose proof Hdg as (Hok & Hv & Hhl & Hh20 & Hoff & Hmax & Hlen).
  pose proof (mgethdr_ok R p Ho) as Hg. destruct (mgethdr mget MT_HEADER p) as [[m|] p1].
  2:{ eexists [], len, p1. split; [done|]. split; [done|]. split; [|done].
      apply (Hrefs R p p1 [] Hg). intros a. change (refs [] a) with 0. lia. }
  destruct Hg as (Hmd & Hmx & Hmp & Hm).
  destruct (frag_header_ok h cp hlen D off len opts0 Hdg Hcp Hopt Hopt0 Hpos Hl8 Ho8 Hrange)
    as (mh & -> & Hmok & Hob & Hmv & Hmhl & Hol & [Hml Hmo] & Hkeys).
  set (n := Z.min len (hlen + zlen D - off)) in *. cbn [mbind option_bind].
  assert (Hopl : 0 <= zlen opts0 <= 40).
  { split; [apply zlen_nonneg|]. destruct Hok as (_ & ? & _). unfold IP_HSIZE in *. lia. }
  set (mhlen := IP_HSIZE + zlen opts0). set (m1 := m <| m_data ::= _ |> <| m_len ::= mhlen |>).
  assert (Hm1 : m1 = m <| m_len ::= mhlen |> <| m_pkthdr ::= m_pkthdr m |>).
  { unfold m1, max_linkhdr. rewrite Z.add_0_r. by destruct m. }
  destruct (Hm mhlen ltac:(unfold mhlen, IP_HSIZE; lia) (m_pkthdr m)) as [_ He1]. rewrite <- Hm1 in He1.
  assert (Hin1 : forall x, x ∈ m0 -> x ∈ [m1] ++ R) by (intros x Hx; apply elem_of_app; right; auto).
  assert (Hi1 : intact p1) by (apply (intact_evolve R p [] p1 [m1] Hin He1 Hi)).
  assert (Hrc1 : forall a, refcnt p1 a <= refcnt p a).
  { intros a. pose proof (ev_slack _ _ _ _ _ He1 a) as Hs. rewrite refs_cons in Hs.
    change (refs [] a) with 0 in Hs. unfold is_ref in Hs.
    change (has m1 M_EXT) with (has m M_EXT) in Hs. rewrite Hmx in Hs. simpl in Hs. lia. }
  destruct (m_copym_ok mget ([m1] ++ R) p1 m0 off n) as (c & p2 & Ec & He2 & Hcp2);
    [apply He1|done|intros a; specialize (Hrc a); specialize (Hrc1 a); lia|unfold IP_HSIZE in *; lia
    |unfold n, M_COPYALL; unfold IP_HSIZE in *; lia|destruct Hi as (_ & _ & ->); unfold M_COPYALL; unfold IP_HSIZE in *; lia|].
  rewrite Ec. cbn [mbind option_bind].
  pose proof (m_copym_length _ _ _ _ _ _ _ Ec) as Hcl.
  pose proof (evolve_frame R [m1] _ _ _ _ He2) as He2'. cbn [app] in He2'.
  destruct c as [|c0 c1].
  { destruct (m_free_ok R p2 m1 []) as (p3 & -> & He3); [apply He2'|].
    assert (He : evolve R p [] p3 []) by (eapply evolve_trans; [exact He1|eapply evolve_trans; [exact He2'|exact He3]]).
    exists [], n, p3. split; [done|]. split; [done|]. split; [|done].
    apply (Hrefs R p p3 [] He). intros a. change (refs [] a) with 0. lia. }
  set (c := c0 :: c1) in *. set (m2 := m1 <| m_pkthdr ::= _ |>).
  destruct (Hcp2 ltac:(done)) as (_ & Hcb & _).
  rewrite (intact_slice p1 off n Hi1 ltac:(lia)) in Hcb.
  assert (He3 : evolve R p [] p2 (m2 :: c)).
  { eapply evolve_retouch with (c := m1 :: c).
    - constructor; [done|apply same_ids_refl].
    - pose proof (owns_wf _ _ (ev_owns _ _ _ _ _ He2)) as Hw. apply Forall_app in Hw as [Hwc Hwr].
      apply Forall_app in Hwr as [Hwm _]. inversion Hwm as [|? ? Hwm1 _]; subst.
      apply Forall_cons_2; [|done]. exact Hwm1.
    - eapply evolve_trans; [exact He1|]. eapply evolve_perm; [| |exact He2']; [done|].
      by rewrite Permutation_app_comm. }
  pose proof (owns_wf _ _ (ev_owns _ _ _ _ _ He3)) as Hw3. apply Forall_app in Hw3 as [Hw3 _].
  apply Forall_cons in Hw3 as [Hwm2 Hwc].
  assert (Hbl : bytes p2 (m2 :: c) = mbuf_bytes p2 m2 ++ zslice D (off - hlen) n) by (by rewrite bytes_cons, Hcb).
  assert (Hm2l : length (mbuf_bytes p2 m2) = (20 + length opts0)%nat).
  { pose proof (zlen_mbuf_bytes p2 m2 Hwm2) as Hz. change (m_len m2) with mhlen in Hz.
    unfold zlen, mhlen, IP_HSIZE, zlen in *. lia. }
  assert (Hdrop : drop (20 + length opts0) (bytes p2 (m2 :: c)) = zslice D (off - hlen) n)
    by (rewrite Hbl; by apply drop_app_length').
  assert (Hsl : zlen (zslice D (off - hlen) n) = n)
    by (apply zslice_len; unfold n; unfold IP_HSIZE in *; lia).
  destruct (finish_header_ok junk mh opts0 mhlen m2 c p2) as (m3 & sum & Ef & Hrw & Hw3 & Hsum & Hbs & HbP & Hver).
  { done. } { exact Hmx. } { done. } { done. } { change (m_len m2) with mhlen. unfold mhlen. lia. }
  { rewrite Hdrop. unfold zslice. by apply Forall_take, Forall_drop. }
  { rewrite Hbl, zlen_app, Hsl, zlen_mbuf_bytes by done. change (m_len m2) with mhlen.
    unfold mhlen, n. unfold IP_HSIZE in *. lia. }
  { unfold mhlen. lia. }
  rewrite Ef. cbn [mbind option_bind]. rewrite Hdrop in Hbs, HbP, Hver.
  destruct Hrw as (R1 & R2 & R3 & (R4 & R5 & R6 & R7) & R8).
  assert (He4 : evolve R p [] p2 (m3 :: c)).
  { eapply evolve_retouch; [| |exact He3]; [constructor; [done|apply same_ids_refl]|by apply Forall_cons_2]. }
  exists (m3 :: c), n, p2. split; [done|]. split; [done|]. split.
  { apply (Hrefs R p p2 _ He4). intros a. rewrite refs_cons. pose proof (refs_length c a).
    unfold is_ref, has. rewrite R5. change (m_flags m2) with (m_flags m).
    unfold has in Hmx. rewrite Hmx. cbn [andb]. lia. }
  intros _. split; [done|]. split.
  { exists m3, c. split; [done|]. unfold has. by rewrite R5. }
  split.
  - unfold pktlen_ok. intros _. rewrite R6. change (chain_len (m3 :: c)) with (m_len m3 + chain_len c).
    rewrite R1, <- (zlen_bytes p2 c Hwc), Hcb, Hsl. done.
  - unfold wire_frag. rewrite (Hops (off - hlen)) by lia. exists (mh <| iph_sum ::= sum |>). rewrite Hbs. split; [done|].
    split; [by apply ip_ok_sum|]. split; [done|]. split; [done|]. split; [done|]. split; [done|].
    split; [lia|]. split; [done|]. split; [lia|]. split; [unfold n; lia|]. split; [unfold n; lia|].
    split; [exact Hmo|]. destruct Hkeys as (?&?&?&?&?&?). split_and!; try done.
    change (iph_hl (mh <| iph_sum ::= sum |>)) with (iph_hl mh). rewrite Hmhl. exact Hver.
Qed.

Lemma frag_loop_done fuel off len frags s p :
  hlen + zlen D <= off ->
  frag_loop mget junk fuel m0 h cp hlen off len frags s p = Some (0, frags, s, p).
Proof using Hdg.
  intros Ho. destruct Hdg as (_ & _ & _ & ? & _ & ? & Hl). pose proof (zlen_nonneg D). unfold IP_HSIZE in *.
  assert (Hd : (u16 (iph_len h) <=? off) = true) by (rewrite Hl, u16_small; lia).
  destruct fuel; cbn [frag_loop]; by rewrite Hd.
Qed.

Lemma frag_loop_ok k : forall fuel off len frags s R p,
  (k <= fuel)%nat -> owns p R -> (forall m, m ∈ m0 -> m ∈ R) -> intact p ->
  (forall a, refcnt p a + Z.of_nat k * Z.of_nat (length m0) < 32768) ->
  0 < len -> len mod 8 = 0 -> (off - hlen) mod 8 = 0 -> hlen < off ->
  hlen + zlen D <= off + Z.of_nat k * len ->
  exists e new s' p', frag_loop mget junk fuel m0 h cp hlen off len frags s p = Some (e, frags ++ new, s', p') /\
    evolve R p [] p' (concat new) /\ (e = 0 \/ e = ENOBUFS) /\
    (e = 0 -> wire_frags p' h ops D len (off - hlen) new) /\ Forall led new /\
    ips_ofragments s' = ips_ofragments s + Z.of_nat (length new).
Proof using All.
  assert (Hstop : forall fuel off len frags s R p, owns p R -> hlen + zlen D <= off ->
    exists e new s' p', frag_loop mget junk fuel m0 h cp hlen off len frags s p = Some (e, frags ++ new, s', p') /\
    evolve R p [] p' (concat new) /\ (e = 0 \/ e = ENOBUFS) /\
    (e = 0 -> forall len', wire_frags p' h ops D len' (off - hlen) new) /\ Forall led new /\
    ips_ofragments s' = ips_ofragments s + Z.of_nat (length new)).
  { intros fuel off len frags s R p Ho Hend. exists 0, [], s, p. rewrite app_nil_r, frag_loop_done by done.
    split; [done|]. split; [by apply evolve_refl|]. split; [by left|]. split; [cbn; lia|].
    split; [constructor|]. simpl. lia. }
  induction k as [|k IH]; intros fuel off len frags s R p Hf Ho Hin Hi Hrc Hpos Hl8 Ho8 Hoff Hend.
  { destruct (Hstop fuel off len frags s R p Ho ltac:(lia)) as (e & new & s' & p' & H1 & H2 & H3 & H4 & H5 & H6).
    exists e, new, s', p'. split_and!; auto. }
  destruct (decide (hlen + zlen D <= off)) as [Hd|Hd].
  { destruct (Hstop fuel off len frags s R p Ho Hd) as (e & new & s' & p' & H1 & H2 & H3 & H4 & H5 & H6).
    exists e, new, s', p'. split_and!; auto. }
  destruct fuel as [|fuel]; [lia|]. cbn [frag_loop].
  assert (Hgo : (u16 (iph_len h) <=? off) = false).
  { destruct Hdg as (_ & _ & _ & ? & _ & ? & ->). unfold IP_HSIZE in *. rewrite u16_small; lia. }
  rewrite Hgo. destruct (make_frag_ok R off len p Ho Hin Hi) as (c & n & p1 & -> & He1 & Hr1 & Hc);
    [intros a; specialize (Hrc a); lia|done|done|done|lia|].
  cbn [mbind option_bind]. destruct c as [|c0 c1].
  { exists ENOBUFS, [], s, p1. rewrite app_nil_r. split; [done|]. split; [done|]. split; [by right|].
    split; [done|]. split; [constructor|]. simpl. lia. }
  set (c := c0 :: c1) in *. destruct (Hc ltac:(done)) as (Hn & Hled & Hpk & Hwf).
  assert (Ho1 : owns p1 (c ++ R)) by apply He1.
  set (s1 := s <| ips_ofragments ::= _ |>).
  assert (Hrest : exists e new s' p', frag_loop mget junk fuel m0 h cp hlen (off + n) n (frags ++ [c]) s1 p1 =
       Some (e, (frags ++ [c]) ++ new, s', p') /\ evolve (c ++ R) p1 [] p' (concat new) /\ (e = 0 \/ e = ENOBUFS) /\
       (e = 0 -> wire_frags p' h ops D len (off + len - hlen) new) /\ Forall led new /\
       ips_ofragments s' = ips_ofragments s1 + Z.of_nat (length new)).
  { destruct (decide (n = len)) as [->|Hne].
    - apply IH; [lia|done|intros x Hx; apply elem_of_app; auto
        |apply (intact_evolve R p [] p1 c Hin He1 Hi)
        |intros a; specialize (Hrc a); specialize (Hr1 a); lia|done|done| |lia|lia].
      replace (off + len - hlen) with (off - hlen + len) by lia. rewrite Z.add_mod, Ho8, Hl8 by lia. done.
    - destruct (Hstop fuel (off + n) n (frags ++ [c]) s1 (c ++ R) p1 Ho1 ltac:(lia))
        as (e & new & s' & p' & H1 & H2 & H3 & H4 & H5 & H6).
      exists e, new, s', p'. split_and!; auto. intros He. specialize (H4 He len).
      destruct new as [|x new]; [cbn in *; lia|]. exfalso. destruct H4 as ((mh & H4) & _). lia. }
  destruct Hrest as (e & new & s' & p' & E & He & Hee & Hw & Hne & Hst).
  exists e, (c :: new), s', p'. rewrite E. split; [by rewrite <- app_assoc|].
  split; [|split; [done|split; [|split]]].
  - apply (evolve_frame R c) in He. cbn [app] in He.
    eapply evolve_trans; [exact He1|]. cbn [concat]. eapply evolve_perm; [| |exact He]; [done|].
    by rewrite Permutation_app_comm.
  - intros He0. cbn [wire_frags]. rewrite (bytes_same p1 p').
    2:{ intros m Hm. apply (ev_bytes _ _ _ _ _ He), elem_of_app. by left. }
    split; [|split; [done|]].
    + replace (Z.min len (zlen D - (off - hlen))) with n by lia. done.
    + replace (off - hlen + len) with (off + len - hlen) by lia. auto.
  - by apply Forall_cons_2.
  - rewrite Hst. cbn [length]. change (ips_ofragments s1) with (ips_ofragments s + 1). lia.
Qed.
End loop_ok.

(** ** The first fragment *)

Lemma last_len_chain p c : Forall (wf_mbuf p) c -> last_len c <= chain_len c.
Proof.
  induction 1 as [|x l Hx Hl IH]; [done|]. destruct Hx as (_ & ? & _). pose proof (chain_len_nonneg p l Hl).
  destruct l as [|y l]; [change (last_len [x]) with (m_len x); change (chain_len [x]) with (m_len x + 0); lia|].
  change (last_len (x :: y :: l)) with (last_len (y :: l)).
  change (chain_len (x :: y :: l)) with (m_len x + chain_len (y :: l)). lia.
Qed.

(** A cut at the tail leaves the first mbuf where it is. *)
Lemma m_adj_tail_head p h r req :
  Forall (wf_mbuf p) (h :: r) -> req < 0 -> 0 <= chain_len (h :: r) + req ->
  exists h' r', m_adj (h :: r) req = h' :: r' /\ m_flags h' = m_flags h /\ m_data h' = m_data h /\
    m_len h' = Z.min (m_len h) (chain_len (h :: r) + req).
Proof.
  intros Hw Hr Hc. unfold m_adj. destruct (0 <=? req) eqn:?; [lia|].
  change (chain_len (h :: r)) with (m_len h + chain_len r) in *.
  pose proof Hw as [_ Hwr]%Forall_cons. pose proof (chain_len_nonneg p r Hwr).
  destruct (- req <=? last_len (h :: r)) eqn:Hl.
  - destruct r as [|h2 r].
    + cbn [adj_last]. change (chain_len []) with 0 in *.
      set (h1 := h <| m_len ::= _ |>). eexists _, _. split; [reflexivity|].
      assert (Hh1 : m_len h1 = m_len h - - req) by done.
      destruct (has h1 M_PKTHDR); (split; [done|]; split; [done|]); cbn [set_pktlen m_len field_map];
        [change (m_len h1 = Z.min (m_len h) (m_len h + 0 + req))|]; rewrite Hh1; lia.
    + eexists h, _. split; [reflexivity|]. split; [done|]. split; [done|].
      change (last_len (h :: h2 :: r)) with (last_len (h2 :: r)) in Hl.
      pose proof (last_len_chain p _ Hwr). lia.
  - rewrite Z.max_r by (change (chain_len (h :: r)) with (m_len h + chain_len r); lia).
    change (chain_len (h :: r)) with (m_len h + chain_len r).
    set (h1 := if has h M_PKTHDR then _ else h).
    assert (Hh1 : m_flags h1 = m_flags h /\ m_data h1 = m_data h /\ m_len h1 = m_len h)
      by (unfold h1; by destruct (has h M_PKTHDR)).
    destruct Hh1 as (H1 & H2 & H3). cbn [adj_keep]. destruct (_ <=? m_len h1) eqn:?.
    + eexists _, _. split; [reflexivity|]. cbn. split; [done|]. split; [done|]. lia.
    + eexists _, _. split; [reflexivity|]. split; [done|]. split; [done|]. lia.
Qed.

Lemma first_frag_ok R junk m r h ops hlen D len p :
  datagram h hlen D -> 0 < len -> len mod 8 = 0 -> len < zlen D ->
  owns p ((m :: r) ++ R) -> has m M_EXT = false -> has m M_PKTHDR = true -> hlen <= m_len m ->
  bytesP (bytes p (m :: r)) ->
  bytes p (m :: r) = ip_bytes h ++ ops 0 ++ D -> zlen (ops 0) = hlen - IP_HSIZE ->
  exists c, first_frag junk (m :: r) h hlen len p = Some (c, p) /\ led c /\
    evolve R p (m :: r) p c /\ wire_frag h ops D 0 len (bytes p c) /\ pktlen_ok c.
Proof.
  intros (Hok & Hv & Hhl & Hh20 & Hoff & Hmax & Hlen) Hpos Hl8 Hll Ho Hx Hph Hml Hbp Hb Hopl. remember (ops 0) as opts eqn:Hops.
  pose proof (owns_wf _ _ Ho) as Hw. apply Forall_app in Hw as [Hw _].
  assert (Hc : chain_len (m :: r) = hlen + zlen D).
  { rewrite <- (zlen_bytes p _ Hw), Hb, !zlen_app, ip_bytes_len. lia. }
  unfold first_frag. pose proof (zlen_nonneg D). unfold IP_HSIZE in *.
  rewrite Hlen, (u16_small (hlen + zlen D)) by lia.
  set (req := hlen + len - (hlen + zlen D)).
  destruct (m_adj_ok p (m :: r) req Hw) as (Hab & Hid & Hwf).
  destruct (m_adj_tail_head p m r req Hw ltac:(unfold req; lia) ltac:(unfold req; lia))
    as (h' & r' & Ea & Hf' & Hd' & Hl').
  rewrite Ea in *. rewrite Hc in Hl'. apply Forall_cons in Hwf as [Hwh Hwr].
  assert (Hbytes : bytes p (h' :: r') = ip_bytes h ++ opts ++ zslice D 0 len).
  { rewrite Hab. unfold adj_spec. destruct (0 <=? req) eqn:?; [unfold req in *; lia|].
    rewrite Hb, !zlen_app, ip_bytes_len, Hopl. unfold IP_HSIZE, zslice. rewrite drop_0.
    assert (H20 : length (ip_bytes h) = 20%nat) by done.
    rewrite take_take_app by (rewrite H20; unfold req; lia). f_equal. rewrite H20.
    rewrite take_take_app by (unfold zlen in *; unfold req; lia). do 2 f_equal. unfold zlen in *. unfold req. lia. }
  set (m1 := set_pktlen h' (hlen + len)).
  assert (Hw1 : wf_mbuf p m1) by (by apply set_pktlen_wf).
  rewrite Hoff, Z.lor_0_l. rewrite (u16_small (hlen + len)), (s16_small (hlen + len)) by lia.
  change (s16 (u16 IP_MF)) with IP_MF.
  set (h1 := h <| iph_len ::= _ |> <| iph_off ::= _ |>).
  assert (Hok1 : ip_ok h1).
  { destruct Hok as (K1&K2&K3&K4&K5&K6&K7&K8&K9&K10&K11). unfold ip_ok, h1. cbn -[s16 u16 u32 Z.add].
    split; [done|]. split; [done|]. split; [done|]. split; [apply s16_small; lia|]. split; [done|].
    split; [done|]. done. }
  assert (Hb1 : bytes p (m1 :: r') = ip_bytes h ++ opts ++ zslice D 0 len) by (rewrite <- Hbytes; done).
  assert (Hsl : zlen (zslice D 0 len) = len) by (apply zslice_len; lia).
  assert (Hd20 : drop (20 + length (@nil Z)) (bytes p (m1 :: r')) = opts ++ zslice D 0 len)
    by (rewrite Hb1; by apply drop_app_length').
  destruct (finish_header_ok junk h1 [] hlen m1 r' p Hw1) as (m2 & sum & E & Hrw & Hw2 & Hsum & Hbs & HbP & Hver).
  { unfold has. change (m_flags m1) with (m_flags h'). by rewrite Hf'. }
  { done. } { constructor. }
  { change (m_len m1) with (m_len h'). unfold IP_HSIZE. rewrite zlen_nil. lia. }
  { rewrite Hd20. rewrite Hb in Hbp. apply Forall_app in Hbp as [_ [H1 H2]%Forall_app].
    apply Forall_app_2; [done|]. unfold zslice. by apply Forall_take, Forall_drop. }
  { rewrite Hb1, !zlen_app, ip_bytes_len, Hsl. unfold IP_HSIZE. lia. }
  { unfold IP_HSIZE. lia. }
  rewrite E. rewrite Hd20 in Hbs, HbP, Hver. cbn [app] in Hbs, HbP, Hver.
  destruct Hrw as (R1 & R2 & R3 & (R4 & R5 & R6 & R7) & R8).
  exists (m2 :: r'). split; [done|]. split.
  { exists m2, r'. split; [done|]. unfold has. rewrite R5. change (m_flags m1) with (m_flags h'). by rewrite Hf'. }
  split; [|split].
  - apply evolve_in; [| |done].
    + apply (same_ids_trans _ (h' :: r')); [done|]. constructor; [|apply same_ids_refl].
      destruct R4 as [Q1 Q2]. split; [exact Q1|]. intros a. rewrite Q2. done.
    + by apply Forall_cons_2.
  - unfold wire_frag. rewrite <- Hops. exists (h1 <| iph_sum ::= sum |>). rewrite Hbs. split; [done|]. unfold IP_HSIZE in *.
    split; [by apply ip_ok_sum|]. split; [done|]. split; [done|].
    split; [change (iph_hl h * 4 = 20 + zlen opts); lia|].
    split; [change (hlen + len = 20 + zlen opts + len); lia|].
    split; [lia|]. split; [done|]. split; [lia|]. split; [lia|]. split; [lia|].
    split; [destruct (0 + len =? zlen D) eqn:?; [lia|done]|].
    split_and!; try done. change (iph_hl (h1 <| iph_sum ::= sum |>)) with (iph_hl h). rewrite Hhl. exact Hver.
  - intros _. rewrite R6. change (chain_len (m2 :: r')) with (m_len m2 + chain_len r').
    rewrite R1. pose proof (zlen_bytes p (h' :: r') ltac:(by apply Forall_cons_2)) as Hz.
    rewrite Hbytes, !zlen_app, ip_bytes_len, Hsl in Hz. unfold IP_HSIZE in Hz.
    change (chain_len (h' :: r')) with (m_len h' + chain_len r') in Hz.
    change (m_len m1) with (m_len h'). change (ph_len (m_pkthdr m1)) with (hlen + len). lia.
Qed.

(** ** All the fragments *)

(** The packets [ws] carry [D] from [o] on, in steps of [len]; all of it when they
    are enough. *)
Fixpoint wire_list (h : ip) (ops : Z -> list Z) (D : list Z) (len o : Z) (ws : list (list Z)) : Prop :=
  match ws with
  | [] => True
  | w :: ws => wire_frag h ops D o (Z.min len (zlen D - o)) w /\ wire_list h ops D len (o + len) ws
  end.

Lemma wire_frags_list p h ops D len o cs :
  wire_frags p h ops D len o cs ->
  wire_list h ops D len o (map (bytes p) cs) /\ zlen D <= o + len * Z.of_nat (length cs).
Proof.
  revert o. induction cs as [|c cs IH]; intros o; cbn [wire_frags wire_list map length]; [lia|].
  intros (H1 & _ & H2). destruct (IH _ H2) as [H3 H4]. split; [done|]. lia.
Qed.

Lemma wire_list_take h ops D len k : forall o ws, wire_list h ops D len o ws -> wire_list h ops D len o (take k ws).
Proof.
  induction k as [|k IH]; intros o [|w ws]; cbn [take wire_list]; try done.
  intros [H1 H2]. split; [done|auto].
Qed.

(** The packet handed to the end of [ip_output]: its header, whole, in the first mbuf. *)
Record outgoing (R : chain) (p : mpool) (m : mbuf) (r : chain) (h : ip) (hlen : Z) (opts D : list Z) : Prop := {
  pk_datagram : datagram h hlen D;
  pk_owned : owns p ((m :: r) ++ R);
  pk_plain : has m M_EXT = false;
  pk_hdr : has m M_PKTHDR = true;
  pk_len : hlen <= m_len m;
  pk_bytes : bytes p (m :: r) = ip_bytes h ++ opts ++ D;
  pk_opts : zlen opts = hlen - IP_HSIZE;
  pk_real : bytesP (bytes p (m :: r)) /\ bytesP (m_dat m) }.

(** The options behind the header, in the memory [ip_optcopy] reads. *)
Lemma outgoing_options R p m r h hlen opts D :
  outgoing R p m r h hlen opts D ->
  exists rest, drop (Z.to_nat (m_data m + IP_HSIZE)) (m_dat m) = opts ++ rest.
Proof.
  intros [(_ & _ & _ & Hh20 & _) Ho Hx _ Hml Hb Hopl _].
  pose proof (owns_wf _ _ Ho) as Hw. apply Forall_app in Hw as [[Hwm _]%Forall_cons _].
  pose proof (zlen_mbuf_bytes p m Hwm) as Hl. destruct Hwm as (_ & _ & Hd & _).
  rewrite bytes_cons in Hb. unfold mbuf_bytes in *. rewrite storage_eq, Hx in *. unfold zslice in *.
  set (M := drop (Z.to_nat (m_data m)) (m_dat m)) in *.
  assert (Ht : take (Z.to_nat hlen) M = ip_bytes h ++ opts).
  { assert (E : take (Z.to_nat hlen) (take (Z.to_nat (m_len m)) M ++ bytes p r) = take (Z.to_nat hlen) (ip_bytes h ++ opts ++ D)) by (by rewrite Hb).
    rewrite take_app_le in E by (unfold zlen in Hl; lia). rewrite take_take, Nat.min_l in E by lia. rewrite E, app_assoc.
    apply take_app_length'. rewrite length_app. change (length (ip_bytes h)) with 20%nat. unfold zlen, IP_HSIZE in *. lia. }
  exists (drop (Z.to_nat hlen) M). rewrite Z2Nat.inj_add, <- drop_drop by (unfold IP_HSIZE; lia). fold M.
  rewrite <- (take_drop (Z.to_nat hlen) M) at 1. rewrite Ht, <- app_assoc. by apply drop_app_length'.
Qed.

Lemma ip_frags_ok mget `{!Allocator mget} junk R p m r h hlen opts D cp opts0 len s :
  outgoing R p m r h hlen opts D -> bytesP cp -> (IP_HSIZE < hlen -> ip_optcopy h cp = Some opts0) ->
  (hlen <= IP_HSIZE -> opts0 = []) ->
  let ops o := if o =? 0 then opts else opts0 in
  0 < len -> len mod 8 = 0 -> len < zlen D ->
  (forall a, refcnt p a + zlen D / len * Z.of_nat (length (m :: r)) < 32768) ->
  exists e pkts s' p', ip_frags mget junk (m :: r) h cp hlen len s p = Some (e, pkts, s', p') /\
    evolve R p (m :: r) p' (concat pkts) /\ Forall led pkts /\ (e = 0 \/ e = ENOBUFS) /\
    (e = 0 -> wire_frags p' h ops D len 0 pkts).
Proof.
  intros [Hdg Ho Hx Hph Hml Hb Hopl [Hbp Hdp]] Hcp Hopt Hopt0 ops Hpos Hl8 Hll Hrc.
  pose proof Hdg as (Hok & Hv & Hhl & Hh20 & Hoff & Hmax & Hlen).
  pose proof (owns_wf _ _ Ho) as Hw. apply Forall_app in Hw as [Hw _].
  assert (HD : bytesP D) by (rewrite Hb in Hbp; apply Forall_app in Hbp as [_ [_ ?]%Forall_app]; done).
  assert (Hi : intact (m :: r) hlen D p).
  { split; [done|]. rewrite <- (zlen_bytes p _ Hw), Hb, !zlen_app, ip_bytes_len, Hopl. split; [|lia].
    rewrite app_assoc. apply drop_app_length'. rewrite length_app. change (length (ip_bytes h)) with 20%nat.
    unfold zlen, IP_HSIZE in *. lia. }
  assert (Hops : forall o, 0 < o -> ops o = opts0) by (intros o Hpo; unfold ops; destruct (o =? 0) eqn:?; [lia|done]).
  unfold ip_frags. rewrite Hlen, u16_small by (pose proof (zlen_nonneg D); unfold IP_HSIZE in *; lia).
  assert (Hq : 0 <= zlen D / len <= zlen D).
  { split; [apply Z.div_pos; lia|]. apply Z.div_le_upper_bound; [lia|]. nia. }
  destruct (frag_loop_ok mget junk (m :: r) h hlen D cp opts0 Hdg HD Hcp Hopt Hopt0 ops Hops (Z.to_nat (zlen D / len))
    (Z.to_nat (hlen + zlen D)) (hlen + len) len [] s ((m :: r) ++ R) p)
    as (e & new & s' & p' & E & He & Hee & Hwn & Hne & Hst).
  { unfold IP_HSIZE in *. lia. } { done. } { intros x Hxx. apply elem_of_app. by left. } { done. }
  { intros a. rewrite Z2Nat.id by lia. apply Hrc. } { done. } { done. }
  { by replace (hlen + len - hlen) with len by lia. } { lia. }
  { rewrite Z2Nat.id by lia. pose proof (Z.mul_succ_div_gt (zlen D) len Hpos). nia. }
  rewrite E. cbn [mbind option_bind app]. pose proof (evolve_frame _ _ _ _ _ _ He) as He1. cbn [app] in He1.
  assert (He1' : evolve R p (m :: r) p' (concat new ++ m :: r)) by exact He1.
  destruct Hee as [->| ->].
  - change (0 =? 0) with true. cbv iota.
    assert (Hm0 : forall x, x ∈ m :: r -> mbuf_bytes p' x = mbuf_bytes p x)
      by (intros x Hxx; apply (ev_bytes _ _ _ _ _ He), elem_of_app; by left).
    destruct (first_frag_ok (concat new ++ R) junk m r h ops hlen D len p')
      as (c & -> & Hled & He2 & Hwf & Hpk); try done.
    { pose proof (ev_owns _ _ _ _ _ He1') as Ho1. revert Ho1. apply owns_Permutation. solve_Permutation. }
    { by rewrite (bytes_same p p'). }
    { by rewrite (bytes_same p p'). }
    cbn [mbind option_bind]. exists 0, (c :: new), s', p'. split; [done|]. split; [|split; [by apply Forall_cons_2|]].
    + apply evolve_frame in He2. eapply evolve_trans; [exact He1'|]. cbn [concat].
      eapply evolve_perm; [| |exact He2]; [solve_Permutation|done].
    + split; [by left|]. intros _. cbn [wire_frags]. rewrite Z.sub_0_r, Z.min_l by lia.
      split; [done|]. split; [done|]. replace (0 + len) with (hlen + len - hlen) by lia. auto.
  - change (ENOBUFS =? 0) with false. cbv iota.
    exists ENOBUFS, ((m :: r) :: new), s', p'. split; [done|]. split; [|split; [|split; [by right|done]]].
    + eapply evolve_perm; [reflexivity| |exact He1']. cbn [concat]. solve_Permutation.
    + apply Forall_cons_2; [|done]. by exists m, r.
Qed.

(** * Sending *)

Section send_ok.
Context {D : Type} `{NetIfLaws D}.

Lemma sendorfree_ok R pkts : forall e d p,
  Forall led pkts -> owns p ((concat pkts ++ if_held d) ++ R) ->
  exists e' d' p' k, sendorfree e pkts d p = Some (e', d', p') /\
    evolve R p (concat pkts ++ if_held d) p' (if_held d') /\
    if_sent d' p' = if_sent d p ++ take k (map (bytes p) pkts) /\
    (e' = 0 -> e = 0 /\ take k (map (bytes p) pkts) = map (bytes p) pkts) /\ (e <> 0 -> k = 0%nat /\ e' = e).
Proof using All.
  induction pkts as [|c pkts IH]; intros e d p Hl Ho; cbn [sendorfree].
  { exists e, d, p, 0%nat. cbn [map take]. rewrite app_nil_r. split; [done|]. split; [by apply evolve_refl|].
    split; [done|]. by split. }
  apply Forall_cons in Hl as [Hlc Hl]. cbn [concat map] in *.
  assert (Ho1 : owns p ((c ++ if_held d) ++ concat pkts ++ R)).
  { revert Ho. apply owns_Permutation. solve_Permutation. }
  assert (Hsame : forall q, (forall m, m ∈ concat pkts -> mbuf_bytes q m = mbuf_bytes p m) ->
    map (bytes q) pkts = map (bytes p) pkts).
  { intros q Hq. apply map_ext_in. intros x Hx. apply bytes_same. intros m Hm. apply Hq.
    apply list_elem_of_In, in_concat. exists x. split; [done|by apply list_elem_of_In]. }
  destruct (e =? 0) eqn:He.
  - destruct (if_output_takes _ d c p Hlc Ho1) as (e1 & d1 & p1 & -> & Hev & Hs). cbn [mbind option_bind].
    pose proof (evolve_frame _ _ _ _ _ _ Hev) as Hf.
    destruct (IH e1 d1 p1 Hl) as (e' & d' & p' & k & -> & Hev2 & Hs2 & Hk & Hz).
    { pose proof (ev_owns _ _ _ _ _ Hf) as Ho2. revert Ho2. apply owns_Permutation. solve_Permutation. }
    assert (Hm : map (bytes p1) pkts = map (bytes p) pkts).
    { apply Hsame. intros m Hmm. apply (ev_bytes _ _ _ _ _ Hev), elem_of_app. by left. }
    rewrite Hm in *.
    assert (Hev' : evolve R p ((c ++ concat pkts) ++ if_held d) p' (if_held d')).
    { eapply evolve_trans; [eapply evolve_perm; [| |exact Hf]|exact Hev2]; solve_Permutation. }
    destruct (e1 =? 0) eqn:He1.
    + exists e', d', p', (S k). split; [done|]. split; [done|]. cbn [take].
      split; [by rewrite Hs2, Hs, <- app_assoc|]. split; [|lia].
      intros He'. destruct (Hk He') as [_ ->]. split; [lia|done].
    + destruct (Hz ltac:(lia)) as [-> ->]. exists e1, d', p', 0%nat. split; [done|]. split; [done|].
      split; [by rewrite Hs2, Hs, !app_nil_r|]. split; [lia|lia].
  - rewrite <- app_assoc in Ho1. pose proof (m_freem_ok _ _ _ Ho1) as Hev.
    rewrite app_assoc in Hev. pose proof (evolve_frame _ _ _ _ _ _ Hev) as Hf. cbn [app] in Hf.
    destruct (IH e d (m_freem c p) Hl) as (e' & d' & p' & k & -> & Hev2 & Hs2 & Hk & Hz).
    { pose proof (ev_owns _ _ _ _ _ Hf) as Ho2. revert Ho2. apply owns_Permutation. solve_Permutation. }
    destruct (Hz ltac:(lia)) as [-> ->]. exists e, d', p', 0%nat. split; [done|].
    split; [|split; [|split; [lia|done]]].
    + eapply evolve_trans; [eapply evolve_perm; [| |exact Hf]|exact Hev2]; solve_Permutation.
    + rewrite Hs2. cbn [take]. rewrite !app_nil_r. apply if_sent_frame. intros m Hm.
      apply (ev_bytes _ _ _ _ _ Hev). rewrite !elem_of_app. auto.
Qed.
End send_ok.

(** * The end of [ip_output] *)

Lemma land_lnot_7 x : Z.land x (Z.lnot 7) = x - x mod 8.
Proof.
  rewrite <- Z.ldiff_land. change 7 with (Z.ones 3). rewrite Z.ldiff_ones_r by lia.
  rewrite Z.shiftl_mul_pow2, Z.shiftr_div_pow2 by lia. change (2 ^ 3) with 8.
  pose proof (Z.div_mod x 8). lia.
Qed.

Lemma wire_frag_len h ops D o n w hlen :
  wire_frag h ops D o n w -> iph_hl h * 4 = hlen -> zlen w <= hlen + n.
Proof.
  intros (mh & -> & _ & _ & _ & _ & _ & Hol & _ & Ho & Hn & He & _) Hh.
  rewrite !zlen_app, ip_bytes_len, zslice_len by lia. lia.
Qed.

Lemma wire_list_len h ops D len hlen ws : forall o,
  wire_list h ops D len o ws -> iph_hl h * 4 = hlen -> Forall (fun w => zlen w <= hlen + len) ws.
Proof.
  induction ws as [|w ws IH]; intros o; [by constructor|]. intros [H1 H2] Hh.
  pose proof (wire_frag_len _ _ _ _ _ _ _ H1 Hh). apply Forall_cons_2; [lia|by eapply IH].
Qed.

Lemma whole_ok R p m r h ops hlen opts D junk :
  outgoing R p m r h hlen opts D -> ops 0 = opts -> 0 < zlen D ->
  exists m', finish_header junk h [] hlen (m :: r) p = Some (m' :: r, p) /\ led (m' :: r) /\
    evolve R p (m :: r) p (m' :: r) /\ wire_frag h ops D 0 (zlen D) (bytes p (m' :: r)).
Proof.
  intros [(Hok & Hv & Hhl & Hh20 & Hoff & Hmax & Hlen) Ho Hx Hph Hml Hb Hopl [Hbp _]] Hops HD.
  pose proof (owns_wf _ _ Ho) as Hw. apply Forall_app in Hw as [Hw _].
  apply Forall_cons in Hw as [Hwm Hwr].
  assert (Hd20 : drop (20 + length (@nil Z)) (bytes p (m :: r)) = opts ++ D)
    by (rewrite Hb; by apply drop_app_length').
  destruct (finish_header_ok junk h [] hlen m r p Hwm Hx Hok ltac:(constructor))
    as (m' & sum & E & Hrw & Hw' & Hsum & Hbs & HbP & Hver).
  { rewrite zlen_nil. lia. }
  { rewrite Hd20. rewrite Hb in Hbp. by apply Forall_app in Hbp as [_ ?]. }
  { rewrite Hb, !zlen_app, ip_bytes_len. lia. }
  { lia. }
  rewrite Hd20 in Hbs, HbP, Hver. cbn [app] in Hbs, HbP, Hver.
  destruct Hrw as (R1 & R2 & R3 & (R4 & R5 & R6 & R7) & R8).
  exists m'. split; [done|]. split; [exists m', r; split; [done|]; unfold has; by rewrite R5|]. split.
  - apply evolve_in; [constructor; [done|apply same_ids_refl]|by apply Forall_cons_2|done].
  - unfold wire_frag. rewrite Hops. exists (h <| iph_sum ::= sum |>). rewrite Hbs, (zslice_full D) by lia. split; [done|].
    split; [by apply ip_ok_sum|]. split; [done|]. split; [done|].
    split; [change (iph_hl h * 4 = IP_HSIZE + zlen opts); lia|].
    split; [change (iph_len h = IP_HSIZE + zlen opts + zlen D); lia|].
    split; [lia|]. split; [done|]. split; [lia|]. split; [lia|]. split; [lia|].
    split; [rewrite Z.add_0_l, Z.eqb_refl; exact Hoff|].
    split_and!; try done. change (iph_hl (h <| iph_sum ::= sum |>)) with (iph_hl h). by rewrite Hhl.
Qed.

(** [sent] is what [ip_output] should send of the datagram: as it is when it fits,
    in fragments when it does not; all of it when there was no error. *)
Definition sent_ok (h : ip) (ops : Z -> list Z) (hlen : Z) (D : list Z) (mtu e : Z) (sent : list (list Z)) : Prop :=
  let len := Z.land (mtu - hlen) (Z.lnot 7) in
  (hlen + zlen D <= mtu -> e = 0 /\ (exists w, sent = [w] /\ wire_frag h ops D 0 (zlen D) w) \/ e <> 0 /\ sent = []) /\
  (mtu < hlen + zlen D -> len < 8 -> e = EMSGSIZE /\ sent = []) /\
  (mtu < hlen + zlen D -> 8 <= len ->
     wire_list h ops D len 0 sent /\ Forall (fun w => zlen w <= mtu) sent /\
     (e = 0 -> zlen D <= len * Z.of_nat (length sent))).

Lemma ip_send_ok mget `{!Allocator mget} {T : Type} `{NetIfLaws T} junk R mtu p m r h hlen opts os D d s :
  outgoing (if_held d ++ R) p m r h hlen opts D -> 0 < zlen D -> 0 < mtu < 32768 ->
  option_area opts os ->
  (forall a, refcnt p a +
     zlen D / Z.land (mtu - hlen) (Z.lnot 7) * Z.of_nat (length (m :: r)) < 32768) ->
  exists e d' s' p' sent, ip_send mget junk mtu (m :: r) h hlen d s p = Some (e, d', s', p') /\
    evolve R p ((m :: r) ++ if_held d) p' (if_held d') /\
    if_sent d' p' = if_sent d p ++ sent /\ sent_ok h (frag_opts opts os) hlen D mtu e sent.
Proof.
  intros Hpk HD Hmtu Hopt Hrc. pose proof Hpk as [Hdg Ho Hx Hph Hml Hb Hopl [Hbp Hdp]].
  pose proof Hdg as (Hok & Hv & Hhl & Hh20 & Hoff & Hmax & Hlen). unfold ip_send, sent_ok.
  rewrite Hlen, !u16_small by (unfold IP_HSIZE in *; lia). set (len := Z.land (mtu - hlen) (Z.lnot 7)) in *.
  assert (Ho' : owns p (((m :: r) ++ if_held d) ++ R)) by (by rewrite <- app_assoc).
  destruct (hlen + zlen D <=? mtu) eqn:Hfit.
  { destruct (whole_ok _ p m r h (frag_opts opts os) hlen opts D junk Hpk eq_refl HD) as (m' & -> & Hled & Hev & Hwf).
    cbn [mbind option_bind]. pose proof (evolve_frame _ _ _ _ _ _ Hev) as Hf.
    destruct (if_output_takes R d (m' :: r) p Hled (ev_owns _ _ _ _ _ Hf)) as (e & d' & p' & -> & He & Hs).
    cbn [mbind option_bind]. eexists e, d', s, p', _. split; [reflexivity|].
    split; [by eapply evolve_trans|]. split; [exact Hs|]. split; [|split; lia].
    intros _. destruct (e =? 0) eqn:?; [left|right; by split; [lia|]]. split; [lia|]. by eexists. }
  rewrite Hoff. change (Z.land 0 IP_DF =? 0) with true. cbn [negb orb].
  set (s1 := s <| ips_fragmented ::= _ |>). destruct (len <? 8) eqn:Hl8.
  { rewrite <- app_assoc in Ho'. pose proof (m_freem_ok _ _ _ Ho') as Hev.
    eexists EMSGSIZE, d, s1, _, []. split; [reflexivity|]. split; [by apply evolve_frame in Hev|].
    rewrite app_nil_r. split; [|split; [lia|split; [done|lia]]].
    apply if_sent_frame. intros x Hxx. apply (ev_bytes _ _ _ _ _ Hev), elem_of_app. by left. }
  cbn [head mbind option_bind]. rewrite storage_eq, Hx. set (cp := drop _ (m_dat m)) in *.
  assert (Hopt' : ip_optcopy h cp = Some (copied_opts os)).
  { destruct (outgoing_options _ _ _ _ _ _ _ _ Hpk) as [rest Hrest]. fold cp in Hrest. rewrite Hrest.
    apply ip_optcopy_area; [done|lia]. }
  assert (Hopt0 : hlen <= IP_HSIZE -> copied_opts os = []).
  { intros Hs. apply (copied_none opts os Hopt). pose proof (zlen_nonneg opts).
    destruct opts as [|x l]; [done|]. pose proof (zlen_nonneg l). rewrite zlen_cons in *. lia. }
  assert (Hlm : len mod 8 = 0 /\ len <= mtu - hlen).
  { unfold len. rewrite land_lnot_7. split; [|Z.div_mod_to_equations; lia].
    rewrite Zminus_mod_idemp_r, Z.sub_diag. done. }
  destruct (ip_frags_ok mget junk (if_held d ++ R) p m r h hlen opts D cp (copied_opts os) len s1)
    as (e & pkts & s' & p1 & -> & Hev & Hled & Hee & Hw);
    [done|by apply Forall_drop|done|done|lia|lia|lia|done|].
  cbn [mbind option_bind]. pose proof (evolve_frame _ _ _ _ _ _ Hev) as Hf.
  destruct (sendorfree_ok R pkts e d p1 Hled (ev_owns _ _ _ _ _ Hf)) as (e' & d' & p' & k & -> & Hev2 & Hs & Hk & Hz).
  cbn [mbind option_bind]. eexists e', d', s', p', _. split; [reflexivity|].
  split; [by eapply evolve_trans|]. split.
  { rewrite Hs. f_equal. apply if_sent_frame. intros x Hxx. apply (ev_bytes _ _ _ _ _ Hev), elem_of_app. by left. }
  split; [lia|]. split; [lia|]. intros _ _.
  destruct (decide (e = 0)) as [->|Hne].
  - destruct (wire_frags_list _ _ _ _ _ _ _ (Hw eq_refl)) as [Hwl Hwc].
    assert (Hwk : wire_list h (frag_opts opts os) D len 0 (take k (map (bytes p1) pkts))) by (by apply wire_list_take).
    split; [done|]. split; [|intros He'; destruct (Hk He') as [_ ->]; rewrite length_map; lia].
    eapply Forall_impl; [apply (wire_list_len _ _ _ _ hlen _ _ Hwk Hhl)|]. intros w Hww. cbn in Hww. lia.
  - destruct (Hz Hne) as [-> ->]. cbn [take]. split; [done|]. split; [constructor|done].
Qed.
