(* ===== verification/IfLoop.v ===== *)
(** The loopback interface ([net/if_loop.c]) and the interface queues
    ([net/if.h]), and that the loopback interface is one [ip_output] can rely on. *)
From S2P Require Import Prelude Mbuf IpReass Ip IpOutput.

Definition IFQ_MAXLEN : Z := 50.
Definition RTF_HOST : Z := 4.
Definition RTF_REJECT : Z := 8.
Definition AF_INET : Z := 2.
Definition EAFNOSUPPORT : Z := 47.
Definition ENETUNREACH : Z := 51.

(** [struct ifqueue]: [ifq_len] is the length of the list. *)
Record ifqueue := mk_ifqueue { ifq_head : list chain; ifq_maxlen : Z; ifq_drops : Z }.
#[export] Instance ifqueue_eta : Eta ifqueue := fun q => mk_ifqueue (ifq_head q) (ifq_maxlen q) (ifq_drops q).

Definition IF_QFULL (q : ifqueue) : bool := ifq_maxlen q <=? Z.of_nat (length (ifq_head q)).
Definition IF_DROP (q : ifqueue) : ifqueue := q <| ifq_drops ::= ifq_drops q + 1 |>.
Definition IF_ENQUEUE (q : ifqueue) (m : chain) : ifqueue := q <| ifq_head ::= ifq_head q ++ [m] |>.
Definition IF_DEQUEUE (q : ifqueue) : option chain * ifqueue :=
  match ifq_head q with
  | [] => (None, q)
  | m :: ms => (Some m, q <| ifq_head ::= ms |>)
  end.

(** The counters of [loif], and [ipintrq]; [lo_isr] says whether the software
    interrupt is scheduled. *)
Record lostate := mk_lostate {
  ipintrq : ifqueue; lo_isr : bool; if_opackets : Z; if_obytes : Z; if_ipackets : Z; if_ibytes : Z }.
#[export] Instance lostate_eta : Eta lostate := fun s =>
  mk_lostate (ipintrq s) (lo_isr s) (if_opackets s) (if_obytes s) (if_ipackets s) (if_ibytes s).

Section loop.
(** The address of [loif]. *)
Context (loif : Z).

(** [looutput(&loif, m, dst, rt)]: [af] is [dst->sa_family], [rt] the flags of the
    route if there is one; [None]: a panic.  The capture tap reads the packet only. *)
Definition looutput (s : lostate) (c : chain) (af : Z) (rt : option Z) (p : mpool)
  : option (Z * lostate * mpool) :=
  match c with
  | [] => None
  | m :: r =>
      if negb (has m M_PKTHDR) then None else
      let m := m <| m_pkthdr ::= m_pkthdr m <| rcvif ::= loif |> |> in
      let c := m :: r in
      let rt_flags := default 0 rt in
      if negb (Z.land rt_flags RTF_REJECT =? 0) then
        Some (if negb (Z.land rt_flags RTF_HOST =? 0) then EHOSTUNREACH else ENETUNREACH, s, m_freem c p)
      else
        let s := s <| if_opackets ::= u32 (if_opackets s + 1) |>
                   <| if_obytes ::= u32 (if_obytes s + ph_len (m_pkthdr m)) |> in
        if negb (af =? AF_INET) then Some (EAFNOSUPPORT, s, m_freem c p)
        else if IF_QFULL (ipintrq s)
        then Some (ENOBUFS, s <| ipintrq ::= IF_DROP (ipintrq s) |>, m_freem c p)
        else Some (0, s <| ipintrq ::= IF_ENQUEUE (ipintrq s) c |> <| lo_isr ::= true |>
                        <| if_ipackets ::= u32 (if_ipackets s + 1) |>
                        <| if_ibytes ::= u32 (if_ibytes s + ph_len (m_pkthdr m)) |>, p)
  end.

(** As [ip_output] uses it for a route that does not reject. *)
#[export] Instance loop_NetIf : NetIf lostate := {
  if_output s c p := looutput s c AF_INET None p;
  if_held s := concat (ifq_head (ipintrq s));
  if_sent s p := map (bytes p) (ifq_head (ipintrq s)) }.

#[export] Instance loop_NetIfLaws : NetIfLaws lostate.
Proof.
  split.
  - intros R s c p (m & r & -> & Hph) Ho. cbn [if_output if_held if_sent loop_NetIf] in *. unfold looutput.
    rewrite Hph. cbn [negb]. set (m1 := m <| m_pkthdr ::= _ |>). cbv zeta.
    set (s1 := s <| if_opackets ::= _ |> <| if_obytes ::= _ |>).
    pose proof (owns_wf _ _ Ho) as Hw. rewrite <- app_assoc in Ho, Hw. apply Forall_app in Hw as [Hw _].
    set (K := concat (ifq_head (ipintrq s))) in *.
    assert (Hev : evolve (K ++ R) p (m :: r) p (m1 :: r)).
    { apply evolve_in; [constructor; [done|apply same_ids_refl]| |done].
      apply Forall_cons in Hw as [H1 H2]. by apply Forall_cons_2. }
    change (ipintrq s1) with (ipintrq s). change (negb (AF_INET =? AF_INET)) with false. change (Z.land (default 0 None) RTF_REJECT =? 0) with true. cbn [negb]. cbv iota.
    destruct (IF_QFULL (ipintrq s)).
    + eexists ENOBUFS, _, _. split; [reflexivity|]. 
      pose proof (m_freem_ok _ _ _ (ev_owns _ _ _ _ _ Hev)) as Hf.
      pose proof (evolve_trans _ _ _ _ _ _ _ Hev Hf) as He. split; [by apply evolve_frame in He|].
      change (ifq_head (ipintrq (s1 <| ipintrq ::= _ |>))) with (ifq_head (ipintrq s)).
      change (ENOBUFS =? 0) with false. rewrite app_nil_r. apply map_ext_in. intros c Hc. apply bytes_same.
      intros x Hx. apply (ev_bytes _ _ _ _ _ He), elem_of_app. left. unfold K.
      apply list_elem_of_In, in_concat. exists c. split; [done|by apply list_elem_of_In].
    + eexists 0, _, p. split; [reflexivity|].
      change (ifq_head (ipintrq (_ <| if_ibytes ::= _ |>))) with (ifq_head (ipintrq s) ++ [m1 :: r]).
      rewrite concat_app. cbn [concat]. rewrite app_nil_r, map_app. split.
      * apply evolve_frame in Hev. eapply evolve_perm; [| |exact Hev]; [done|]. apply Permutation_app_comm.
      * done.
  - intros s p p' Hb. cbn [if_held if_sent loop_NetIf] in *. apply map_ext_in. intros c Hc. apply bytes_same.
    intros x Hx. apply Hb. apply list_elem_of_In, in_concat. exists c. split; [done|by apply list_elem_of_In].
Qed.
End loop.

(** C27.  The end of [ip_output] for a datagram of [D] with any header options that have
    their length, on any interface that keeps the interface's laws and any allocator,
    memory running out included.  A datagram that fits goes out whole; one that does not
    goes out in fragments when the MTU has room for 8 bytes of data, otherwise the answer
    is [EMSGSIZE] and nothing is sent.  Every fragment fits the MTU, is headed by the
    datagram's header with its own length, offset and [MF] and a sum that verifies, the
    first one with all the options, the others with those that are copied; and the
    fragments sent are the pieces of [D] in order from its start, all of them when
    the answer is 0.  Whatever happens every mbuf is with the interface or back in the
    pool. *)
Theorem ip_send_correct mget `{!Allocator mget} {T : Type} `{NetIfLaws T} junk R mtu p m r h hlen opts os D d s :
  outgoing (if_held d ++ R) p m r h hlen opts D -> 0 < zlen D -> 0 < mtu < 32768 ->
  option_area opts os ->
  (forall a, refcnt p a +
     zlen D / Z.land (mtu - hlen) (Z.lnot 7) * Z.of_nat (length (m :: r)) < 32768) ->
  exists e d' s' p' sent, ip_send mget junk mtu (m :: r) h hlen d s p = Some (e, d', s', p') /\
    evolve R p ((m :: r) ++ if_held d) p' (if_held d') /\
    if_sent d' p' = if_sent d p ++ sent /\ sent_ok h (frag_opts opts os) hlen D mtu e sent.
Proof. by apply ip_send_ok. Qed.

(** A datagram of 24 bytes. *)
Definition demo_ip : ip := mk_ip 4 5 0 44 7 0 64 17 0 1 2.
Definition demo_data : list Z := map Z.of_nat (seq 20 24).
#[local] Instance demo_NetIf : NetIf lostate := loop_NetIf 500.
#[local] Instance demo_NetIfLaws : NetIfLaws lostate := loop_NetIfLaws 500.
Definition demo_lo : lostate := mk_lostate (mk_ifqueue [] IFQ_MAXLEN 0) false 0 0 0 0.

(** The same with 8 bytes of options: a source route (copied), padding, a route to record. *)
Definition demo_ip7 : ip := mk_ip 4 7 0 52 7 0 64 17 0 1 2.
Definition demo_opts : list Z := [131; 3; 4; 1; 7; 3; 4; 0].
Definition demo_packet : mbuf :=
  mk_mbuf 4480 52 12 1 M_PKTHDR (mk_pkthdr 52 0 0) (mk_mext 0 0)
    (repeat 0 12 ++ ip_bytes demo_ip7 ++ demo_opts ++ demo_data ++ repeat 0 44).

Lemma demo_area : option_area demo_opts [[131; 3; 4]; [1]; [7; 3; 4]].
Proof.
  eapply (area_opt demo_opts 131 3); try reflexivity; try discriminate; [split; [done|vm_compute; discriminate]|].
  apply area_nop. eapply (area_opt [7; 3; 4; 0] 7 3); try reflexivity; try discriminate;
    [split; [done|vm_compute; discriminate]|]. apply area_eol.
Qed.

Lemma demo_packet_ok : outgoing [] demo_pool demo_packet [] demo_ip7 28 demo_opts demo_data.
Proof.
  pose proof demo_owns as [_ _ Hf _ Hc]. split; try reflexivity.
  - vm_compute. repeat split; discriminate.
  - split; [split| |exact Hf| |exact Hc].
    + apply (bool_decide_unpack _). vm_compute. exact I.
    + repeat apply Forall_cons_2; try apply Forall_nil_2; done.
    + repeat apply Forall_cons_2; try apply Forall_nil_2;
        vm_compute; repeat split; try discriminate; try done.
    + intros a. specialize (Hc a). change (refs _ a) with 0. lia.
  - vm_compute. discriminate.
  - split; apply (bool_decide_unpack _); vm_compute; exact I.
Qed.

(** With an MTU of 44 it goes out in two fragments; the second one has the source route
    and an [EOL] to fill the word. *)
Lemma ip_send_correct_witness :
  exists d' s' p' w1 w2, ip_send MGET_list 99 44 [demo_packet] demo_ip7 28 demo_lo (mk_ostat 0 0) demo_pool
      = Some (0, d', s', p') /\ if_sent d' p' = [w1; w2] /\
    zslice w1 20 24 = demo_opts ++ take 16 demo_data /\ zslice w2 20 12 = [131; 3; 4; 0] ++ drop 16 demo_data /\
    s' = mk_ostat 1 1.
Proof.
  destruct (ip_send_correct MGET_list (T := lostate) 99 [] 44 demo_pool demo_packet [] demo_ip7 28 demo_opts
    [[131; 3; 4]; [1]; [7; 3; 4]] demo_data demo_lo (mk_ostat 0 0)) as (e & d' & s' & p' & sent & E & _ & Hs & _ & _ & Hok).
  - exact demo_packet_ok.
  - reflexivity.
  - split; reflexivity.
  - exact demo_area.
  - intros a. pose proof (demo_refcnt a). change (zlen demo_data / _ * _) with 1. lia.
  - destruct Hok as (Hw & _ & _); [reflexivity|vm_compute; discriminate|].
    change (if_sent demo_lo demo_pool) with (@nil (list Z)) in Hs. cbn [app] in Hs.
    assert (Hz : map zlen sent = [44; 32]) by (rewrite <- Hs; vm_compute in E; injection E as _ <- _ <-; by vm_compute).
    destruct sent as [|w1 [|w2 [|]]]; try discriminate. destruct Hw as ((mh1 & -> & _) & (mh2 & -> & _) & _).
    eexists d', s', p', _, _. split; [|split; [exact Hs|]].
    + clear Hs Hz. vm_compute in E. injection E as <- <- <- <-. by vm_compute.
    + split; [reflexivity|]. split; [reflexivity|]. clear Hs Hz. vm_compute in E. by injection E as _ _ <- _.
Defined.
