(* ===== verification/IpOptions.v ===== *)
(** Options of incoming datagrams ([ip_dooptions], [save_rte] and [ip_srcroute] in
    [netinet/ip_input.c]). *)
From S2P Require Import Prelude Mbuf IpReass Ip IpOutput.

Definition IPOPT_OPTVAL : Z := 0.
Definition IPOPT_OLEN : Z := 1.
Definition IPOPT_OFFSET : Z := 2.
Definition IPOPT_MINOFF : Z := 4.
Definition IPOPT_RR : Z := 7.
Definition IPOPT_TS : Z := 68.
Definition IPOPT_LSRR : Z := 131.
Definition IPOPT_SSRR : Z := 137.
Definition IPOPT_TS_TSONLY : Z := 0.
Definition IPOPT_TS_TSANDADDR : Z := 1.
Definition IPOPT_TS_PRESPEC : Z := 3.
Definition ICMP_UNREACH : Z := 3.
Definition ICMP_UNREACH_HOST : Z := 1.
Definition ICMP_UNREACH_SRCFAIL : Z := 5.
Definition ICMP_PARAMPROB : Z := 12.
Definition MT_SOOPTS : Z := 10.
Definition INADDR_SIZE : Z := 4.     (* sizeof(struct in_addr) *)
Definition IP_DST : Z := 16.         (* the offset of ip_dst *)

(** [ip_srcrt] and [ip_nhops]: the option's bytes are those of [srcopt] and of
    [route] together. *)
Record srcrt := mk_srcrt { ip_nhops : Z; srcrt_dst : Z; srcrt_opt : list Z }.
#[export] Instance srcrt_eta : Eta srcrt := fun r => mk_srcrt (ip_nhops r) (srcrt_dst r) (srcrt_opt r).
Definition SRCRT_SIZE : Z := 48.     (* sizeof(ip_srcrt) *)
Definition SRCOPT_SIZE : Z := 43.    (* sizeof(srcopt) + sizeof(route) *)

(** Four bytes, as an address or a time, in network order. *)
Definition get32 (mem : list Z) (o : Z) : option Z :=
  b ← blob mem o 4;
  match b with [a; b; c; d] => Some (be32 a b c d) | _ => None end.

(** [save_rte(option, dst)], the option at [o]. *)
Definition save_rte (mem : list Z) (o dst : Z) (r : srcrt) : option srcrt :=
  olen ← zget mem (o + IPOPT_OLEN);
  if (olen <? IPOPT_OFFSET + 1) || (SRCRT_SIZE - (1 + INADDR_SIZE) <? olen) then Some r else
  opt ← blob mem o olen;
  srcopt ← blit (srcrt_opt r) 0 opt;
  Some (mk_srcrt ((olen - IPOPT_OFFSET - 1) / INADDR_SIZE) dst srcopt).

(** How the loop goes on after an option: with the memory, the saved route and
    [forward]; or to [bad], with the type and code of the error. *)
Record optst := mk_optst { o_mem : list Z; o_rte : srcrt; o_forward : bool }.
#[export] Instance optst_eta : Eta optst := fun s => mk_optst (o_mem s) (o_rte s) (o_forward s).
Inductive optnext := Next (s : optst) | Bad (type code : Z) (s : optst).

Section dooptions.
(** The address tables and the clock: the address of an interface that has this
    address, that has it at the other end or on its net, that a route to it uses; the
    address of the interface the packet came in on. *)
Context (ifa_ifwithaddr ifa_ifwithdstaddr in_iaonnetof ip_rtaddr : Z -> option Z)
  (ifptoia : option Z) (iptime : Z).

Definition put_bytes (o : Z) (b : list Z) (s : optst) : option optst :=
  mem ← blit (o_mem s) o b; Some (s <| o_mem ::= mem |>).
(** [cp[k] += 4]. *)
Definition bump4 (o : Z) (s : optst) : option optst :=
  x ← zget (o_mem s) o; put_bytes o [u8 (x + INADDR_SIZE)] s.

(** [IPOPT_LSRR] and [IPOPT_SSRR], the option at [o] from the header's start. *)
Definition opt_route (opt o optlen : Z) (s : optst) : option optnext :=
  if optlen <? IPOPT_OFFSET + 1 then Some (Bad ICMP_PARAMPROB (o + IPOPT_OLEN) s) else
  off ← zget (o_mem s) (o + IPOPT_OFFSET);
  if off <? IPOPT_MINOFF then Some (Bad ICMP_PARAMPROB (o + IPOPT_OFFSET) s) else
  dst ← get32 (o_mem s) IP_DST;
  match ifa_ifwithaddr dst with
  | None => Some (if opt =? IPOPT_SSRR then Bad ICMP_UNREACH ICMP_UNREACH_SRCFAIL s else Next s)
  | Some _ =>
      let off := off - 1 in
      if optlen - INADDR_SIZE <? off then
        src ← get32 (o_mem s) (IP_DST - INADDR_SIZE);
        r ← save_rte (o_mem s) o src (o_rte s); Some (Next (s <| o_rte ::= r |>))
      else
        addr ← get32 (o_mem s) (o + off);
        match (if opt =? IPOPT_SSRR
               then match ifa_ifwithdstaddr addr with Some a => Some a | None => in_iaonnetof addr end
               else ip_rtaddr addr) with
        | None => Some (Bad ICMP_UNREACH ICMP_UNREACH_SRCFAIL s)
        | Some ia =>
            s ← put_bytes IP_DST (bytes32 addr) s;
            s ← put_bytes (o + off) (bytes32 ia) s;
            s ← bump4 (o + IPOPT_OFFSET) s;
            Some (Next (s <| o_forward ::= true |>))
        end
  end.

(** [IPOPT_RR]. *)
Definition opt_rr (o optlen : Z) (s : optst) : option optnext :=
  if optlen <? IPOPT_OFFSET + 1 then Some (Bad ICMP_PARAMPROB (o + IPOPT_OLEN) s) else
  off ← zget (o_mem s) (o + IPOPT_OFFSET);
  if off <? IPOPT_MINOFF then Some (Bad ICMP_PARAMPROB (o + IPOPT_OFFSET) s) else
  let off := off - 1 in
  if optlen - INADDR_SIZE <? off then Some (Next s) else
  dst ← get32 (o_mem s) IP_DST;
  match (match ifa_ifwithaddr dst with Some a => Some a | None => ip_rtaddr dst end) with
  | None => Some (Bad ICMP_UNREACH ICMP_UNREACH_HOST s)
  | Some ia =>
      s ← put_bytes (o + off) (bytes32 ia) s;
      s ← bump4 (o + IPOPT_OFFSET) s;
      Some (Next s)
  end.

(** The timestamp at [ipt_ptr]. *)
Definition opt_stamp (o : Z) (s : optst) : option optnext :=
  ptr ← zget (o_mem s) (o + 2);
  s ← put_bytes (o + ptr - 1) (bytes32 iptime) s;
  s ← bump4 (o + 2) s;
  Some (Next s).

(** [IPOPT_TS]; [ipt_oflw] and [ipt_flg] share the fourth byte. *)
Definition opt_ts (o : Z) (s : optst) : option optnext :=
  let bad s := Some (Bad ICMP_PARAMPROB o s) in
  len ← zget (o_mem s) (o + 1);
  if len <? 5 then bad s else
  ptr ← zget (o_mem s) (o + 2);
  if ptr <? 5 then bad s else
  ovfl ← zget (o_mem s) (o + 3);
  if len - 4 <? ptr then
    let oflw := (ovfl / 16 + 1) mod 16 in
    s ← put_bytes (o + 3) [oflw * 16 + ovfl mod 16] s;
    if oflw =? 0 then bad s else Some (Next s)
  else
  let flg := ovfl mod 16 in
  if flg =? IPOPT_TS_TSONLY then opt_stamp o s
  else if flg =? IPOPT_TS_TSANDADDR then
    if len <? ptr + 4 + INADDR_SIZE then bad s else
    match ifptoia with
    | None => Some (Next s)
    | Some ia =>
        s ← put_bytes (o + ptr - 1) (bytes32 ia) s;
        s ← bump4 (o + 2) s;
        opt_stamp o s
    end
  else if flg =? IPOPT_TS_PRESPEC then
    if len <? ptr + 4 + INADDR_SIZE then bad s else
    addr ← get32 (o_mem s) (o + ptr - 1);
    match ifa_ifwithaddr addr with
    | None => Some (Next s)
    | Some _ => s ← bump4 (o + 2) s; opt_stamp o s
    end
  else bad s.

Definition do_option (opt o optlen : Z) (s : optst) : option optnext :=
  if (opt =? IPOPT_LSRR) || (opt =? IPOPT_SSRR) then opt_route opt o optlen s
  else if opt =? IPOPT_RR then opt_rr o optlen s
  else if opt =? IPOPT_TS then opt_ts o s
  else Some (Next s).

(** The loop: the option at [o], [cnt] bytes of options left.  [None]: an access
    outside the memory, or no end. *)
Fixpoint option_loop (fuel : nat) (o cnt : Z) (s : optst) : option optnext :=
  if cnt <=? 0 then Some (Next s) else
  match fuel with
  | O => None
  | S fuel =>
      opt ← zget (o_mem s) (o + IPOPT_OPTVAL);
      if opt =? IPOPT_EOL then Some (Next s) else
      optlen ← (if opt =? IPOPT_NOP then Some 1 else zget (o_mem s) (o + IPOPT_OLEN));
      if negb (opt =? IPOPT_NOP) && ((optlen <=? 0) || (cnt <? optlen))
      then Some (Bad ICMP_PARAMPROB (o + IPOPT_OLEN) s) else
      r ← do_option opt o optlen s;
      match r with
      | Next s => option_loop fuel (o + optlen) (cnt - optlen) s
      | Bad _ _ _ => Some r
      end
  end.

(** [ip_dooptions]: [mem] is the memory from the header's start, of [hlen] bytes. *)
Definition ip_dooptions (hlen : Z) (mem : list Z) (r : srcrt) : option optnext :=
  option_loop (Z.to_nat hlen) IP_HSIZE (hlen - IP_HSIZE) (mk_optst mem r false).
End dooptions.

(** [ip_srcroute]: the bytes of the mbuf, when there is a route and [m_get] gives
    one; [hop i] is [ip_srcrt.route[i]]. *)
Definition hop (r : srcrt) (i : Z) : list Z := zslice (srcrt_opt r) (3 + 4 * i) 4.
Definition ip_srcroute (r : srcrt) : option (list Z) :=
  if ip_nhops r =? 0 then None else
  Some (hop r (ip_nhops r - 1) ++
        [IPOPT_NOP] ++ zslice (srcrt_opt r) 0 2 ++ [IPOPT_MINOFF] ++
        concat (map (fun i => hop r (Z.of_nat i)) (rev (seq 0 (Z.to_nat (ip_nhops r) - 1)))) ++
        bytes32 (srcrt_dst r)).

(** * Laws *)

Lemma blob_is_Some l o n : 0 <= o -> 0 <= n -> o + n <= zlen l -> blob l o n = Some (zslice l o n).
Proof. apply blob_ok. Qed.

Lemma get32_ok l o : 0 <= o -> o + 4 <= zlen l -> exists x, get32 l o = Some x.
Proof.
  intros Ho Hl. unfold get32. rewrite blob_ok by lia. cbn [mbind option_bind].
  pose proof (zslice_len l o 4 Ho ltac:(lia) Hl) as Hz. unfold zlen in Hz.
  destruct (zslice l o 4) as [|a [|b [|c [|d [|]]]]]; simpl in Hz; try lia. by eexists.
Qed.

Lemma zget_blit l o b l' i :
  blit l o b = Some l' -> i < o \/ o + zlen b <= i -> zget l' i = zget l i.
Proof.
  unfold blit. destruct (_ || _) eqn:E; [done|]. intros [= <-] Hi. pose proof (zlen_nonneg b).
  assert (Ht : zlen (take (Z.to_nat o) l) = o) by (unfold zlen in *; rewrite length_take; lia).
  destruct Hi as [Hi|Hi].
  - rewrite zget_app_l by lia. unfold zget. destruct (i <? 0) eqn:?; [done|]. by rewrite lookup_take_lt by lia.
  - rewrite zget_app_r, Ht, zget_app_r, zget_drop by lia. f_equal. lia.
Qed.

Lemma blit_bytes l o b l' : blit l o b = Some l' -> bytesP l -> bytesP b -> bytesP l'.
Proof.
  unfold blit. destruct (_ || _); [done|]. intros [= <-] Hl Hb.
  apply Forall_app_2; [by apply Forall_take|]. apply Forall_app_2; [done|by apply Forall_drop].
Qed.

Lemma bump4_get s s' o x :
  bump4 o s = Some s' -> zget (o_mem s) o = Some x -> zget (o_mem s') o = Some (u8 (x + 4)).
Proof.
  unfold bump4, put_bytes. intros Hb Hx. rewrite Hx in Hb. cbn [mbind option_bind] in Hb.
  unfold blit in Hb. destruct (_ || _) eqn:E; [done|]. cbn [mbind option_bind] in Hb. injection Hb as <-. cbn.
  apply zget_Some in Hx. rewrite zget_app_r by (unfold zlen; rewrite length_take; lia).
  assert (Ht : zlen (take (Z.to_nat o) (o_mem s)) = o) by (unfold zlen in *; rewrite length_take; lia).
  by rewrite Ht, Z.sub_diag.
Qed.

Lemma put_get s s' o b i :
  put_bytes o b s = Some s' -> i < o \/ o + zlen b <= i -> zget (o_mem s') i = zget (o_mem s) i.
Proof.
  unfold put_bytes. destruct (blit _ _ _) eqn:E; cbn [mbind option_bind]; [|done]. intros [= <-] Hi.
  by eapply zget_blit.
Qed.

(** What option processing of the header [mem] may have done to the memory: the
    header's options and its destination are all it touches. *)
Record confined (hlen : Z) (mem : list Z) (s : optst) : Prop := {
  cf_bytes : bytesP (o_mem s);
  cf_len : zlen (o_mem s) = zlen mem;
  cf_same : forall i, i < IP_DST \/ hlen <= i -> zget (o_mem s) i = zget mem i;
  cf_rte : zlen (srcrt_opt (o_rte s)) = SRCOPT_SIZE;
  cf_hops : 0 <= ip_nhops (o_rte s) <= 10 }.

(** The destination is as it was, unless the packet is to be forwarded. *)
Definition dst_kept (mem : list Z) (s : optst) : Prop :=
  o_forward s = false -> forall i, i < IP_HSIZE -> zget (o_mem s) i = zget mem i.

(** The memory changed only in the options and the destination, that only when the
    datagram is to be forwarded; an offending byte lies below [top]. *)
Definition options_ok (hlen top : Z) (mem : list Z) (r : optnext) : Prop :=
  match r with
  | Next s => confined hlen mem s /\ dst_kept mem s
  | Bad type code s => confined hlen mem s /\ dst_kept mem s /\
      (type = ICMP_PARAMPROB -> IP_HSIZE <= code < top)
  end.

Section safe.
Context (hlen : Z) (mem : list Z).
Context (Hhl : IP_HSIZE <= hlen <= 60) (Hroom : hlen <= zlen mem).

Lemma put_ok s o b :
  confined hlen mem s -> bytesP b -> IP_DST <= o -> o + zlen b <= hlen ->
  exists s', put_bytes o b s = Some s' /\ confined hlen mem s' /\ o_forward s' = o_forward s /\
    (IP_HSIZE <= o -> forall i, i < IP_HSIZE -> zget (o_mem s') i = zget (o_mem s) i).
Proof using Hhl Hroom.
  intros [Hb Hl Hs Hr Hn] Hbb Ho He. unfold put_bytes, IP_DST, IP_HSIZE in *.
  destruct (blit_ok (o_mem s) o b ltac:(lia) ltac:(lia)) as (m' & Hm & Hml & _).
  rewrite Hm. cbn [mbind option_bind]. eexists. split; [reflexivity|]. split; [|split; [done|]].
  - split; cbn; [by eapply blit_bytes|lia| |done|done].
    intros i Hi. rewrite <- Hs by done. eapply zget_blit; [exact Hm|]. unfold IP_DST in *. lia.
  - intros Ho' i Hi. eapply zget_blit; [exact Hm|]. lia.
Qed.

Lemma kept_put s o b :
  confined hlen mem s -> dst_kept mem s -> bytesP b -> IP_HSIZE <= o -> o + zlen b <= hlen ->
  exists s', put_bytes o b s = Some s' /\ confined hlen mem s' /\ dst_kept mem s' /\
    o_forward s' = o_forward s.
Proof using Hhl Hroom.
  intros Hc Hd Hb Ho He. destruct (put_ok s o b Hc Hb) as (s' & E & Hc' & Hf & Hk);
    [unfold IP_DST, IP_HSIZE in *; lia|done|]. exists s'. split; [done|]. split; [done|]. split; [|done].
  intros Hff i Hi. rewrite Hk by done. apply Hd; [by rewrite <- Hf|done].
Qed.

Lemma get_ok s i : confined hlen mem s -> 0 <= i < zlen mem -> exists x, zget (o_mem s) i = Some x /\ 0 <= x < 256.
Proof using.
  intros [Hb Hl _ _ _] Hi. destruct (zget_is_Some (o_mem s) i) as [x Hx]; [lia|].
  exists x. split; [done|]. by apply (zget_byte _ _ _ Hb) in Hx.
Qed.

Lemma bump_ok s o :
  confined hlen mem s -> dst_kept mem s -> IP_HSIZE <= o < hlen ->
  exists s', bump4 o s = Some s' /\ confined hlen mem s' /\ dst_kept mem s' /\ o_forward s' = o_forward s.
Proof using Hhl Hroom.
  intros Hc Hd Ho. unfold bump4, IP_HSIZE in *. destruct (get_ok s o Hc) as (x & -> & _); [lia|].
  cbn [mbind option_bind]. apply kept_put; [done|done| |unfold IP_HSIZE; lia|rewrite zlen_cons, zlen_nil; lia].
  apply Forall_cons_2; [|constructor]. unfold byteP. apply u8_range.
Qed.

Context (ifa_ifwithaddr ifa_ifwithdstaddr in_iaonnetof ip_rtaddr : Z -> option Z)
  (ifptoia : option Z) (iptime : Z).

(** A handler of the option at [o], of [optlen] bytes, on good states. *)
Definition handles (o optlen : Z) (f : optst -> option optnext) : Prop :=
  forall s, confined hlen mem s -> dst_kept mem s -> IP_HSIZE <= o -> 0 < optlen -> o + optlen <= hlen ->
    zget (o_mem s) (o + IPOPT_OLEN) = Some optlen ->
    exists r, f s = Some r /\ options_ok hlen (o + Z.max optlen 2) mem r.

Lemma save_rte_ok s o optlen dst :
  confined hlen mem s -> 0 <= o -> 0 < optlen -> o + optlen <= hlen ->
  zget (o_mem s) (o + IPOPT_OLEN) = Some optlen ->
  exists r, save_rte (o_mem s) o dst (o_rte s) = Some r /\ zlen (srcrt_opt r) = SRCOPT_SIZE /\
    0 <= ip_nhops r <= 10.
Proof using All.
  intros [Hb Hl Hs Hr Hn] Ho Hp He Holen. unfold save_rte. rewrite Holen. cbn [mbind option_bind].
  destruct (_ || _) eqn:Hg; [by exists (o_rte s)|]. unfold SRCRT_SIZE, INADDR_SIZE, IPOPT_OFFSET, SRCOPT_SIZE in *.
  rewrite blob_ok by lia. cbn [mbind option_bind].
  assert (Hz : zlen (zslice (o_mem s) o optlen) = optlen) by (apply zslice_len; lia).
  destruct (blit_ok (srcrt_opt (o_rte s)) 0 (zslice (o_mem s) o optlen)) as (d & -> & Hd & _); [lia|lia|].
  cbn [mbind option_bind]. eexists. split; [reflexivity|]. cbn. split; [lia|]. Z.div_mod_to_equations. lia.
Qed.

Lemma opt_route_ok opt o optlen :
  handles o optlen (opt_route ifa_ifwithaddr ifa_ifwithdstaddr in_iaonnetof ip_rtaddr opt o optlen).
Proof using All.
  intros s Hc Hd Ho Hp He Holen. unfold opt_route, IPOPT_OFFSET, IPOPT_OLEN, IPOPT_MINOFF, INADDR_SIZE, IP_HSIZE, IP_DST in *.
  destruct (optlen <? 2 + 1) eqn:?; [eexists; split; [done|]; split; [done|split; [done|unfold IP_HSIZE; lia]]|].
  destruct (get_ok s (o + 2) Hc) as (off & -> & Hoff); [lia|]. cbn [mbind option_bind].
  destruct (off <? 4) eqn:?; [eexists; split; [done|]; split; [done|split; [done|unfold IP_HSIZE; lia]]|].
  pose proof (cf_len _ _ _ Hc) as Hl.
  destruct (get32_ok (o_mem s) 16) as [dst ->]; [lia|lia|]. cbn [mbind option_bind].
  destruct (ifa_ifwithaddr dst) as [ia0|].
  2:{ eexists. split; [reflexivity|]. destruct (opt =? IPOPT_SSRR); [|done].
      split; [done|]. split; [done|]. discriminate. }
  destruct (optlen - 4 <? off - 1) eqn:?.
  { destruct (get32_ok (o_mem s) (16 - 4)) as [src ->]; [lia|lia|]. cbn [mbind option_bind].
    destruct (save_rte_ok s o optlen src Hc) as (r & -> & Hr1 & Hr2); [lia|lia|lia|done|].
    cbn [mbind option_bind]. eexists. split; [reflexivity|]. destruct Hc as [K1 K2 K3 K4 K5].
    split; [by split|done]. }
  destruct (get32_ok (o_mem s) (o + (off - 1))) as [addr ->]; [lia|lia|]. cbn [mbind option_bind].
  destruct (if opt =? IPOPT_SSRR then _ else _) as [ia|].
  2:{ eexists. split; [reflexivity|]. split; [done|]. split; [done|]. discriminate. }
  destruct (put_ok s 16 (bytes32 addr) Hc) as (s1 & -> & Hc1 & _);
    [apply bytes32_bytes|done|unfold IP_HSIZE in *; change (zlen (bytes32 addr)) with 4; lia|].
  cbn [mbind option_bind].
  destruct (put_ok s1 (o + (off - 1)) (bytes32 ia) Hc1) as (s2 & -> & Hc2 & _);
    [apply bytes32_bytes|unfold IP_DST; lia|change (zlen (bytes32 ia)) with 4; lia|].
  cbn [mbind option_bind]. unfold bump4, INADDR_SIZE.
  destruct (get_ok s2 (o + 2) Hc2) as (x & -> & _); [lia|]. cbn [mbind option_bind].
  destruct (put_ok s2 (o + 2) [u8 (x + 4)] Hc2) as (s3 & -> & Hc3 & _);
    [apply Forall_cons_2; [apply u8_range|constructor]|unfold IP_DST; lia|rewrite zlen_cons, zlen_nil; lia|].
  cbn [mbind option_bind]. eexists. split; [reflexivity|]. destruct Hc3 as [K1 K2 K3 K4 K5].
  split; [by split|]. done.
Qed.

Lemma opt_rr_ok o optlen : handles o optlen (opt_rr ifa_ifwithaddr ip_rtaddr o optlen).
Proof using All.
  intros s Hc Hd Ho Hp He Holen. unfold opt_rr, IPOPT_OFFSET, IPOPT_OLEN, IPOPT_MINOFF, INADDR_SIZE in *.
  destruct (optlen <? 2 + 1) eqn:?; [eexists; split; [done|]; split; [done|split; [done|unfold IP_HSIZE in *; lia]]|].
  destruct (get_ok s (o + 2) Hc) as (off & -> & Hoff); [unfold IP_HSIZE in *; lia|]. cbn [mbind option_bind].
  destruct (off <? 4) eqn:?; [eexists; split; [done|]; split; [done|split; [done|unfold IP_HSIZE in *; lia]]|].
  destruct (optlen - 4 <? off - 1) eqn:?; [by eexists|].
  pose proof (cf_len _ _ _ Hc) as Hl.
  destruct (get32_ok (o_mem s) IP_DST) as [dst ->]; [done|unfold IP_DST, IP_HSIZE in *; lia|]. cbn [mbind option_bind].
  destruct (match ifa_ifwithaddr dst with Some a => Some a | None => _ end) as [ia|].
  2:{ eexists. split; [reflexivity|]. split; [done|]. split; [done|]. discriminate. }
  destruct (kept_put s (o + (off - 1)) (bytes32 ia) Hc Hd) as (s1 & -> & Hc1 & Hd1 & _);
    [apply bytes32_bytes|lia|change (zlen (bytes32 ia)) with 4; lia|]. cbn [mbind option_bind].
  destruct (bump_ok s1 (o + 2) Hc1 Hd1) as (s2 & -> & Hc2 & Hd2 & _); [lia|]. by eexists.
Qed.

Lemma opt_stamp_ok top o len ptr s :
  confined hlen mem s -> dst_kept mem s -> IP_HSIZE <= o -> o + len <= hlen -> 2 < len ->
  zget (o_mem s) (o + 2) = Some ptr -> 1 <= ptr -> ptr + 3 <= len ->
  exists r, opt_stamp iptime o s = Some r /\ options_ok hlen top mem r.
Proof using All.
  intros Hc Hd Ho He Hl Hp H1 H2. unfold opt_stamp. rewrite Hp. cbn [mbind option_bind].
  destruct (kept_put s (o + ptr - 1) (bytes32 iptime) Hc Hd) as (s1 & -> & Hc1 & Hd1 & _);
    [apply bytes32_bytes|lia|change (zlen (bytes32 iptime)) with 4; lia|]. cbn [mbind option_bind].
  destruct (bump_ok s1 (o + 2) Hc1 Hd1) as (s2 & -> & Hc2 & Hd2 & _); [lia|]. by eexists.
Qed.

Lemma opt_ts_ok o optlen : handles o optlen (opt_ts ifa_ifwithaddr ifptoia iptime o).
Proof using All.
  intros s Hc Hd Ho Hp He Holen. unfold opt_ts, IPOPT_OLEN in *. rewrite Holen. cbn [mbind option_bind].
  assert (Hbad : forall s, confined hlen mem s -> dst_kept mem s ->
    exists r, Some (Bad ICMP_PARAMPROB o s) = Some r /\ options_ok hlen (o + Z.max optlen 2) mem r).
  { intros s0 H1 H2. eexists. split; [reflexivity|]. split; [done|]. split; [done|]. intros _.
    unfold IPOPT_OLEN in *. lia. }
  destruct (optlen <? 5) eqn:?; [by apply Hbad|].
  destruct (get_ok s (o + 2) Hc) as (ptr & Hptr & Hpr); [unfold IP_HSIZE in *; lia|]. rewrite Hptr. cbn [mbind option_bind].
  destruct (ptr <? 5) eqn:?; [by apply Hbad|].
  destruct (get_ok s (o + 3) Hc) as (ov & -> & Hov); [unfold IP_HSIZE in *; lia|]. cbn [mbind option_bind].
  destruct (optlen - 4 <? ptr) eqn:?.
  { destruct (kept_put s (o + 3) [(ov / 16 + 1) mod 16 * 16 + ov mod 16] Hc Hd)
      as (s1 & -> & Hc1 & Hd1 & _); [|lia|rewrite zlen_cons, zlen_nil; lia|].
    { apply Forall_cons_2; [|constructor]. unfold byteP. Z.div_mod_to_equations. lia. }
    cbn [mbind option_bind]. destruct (_ =? 0); [by apply Hbad|by eexists]. }
  destruct (_ =? IPOPT_TS_TSONLY); [apply (opt_stamp_ok _ o optlen ptr); done || lia|].
  unfold INADDR_SIZE. destruct (_ =? IPOPT_TS_TSANDADDR).
  { destruct (optlen <? ptr + 4 + 4) eqn:?; [by apply Hbad|].
    destruct ifptoia as [ia|]; [|by eexists].
    destruct (kept_put s (o + ptr - 1) (bytes32 ia) Hc Hd) as (s1 & E1 & Hc1 & Hd1 & _);
      [apply bytes32_bytes|lia|change (zlen (bytes32 ia)) with 4; lia|]. rewrite E1. cbn [mbind option_bind].
    assert (Hptr1 : zget (o_mem s1) (o + 2) = Some ptr).
    { rewrite <- Hptr. eapply put_get; [exact E1|]. lia. }
    destruct (bump_ok s1 (o + 2) Hc1 Hd1) as (s2 & E2 & Hc2 & Hd2 & _); [lia|]. rewrite E2. cbn [mbind option_bind].
    pose proof (bump4_get _ _ _ _ E2 Hptr1) as Hptr2. rewrite u8_small in Hptr2 by (unfold IP_HSIZE in *; lia).
    apply (opt_stamp_ok _ o optlen (ptr + 4)); done || lia. }
  destruct (_ =? IPOPT_TS_PRESPEC); [|by apply Hbad].
  destruct (optlen <? ptr + 4 + 4) eqn:?; [by apply Hbad|].
  pose proof (cf_len _ _ _ Hc) as Hl.
  destruct (get32_ok (o_mem s) (o + ptr - 1)) as [addr ->]; [unfold IP_HSIZE in *; lia|lia|]. cbn [mbind option_bind].
  destruct (ifa_ifwithaddr addr); [|by eexists].
  destruct (bump_ok s (o + 2) Hc Hd) as (s2 & E2 & Hc2 & Hd2 & _); [lia|]. rewrite E2. cbn [mbind option_bind].
  pose proof (bump4_get _ _ _ _ E2 Hptr) as Hptr2. rewrite u8_small in Hptr2 by (unfold IP_HSIZE in *; lia).
  apply (opt_stamp_ok _ o optlen (ptr + 4)); done || lia.
Qed.

End safe.

(** ** The loop *)

(** Does the walk over the options come to a type in the last of the [cnt] bytes at [o]?
    The byte taken for its length is then the one behind them. *)
Fixpoint lone_type (fuel : nat) (mem : list Z) (o cnt : Z) : bool :=
  match fuel with
  | O => false
  | S fuel =>
      match zget mem o with
      | Some t =>
          if (cnt <=? 0) || (t =? IPOPT_EOL) then false
          else if t =? IPOPT_NOP then lone_type fuel mem (o + 1) (cnt - 1)
          else if cnt =? 1 then true
          else match zget mem (o + 1) with
               | Some n => if (n <=? 0) || (cnt <? n) then false else lone_type fuel mem (o + n) (cnt - n)
               | None => false
               end
      | None => false
      end
  end.

(** The end of what is looked at. *)
Definition looked_at (hlen : Z) (mem : list Z) : Z :=
  hlen + (if lone_type (Z.to_nat hlen) mem IP_HSIZE (hlen - IP_HSIZE) then 1 else 0).

Lemma confined_mono e e' mem s : e <= e' -> confined e mem s -> confined e' mem s.
Proof. intros He [H1 H2 H3 H4 H5]. split; try done. intros i Hi. apply H3. lia. Qed.

Section loop.
Context (hlen : Z) (mem : list Z) (Hhl : hlen <= 60).
Context (ifa_ifwithaddr ifa_ifwithdstaddr in_iaonnetof ip_rtaddr : Z -> option Z)
  (ifptoia : option Z) (iptime : Z).

Abbreviation do_option' := (do_option ifa_ifwithaddr ifa_ifwithdstaddr in_iaonnetof ip_rtaddr ifptoia iptime).
Abbreviation option_loop' := (option_loop ifa_ifwithaddr ifa_ifwithdstaddr in_iaonnetof ip_rtaddr ifptoia iptime).

Lemma do_option_ok opt o ol s :
  confined o mem s -> dst_kept mem s -> IP_HSIZE <= o -> 0 < ol -> o + ol <= hlen -> o + ol <= zlen mem ->
  zget (o_mem s) (o + IPOPT_OLEN) = Some ol ->
  exists r, do_option' opt o ol s = Some r /\ options_ok (o + ol) (o + Z.max ol 2) mem r.
Proof using Hhl.
  intros Hc0 Hd Ho Hl He Hz Hol. assert (Hc : confined (o + ol) mem s) by (eapply confined_mono; [|exact Hc0]; lia).
  assert (Hr : IP_HSIZE <= o + ol <= 60) by lia. unfold do_option.
  destruct ((opt =? IPOPT_LSRR) || (opt =? IPOPT_SSRR)); [apply opt_route_ok; done || lia|].
  destruct (opt =? IPOPT_RR); [apply opt_rr_ok; done || lia|].
  destruct (opt =? IPOPT_TS); [apply opt_ts_ok; done || lia|]. by eexists.
Qed.

(** The options from [o] on are still as they came. *)
Lemma ahead s o i : confined o mem s -> IP_DST <= o -> o <= i -> zget (o_mem s) i = zget mem i.
Proof using. intros [_ _ Hs _ _] Ho Hi. apply Hs. by right. Qed.

Lemma options_ok_mono e e' top top' r :
  e <= e' -> top <= top' -> options_ok e top mem r -> options_ok e' top' mem r.
Proof using.
  intros He Ht. destruct r as [s|ty co s]; cbn [options_ok].
  - intros [Hc Hd]. split; [by eapply confined_mono|done].
  - intros (Hc & Hd & Hco). split_and!; [by eapply confined_mono|done|]. intros E. specialize (Hco E). lia.
Qed.

Lemma option_loop_ok fuel : forall o cnt s,
  let top := hlen + (if lone_type fuel mem o cnt then 1 else 0) in
  confined o mem s -> dst_kept mem s -> IP_HSIZE <= o -> o + cnt = hlen -> 0 <= cnt <= Z.of_nat fuel -> top <= zlen mem ->
  exists r, option_loop' fuel o cnt s = Some r /\ options_ok hlen top mem r.
Proof using Hhl.
  induction fuel as [|fuel IH]; intros o cnt s top Hc Hd Ho He Hf Ht; cbn [option_loop].
  all: assert (Hstop : options_ok hlen top mem (Next s)) by (split; [eapply confined_mono; [|exact Hc]; lia|done]).
  all: destruct (cnt <=? 0) eqn:E0; [by eexists|]. 1: lia.
  unfold IPOPT_OPTVAL. rewrite Z.add_0_r. pose proof (cf_len _ _ _ Hc) as Hl.
  subst top. cbn [lone_type] in *. rewrite E0 in *. cbn [orb] in *.
  assert (Hz : hlen <= zlen mem) by (repeat case_match; lia).
  unfold IP_HSIZE, IP_DST in *.
  rewrite (ahead s o o Hc) by (unfold IP_DST; lia). destruct (zget_is_Some mem o) as [t Et]; [lia|]. rewrite Et in *.
  cbn [mbind option_bind]. destruct (t =? IPOPT_EOL); [by eexists|].
  destruct (t =? IPOPT_NOP) eqn:Enop; cbn [negb andb mbind option_bind].
  { apply Z.eqb_eq in Enop as ->. change (do_option' IPOPT_NOP o 1 s) with (Some (Next s)). cbn [mbind option_bind].
    apply IH; [eapply confined_mono; [|exact Hc]|..]; done || lia. }
  rewrite (ahead s o _ Hc) by (unfold IP_DST, IPOPT_OLEN; lia). unfold IPOPT_OLEN.
  assert (Hn : exists n, zget mem (o + 1) = Some n) by (apply zget_is_Some; destruct (cnt =? 1) eqn:?; lia).
  destruct Hn as [n En]. rewrite En in *. cbn [mbind option_bind].
  assert (Htop : forall b, o + 1 < hlen + (if (if cnt =? 1 then true else b) then 1 else 0))
    by (intros []; destruct (cnt =? 1) eqn:?; lia).
  destruct ((n <=? 0) || (cnt <? n)) eqn:Eb; rewrite ?Eb in *.
  { eexists. split; [done|]. destruct Hstop as [Hc' _]. split_and!; [done|done|]. intros _. unfold IP_HSIZE.
    by split; [lia|apply Htop]. }
  apply orb_false_iff in Eb as [Ep Ec].
  destruct (do_option_ok t o n s Hc Hd) as (r & -> & Hr); [done|lia|lia|lia| |].
  { rewrite (ahead s o _ Hc); [exact En|unfold IP_DST; lia|unfold IPOPT_OLEN; lia]. }
  cbn [mbind option_bind]. destruct r as [s'|ty co s'].
  - destruct Hr as [Hc' Hd'].
    destruct (IH (o + n) (cnt - n) s' Hc' Hd') as (r & -> & Hr); [lia|lia|lia|repeat case_match; lia|].
    eexists. split; [done|]. eapply options_ok_mono; [done| |exact Hr].
    repeat case_match; lia.
  - eexists. split; [done|]. eapply options_ok_mono; [| |exact Hr]; [lia|].
    specialize (Htop (lone_type fuel mem (o + n) (cnt - n))). repeat case_match; lia.
Qed.
End loop.


(** A record-route option of 7 bytes, a source route of 7, and a timestamp. *)
Definition demo_header : list Z :=
  [76; 0; 0; 68; 0; 1; 0; 0; 64; 17; 0; 0; 10; 0; 0; 1; 10; 0; 0; 2] ++
  [7; 7; 4; 0; 0; 0; 0; 131; 7; 4; 10; 0; 0; 9; 68; 12; 5; 0; 0; 0; 0; 0; 0; 0; 0; 0; 0; 0] ++ repeat 7 20.
Definition demo_table (a : Z) : option Z := if a =? 167772162 then Some 167772162 else None.



(** The timestamp option of one slot (8 bytes, pointer 5) is taken as full: the last
    slot of an option is never used, the overflow count goes up instead. *)
Example ts_last_slot :
  (ip_dooptions demo_table demo_table demo_table (fun _ => None) None 3600000
      28 ([71; 0; 0; 28; 0; 1; 0; 0; 64; 17; 0; 0; 10; 0; 0; 1; 10; 0; 0; 2; 68; 8; 5; 0; 0; 0; 0; 0; 0])
      (mk_srcrt 0 0 (repeat 0 43))) =
  Some (Next (mk_optst [71; 0; 0; 28; 0; 1; 0; 0; 64; 17; 0; 0; 10; 0; 0; 1; 10; 0; 0; 2;
                        68; 8; 5; 16; 0; 0; 0; 0; 0] (mk_srcrt 0 0 (repeat 0 43)) false)).
Proof. reflexivity. Qed.

(** An option type in the header's last byte: the length read is the byte behind the
    header. *)
Example olen_behind_header :
  (ip_dooptions demo_table demo_table demo_table (fun _ => None) None 3600000
      21 ([70; 0; 0; 21; 0; 1; 0; 0; 64; 17; 0; 0; 10; 0; 0; 1; 10; 0; 0; 2; 68])
      (mk_srcrt 0 0 (repeat 0 43))) = None.
Proof. reflexivity. Qed.
