(* ===== verification/IpInput.v ===== *)
(** The software interrupt that takes datagrams from [ipintrq], checks them, and hands
    them to a protocol, to [ip_forward] or to [icmp_error] ([ipintr] in
    [netinet/ip_input.c]). *)
From S2P Require Import Prelude Mbuf InCksum IpReass Ip IpOutput IfLoop IpOptions.

Definition INADDR_ANY : Z := 0.
Definition INADDR_BROADCAST : Z := 4294967295.
Definition IPPROTO_UDP : Z := 17.

(** An entry of the list [in_ifaddr]; [ia_broadcast] is [IFF_BROADCAST] of its
    interface. *)
Record in_ifaddr := mk_in_ifaddr {
  ia_ifp : Z; ia_broadcast : bool; ia_addr : Z; ia_broadaddr : Z; ia_netbroadcast : Z;
  ia_subnet : Z; ia_net : Z }.

(** The statistics of [ipintr] itself, those of reassembly being in [in_st]. *)
Record ipin := mk_ipin {
  in_st : ipst; in_rte : srcrt; ips_total : Z; ips_tooshort : Z; ips_badsum : Z;
  ips_badhlen : Z; ips_badlen : Z; ips_cantforward : Z; ips_delivered : Z }.
#[export] Instance ipin_eta : Eta ipin := fun s =>
  mk_ipin (in_st s) (in_rte s) (ips_total s) (ips_tooshort s) (ips_badsum s)
    (ips_badhlen s) (ips_badlen s) (ips_cantforward s) (ips_delivered s).

Definition in_pool (s : ipin) : mpool := ip_pool (in_st s).
Definition set_pool (p : mpool) (s : ipin) : ipin := s <| in_st ::= in_st s <| ip_pool ::= p |> |>.

(** Where a datagram goes: to [pr_input] of its protocol with this header length, to
    [ip_forward], or to [icmp_error]. *)
Inductive ipevent :=
  | Input (hlen : Z) (ip : ipasfrag)
  | Forward (srcrt : bool) (h : ip) (c : chain)
  | Icmp_error (type code : Z) (h : ip) (c : chain).
Definition event_chain (e : option ipevent) : chain :=
  match e with
  | None => []
  | Some (Input _ ip) => ip_m ip
  | Some (Forward _ _ c) | Some (Icmp_error _ _ _ c) => c
  end.

(** [ip_asfrag]: the header, once it is no longer read from memory. *)
Definition ip_asfrag (h : ip) (c : chain) : ipasfrag :=
  mk_ipasfrag (iph_hl h) 0 (iph_len h) (iph_id h) (iph_off h) (iph_p h) (iph_src h) (iph_dst h) c.

Section ipintr.
Context (mget : Z -> mpool -> option mbuf * mpool) (junk : Z) (fuel : nat).
(** The build's [DIRECTED_BROADCAST], the address list, [ipforwarding], and what the
    options need. *)
Context (DIRECTED_BROADCAST : bool) (ias : list in_ifaddr) (ipforwarding : bool)
  (ifa_ifwithaddr ifa_ifwithdstaddr in_iaonnetof ip_rtaddr : Z -> option Z)
  (ifptoia : Z -> option Z) (iptime : Z).

(** * Is it for us? *)

Definition ia_accepts (rcvif flags p dst : Z) (ia : in_ifaddr) : bool :=
  (ia_addr ia =? dst) ||
  (ia_ifp ia =? rcvif) && (ia_addr ia =? INADDR_ANY) &&
    (Z.land flags (Z.lor M_BCAST M_MCAST) =? 0) && (p =? IPPROTO_UDP) ||
  (negb DIRECTED_BROADCAST || (ia_ifp ia =? rcvif)) && ia_broadcast ia &&
    ((ia_broadaddr ia =? dst) || (dst =? ia_netbroadcast ia) || (dst =? ia_subnet ia) ||
     (dst =? ia_net ia)).

Definition ours (m : mbuf) (h : ip) : bool :=
  existsb (ia_accepts (rcvif (m_pkthdr m)) (m_flags m) (iph_p h) (iph_dst h)) ias ||
  (iph_dst h =? INADDR_BROADCAST) || (iph_dst h =? INADDR_ANY).

(** * The steps *)

(** [bad]. *)
Definition ip_bad (c : chain) (s : ipin) : option (option ipevent * ipin) :=
  Some (None, set_pool (m_freem c (in_pool s)) s).

(** From [ours] on. *)
Definition ip_ours (h : ip) (c : chain) (s : ipin) : option (option ipevent * ipin) :=
  let hlen := iph_hl h * 4 in
  if negb (Z.land (iph_off h) (Z.lnot IP_DF) =? 0) then
    '(r, st) ← ip_fragment mget fuel (ip_asfrag h c) (in_st s);
    let s := s <| in_st ::= st |> in
    match r with
    | None => Some (None, s)
    | Some ip => Some (Some (Input hlen ip), s <| ips_delivered ::= ips_delivered s + 1 |>)
    end
  else
    let ip := ip_asfrag (h <| iph_len ::= s16 (iph_len h - hlen) |>) c in
    Some (Some (Input hlen ip), s <| ips_delivered ::= ips_delivered s + 1 |>).

(** From the walk of the address list on. *)
Definition ip_route_in (h : ip) (c : chain) (s : ipin) : option (option ipevent * ipin) :=
  match c with
  | [] => None
  | m :: _ =>
      if ours m h then ip_ours h c s
      else if ipforwarding then Some (Some (Forward false h c), s)
      else ip_bad c (s <| ips_cantforward ::= ips_cantforward s + 1 |>)
  end.

(** The options, in the memory of the first mbuf. *)
Definition ip_options_in (h : ip) (c : chain) (s : ipin) : option (option ipevent * ipin) :=
  match c with
  | [] => None
  | m :: r =>
      let s := s <| in_rte ::= in_rte s <| ip_nhops ::= 0 |> |> in
      let hlen := iph_hl h * 4 in
      if IP_HSIZE <? hlen then
        let mem := drop (Z.to_nat (m_data m)) (storage (in_pool s) m) in
        res ← ip_dooptions ifa_ifwithaddr ifa_ifwithdstaddr in_iaonnetof ip_rtaddr
                (ifptoia (rcvif (m_pkthdr m))) iptime hlen mem (in_rte s);
        let o := match res with Next o => o | Bad _ _ o => o end in
        '(m, p) ← mtod_write (in_pool s) m (o_mem o);
        let s := set_pool p s <| in_rte ::= o_rte o |> in
        h ← mtod_ip p m;
        match res with
        | Bad type code _ => Some (Some (Icmp_error type code h (m :: r)), s)
        | Next o =>
            if o_forward o then Some (Some (Forward true h (m :: r)), s)
            else ip_route_in h (m :: r) s
        end
      else ip_route_in h c s
  end.

(** The length checks: what is longer than the header says is trimmed. *)
Definition ip_trim (h : ip) (c : chain) : option chain :=
  match c with
  | [] => None
  | m :: r =>
      let n := ph_len (m_pkthdr m) in
      if n <? iph_len h then None
      else if iph_len h <? n then
        if m_len m =? n then Some (set_pktlen (m <| m_len ::= iph_len h |>) (iph_len h) :: r)
        else Some (m_adj c (iph_len h - n))
      else Some c
  end.

(** The checks, from the header's sum on. *)
Definition ip_check (h : ip) (c : chain) (s : ipin) : option (option ipevent * ipin) :=
  match c with
  | [] => None
  | m :: r =>
      let hlen := iph_hl h * 4 in
      sum ← in_cksum junk (ckbufs (in_pool s) c) hlen;
      let h := h <| iph_sum ::= sum |> in
      '(m, p) ← mtod_write (in_pool s) m (ip_bytes h);
      let c := m :: r in
      let s := set_pool p s in
      if negb (sum =? 0) then ip_bad c (s <| ips_badsum ::= ips_badsum s + 1 |>)
      else if iph_len h <? hlen then ip_bad c (s <| ips_badlen ::= ips_badlen s + 1 |>)
      else match ip_trim h c with
           | None => ip_bad c (s <| ips_tooshort ::= ips_tooshort s + 1 |>)
           | Some c => ip_options_in h c s
           end
  end.

(** One datagram; [None]: a panic or a memory error. *)
Definition ip_packet (c : chain) (s : ipin) : option (option ipevent * ipin) :=
  match c with
  | [] => None
  | m :: _ =>
      if negb (has m M_PKTHDR) then None else
      if Nat.eqb (length ias) 0 then ip_bad c s else
      let s := s <| ips_total ::= ips_total s + 1 |> in
      '(c, p) ← (if m_len m <? IP_HSIZE then m_pullup mget fuel c IP_HSIZE (in_pool s)
                 else Some (c, in_pool s));
      let s := set_pool p s in
      match c with
      | [] => Some (None, s <| in_st ::= in_st s <| ips_toosmall ::= ips_toosmall (in_st s) + 1 |> |>)
      | m :: _ =>
          h ← mtod_ip p m;
          let hlen := iph_hl h * 4 in
          if hlen <? IP_HSIZE then ip_bad c (s <| ips_badhlen ::= ips_badhlen s + 1 |>) else
          '(c, p) ← (if m_len m <? hlen then m_pullup mget fuel c hlen p else Some (c, p));
          let s := set_pool p s in
          match c with
          | [] => Some (None, s <| ips_badhlen ::= ips_badhlen s + 1 |>)
          | _ => ip_check h c s
          end
      end
  end.

(** [ipintr]: until the queue is empty; the events in order. *)
Fixpoint ipintr (n : nat) (q : ifqueue) (s : ipin) : option (list ipevent * ifqueue * ipin) :=
  match IF_DEQUEUE q with
  | (None, q) => Some ([], q, s)
  | (Some c, q) =>
      match n with
      | O => None
      | S n =>
          '(e, s) ← ip_packet c s;
          '(es, q, s) ← ipintr n q s;
          Some (match e with Some e => e :: es | None => es end, q, s)
      end
  end.
End ipintr.

(** * What the sender put on the wire *)

Lemma set_pool_id s : set_pool (in_pool s) s = s.
Proof. by destruct s as [[] ? ? ? ? ? ? ? ?]. Qed.

Lemma mtod_ip_ok p m h k :
  wf_mbuf p m -> IP_HSIZE <= m_len m -> ip_ok h -> mbuf_bytes p m = ip_bytes h ++ k -> mtod_ip p m = Some h.
Proof.
  intros Hw Hl Hh Hb. unfold mtod_ip. rewrite m_read_ok by (done || unfold IP_HSIZE in *; lia).
  cbn [mbind option_bind]. rewrite Hb. by apply ip_parse_bytes.
Qed.

(** A datagram or fragment without options as a driver hands it over, with [D] behind
    the header [h]: the header is whole in the first mbuf, and what else is there is
    right. *)
Record arrived (p : mpool) (h : ip) (D : list Z) (m : mbuf) (r : chain) : Prop := {
  ar_wf : wf_mbuf p m;
  ar_hdr : has m M_PKTHDR = true;
  ar_plain : has m M_EXT = false;
  ar_len : IP_HSIZE <= m_len m;
  ar_total : pktlen_ok (m :: r) /\ chain_len (m :: r) = IP_HSIZE + zlen D;
  ar_bytes : bytes p (m :: r) = ip_bytes h ++ D;
  ar_bytesP : bytesP (bytes p (m :: r));
  ar_ok : ip_ok h;
  ar_hl : iph_hl h = 5;
  ar_iplen : iph_len h = IP_HSIZE + zlen D;
  ar_sum : rfc1071 (take 20 (bytes p (m :: r))) = 0 }.

Section received.
Context (mget : Z -> mpool -> option mbuf * mpool) (junk : Z) (fuel : nat)
  (DIRECTED_BROADCAST : bool) (ias : list in_ifaddr) (ipforwarding : bool)
  (ifa_ifwithaddr ifa_ifwithdstaddr in_iaonnetof ip_rtaddr : Z -> option Z)
  (ifptoia : Z -> option Z) (iptime : Z).
#[local] Abbreviation packet_in := (ip_packet mget junk fuel DIRECTED_BROADCAST ias ipforwarding
  ifa_ifwithaddr ifa_ifwithdstaddr in_iaonnetof ip_rtaddr ifptoia iptime).
#[local] Abbreviation route_in := (ip_route_in mget fuel DIRECTED_BROADCAST ias ipforwarding).

Lemma mbuf_bytes_head p m r l k :
  wf_mbuf p m -> zlen l <= m_len m -> bytes p (m :: r) = l ++ k ->
  mbuf_bytes p m = l ++ drop (length l) (mbuf_bytes p m).
Proof using.
  intros Hw Hl Hb. pose proof (zlen_mbuf_bytes p m Hw) as Hz. rewrite bytes_cons in Hb.
  rewrite <- (take_drop (length l) (mbuf_bytes p m)) at 1. f_equal.
  assert (Ht : take (length l) (mbuf_bytes p m ++ bytes p r) = take (length l) (l ++ k)) by (by rewrite Hb).
  rewrite take_app_le in Ht by (unfold zlen in *; lia). by rewrite take_app_length in Ht.
Qed.

Lemma ip_packet_arrived p h D m r s :
  in_pool s = p -> arrived p h D m r -> ias <> [] ->
  let h' := h <| iph_sum ::= 0 |> in
  let s' := s <| ips_total ::= ips_total s + 1 |> in
  exists m', m_write m 0 (ip_bytes h') = Some m' /\ rewritten m m' /\ wf_mbuf p m' /\
    bytes p (m' :: r) = ip_bytes h' ++ D /\
    packet_in (m :: r) s = route_in h' (m' :: r) (s' <| in_rte ::= in_rte s' <| ip_nhops ::= 0 |> |>).
Proof using.
  intros Hp [Hw Hph Hx Hml [Hpl Hcl] Hb HbP Hok Hhl Hil Hsum] Hias h' s'.
  pose proof (ip_bytes_len h) as H20. pose proof (ip_bytes_len h') as H20'.
  assert (Hmb : mbuf_bytes p m = ip_bytes h ++ drop (length (ip_bytes h)) (mbuf_bytes p m))
    by (eapply mbuf_bytes_head; [done|lia|exact Hb]).
  assert (Hok' : ip_ok h') by (by apply ip_ok_sum).
  destruct (mtod_write_ok p m (ip_bytes h') Hw Hx ltac:(lia)) as (m' & Hmw & Hrw & Hw' & Hb').
  exists m'. split.
  { unfold mtod_write in Hmw. rewrite Hx in Hmw. destruct (m_write m 0 (ip_bytes h')); [|done].
    by injection Hmw as ->. }
  split; [done|]. split; [done|].
  assert (Hbs : bytes p (m' :: r) = ip_bytes h' ++ D).
  { rewrite bytes_cons, Hb', <- app_assoc. f_equal. rewrite bytes_cons, Hmb, <- app_assoc in Hb.
    by apply app_inv_head in Hb. }
  split; [done|].
  unfold ip_packet. rewrite Hph. cbn [negb]. replace (Nat.eqb (length ias) 0) with false by (by destruct ias).
  replace (m_len m <? IP_HSIZE) with false by lia. cbn [mbind option_bind].
  change (s <| ips_total ::= _ |>) with s'. assert (Hp' : in_pool s' = p) by done.
  rewrite Hp'. replace (set_pool p s') with s' by (by rewrite <- Hp', set_pool_id).
  rewrite (mtod_ip_ok p m h _ Hw Hml Hok Hmb). cbn [mbind option_bind]. rewrite Hhl.
  change (5 * 4 <? IP_HSIZE) with false. cbv iota.
  replace (m_len m <? 5 * 4) with false by (unfold IP_HSIZE in *; lia). cbn [mbind option_bind].
  replace (set_pool p s') with s' by (by rewrite <- Hp', set_pool_id).
  unfold ip_check. rewrite Hhl, Hp'. rewrite in_cksum_ok, ck_bytes_ckbufs; rewrite ?ck_bytes_ckbufs; [|done|lia|].
  2:{ pose proof Hok as (_&_&_&Hl16&_). pose proof (s16_range (iph_len h)).
      rewrite Hb, zlen_app, H20. lia. }
  change (Z.to_nat (5 * 4)) with 20%nat. rewrite Hsum. cbn [mbind option_bind].
  change (h <| iph_sum ::= 0 |>) with h'. rewrite Hmw. cbn [mbind option_bind].
  replace (set_pool p s') with s' by (by rewrite <- Hp', set_pool_id).
  change (negb (0 =? 0)) with false. cbv iota. change (iph_len h') with (iph_len h). rewrite Hil.
  pose proof (zlen_nonneg D). replace (IP_HSIZE + zlen D <? 5 * 4) with false by (unfold IP_HSIZE; lia).
  assert (Ht : ip_trim h' (m' :: r) = Some (m' :: r)).
  { unfold ip_trim. destruct Hrw as (R1 & _ & _ & (_ & R2 & R3 & _) & _). rewrite R3.
    rewrite (Hpl Hph), Hcl. change (iph_len h') with (iph_len h). rewrite Hil, !Z.ltb_irrefl. done. }
  rewrite Ht. unfold ip_options_in. change (iph_hl h') with (iph_hl h). rewrite Hhl.
  change (IP_HSIZE <? 5 * 4) with false. done.
Qed.

(** ** Fragments *)

(** What [ip_fragment] is given of the packet [c]. *)
Definition fragment_in (p : mpool) (c : chain) (f : ipasfrag) : Prop :=
  exists m r h D m', c = m :: r /\ arrived p h D m r /\
    m_write m 0 (ip_bytes (h <| iph_sum ::= 0 |>)) = Some m' /\
    f = ip_asfrag (h <| iph_sum ::= 0 |>) (m' :: r) /\
    Exists (fun ia => ia_addr ia = iph_dst h) ias /\ Z.land (iph_off h) (Z.lnot IP_DF) <> 0.

Lemma ours_addr m h : Exists (fun ia => ia_addr ia = iph_dst h) ias -> ours DIRECTED_BROADCAST ias m h = true.
Proof using.
  intros He. unfold ours. apply orb_true_iff. left. apply orb_true_iff. left. apply existsb_exists.
  apply Exists_exists in He as (ia & Hin & E). exists ia. split; [by apply list_elem_of_In|].
  unfold ia_accepts. by rewrite E, Z.eqb_refl.
Qed.

Lemma fragment_in_ok p c f s :
  in_pool s = p -> fragment_in p c f ->
  Forall2 same_id c (ip_m f) /\ (Forall (wf_mbuf p) c -> Forall (wf_mbuf p) (ip_m f)) /\ header_in fuel f /\ ip_hl f = 5 /\
  exists s1, in_st s1 = in_st s /\ ips_delivered s1 = ips_delivered s /\
    packet_in c s =
      '(r, st) ← ip_fragment mget fuel f (in_st s);
      let s2 := s1 <| in_st ::= st |> in
      match r with
      | None => Some (None, s2)
      | Some d => Some (Some (Input 20 d), s2 <| ips_delivered ::= ips_delivered s2 + 1 |>)
      end.
Proof using.
  intros Hp (m & r & h & D & m' & -> & Ha & Hmw & -> & Hia & Hoff).
  assert (Hne : ias <> []) by (intros E; rewrite E in Hia; by apply Exists_nil in Hia).
  destruct (ip_packet_arrived p h D m r s Hp Ha Hne) as (m1 & Hmw1 & Hrw & Hw' & Hbs & E).
  rewrite Hmw1 in Hmw. injection Hmw as ->. rewrite E. clear E.
  set (h' := h <| iph_sum ::= 0 |>) in *. cbn [ip_m ip_asfrag].
  pose proof Hrw as (R1 & R2 & R3 & (R4 & R5 & R6 & R7) & R8).
  split; [constructor; [exact R4|apply same_ids_refl]|].
  split; [intros [_ ?]%Forall_cons; by apply Forall_cons_2|].
  pose proof (ar_hl _ _ _ _ _ Ha) as Hhl.
  split. { left. unfold header_own. cbn. unfold has in *. rewrite R5, R1. pose proof (ar_plain _ _ _ _ _ Ha) as Hx.
    unfold has in Hx. split; [done|]. rewrite Hhl. pose proof (ar_len _ _ _ _ _ Ha). unfold IP_HSIZE in *. lia. }
  split; [done|].
  set (s1 := _ <| in_rte ::= _ |>). exists s1. split; [done|]. split; [done|].
  unfold ip_route_in. rewrite ours_addr by done. unfold ip_ours.
  change (iph_off h') with (iph_off h). change (iph_hl h') with (iph_hl h). rewrite Hhl.
  replace (Z.land (iph_off h) (Z.lnot IP_DF) =? 0) with false by lia. cbn [negb]. done.
Qed.

Lemma fragment_in_frame p p' c f :
  Forall (wf_mbuf p') c -> (forall m, m ∈ c -> mbuf_bytes p' m = mbuf_bytes p m) ->
  fragment_in p c f -> fragment_in p' c f.
Proof using.
  intros Hw Hb (m & r & h & D & m' & -> & [] & H). exists m, r, h, D, m'. split; [done|]. split; [|done].
  apply Forall_cons in Hw as [Hw _]. split; try done; by rewrite (bytes_same p p').
Qed.

(** Packets that are fragments: [ipintr] does what the fragments do one by one, and
    delivers what they deliver. *)
Lemma ipintr_arrivals `{!Allocator mget} R cs : forall fs n q s d st',
  ifq_head q = cs -> (length cs <= n)%nat -> Forall2 (fragment_in (in_pool s)) cs fs ->
  queues_safe (in_st s) -> owns (in_pool s) ((held_by (ipq_head (in_st s)) ++ concat cs) ++ R) ->
  arrivals mget fuel fs (in_st s) = Some (Some d, [], st') ->
  exists s', ipintr mget junk fuel DIRECTED_BROADCAST ias ipforwarding ifa_ifwithaddr
      ifa_ifwithdstaddr in_iaonnetof ip_rtaddr ifptoia iptime n q s =
      Some ([Input 20 d], q <| ifq_head ::= [] |>, s') /\
    in_st s' = st' /\ ips_delivered s' = ips_delivered s + 1.
Proof using.
  induction cs as [|c cs IH]; intros fs n q s d st' Hq Hn Hf Hs Ho Ha.
  { by apply Forall2_nil_inv_l in Hf as ->. }
  apply Forall2_cons_inv_l in Hf as (f & fs' & Hc & Hf & ->). cbn [arrivals] in Ha.
  destruct n as [|n]; [cbn in Hn; lia|]. cbn [ipintr]. unfold IF_DEQUEUE. rewrite Hq.
  destruct (fragment_in_ok _ _ _ s eq_refl Hc) as (Hid & Hwf & Hin & Hhl & s1 & Hs1 & Hd1 & ->).
  cbn [concat] in Ho. pose proof (owns_wf _ _ Ho) as Hw. rewrite !Forall_app in Hw.
  destruct Hw as [[Hwh [Hwc Hwcs]] _].
  destruct (ip_fragment_ok mget fuel (concat cs ++ R) f (in_st s) Hs Hin) as (r & st1 & E & Hs2 & Hev).
  { assert (He : evolve (concat cs ++ R) (in_pool s) (held_by (ipq_head (in_st s)) ++ c) (in_pool s)
      (held_by (ipq_head (in_st s)) ++ ip_m f)).
    { apply evolve_in; [by apply Forall2_app|apply Forall_app_2; auto|]. by rewrite <- !app_assoc in *. }
    apply (ev_owns _ _ _ _ _ He). }
  rewrite E in Ha |- *. cbn [mbind option_bind] in Ha |- *.
  destruct r as [d1|].
  - injection Ha as -> -> <-. inversion Hf. subst cs.
    cbv zeta iota. cbn [mbind option_bind]. set (s2 := _ <| ips_delivered ::= _ |>). exists s2.
    assert (En : forall st, ipintr mget junk fuel DIRECTED_BROADCAST ias ipforwarding ifa_ifwithaddr
      ifa_ifwithdstaddr in_iaonnetof ip_rtaddr ifptoia iptime n (q <| ifq_head ::= [] |>) st
      = Some ([], q <| ifq_head ::= [] |>, st)) by (intros; by destruct n).
    cbv iota. rewrite En. cbn [mbind option_bind]. split; [done|]. split; [done|]. cbn. by rewrite Hd1.
  - cbv zeta iota. cbn [mbind option_bind]. set (s2 := s1 <| in_st ::= st1 |>).
    destruct (IH fs' n (q <| ifq_head ::= cs |>) s2 d st') as (s' & -> & Hst & Hdl); [done|cbn in Hn; lia| |done| |done|].
    + change (in_pool s2) with (ip_pool st1).
      pose proof (owns_wf _ _ (ev_owns _ _ _ _ _ Hev)) as Hw2. rewrite !Forall_app in Hw2. destruct Hw2 as [_ [Hw2 _]].
      pose proof (ev_bytes _ _ _ _ _ Hev) as Hb. clear -Hf Hw2 Hb.
      induction Hf as [|c f cs fs Hcf Hf IHf]; [constructor|]. cbn [concat] in *.
      apply Forall_app in Hw2 as [Hw2 Hw3]. constructor.
      * eapply fragment_in_frame; [done| |exact Hcf]. intros m Hm. apply Hb. rewrite !elem_of_app. auto.
      * apply IHf; [done|]. intros m Hm. apply Hb. rewrite elem_of_app in *. rewrite elem_of_app. tauto.
    + change (in_pool s2) with (ip_pool st1). change (in_st s2) with st1.
      pose proof (ev_owns _ _ _ _ _ Hev) as Ho2. rewrite app_nil_r in Ho2. by rewrite <- app_assoc.
    + cbn [mbind option_bind]. exists s'. split; [done|]. split; [done|]. rewrite Hdl. cbn. by rewrite Hd1.
Qed.
End received.

(** ** The sender's packets as they arrive *)

(** A chain in which a driver hands over the packet [w]. *)
Definition handed (p : mpool) (w : list Z) (c : chain) : Prop :=
  exists m r, c = m :: r /\ has m M_PKTHDR = true /\ has m M_EXT = false /\ IP_HSIZE <= m_len m /\
    pktlen_ok c /\ bytes p c = w.

Lemma wire_arrived p h ops D o n w c :
  iph_hl h = 5 -> wire_frag h ops D o n w -> handed p w c -> Forall (wf_mbuf p) c ->
  exists mh m r, c = m :: r /\ arrived p mh (zslice D o n) m r /\ o mod 8 = 0 /\ 0 <= o /\ 0 < n /\ o + n <= zlen D /\
    iph_off mh = o / 8 + (if o + n =? zlen D then 0 else IP_MF) /\
    iph_id mh = iph_id h /\ iph_p mh = iph_p h /\ iph_src mh = iph_src h /\ iph_dst mh = iph_dst h.
Proof.
  intros Hhl (mh & -> & Hok & HbP & _ & Hmhl & Hlen & Hol & Ho8 & Ho & Hn & He & Hoff & _ & Hid & _ & Hp & Hsrc & Hdst & Hsum)
    (m & r & -> & Hph & Hx & Hml & Hpl & Hb) Hw.
  remember (ops o) as opts eqn:Hops. clear Hops. pose proof (zlen_nonneg opts) as Hz. rewrite Hhl in Hol. unfold IP_HSIZE in *.
  assert (opts = []) as -> by (destruct opts as [|b opts]; [done|]; pose proof (zlen_nonneg opts); rewrite zlen_cons in *; lia).
  rewrite zlen_nil in *. cbn [app] in *. exists mh, m, r. split; [done|].
  assert (Hzs : zlen (zslice D o n) = n) by (apply zslice_len; lia).
  assert (Hmh5 : iph_hl mh = 5) by lia.
  split; [|done]. pose proof Hw as Hwc. apply Forall_cons in Hw as [Hw _]. split; try done.
  - split; [done|]. rewrite <- (zlen_bytes p _ Hwc), Hb, zlen_app, ip_bytes_len. done.
  - by rewrite Hb.
  - unfold IP_HSIZE. lia.
  - rewrite Hb. by rewrite Hmh5 in Hsum.
Qed.

Lemma land_lnot_DF x : 0 <= x < 16384 -> Z.land x (Z.lnot IP_DF) = x.
Proof.
  intros Hx. unfold IP_DF. change 16384 with (2 ^ 14) in *. apply Z.bits_inj'. intros n Hn.
  rewrite Z.land_spec, Z.lnot_spec, Z.pow2_bits_eqb by lia. destruct (14 =? n) eqn:E; [|by rewrite andb_true_r].
  assert (n = 14) as -> by lia. rewrite andb_false_r. symmetry.
  destruct (decide (x = 0)) as [->|]; [apply Z.bits_0|]. apply Z.bits_above_log2; [lia|]. apply Z.log2_lt_pow2; lia.
Qed.

Lemma mbuf_bytes_skip p m n :
  0 <= n -> 0 <= m_data m ->
  mbuf_bytes p (m <| m_data ::= m_data m + n |> <| m_len ::= m_len m - n |>) = drop (Z.to_nat n) (mbuf_bytes p m).
Proof.
  intros Hn Hd. unfold mbuf_bytes. set (m' := _ <| m_len ::= _ |>). change (storage p m') with (storage p m).
  cbn. unfold zslice. rewrite skipn_firstn_comm, drop_drop. f_equal; [lia|]. f_equal. lia.
Qed.

(** The offset and the flag in a header, as [ipintr] takes them apart. *)
Lemma frag_off_fields x (b : bool) :
  0 <= x < 4096 -> let o := x + if b then IP_MF else 0 in
  u16 (s16 (o * 8)) = x * 8 /\ (Z.land o IP_MF =? 0) = negb b /\ 0 <= o < 16384.
Proof.
  intros Hx o. unfold o. rewrite land_MF by lia. unfold IP_MF. split; [|destruct b; split; done || lia].
  destruct b; word_solve.
Qed.

Lemma frag_ready ias p h ops D o n w c :
  iph_hl h = 5 -> wire_frag h ops D o n w -> handed p w c -> Forall (wf_mbuf p) c ->
  zlen D <= 32747 -> n < zlen D -> Exists (fun ia => ia_addr ia = iph_dst h) ias ->
  exists f, fragment_in ias p c f /\ fragment_of D p f /\ off (carried f) = o /\ len (carried f) = n /\
    ip_id f = iph_id h /\ ip_p f = iph_p h /\ ip_src f = iph_src h /\ ip_dst f = iph_dst h /\
    Forall2 same_id c (ip_m f) /\ Forall (wf_mbuf p) (ip_m f).
Proof.
  intros Hhl Hwf Hh Hw HD Hn Hia.
  destruct (wire_arrived p h ops D o n w c Hhl Hwf Hh Hw)
    as (mh & m & r & -> & Ha & Ho8 & Ho & Hn0 & He & Hoff & Hid & Hp & Hsrc & Hdst).
  pose proof Ha as [Hwm Hph Hx Hml [Hpl Hcl] Hb HbP Hok Hmhl Hil Hsum].
  destruct (mtod_write_ok p m (ip_bytes (mh <| iph_sum ::= 0 |>)) Hwm Hx ltac:(rewrite ip_bytes_len; lia))
    as (m' & Hmw & Hrw & Hwm' & Hb').
  unfold mtod_write in Hmw. rewrite Hx in Hmw.
  destruct (m_write m 0 _) as [m1|] eqn:Hmw1; [|done]. injection Hmw as ->.
  set (h' := mh <| iph_sum ::= 0 |>) in *.
  assert (Hq : 0 <= o / 8 < 4096 /\ o / 8 * 8 = o) by (Z.div_mod_to_equations; lia).
  destruct (frag_off_fields (o / 8) (negb (o + n =? zlen D)) ltac:(lia)) as (Hf1 & Hf2 & Hf3).
  assert (Hoff' : iph_off mh = o / 8 + if negb (o + n =? zlen D) then IP_MF else 0)
    by (rewrite Hoff; by destruct (o + n =? zlen D)).
  rewrite <- Hoff' in Hf1, Hf2, Hf3. rewrite negb_involutive in Hf2.
  exists (ip_asfrag h' (m' :: r)). set (f := ip_asfrag h' (m' :: r)).
  pose proof Hrw as (R1 & R2 & R3 & (R4 & R5 & R6 & R7) & R8).
  assert (Hzs : zlen (zslice D o n) = n) by (apply zslice_len; lia).
  assert (Hlen : s16 (ip_len f - ip_hl f * 4) = n).
  { change (ip_len f) with (iph_len mh). change (ip_hl f) with (iph_hl mh). rewrite Hil, Hmhl, Hzs.
    unfold IP_HSIZE. rewrite s16_small; lia. }
  assert (Hend : ipf_mff (frag_fields f) = 0 <-> o + n = zlen D).
  { change (ipf_mff (frag_fields f)) with (if Z.land (iph_off mh) IP_MF =? 0 then 0 else 1). rewrite Hf2.
    destruct (o + n =? zlen D) eqn:?; lia. }
  assert (Hco : off (carried f) = o) by (change (off (carried f)) with (u16 (s16 (iph_off mh * 8))); lia).
  assert (Hcl' : len (carried f) = n).
  { change (len (carried f)) with (u16 (s16 (ip_len f - ip_hl f * 4))). rewrite Hlen, u16_small; lia. }
  split; [|split; [|split; [exact Hco|split; [exact Hcl'|split; [done|split; [done|split; [done|split; [done|split]]]]]]]].
  - exists m, r, mh, (zslice D o n), m'. split; [done|]. split; [done|]. split; [done|]. split; [done|].
    split; [by rewrite Hdst|]. rewrite land_lnot_DF by lia. intros E. rewrite E in Hoff'.
    destruct (o + n =? zlen D) eqn:?; cbn [negb] in Hoff'; unfold IP_MF in *; lia.
  - split; [intros x [= <-]; unfold has in *; by rewrite R5|]. split; [split|].
    + intros x [= <-]. change (ip_hl (frag_fields f)) with (iph_hl mh). rewrite R1, Hmhl. unfold IP_HSIZE in *. lia.
    + fold (carried f). split; [|rewrite Hco, Hcl'; split; [lia|split; [lia|split; [|exact Hend]]]].
      * unfold frag_ok, carried, strip_header. cbn. unfold header_room, hdr_base.
        change (has (m' <| m_data ::= _ |> <| m_len ::= _ |>)) with (has m'). unfold has in *. rewrite R5.
        split; [done|]. rewrite Hmhl. cbn. rewrite Hph, R2. split; [lia|].
        destruct Hwm as (_ & _ & _ & _ & _ & _ & Hpk). specialize (Hpk Hph Hx). lia.
      * change (ip_m (carried f)) with ((m' <| m_data ::= m_data m' + iph_hl mh * 4 |>
          <| m_len ::= m_len m' - iph_hl mh * 4 |>) :: r).
        rewrite bytes_cons, mbuf_bytes_skip, Hb', Hmhl; [|lia|destruct Hwm' as (_ & _ & ? & _); lia].
        change (Z.to_nat (5 * 4)) with (length (ip_bytes h')). rewrite drop_app_length.
        rewrite bytes_cons in Hb. rewrite (mbuf_bytes_head p m r (ip_bytes mh) (zslice D o n) Hwm ltac:(rewrite ip_bytes_len; lia)) in Hb
          by (by rewrite bytes_cons). rewrite <- app_assoc in Hb. by apply app_inv_head in Hb.
    + destruct (decide (o + n = zlen D)) as [E|]; [right|left; tauto].
      change (ip_off (frag_fields f)) with (s16 (iph_off mh * 8)). intros E'. rewrite E' in Hf1.
      change (u16 0) with 0 in Hf1. lia.
  - constructor; [exact R4|apply same_ids_refl].
  - apply Forall_cons in Hw as [_ ?]. by apply Forall_cons_2.
Qed.

(** ** The header a reassembled datagram has *)

Section header.
(** A header length and protocol, and the key of a datagram. *)
Context (hl pr : Z) (key : Z * Z * Z * Z).

Definition like (f : ipasfrag) : Prop := ip_hl f = hl /\ ip_p f = pr.
Definition queue_like (fp : ipq) : Prop :=
  (ipq_id fp, ipq_src fp, ipq_dst fp, ipq_p fp) = key -> Forall like (ipq_frags fp).

Lemma ip_freef_like i s :
  Forall queue_like (ipq_head s) -> Forall queue_like (ipq_head (ip_freef i s)).
Proof using.
  intros H. unfold ip_freef. destruct (ipq_head s !! i); [|done].
  destruct (m_free _ _ _). cbn. by apply Forall_delete.
Qed.

Lemma trim_after_like f a p a' n p' :
  trim_after f a p = (a', n, p') -> Forall like a -> Forall like a'.
Proof using.
  revert p a' n p'. induction a as [|q a IH]; intros p a' n p'; cbn [trim_after]; [intros [= <- _ _]; done|].
  destruct (off q <? _); [|intros [= <- _ _]; done]. destruct (_ <? len q).
  - intros [= <- _ _] [H1 H2]%Forall_cons. by apply Forall_cons_2.
  - destruct (trim_after f a _) as [[a1 n1] p1] eqn:E. intros [= <- _ _] [_ H2]%Forall_cons. by eapply IH.
Qed.

Lemma ip_insert_like i fp b a f s r s' :
  ip_insert i fp b a f s = Some (r, s') ->
  Forall queue_like (ipq_head s) -> Forall like b -> Forall like a -> like f ->
  Forall queue_like (ipq_head s') /\ (forall d, r = Some d -> like d).
Proof using.
  intros E Hs Hb Ha Hf. unfold ip_insert in E. destruct (_ <=? _).
  { injection E as <- <-. split; [|done]. cbn. apply Forall_insert; [done|]. intros _. by apply Forall_app_2. }
  set (fp1 := fp <| ipq_frags ::= _ |> <| ipq_nfrags ::= _ |>) in *.
  assert (Hfp : Forall like (ipq_frags fp1)) by (by apply Forall_app_2, Forall_cons_2).
  set (s1 := s <| ipq_head ::= _ |>) in *.
  assert (Hs1 : Forall queue_like (ipq_head s1)) by (apply Forall_insert; [done|by intros _]).
  destruct (contiguous 0 _) as [next|]; [|by injection E as <- <-].
  destruct (last _) as [q|]; [|by injection E as <- <-].
  destruct (negb _); [by injection E as <- <-|]. destruct (_ <? next).
  { injection E as <- <-. split; [by apply ip_freef_like|done]. }
  unfold complete in E. destruct (ipq_frags fp1) as [|g gs]; [done|]. apply Forall_cons in Hfp as [Hg _].
  destruct (ip_m g); [done|]. destruct (m_cat _ _ _) as [[c p]|]; cbn [mbind option_bind] in E; [|done].
  destruct (cat_frags _ _ _) as [[c1 p1]|]; cbn [mbind option_bind] in E; [|done].
  destruct (m_free _ _ _). injection E as <- <-. split; [by apply Forall_delete|].
  intros d [= <-]. exact Hg.
Qed.

Lemma ip_reass_like mget f fp s r s' :
  ip_reass mget f fp s = Some (r, s') -> like f ->
  (forall i q, fp = Some i -> ipq_head s !! i = Some q -> (ipq_id q, ipq_src q, ipq_dst q, ipq_p q) = key) ->
  Forall queue_like (ipq_head s) ->
  Forall queue_like (ipq_head s') /\ (forall d, r = Some d -> like d).
Proof using.
  unfold ip_reass. intros E Hf Hk Hs.
  assert (Hf1 : like (strip_header f)) by (unfold strip_header, like in *; by destruct (ip_m f)).
  remember (strip_header f) as f1. clear Heqf1 Hf f. destruct fp as [i|].
  - destruct (ipq_head s !! i) as [fp|] eqn:Hi; cbn [mbind option_bind] in E; [|done].
    destruct (find_after f1 (ipq_frags fp)) as [b a] eqn:Hfa.
    destruct (find_after_ok _ _ _ _ Hfa) as (Hba & _ & _).
    assert (Hall : Forall like (ipq_frags fp)).
    { apply (proj1 (Forall_lookup _ _) Hs i fp Hi). by eapply Hk. }
    rewrite Hba in Hall. apply Forall_app in Hall as [Hb Ha].
    destruct (trim_front (last b) f1) as [f2|] eqn:Ht; [|by injection E as <- <-].
    assert (Hf2 : like f2).
    { unfold trim_front in Ht. destruct (last b); [|by injection Ht as <-].
      destruct (0 <? _); [|by injection Ht as <-]. destruct (_ <=? _); [done|]. by injection Ht as <-. }
    destruct (trim_after f2 a (ip_pool s)) as [[a1 n] p1] eqn:Hta.
    pose proof (trim_after_like _ _ _ _ _ _ Hta Ha). by eapply ip_insert_like in E.
  - unfold new_queue in E.
    set (s0 := if (IP_MAXFRAGPACKETS <=? ip_nfrags s) && _ then _ else s) in *.
    assert (Hs0 : Forall queue_like (ipq_head s0)) by (unfold s0; destruct (_ && _); [by apply ip_freef_like|done]).
    cbv zeta in E. assert (Hs1 : Forall queue_like (ipq_head (ip_reclaim s0))).
    { unfold ip_reclaim. destruct (mfree _); [|done]. destruct (ipq_head s0) as [|q0 qs0] eqn:Hq0; [by rewrite Hq0|].
      change (Forall queue_like (ipq_head (ip_drain s0))). by rewrite drain_empty. }
    set (s1 := ip_reclaim s0) in *.
    destruct (mget MT_FTABLE (ip_pool s1)) as [[t|] p]; [|by injection E as <- <-].
    eapply ip_insert_like in E; try done; try constructor. { by intros _. } { exact Hs1. }
Qed.

Lemma arrivals_like mget fuel fs : forall s r rest s',
  arrivals mget fuel fs s = Some (r, rest, s') ->
  Forall (fun f => like f /\ (ip_id f, ip_src f, ip_dst f, ip_p f) = key /\
    forall h, head (ip_m f) = Some h -> has h M_EXT = false) fs ->
  Forall queue_like (ipq_head s) -> forall d, r = Some d -> like d.
Proof using.
  induction fs as [|f fs IH]; intros s r rest s'; cbn [arrivals]; [by intros [= <- _ _]|].
  intros E [(Hl & Hk & Hx) Hf]%Forall_cons Hs.
  destruct (ip_fragment mget fuel f s) as [[r1 s1]|] eqn:E1; cbn [mbind option_bind] in E; [|done].
  assert (Hs1 : Forall queue_like (ipq_head s1) /\ forall d, r1 = Some d -> like d).
  { destruct (ip_m f) as [|h c] eqn:Hm; [unfold ip_fragment in E1; by rewrite Hm in E1|].
    assert (Hh : head (ip_m f) = Some h) by (by rewrite Hm). specialize (Hx h eq_refl).
    destruct (negb (ipf_mff (frag_fields f) =? 0) || negb (ip_off (frag_fields f) =? 0)) eqn:Hmo.
    - rewrite (ip_fragment_plain mget fuel f s h Hh Hx Hmo) in E1.
      destruct (ip_reass _ _ _ _) as [[r2 s2]|] eqn:E2; cbn [mbind option_bind] in E1; [|done].
      injection E1 as -> <-.
      apply ip_reass_like in E2; [|done| |done].
      + destruct r1; exact E2.
      + intros i q Hi Hq. apply find_queue_Some in Hi as (pre & fp & post & Hpre & -> & Hsd).
        cbn in Hq. rewrite Hpre, list_lookup_middle in Hq by done. injection Hq as ->.
        unfold same_datagram in Hsd. rewrite <- Hk. rewrite !andb_true_iff, !Z.eqb_eq in Hsd.
        destruct Hsd as (((-> & ->) & ->) & ->). done.
    - unfold ip_fragment in E1. rewrite Hm, Hx in E1. cbn [mbind option_bind] in E1.
      set (f1 := f <| ip_m ::= _ |>) in *.
      change (ipf_mff (frag_fields f1)) with (ipf_mff (frag_fields f)) in E1.
      change (ip_off (frag_fields f1)) with (ip_off (frag_fields f)) in E1. rewrite Hmo in E1.
      injection E1 as <- <-. split; [|by intros d [= <-]].
      destruct (find_queue _ _); [by apply ip_freef_like|done]. }
  destruct Hs1 as [Hs1 Hd]. destruct r1 as [d1|]; [injection E as <- _ _; exact Hd|]. by eapply IH.
Qed.
End header.

(** ** All of them *)

Lemma wire_list_lookup h ops D len ws : forall o k w,
  wire_list h ops D len o ws -> ws !! k = Some w ->
  wire_frag h ops D (o + len * Z.of_nat k) (Z.min len (zlen D - (o + len * Z.of_nat k))) w.
Proof.
  induction ws as [|w0 ws IH]; intros o k w; [done|]. intros [H1 H2]. destruct k as [|k]; cbn [lookup].
  - intros [= ->]. by replace (o + len * Z.of_nat 0) with o by lia.
  - intros Hk. specialize (IH _ _ _ H2 Hk). by replace (o + len * Z.of_nat (S k)) with (o + len + len * Z.of_nat k) by lia.
Qed.

(** [ws] are the packets of the datagram [h] with payload [D], cut every [len] bytes,
    all of them: what [ip_send] sends when it answers 0. *)
Definition all_sent (h : ip) (D : list Z) (len : Z) (ws : list (list Z)) : Prop :=
  0 < len /\ 0 < zlen D /\ (exists ops, wire_list h ops D len 0 ws) /\ zlen D <= len * zlen ws.

(** A permutation of a list visits its indices in some order. *)
Lemma Permutation_indices {A} (l l' : list A) :
  Permutation l l' ->
  exists ks, Permutation (seq 0 (length l)) ks /\ Forall2 (fun k x => l !! k = Some x) ks l'.
Proof.
  intros Hp. destruct l as [|x0 l].
  { apply Permutation_nil_l in Hp as <-. exists []. split; [reflexivity|constructor]. }
  set (l0 := x0 :: l) in *. set (g := fun k => nth k l0 x0).
  assert (Hl : l0 = map g (seq 0 (length l0))).
  { apply (nth_ext _ _ x0 x0); [by rewrite length_map, length_seq|]. intros n Hn.
    rewrite (nth_indep (map g _) x0 (g 0%nat)) by (by rewrite length_map, length_seq).
    rewrite (map_nth g), seq_nth by exact Hn. done. }
  rewrite Hl in Hp. symmetry in Hp. apply Permutation_map_inv in Hp as (ks & -> & Hk).
  exists ks. split; [exact Hk|].
  assert (Hr : Forall (fun k => (k < length l0)%nat) ks).
  { rewrite <- Hk. apply Forall_seq. lia. }
  clear Hk Hl. induction Hr as [|k ks Hk _ IH]; [constructor|]. cbn [map]. constructor; [|done].
  unfold g. rewrite nth_lookup. destruct (l0 !! k) eqn:E; [done|apply lookup_ge_None in E; lia].
Qed.

Lemma Forall2_choose {A B} (P : A -> B -> Prop) l :
  Forall (fun x => exists y, P x y) l -> exists l', Forall2 P l l'.
Proof.
  induction 1 as [|x l [y Hy] _ [l' IH]]; [by exists []|]. exists (y :: l'). by constructor.
Qed.

(** [f] carries the [k]-th piece of the datagram [h]. *)
Definition nth_piece (h : ip) (D : list Z) (len0 : Z) (k : nat) (f : ipasfrag) : Prop :=
  off (carried f) = len0 * Z.of_nat k /\
  len (carried f) = Z.min len0 (zlen D - len0 * Z.of_nat k) /\ 0 < len (carried f) /\
  (ip_id f, ip_src f, ip_dst f, ip_p f) = (iph_id h, iph_src h, iph_dst h, iph_p h).

Lemma frags_ready ias p h ops D len0 ws ks ws' cs :
  iph_hl h = 5 -> wire_list h ops D len0 0 ws -> len0 < zlen D -> zlen D <= 32747 ->
  Exists (fun ia => ia_addr ia = iph_dst h) ias ->
  Forall2 (fun k w => ws !! k = Some w) ks ws' -> Forall2 (handed p) ws' cs ->
  Forall (wf_mbuf p) (concat cs) ->
  exists fs, Forall2 (fragment_in ias p) cs fs /\ Forall (fragment_of D p) fs /\
    Forall2 (nth_piece h D len0) ks fs /\
    Forall2 same_id (concat cs) (frag_mbufs fs) /\ Forall (wf_mbuf p) (frag_mbufs fs).
Proof.
  intros Hhl Hw Hlen HD Hia Hks. revert cs. induction Hks as [|k w ks ws' Hk _ IH]; intros cs Hc Hwf.
  { apply Forall2_nil_inv_l in Hc as ->. exists []. split_and!; constructor. }
  apply Forall2_cons_inv_l in Hc as (c & cs' & Hc & Hcs & ->). cbn [concat] in *.
  apply Forall_app in Hwf as [Hwc Hwf]. destruct (IH cs' Hcs Hwf) as (fs & H1 & H2 & H3 & H4 & H5).
  pose proof (wire_list_lookup _ _ _ _ _ _ _ _ Hw Hk) as Hf. rewrite Z.add_0_l in Hf.
  assert (0 < Z.min len0 (zlen D - len0 * Z.of_nat k)) by (by destruct Hf as (? & _ & _ & _ & _ & _ & _ & _ & _ & _ & ? & _)).
  destruct (frag_ready ias p h ops D _ _ w c Hhl Hf Hc Hwc HD ltac:(lia) Hia)
    as (f & F1 & F2 & F3 & F4 & F5 & F6 & F7 & F8 & F9 & F10).
  exists (f :: fs). rewrite frag_mbufs_cons.
  split; [by constructor|]. split; [by constructor|].
  split; [constructor; [|done]; unfold nth_piece; rewrite F3, F4, F5, F6, F7, F8; split_and!; done|].
  split; [by apply Forall2_app|by apply Forall_app_2].
Qed.

Lemma pieces_cover h D len0 (ws : list (list Z)) ks fs x :
  0 < len0 -> zlen D <= len0 * zlen ws -> Permutation (seq 0 (length ws)) ks ->
  Forall2 (nth_piece h D len0) ks fs -> 0 <= x < zlen D -> cov (map carried fs) x.
Proof.
  intros Hl HD Hp Hf Hx. set (k := Z.to_nat (x / len0)).
  assert (Hk : len0 * Z.of_nat k <= x < len0 * Z.of_nat k + len0).
  { unfold k. rewrite Z2Nat.id by (apply Z.div_pos; lia). pose proof (Z.mul_div_le x len0 Hl).
    pose proof (Z.mul_succ_div_gt x len0 Hl). lia. }
  assert (Hin : k ∈ ks).
  { rewrite <- Hp. apply elem_of_seq. unfold zlen in *. nia. }
  apply list_elem_of_lookup in Hin as [i Hi]. destruct (Forall2_lookup_l _ _ _ _ _ Hf Hi) as (f & Hfi & Ho & Hn & _).
  apply Exists_exists. exists (carried f). split.
  - apply list_elem_of_In, in_map, list_elem_of_In. by apply list_elem_of_lookup_2 in Hfi.
  - unfold covers. rewrite Ho, Hn. lia.
Qed.

(** No piece can be missing when all bytes are there. *)
Lemma pieces_needed h D len0 ks seen f rest :
  NoDup ks -> Forall2 (nth_piece h D len0) ks (seen ++ f :: rest) ->
  all_of D (map carried seen) -> zlen D <= 32747 -> False.
Proof.
  intros Hnd Hf Hall HD. apply Forall2_app_inv_r in Hf as (k1 & k2 & H1 & H2 & ->).
  apply Forall2_cons_inv_r in H2 as (k & k3 & (Ho & Hn & Hpos & _) & _ & ->).
  apply NoDup_app in Hnd as (_ & Hd & _).
  assert (Hx : 0 <= off (carried f) < zlen D)
    by (unfold off in *; pose proof (u16_range (ip_off (carried f))); lia).
  apply Hall, Exists_exists in Hx as (g & Hg & Hc).
  apply list_elem_of_In, in_map_iff in Hg as (f' & <- & Hf').
  apply list_elem_of_In, list_elem_of_lookup in Hf' as [i Hi].
  destruct (Forall2_lookup_r _ _ _ _ _ H1 Hi) as (k' & Hk' & Ho' & Hn' & _).
  unfold covers in Hc. assert (k' = k) as -> by nia.
  apply (Hd k); [by apply list_elem_of_lookup_2 in Hk'|by left].
Qed.

(** No queue for the datagram [h], and room for one. *)
Definition queue_free (mget : Z -> mpool -> option mbuf * mpool) (h : ip) (s : ipst) : Prop :=
  ip_nfrags s < IP_MAXFRAGPACKETS /\ (exists t p1, mget MT_FTABLE (ip_pool (ip_reclaim s)) = (Some t, p1)) /\
  Forall (fun q => (ipq_id q, ipq_src q, ipq_dst q, ipq_p q) <> (iph_id h, iph_src h, iph_dst h, iph_p h)) (ipq_head s).

(** The datagram [d] is what [h] and its payload were. *)
Definition delivers (p : mpool) (h : ip) (D : list Z) (d : ipasfrag) : Prop :=
  ip_hl d = 5 /\ ip_p d = iph_p h /\ ip_src d = iph_src h /\ ip_dst d = iph_dst h /\ ip_len d = zlen D /\
  drop 20 (bytes p (ip_m d)) = D /\ pktlen_ok (ip_m d).

Section path.
Context (mget : Z -> mpool -> option mbuf * mpool) `{!Allocator mget} (junk : Z) (fuel : nat)
  (DIRECTED_BROADCAST : bool) (ias : list in_ifaddr) (ipforwarding : bool)
  (ifa_ifwithaddr ifa_ifwithdstaddr in_iaonnetof ip_rtaddr : Z -> option Z)
  (ifptoia : Z -> option Z) (iptime : Z).
#[local] Abbreviation intr := (ipintr mget junk fuel DIRECTED_BROADCAST ias ipforwarding
  ifa_ifwithaddr ifa_ifwithdstaddr in_iaonnetof ip_rtaddr ifptoia iptime).

(** A datagram that came in one packet. *)
Lemma ipintr_whole R h ops D c n q s :
  iph_hl h = 5 -> zlen D <= 32747 -> (forall w, handed (in_pool s) w c -> wire_frag h ops D 0 (zlen D) w) ->
  (exists w, handed (in_pool s) w c) ->
  Exists (fun ia => ia_addr ia = iph_dst h) ias -> ifq_head q = [c] -> (1 <= n)%nat ->
  owns (in_pool s) ((held_by (ipq_head (in_st s)) ++ c) ++ R) ->
  exists d s', intr n q s = Some ([Input 20 d], q <| ifq_head ::= [] |>, s') /\
    in_st s' = in_st s /\ ips_delivered s' = ips_delivered s + 1 /\
    delivers (in_pool s) h D d /\ Forall2 same_id c (ip_m d) /\ Forall (wf_mbuf (in_pool s)) (ip_m d).
Proof using.
  intros Hhl HD Hwf [w Hh] Hia Hq Hn Ho. specialize (Hwf w Hh).
  pose proof (owns_wf _ _ Ho) as Hw. rewrite !Forall_app in Hw. destruct Hw as [[_ Hw] _].
  destruct (wire_arrived _ h ops D 0 (zlen D) w c Hhl Hwf Hh Hw)
    as (mh & m & r & -> & Ha & _ & _ & _ & _ & Hoff & Hid & Hp & Hsrc & Hdst).
  rewrite Z.add_0_l, Z.eqb_refl in Hoff. change (0 / 8 + 0) with 0 in Hoff.
  assert (Hne : ias <> []) by (intros E; rewrite E in Hia; by apply Exists_nil in Hia).
  destruct (ip_packet_arrived mget junk fuel DIRECTED_BROADCAST ias ipforwarding ifa_ifwithaddr
    ifa_ifwithdstaddr in_iaonnetof ip_rtaddr ifptoia iptime (in_pool s) mh _ m r s eq_refl Ha Hne) as (m' & _ & Hrw & Hw' & Hbs & E).
  pose proof Ha as [_ Hph Hx Hml [Hpl Hcl] _ _ Hok Hmhl Hil _].
  destruct n as [|n]; [lia|]. cbn [ipintr]. unfold IF_DEQUEUE. rewrite Hq, E. clear E.
  set (h' := mh <| iph_sum ::= 0 |>) in *. unfold ip_route_in.
  rewrite ours_addr by (by change (iph_dst h') with (iph_dst mh); rewrite Hdst).
  unfold ip_ours. change (iph_off h') with (iph_off mh). rewrite Hoff.
  change (negb (Z.land 0 _ =? 0)) with false. cbv zeta iota. cbn [mbind option_bind].
  change (iph_hl h') with (iph_hl mh). rewrite Hmhl. change (5 * 4) with 20.
  set (d := ip_asfrag _ _). set (s1 := _ <| ips_delivered ::= _ |>). exists d, s1.
  assert (En : forall st, intr n (q <| ifq_head ::= [] |>) st = Some ([], q <| ifq_head ::= [] |>, st))
    by (intros; by destruct n).
  rewrite En. cbn [mbind option_bind]. split; [done|]. split; [done|]. split; [done|].
  pose proof Hrw as (R1 & R2 & R3 & (R4 & R5 & R6 & R7) & R8).
  assert (Hz : zslice D 0 (zlen D) = D) by apply zslice_full, Z.le_refl.
  rewrite Hz in *. split; [|split; [constructor; [exact R4|apply same_ids_refl]|]].
  2:{ apply Forall_cons in Hw as [_ Hw]. by apply Forall_cons_2. }
  split; [done|]. split; [exact Hp|]. split; [exact Hsrc|]. split; [exact Hdst|].
  split. { change (s16 (iph_len mh - 20) = zlen D). rewrite Hil. unfold IP_HSIZE. pose proof (zlen_nonneg D).
    rewrite s16_small; lia. }
  split; [change (ip_m d) with (m' :: r); rewrite Hbs; by apply drop_app_length'|].
  cbn. intros _. rewrite R6, (Hpl Hph). cbn. by rewrite R1.
Qed.

(** C29.  A datagram without options to an address of this host, of any payload up to
    what a header can announce: the packets in which [ip_send] sends it - one, or
    fragments - handed over by a driver in any order and in any mbufs with the header
    in the first one, pass every check of [ipintr] and give exactly one call of the
    protocol, with the datagram's payload byte for byte under its addresses, protocol
    and length; the reassembly queues are afterwards what they were, unless no mbuf was
    free and they have been drained, and every mbuf is in the packet delivered, in a
    queue, or back in the pool.  (Fragments need a free
    reassembly queue, and may be 64.) *)
Theorem ip_path_correct R h D len ws ws' cs n q s :
  iph_hl h = 5 -> zlen D <= 32747 -> all_sent h D len ws -> Permutation ws ws' ->
  Forall2 (handed (in_pool s)) ws' cs -> ifq_head q = cs -> (length cs <= n)%nat ->
  Exists (fun ia => ia_addr ia = iph_dst h) ias ->
  queues_safe (in_st s) -> owns (in_pool s) ((held_by (ipq_head (in_st s)) ++ concat cs) ++ R) ->
  (len < zlen D -> queue_free mget h (in_st s) /\ zlen ws <= IP_MAXFRAGSPERPACKET) ->
  exists d s', intr n q s = Some ([Input 20 d], q <| ifq_head ::= [] |>, s') /\
    delivers (in_pool s') h D d /\ ips_delivered s' = ips_delivered s + 1 /\
    spared (in_st s) (ipq_head (in_st s')) /\
    evolve R (in_pool s) (held_by (ipq_head (in_st s)) ++ concat cs) (in_pool s')
      (held_by (ipq_head (in_st s')) ++ ip_m d).
Proof using All.
  intros Hhl HD (Hl & HD0 & [ops Hw] & Hall) Hp Hc Hq Hn Hia Hs Ho Hroom.
  pose proof (owns_wf _ _ Ho) as Hwf. rewrite !Forall_app in Hwf. destruct Hwf as [[Hwh Hwc] _].
  destruct (decide (zlen D <= len)) as [Hle|Hgt].
  - destruct ws as [|w ws]; [rewrite zlen_nil in Hall; lia|]. destruct Hw as [Hw1 Hw2].
    destruct ws as [|w2 ws].
    2:{ exfalso. destruct Hw2 as [(? & _ & _ & _ & _ & _ & _ & _ & _ & _ & ? & _) _]. lia. }
    rewrite Z.sub_0_r, Z.min_r in Hw1 by lia.
    apply Permutation_singleton_l in Hp as <-.
    apply Forall2_cons_inv_l in Hc as (c & cs0 & Hc & Hcs & ->). apply Forall2_nil_inv_l in Hcs as ->.
    cbn [concat] in *. rewrite app_nil_r in *.
    destruct (ipintr_whole R h ops D c n q s Hhl HD) as (d & s' & E & Hst & Hdl & Hde & Hid & Hwd); try done.
    { intros w' (m' & r' & E' & _ & _ & _ & _ & Hb'). destruct Hc as (m & r & -> & _ & _ & _ & _ & Hb).
      by rewrite <- Hb', Hb. }
    { by exists w. }
    exists d, s'. unfold in_pool. rewrite Hst. split_and!; try done; [by left|].
    apply evolve_in; [|by apply Forall_app_2|done]. apply Forall2_app; [apply same_ids_refl|done].
  - destruct (Hroom ltac:(lia)) as [(Hnf & (t & p1 & Hg) & Hqs) Hcap].
    destruct (Permutation_indices ws ws' Hp) as (ks & Hks & Hkw).
    destruct (frags_ready ias (in_pool s) h ops D len ws ks ws' cs) as (fs & F1 & F2 & F3 & F4 & F5); try done; [lia|].
    assert (Hev : evolve R (in_pool s) (held_by (ipq_head (in_st s)) ++ concat cs) (in_pool s)
      (held_by (ipq_head (in_st s)) ++ frag_mbufs fs)).
    { apply evolve_in; [|by apply Forall_app_2|done]. apply Forall2_app; [apply same_ids_refl|done]. }
    assert (Hlen : length fs = length ws).
    { rewrite <- (Forall2_length _ _ _ F3), <- Hks. apply length_seq. }
    assert (Hkey : Forall (fun f => (ip_id f, ip_src f, ip_dst f, ip_p f) = (iph_id h, iph_src h, iph_dst h, iph_p h)) fs).
    { clear -F3. induction F3 as [|k f ks fs (_ & _ & _ & H) _ IH]; by constructor. }
    destruct fs as [|f0 fs]; [unfold zlen in *; cbn in Hlen; lia|].
    pose proof Hkey as [Hk0 Hkr]%Forall_cons. injection Hk0 as K1 K2 K3 K4.
    destruct (ip_reass_gathered mget fuel R D f0 fs t p1 (in_st s)) as (r & rest & st' & E & _ & He & Hr); try done.
    { lia. } { unfold zlen in *. rewrite Hlen. exact Hcap. } { apply (ev_owns _ _ _ _ _ Hev). }
    { eapply Forall_impl; [exact Hkr|]. intros f Hf. cbn in Hf. injection Hf as -> -> -> ->. done. }
    { apply find_queue_none. eapply Forall_impl; [exact Hqs|]. intros fq Hne. apply not_true_iff_false. intros Hsd. apply Hne.
      unfold same_datagram in Hsd. rewrite !andb_true_iff, !Z.eqb_eq in Hsd. destruct Hsd as (((<- & <-) & <-) & <-). congruence. }
    destruct r as [d|].
    2:{ exfalso. destruct Hr as [_ Hr]. apply Hr. intros x Hx. by eapply (pieces_cover h D len ws ks (f0 :: fs)). }
    destruct Hr as (seen & lst & Hsplit & _ & Hcov & Hh & Hd & Hpk & Hil & Hsrc & Hdst).
    destruct rest as [|g rest].
    2:{ exfalso. rewrite Hsplit in F3. change (seen ++ lst :: g :: rest) with (seen ++ [lst] ++ g :: rest) in F3.
      rewrite app_assoc in F3. eapply (pieces_needed h D len ks); [|exact F3|exact Hcov|exact HD].
      rewrite <- Hks. apply NoDup_seq. }
    destruct (ipintr_arrivals mget junk fuel DIRECTED_BROADCAST ias ipforwarding ifa_ifwithaddr
      ifa_ifwithdstaddr in_iaonnetof ip_rtaddr ifptoia iptime R cs (f0 :: fs) n q s d st')
      as (s' & E' & Hst & Hdl); try done.
    assert (Hlk : like 5 (iph_p h) d).
    { eapply (arrivals_like 5 (iph_p h) (iph_id h, iph_src h, iph_dst h, iph_p h)); [exact E| | |done].
      - apply Forall_forall. intros f Hf. rewrite Forall_forall in Hkey. pose proof (Hkey f Hf) as Hkf.
        rewrite Forall_forall in F2. destruct (F2 f Hf) as (Hplain & _ & _).
        split; [|by split]. split; [|by injection Hkf]. 
        apply list_elem_of_lookup in Hf as [i Hi]. destruct (Forall2_lookup_r _ _ _ _ _ F1 Hi) as (c & _ & Hc').
        apply (fragment_in_ok mget junk fuel DIRECTED_BROADCAST ias ipforwarding ifa_ifwithaddr
          ifa_ifwithdstaddr in_iaonnetof ip_rtaddr ifptoia iptime _ _ _ s eq_refl Hc').
      - eapply Forall_impl; [exact Hqs|]. intros fq Hne He'. done. }
    destruct Hlk as [L1 L2]. rewrite L1 in Hd. exists d, s'. unfold in_pool. rewrite Hst.
    split; [exact E'|]. split; [split_and!; try done; by rewrite ?Hsrc, ?Hdst|]. split; [done|]. split; [done|].
    rewrite app_nil_r in He. by eapply evolve_trans.
Qed.
End path.

(** The two fragments of [demo_data], the second one first, and a host with the address
    they are for. *)
Definition demo_wire (h : ip) (opts data : list Z) : list Z :=
  ip_bytes (h <| iph_sum ::= rfc1071 (ip_bytes (h <| iph_sum ::= 0 |>) ++ opts) |>) ++ opts ++ data.
Definition demo_in (addr : Z) (w : list Z) : chain :=
  [mk_mbuf addr (zlen w) 12 1 M_PKTHDR (mk_pkthdr (zlen w) 500 0) (mk_mext 0 0)
     (repeat 0 12 ++ w ++ repeat 0 (96 - length w))].
Definition demo_w1 : list Z := demo_wire (mk_ip 4 5 0 36 7 8192 64 17 0 1 2) [] (take 16 demo_data).
Definition demo_w2 : list Z := demo_wire (mk_ip 4 5 0 28 7 2 64 17 0 1 2) [] (drop 16 demo_data).
Definition demo_queue : ifqueue := mk_ifqueue [demo_in 4480 demo_w2; demo_in 4608 demo_w1] IFQ_MAXLEN 0.
Definition demo_ias : list in_ifaddr := [mk_in_ifaddr 500 true 2 255 255 0 0].
Definition demo_ipin : ipin := mk_ipin demo_ipst (mk_srcrt 0 0 (repeat 0 43)) 0 0 0 0 0 0 0.
Definition demo_none (a : Z) : option Z := None.

Lemma demo_sent : all_sent demo_ip demo_data 16 [demo_w1; demo_w2].
Proof.
  split; [done|]. split; [done|]. split; [|done]. exists (fun _ => []). split; [|split; [|done]].
  - exists (mk_ip 4 5 0 36 7 8192 64 17 (rfc1071 (ip_bytes (mk_ip 4 5 0 36 7 8192 64 17 0 1 2))) 1 2).
    split_and!; try reflexivity; try (vm_compute; repeat split; discriminate).
    apply (bool_decide_unpack _). vm_compute. exact I.
  - exists (mk_ip 4 5 0 28 7 2 64 17 (rfc1071 (ip_bytes (mk_ip 4 5 0 28 7 2 64 17 0 1 2))) 1 2).
    split_and!; try reflexivity; try (vm_compute; repeat split; discriminate).
    apply (bool_decide_unpack _). vm_compute. exact I.
Qed.

Lemma demo_queue_owned : owns demo_pool (concat (ifq_head demo_queue)).
Proof.
  pose proof demo_owns as [_ _ Hf _ Hc]. split; [split| |exact Hf| |exact Hc].
  - apply (bool_decide_unpack _). vm_compute. exact I.
  - repeat apply Forall_cons_2; try apply Forall_nil_2; done.
  - repeat apply Forall_cons_2; try apply Forall_nil_2;
      vm_compute; repeat split; try discriminate; try done.
  - intros a. specialize (Hc a). change (refs _ a) with 0. lia.
Qed.

Lemma ip_path_correct_witness :
  exists d s', ipintr MGET_list 99 8 false demo_ias false demo_none demo_none demo_none demo_none
      demo_none 0 2 demo_queue demo_ipin = Some ([Input 20 d], mk_ifqueue [] IFQ_MAXLEN 0, s') /\
    drop 20 (bytes (in_pool s') (ip_m d)) = demo_data /\ ip_len d = 24 /\ ips_delivered s' = 1 /\
    ipq_head (in_st s') = [].
Proof.
  destruct (ip_path_correct MGET_list 99 8 false demo_ias false demo_none demo_none demo_none
    demo_none demo_none 0 [] demo_ip demo_data 16 [demo_w1; demo_w2] [demo_w2; demo_w1]
    (ifq_head demo_queue) 2 demo_queue demo_ipin)
    as (d & s' & E & (_ & _ & _ & _ & Hl & Hd & _) & Hn & Hq & _).
  - reflexivity.
  - vm_compute. discriminate.
  - exact demo_sent.
  - apply perm_swap.
  - apply Forall2_cons. split; [|apply Forall2_cons; split; [|by apply Forall2_nil_2]]; eexists _, []; split_and!; try reflexivity; by vm_compute.
  - reflexivity.
  - simpl. lia.
  - apply Exists_cons_hd. reflexivity.
  - split; [constructor|]. vm_compute. split; discriminate.
  - rewrite app_nil_r. exact demo_queue_owned.
  - intros _. split; [|vm_compute; discriminate]. split; [reflexivity|]. split; [|constructor].
    eexists _, _. reflexivity.
  - exists d, s'. split; [exact E|]. split; [exact Hd|]. split; [exact Hl|]. split; [exact Hn|by destruct Hq as [Hq|[_ Hq]]].
Defined.

(** The header length the protocol is given is that of the fragment that came last, not
    that of the datagram: with a record-route option (not copied on fragmentation) the
    protocol takes the option for its own header. *)
Example last_fragment_hlen :
  let w1 := demo_wire (mk_ip 4 6 0 40 7 8192 64 17 0 1 2) [7; 3; 4; 0] (take 16 demo_data) in
  let q := mk_ifqueue [demo_in 4480 w1; demo_in 4608 demo_w2] IFQ_MAXLEN 0 in
  match ipintr MGET_list 99 8 false demo_ias false demo_none demo_none demo_none demo_none
      demo_none 0 2 q demo_ipin with
  | Some ([Input hlen d], _, s) =>
      hlen = 20 /\ ip_hl d = 6 /\ ip_len d = 24 /\
      drop (Z.to_nat hlen) (bytes (in_pool s) (ip_m d)) = [7; 3; 4; 0] ++ demo_data
  | _ => False
  end.
Proof. vm_compute. repeat split. Qed.
