(* ===== verification/TcpReass.v ===== *)
(** What TCP does with the text of a segment: trimming it to the receive window, the
    reassembly queue, and the end of the stream ([tcp_input], [TCP_REASS] and
    [tcp_reass] in [netinet/tcp_input.c]; [netinet/tcpip.h], [netinet/tcp_fsm.h]). *)
From S2P Require Import Prelude TcpVar TcpSack Mbuf Sockbuf Socket.

Definition TCPS_SYN_RECEIVED : Z := 3.
Definition TCPS_ESTABLISHED : Z := 4.
Definition TCPS_CLOSE_WAIT : Z := 5.
Definition TCPS_FIN_WAIT_1 : Z := 6.
Definition TCPS_CLOSING : Z := 7.
Definition TCPS_FIN_WAIT_2 : Z := 9.
Definition TCPS_TIME_WAIT : Z := 10.
Definition TCPS_HAVERCVDSYN (s : Z) : bool := TCPS_SYN_RECEIVED <=? s.
Definition TCPS_HAVERCVDFIN (s : Z) : bool := TCPS_TIME_WAIT <=? s.
Definition TH_FIN : Z := 1.
Definition TH_SYN : Z := 2.
Definition TH_PUSH : Z := 8.
Definition TH_URG : Z := 32.
Definition TF_ACKNOW : Z := 1.
Definition TF_DELACK : Z := 2.
Definition TF_SACK_PERMIT : Z := 1024.
Definition TF_DSACK : Z := 8192.
Definition TCPTV_MSL : Z := 60.      (* 30 * PR_SLOWHZ *)

(** A segment: the fields of its [struct tcpiphdr] used here, and its mbuf chain
    ([REASS_MBUF]).  [ti_len] is a [short]. *)
Record tiseg := mk_tiseg { ti_seq : Z; ti_len : Z; ti_flags : Z; ti_urp : Z; ti_m : chain }.
#[export] Instance tiseg_eta : Eta tiseg := fun t =>
  mk_tiseg (ti_seq t) (ti_len t) (ti_flags t) (ti_urp t) (ti_m t).

Record tcpstat := mk_tcpstat {
  tcps_rcvpack : Z; tcps_rcvbyte : Z; tcps_rcvduppack : Z; tcps_rcvdupbyte : Z;
  tcps_rcvpartduppack : Z; tcps_rcvpartdupbyte : Z; tcps_rcvoopack : Z; tcps_rcvoobyte : Z;
  tcps_rcvpackafterwin : Z; tcps_rcvbyteafterwin : Z; tcps_rcvwinprobe : Z; tcpreassfull : Z }.
#[export] Instance tcpstat_eta : Eta tcpstat := fun t =>
  mk_tcpstat (tcps_rcvpack t) (tcps_rcvbyte t) (tcps_rcvduppack t) (tcps_rcvdupbyte t)
    (tcps_rcvpartduppack t) (tcps_rcvpartdupbyte t) (tcps_rcvoopack t) (tcps_rcvoobyte t)
    (tcps_rcvpackafterwin t) (tcps_rcvbyteafterwin t) (tcps_rcvwinprobe t) (tcpreassfull t).

(** What the receiver tells the socket layer. *)
Inductive rnotice := Sorwakeup | Socantrcvmore | Soisdisconnected.

(** The receiver: the control block with [rcv_wnd], [rcv_dsackblk] and the reassembly
    queue, the socket's receive buffer and state, the pool. *)
Record rcvst := mk_rcvst {
  r_tp : tcpcb; r_wnd : Z; r_dsack : sackblk; seg_next : list tiseg; r_rcv : sockbuf;
  r_state : Z; r_notices : list rnotice; r_pool : mpool; r_stat : tcpstat }.
#[export] Instance rcvst_eta : Eta rcvst := fun s =>
  mk_rcvst (r_tp s) (r_wnd s) (r_dsack s) (seg_next s) (r_rcv s) (r_state s) (r_notices s)
    (r_pool s) (r_stat s).

Definition add_flags (f : Z) (tp : tcpcb) : tcpcb := tp <| t_flags ::= Z.lor (t_flags tp) f |>.
Definition del_flags (f : Z) (tp : tcpcb) : tcpcb := tp <| t_flags ::= Z.land (t_flags tp) (Z.lnot f) |>.
Definition TCP_SETDELACK (tp : tcpcb) : tcpcb :=
  if negb (Z.land (t_flags tp) TF_DELACK =? 0) then add_flags TF_ACKNOW (del_flags TF_DELACK tp)
  else add_flags TF_DELACK tp.
Definition notify (n : rnotice) (s : rcvst) : rcvst := s <| r_notices ::= r_notices s ++ [n] |>.

(** * The queue *)

(** The bound on what is out of order: on bytes and on segments. *)
Definition reass_full (ti : tiseg) (s : rcvst) : bool :=
  let room := Z.max 0 (s32 (sb_hiwat (r_rcv s) - sb_cc (r_rcv s))) in
  let maxsegs := Z.max 8 (room / MSIZE) in
  let reasslen := foldr (fun p n => u16 (ti_len p) + n) 0 (seg_next s) in
  (room <? reasslen + u16 (ti_len ti)) || (maxsegs <? zlen (seg_next s) + 1).

(** The segments up to the first that begins after [ti] does, and the rest. *)
Fixpoint find_gt (ti : tiseg) (q : list tiseg) : list tiseg * list tiseg :=
  match q with
  | [] => ([], [])
  | p :: q' =>
      if SEQ_GT (ti_seq p) (ti_seq ti) then ([], q)
      else let '(b, a) := find_gt ti q' in (p :: b, a)
  end.

Definition cut_front (i : Z) (ti : tiseg) : tiseg :=
  ti <| ti_m ::= m_adj (ti_m ti) i |> <| ti_len ::= s16 (ti_len ti - i) |>
     <| ti_seq ::= u32 (ti_seq ti + i) |>.

(** What the segment before [ti] provides is dropped from it; [None]: all of it. *)
Definition cut_before (prev : option tiseg) (ti : tiseg) : option tiseg :=
  match prev with
  | None => Some ti
  | Some q =>
      let i := s32 (ti_seq q + ti_len q - ti_seq ti) in
      if 0 <? i then if ti_len ti <=? i then None else Some (cut_front i ti)
      else Some ti
  end.

(** Succeeding segments that [ti] overlaps are trimmed, or dequeued and freed. *)
Fixpoint cut_after (ti : tiseg) (q : list tiseg) (p : mpool) : list tiseg * mpool :=
  match q with
  | [] => ([], p)
  | h :: q' =>
      let i := s32 (ti_seq ti + ti_len ti - ti_seq h) in
      if i <=? 0 then (q, p)
      else if i <? ti_len h then (cut_front i h :: q', p)
      else cut_after ti q' (m_freem (ti_m h) p)
  end.

(** The loop of [present], from the queue's first segment on. *)
Fixpoint present_loop (q : list tiseg) (flags : Z) (s : rcvst) : option (Z * rcvst) :=
  match q with
  | ti :: q' =>
      if ti_seq ti =? rcv_nxt (r_tp s) then
        let s := s <| r_tp ::= r_tp s <| rcv_nxt ::= u32 (rcv_nxt (r_tp s) + ti_len ti) |> |>
                   <| seg_next ::= q' |> in
        s ← (if negb (Z.land (r_state s) SS_CANTRCVMORE =? 0)
             then Some (s <| r_pool ::= m_freem (ti_m ti) (r_pool s) |>)
             else '(sb, p) ← sbappend (r_rcv s) (ti_m ti) (r_pool s);
                  Some (s <| r_rcv ::= sb |> <| r_pool ::= p |>));
        present_loop q' (Z.land (ti_flags ti) TH_FIN) s
      else Some (flags, s)
  | [] => Some (flags, s)
  end.

Definition present (s : rcvst) : option (Z * rcvst) :=
  let state := t_state (r_tp s) in
  if negb (TCPS_HAVERCVDSYN state) then Some (0, s) else
  match seg_next s with
  | [] => Some (0, s)
  | ti :: _ =>
      if negb (ti_seq ti =? rcv_nxt (r_tp s)) then Some (0, s)
      else if (state =? TCPS_SYN_RECEIVED) && negb (ti_len ti =? 0) then Some (0, s)
      else
        '(flags, s) ← present_loop (seg_next s) 0 s;
        let s := if negb (Z.land (t_flags (r_tp s)) TF_SACK_PERMIT =? 0)
                 then s <| r_tp ::= tcp_sack_purge (r_tp s) |> else s in
        Some (flags, notify Sorwakeup s)
  end.

Definition drop_seg (m : chain) (s : rcvst) : rcvst := s <| r_pool ::= m_freem m (r_pool s) |>.
Definition count_dup (n : Z) (st : tcpstat) : tcpstat :=
  st <| tcps_rcvduppack ::= tcps_rcvduppack st + 1 |> <| tcps_rcvdupbyte ::= tcps_rcvdupbyte st + n |>.

(** [tcp_reass(tp, ti, m)]; without a segment, what is queued is presented. *)
Definition tcp_reass (ti : option tiseg) (s : rcvst) : option (Z * rcvst) :=
  match ti with
  | None => present s
  | Some ti =>
      if negb (ti_seq ti =? rcv_nxt (r_tp s)) && reass_full ti s then
        Some (0, drop_seg (ti_m ti) (s <| r_stat ::= r_stat s <| tcpreassfull ::= tcpreassfull (r_stat s) + 1 |> |>))
      else
        let '(b, a) := find_gt ti (seg_next s) in
        match cut_before (last b) ti with
        | None => Some (0, drop_seg (ti_m ti) (s <| r_stat ::= count_dup (ti_len ti) (r_stat s) |>))
        | Some ti =>
            let st := r_stat s in
            let s := s <| r_stat ::= st <| tcps_rcvoopack ::= tcps_rcvoopack st + 1 |>
                                        <| tcps_rcvoobyte ::= tcps_rcvoobyte st + ti_len ti |> |> in
            let '(a, p) := cut_after ti a (r_pool s) in
            let s := s <| r_pool ::= p |> <| seg_next ::= b ++ ti :: a |> in
            present (if negb (Z.land (t_flags (r_tp s)) TF_SACK_PERMIT =? 0)
                     then s <| r_tp ::= tcp_sack_addblock (r_tp s) (ti_seq ti) (u32 (ti_seq ti + ti_len ti)) |>
                     else s)
        end
  end.

(** [TCP_REASS]: the flags it leaves, and the state. *)
Definition TCP_REASS (ti : tiseg) (s : rcvst) : option (Z * rcvst) :=
  let tp := r_tp s in
  if (ti_seq ti =? rcv_nxt tp) && Nat.eqb (length (seg_next s)) 0 && (t_state tp =? TCPS_ESTABLISHED) then
    let tp := TCP_SETDELACK tp in
    let st := r_stat s in
    let s := s <| r_tp ::= tp <| rcv_nxt ::= u32 (rcv_nxt tp + ti_len ti) |> |>
               <| r_stat ::= st <| tcps_rcvpack ::= tcps_rcvpack st + 1 |>
                                <| tcps_rcvbyte ::= tcps_rcvbyte st + ti_len ti |> |> in
    '(sb, p) ← sbappend (r_rcv s) (ti_m ti) (r_pool s);
    Some (Z.land (ti_flags ti) TH_FIN, notify Sorwakeup (s <| r_rcv ::= sb |> <| r_pool ::= p |>))
  else
    '(flags, s) ← tcp_reass (Some ti) s;
    Some (flags, s <| r_tp ::= add_flags TF_ACKNOW (r_tp s) |>).

(** * The window *)

(** Where trimming leaves a segment: kept, with the flags still to be honoured; dropped
    with an acknowledgment; the connection reset, its reader being gone; or a new
    connection in place of one in [TIME_WAIT]. *)
Inductive trimmed_seg :=
  | Keep (ti : tiseg) (tiflags : Z) (s : rcvst)
  | Dropafterack (s : rcvst)
  | Dropwithreset
  | Findpcb.

Definition has_flag (tiflags f : Z) : bool := negb (Z.land tiflags f =? 0).
Definition clear_flag (tiflags f : Z) : Z := Z.land tiflags (Z.lnot f).

(** [dropafterack]. *)
Definition dropafterack (m : chain) (s : rcvst) : trimmed_seg :=
  Dropafterack (drop_seg m s <| r_tp ::= add_flags TF_ACKNOW (r_tp s) |>).

(** A segment that ends after the window. *)
Definition trim_back (ti : tiseg) (tiflags : Z) (s : rcvst) : trimmed_seg :=
  let tp := r_tp s in
  let st := r_stat s in
  let todrop := s32 (ti_seq ti + ti_len ti - (rcv_nxt tp + r_wnd s)) in
  if todrop <=? 0 then Keep ti tiflags s else
  let st := st <| tcps_rcvpackafterwin ::= tcps_rcvpackafterwin st + 1 |> in
  let cut s := Keep (ti <| ti_m ::= m_adj (ti_m ti) (- todrop) |> <| ti_len ::= s16 (ti_len ti - todrop) |>)
                 (clear_flag tiflags (Z.lor TH_PUSH TH_FIN)) s in
  if ti_len ti <=? todrop then
    let st := st <| tcps_rcvbyteafterwin ::= tcps_rcvbyteafterwin st + ti_len ti |> in
    if has_flag tiflags TH_SYN && (t_state tp =? TCPS_TIME_WAIT) && SEQ_GT (ti_seq ti) (rcv_nxt tp)
    then Findpcb
    else if (r_wnd s =? 0) && (ti_seq ti =? rcv_nxt tp) then
      cut (s <| r_tp ::= add_flags TF_ACKNOW tp |>
             <| r_stat ::= st <| tcps_rcvwinprobe ::= tcps_rcvwinprobe st + 1 |> |>)
    else dropafterack (ti_m ti) (s <| r_stat ::= st |>)
  else cut (s <| r_stat ::= st <| tcps_rcvbyteafterwin ::= tcps_rcvbyteafterwin st + todrop |> |>).

(** From the test for data after the reader is gone on. *)
Definition trim_rest (ti : tiseg) (tiflags : Z) (s : rcvst) : trimmed_seg :=
  if has_flag (r_state s) SS_NOFDREF && (TCPS_CLOSE_WAIT <? t_state (r_tp s)) && negb (ti_len ti =? 0)
  then Dropwithreset
  else trim_back ti tiflags s.

(** The data before the window, [todrop] bytes. *)
Definition drop_front (todrop : Z) (ti : tiseg) (tiflags : Z) (s : rcvst) : trimmed_seg :=
  let late := ti_urp ti <=? todrop in
  let ti' := cut_front todrop ti <| ti_urp ::= if late then 0 else ti_urp ti - todrop |> in
  trim_rest ti' (if late then clear_flag tiflags TH_URG else tiflags) s.

(** From the acceptability of the segment's text on. *)
Definition tcp_trim (ti : tiseg) (s : rcvst) : trimmed_seg :=
  let tp := r_tp s in
  let tiflags := ti_flags ti in
  let todrop := s32 (rcv_nxt tp - ti_seq ti) in
  if todrop <=? 0 then trim_rest ti tiflags s else
  let '(ti, tiflags, todrop) :=
    if has_flag tiflags TH_SYN then
      (ti <| ti_seq ::= u32 (ti_seq ti + 1) |>
          <| ti_urp ::= if 1 <? ti_urp ti then ti_urp ti - 1 else ti_urp ti |>,
       clear_flag tiflags (if 1 <? ti_urp ti then TH_SYN else Z.lor TH_SYN TH_URG), todrop - 1)
    else (ti, tiflags, todrop) in
  let st := r_stat s in
  if (ti_len ti <? todrop) || (todrop =? ti_len ti) && negb (has_flag tiflags TH_FIN) then
    let s := s <| r_stat ::= count_dup (ti_len ti) st |> in
    if has_flag tiflags TH_FIN && (todrop =? ti_len ti + 1) then
      drop_front (ti_len ti) ti (clear_flag tiflags TH_FIN) (s <| r_tp ::= add_flags TF_ACKNOW tp |>)
    else
      dropafterack (ti_m ti)
        (if has_flag (t_flags tp) TF_SACK_PERMIT && (0 <? ti_len ti)
         then s <| r_dsack ::= mk_sackblk (ti_seq ti) (u32 (ti_seq ti + ti_len ti)) |>
                <| r_tp ::= add_flags (Z.lor TF_DSACK TF_ACKNOW) tp |>
         else s)
  else
    drop_front todrop ti tiflags
      (s <| r_stat ::= st <| tcps_rcvpartduppack ::= tcps_rcvpartduppack st + 1 |>
                          <| tcps_rcvpartdupbyte ::= tcps_rcvpartdupbyte st + todrop |> |>).

(** * The text and the end of the stream *)

(** [dodata]. *)
Definition tcp_dodata (ti : tiseg) (tiflags : Z) (s : rcvst) : option (Z * rcvst) :=
  if (negb (ti_len ti =? 0) || has_flag tiflags TH_FIN) && negb (TCPS_HAVERCVDFIN (t_state (r_tp s)))
  then TCP_REASS ti s
  else Some (clear_flag tiflags TH_FIN, drop_seg (ti_m ti) s).

(** A FIN: acknowledged once, and the connection's state moved. *)
Definition set_2msl (tp : tcpcb) : tcpcb := tp <| t_timer ::= zset (t_timer tp) 3 (2 * TCPTV_MSL) |>.
Definition tcp_fin (s : rcvst) : rcvst :=
  let s := if negb (TCPS_HAVERCVDFIN (t_state (r_tp s))) then
             notify Socantrcvmore (s <| r_state ::= Z.lor (r_state s) SS_CANTRCVMORE |>
               <| r_tp ::= (add_flags TF_ACKNOW (r_tp s)) <| rcv_nxt ::= u32 (rcv_nxt (r_tp s) + 1) |> |>)
           else s in
  let tp := r_tp s in
  let state := t_state tp in
  if (state =? TCPS_SYN_RECEIVED) || (state =? TCPS_ESTABLISHED) then
    s <| r_tp ::= tp <| t_state ::= TCPS_CLOSE_WAIT |> |>
  else if state =? TCPS_FIN_WAIT_1 then s <| r_tp ::= tp <| t_state ::= TCPS_CLOSING |> |>
  else if state =? TCPS_FIN_WAIT_2 then
    notify Soisdisconnected
      (s <| r_tp ::= set_2msl (tp <| t_state ::= TCPS_TIME_WAIT |> <| t_timer ::= replicate 4 0 |>) |>)
  else if state =? TCPS_TIME_WAIT then s <| r_tp ::= set_2msl tp |>
  else s.

(** The text of a segment, from trimming to the end of the stream, when its
    acknowledgment and urgent pointer ask for nothing; [None]: a memory error or panic.
    The connection may be gone. *)
Definition tcp_text (ti : tiseg) (s : rcvst) : option (option rcvst) :=
  match tcp_trim ti s with
  | Keep ti tiflags s =>
      '(flags, s) ← tcp_dodata ti tiflags s;
      Some (Some (if has_flag flags TH_FIN then tcp_fin s else s))
  | Dropafterack s => Some (Some s)
  | Dropwithreset | Findpcb => Some None
  end.

(** Segments as they come, up to one that ends the stream: whether one did, and the
    segments after it. *)
Fixpoint tcp_texts (segs : list tiseg) (s : rcvst) : option (bool * list tiseg * rcvst) :=
  match segs with
  | [] => Some (false, [], s)
  | ti :: segs =>
      o ← tcp_text ti s;
      s ← o;
      if has_flag (r_state s) SS_CANTRCVMORE then Some (true, segs, s) else tcp_texts segs s
  end.

(** * The peer's stream

    [iss] is the sequence number of the first byte of the stream [D] the peer sends. *)
Section stream.
Context (iss : Z) (D : list Z).

(** Comparisons of sequence numbers are comparisons of offsets, as long as these are
    less than half the sequence space apart. *)
Lemma seq_diff a c b :
  -2147483648 <= a + c - b < 2147483648 -> s32 (u32 (iss + a) + c - u32 (iss + b)) = a + c - b.
Proof using. intros. word_solve. Qed.
Lemma seq_diff0 a b : -2147483648 <= a - b < 2147483648 -> s32 (u32 (iss + a) - u32 (iss + b)) = a - b.
Proof using. intros. word_solve. Qed.
Lemma seq_eqb a b : -2147483648 <= a - b < 2147483648 -> (u32 (iss + a) =? u32 (iss + b)) = (a =? b).
Proof using.
  intros H. destruct (a =? b) eqn:E; [replace b with a by lia; apply Z.eqb_refl|].
  apply Z.eqb_neq. intros E'. pose proof (seq_diff0 a b H) as H0. rewrite E', Z.sub_diag in H0.
  change (s32 0) with 0 in H0. lia.
Qed.
Lemma seq_add a c : u32 (u32 (iss + a) + c) = u32 (iss + (a + c)).
Proof using. word_solve. Qed.

(** [t] is a segment of the stream, at offset [o]. *)
Record seg (p : mpool) (o : Z) (t : tiseg) : Prop := {
  sg_o : 0 <= o;
  sg_len : 0 <= ti_len t <= 32767;
  sg_end : o + ti_len t <= zlen D;
  sg_seq : ti_seq t = u32 (iss + o);
  sg_bytes : bytes p (ti_m t) = zslice D o (ti_len t);
  sg_chain : ti_m t <> [];
  sg_fin : has_flag (ti_flags t) TH_FIN = true -> o + ti_len t = zlen D }.

Lemma seg_bytes p p' o t :
  (forall m, m ∈ ti_m t -> mbuf_bytes p' m = mbuf_bytes p m) -> seg p o t -> seg p' o t.
Proof using. intros Hb []. split; try done. by rewrite (bytes_same p p'). Qed.

Lemma zslice_tail {A} (l : list A) o n i :
  0 <= o -> 0 <= i -> drop (Z.to_nat i) (zslice l o n) = zslice l (o + i) (n - i).
Proof using. intros. unfold zslice. rewrite skipn_firstn_comm, drop_drop. f_equal; [lia|]. f_equal. lia. Qed.

Lemma same_id_nil (c c' : chain) : Forall2 same_id c c' -> c <> [] -> c' <> [].
Proof using. intros H. by destruct H. Qed.

Lemma cut_front_ok p o t i :
  seg p o t -> Forall (wf_mbuf p) (ti_m t) -> 0 <= i <= ti_len t ->
  seg p (o + i) (cut_front i t) /\ ti_len (cut_front i t) = ti_len t - i /\
  Forall2 same_id (ti_m t) (ti_m (cut_front i t)) /\ Forall (wf_mbuf p) (ti_m (cut_front i t)).
Proof using.
  intros [H1 H2 H3 H4 H5 H6 H7] Hw Hi. destruct (m_adj_ok p (ti_m t) i Hw) as (Hb & Hid & Hw').
  assert (Hl : ti_len (cut_front i t) = ti_len t - i) by (cbn; apply s16_small; lia).
  split; [|split; [exact Hl|split; [exact Hid|exact Hw']]].
  split; rewrite ?Hl; [lia|lia|lia| | | |].
  - change (u32 (ti_seq t + i) = u32 (iss + (o + i))). rewrite H4. by rewrite seq_add.
  - change (bytes p (m_adj (ti_m t) i) = zslice D (o + i) (ti_len t - i)). rewrite Hb, H5. unfold adj_spec. destruct (0 <=? i) eqn:?; [|lia]. apply zslice_tail; lia.
  - by eapply same_id_nil.
  - intros Hf. specialize (H7 Hf). lia.
Qed.

(** ** Queues *)

Fixpoint qsorted (lo : Z) (os : list Z) (q : list tiseg) : Prop :=
  match os, q with
  | o :: os, t :: q => lo <= o /\ qsorted (o + ti_len t) os q
  | [], [] => True
  | _, _ => False
  end.

(** The end of the last of the segments, or [lo]. *)
Fixpoint qend (lo : Z) (os : list Z) (q : list tiseg) : Z :=
  match os, q with
  | o :: os, t :: q => qend (o + ti_len t) os q
  | _, _ => lo
  end.

(** Byte [x] of the stream is in the queue. *)
Definition qcov (os : list Z) (q : list tiseg) (x : Z) : Prop :=
  exists i o t, os !! i = Some o /\ q !! i = Some t /\ o <= x < o + ti_len t.

Lemma qcov_cons o os t q x : qcov (o :: os) (t :: q) x <-> o <= x < o + ti_len t \/ qcov os q x.
Proof using.
  split.
  - intros (i & o' & t' & H1 & H2 & H3). destruct i as [|i]; [injection H1 as ->; injection H2 as ->; by left|].
    right. by exists i, o', t'.
  - intros [H|(i & o' & t' & H)]; [by exists 0%nat, o, t|by exists (S i), o', t'].
Qed.
Lemma qcov_app o1 q1 o2 q2 x :
  length o1 = length q1 -> qcov (o1 ++ o2) (q1 ++ q2) x <-> qcov o1 q1 x \/ qcov o2 q2 x.
Proof using.
  revert q1. induction o1 as [|o o1 IH]; intros [|t q1] Hl; try done; cbn [app].
  - split; [by right|]. intros [(i & o & t & H & _)|?]; [done|done].
  - rewrite !qcov_cons, IH by (simpl in Hl; lia). tauto.
Qed.

Lemma qsorted_app lo o1 o2 q1 q2 :
  length o1 = length q1 ->
  qsorted lo (o1 ++ o2) (q1 ++ q2) <-> qsorted lo o1 q1 /\ qsorted (qend lo o1 q1) o2 q2.
Proof using.
  revert lo q1. induction o1 as [|o o1 IH]; intros lo [|t q1] Hl; try done; cbn [app qsorted qend]; [tauto|].
  rewrite IH by (simpl in Hl; lia). tauto.
Qed.
Lemma qsorted_weaken lo lo' os q : lo' <= lo -> qsorted lo os q -> qsorted lo' os q.
Proof using. destruct os, q; try done. cbn. intros ? [? ?]. split; [lia|done]. Qed.
Lemma qend_app lo o1 o2 q1 q2 :
  length o1 = length q1 -> qend lo (o1 ++ o2) (q1 ++ q2) = qend (qend lo o1 q1) o2 q2.
Proof using.
  revert lo q1. induction o1 as [|o o1 IH]; intros lo [|t q1] Hl; try done; cbn [app qend].
  apply IH. simpl in Hl. lia.
Qed.
Lemma qend_snoc lo o1 q1 o t : length o1 = length q1 -> qend lo (o1 ++ [o]) (q1 ++ [t]) = o + ti_len t.
Proof using. intros Hl. by rewrite qend_app. Qed.

(** The segments that are not after [ti], and the rest. *)
Lemma find_gt_ok p os q ti o b a :
  Forall2 (seg p) os q -> ti_seq ti = u32 (iss + o) ->
  Forall (fun o' => -1073741824 <= o' - o < 1073741824) os ->
  find_gt ti q = (b, a) ->
  exists ob oa, os = ob ++ oa /\ q = b ++ a /\ length ob = length b /\
    Forall (fun o' => o' <= o) ob /\ (forall o' oa', oa = o' :: oa' -> o < o').
Proof using.
  intros Hs Hti. revert b a. induction Hs as [|o1 t os q H1 Hs IH]; intros b a Hw; cbn [find_gt].
  { intros [= <- <-]. exists [], []. split_and!; try done. }
  apply Forall_cons in Hw as [Hw1 Hw]. unfold SEQ_GT. rewrite (sg_seq _ _ _ H1), Hti, seq_diff0 by lia.
  destruct (o1 - o >? 0) eqn:E.
  - intros [= <- <-]. exists [], (o1 :: os). split_and!; try done. intros o' oa' [= <- _]. lia.
  - destruct (find_gt ti q) as [b1 a1] eqn:Ef. intros [= <- <-].
    destruct (IH _ _ Hw eq_refl) as (ob & oa & -> & -> & Hl & Hf & Hh).
    exists (o1 :: ob), oa. split_and!; try done; [cbn; by f_equal|]. apply Forall_cons_2; [lia|done].
Qed.
Definition qchains (q : list tiseg) : chain := concat (map ti_m q).
Lemma qchains_app a b : qchains (a ++ b) = qchains a ++ qchains b.
Proof using. unfold qchains. by rewrite map_app, concat_app. Qed.

(** The end of the stream: a segment that reaches it carries the FIN; a FIN is there. *)
Definition marked (o : Z) (t : tiseg) : Prop := zlen D <= o + ti_len t -> has_flag (ti_flags t) TH_FIN = true.
Definition closing : list Z -> list tiseg -> Prop := Forall2 marked.
Definition has_fin (q : list tiseg) : Prop := exists t, t ∈ q /\ has_flag (ti_flags t) TH_FIN = true.

Lemma has_fin_app a b : has_fin (a ++ b) <-> has_fin a \/ has_fin b.
Proof using.
  unfold has_fin. split.
  - intros (t & [?|?]%elem_of_app & Ht); eauto.
  - intros [(t & Hin & Ht)|(t & Hin & Ht)]; exists t; split; try done; apply elem_of_app; auto.
Qed.
Lemma has_fin_cons t q : has_fin (t :: q) <-> has_flag (ti_flags t) TH_FIN = true \/ has_fin q.
Proof using.
  change (t :: q) with ([t] ++ q). rewrite has_fin_app. unfold has_fin. setoid_rewrite list_elem_of_singleton.
  split; (intros [H|?]; [left|by right]); [by destruct H as (? & -> & ?)|eauto].
Qed.
Lemma has_fin_nil : ~ has_fin [].
Proof using. intros (t & Hin & _). by apply elem_of_nil in Hin. Qed.

(** From the queue [q], and a FIN already taken or not, to [q']: no FIN is lost. *)
Definition fin_kept (os : list Z) (q : list tiseg) (b : bool) (os' : list Z) (q' : list tiseg) (b' : bool) : Prop :=
  closing os q -> closing os' q' /\ (has_fin q \/ b = true -> has_fin q' \/ b' = true).
Lemma fin_kept_refl os q b : fin_kept os q b os q b.
Proof using. done. Qed.
Lemma fin_kept_trans o1 q1 b1 o2 q2 b2 o3 q3 b3 :
  fin_kept o1 q1 b1 o2 q2 b2 -> fin_kept o2 q2 b2 o3 q3 b3 -> fin_kept o1 q1 b1 o3 q3 b3.
Proof using. intros H1 H2 Hc. destruct (H1 Hc) as [Hc2 Hf1], (H2 Hc2) as [Hc3 Hf2]. split; auto. Qed.

(** Every segment ends at [u] at most. *)
Definition within (u : Z) (os : list Z) (q : list tiseg) : Prop := Forall2 (fun o t => o + ti_len t <= u) os q.

Lemma segs_frame p p' os q :
  (forall m, m ∈ qchains q -> mbuf_bytes p' m = mbuf_bytes p m) ->
  Forall2 (seg p) os q -> Forall2 (seg p') os q.
Proof using.
  intros Hb Hs. induction Hs as [|o t os q Ht Hs IH]; [constructor|]. constructor.
  - eapply seg_bytes; [|exact Ht]. intros m Hm. apply Hb. unfold qchains. cbn. apply elem_of_app. by left.
  - apply IH. intros m Hm. apply Hb. unfold qchains. cbn. apply elem_of_app. by right.
Qed.

Lemma cut_before_ok p n o ti ob b :
  Forall2 (seg p) ob b -> qsorted n ob b -> seg p o ti -> n <= o -> Forall (fun o' => o' <= o) ob ->
  qend n ob b - o < 1073741824 -> Forall (fun o' => -1073741824 <= o' - o) ob -> Forall (wf_mbuf p) (ti_m ti) ->
  match cut_before (last b) ti with
  | None => (forall x, o <= x < o + ti_len ti -> qcov ob b x) /\
      (closing ob b -> has_flag (ti_flags ti) TH_FIN = true -> has_fin b)
  | Some ti' => exists o', seg p o' ti' /\ o <= o' /\ o' + ti_len ti' = o + ti_len ti /\ qend n ob b <= o' /\
      (forall x, o <= x < o' -> qcov ob b x) /\ (qend n ob b <= o -> ti' = ti /\ o' = o) /\
      ti_flags ti' = ti_flags ti /\
      Forall2 same_id (ti_m ti) (ti_m ti') /\ Forall (wf_mbuf p) (ti_m ti')
  end.
Proof using.
  intros Hs Hsort Ht Hno Hob Hwin Hwin2 Hw. destruct b as [|q0 b0 _] using rev_ind.
  - apply Forall2_nil_inv_r in Hs as ->. cbn. exists o. split_and!; done || lia || apply same_ids_refl.
  - apply Forall2_app_inv_r in Hs as (ob0 & ol & H1 & H2 & ->).
    apply Forall2_cons_inv_r in H2 as (oq & ? & Hq & Hn0 & ->). apply Forall2_nil_inv_r in Hn0 as ->.
    pose proof (Forall2_length _ _ _ H1) as Hl. rewrite qend_snoc in * by done.
    apply Forall_app in Hob as [_ [Hoq _]%Forall_cons]. apply Forall_app in Hwin2 as [_ [Hwq _]%Forall_cons].
    apply qsorted_app in Hsort as [_ [Hlo _]]; [|done].
    rewrite last_snoc. unfold cut_before. pose proof (sg_len _ _ _ Hq) as Hql. pose proof (sg_len _ _ _ Ht) as Htl.
    rewrite (sg_seq _ _ _ Hq), (sg_seq _ _ _ Ht), seq_diff by lia.
    destruct (0 <? oq + ti_len q0 - o) eqn:Hi.
    + destruct (ti_len ti <=? _) eqn:Hc.
      * split; [intros x Hx; apply qcov_app; [done|]; right; exists 0%nat, oq, q0; split_and!; done || lia|].
        intros [_ [Hm _]%Forall2_cons]%Forall2_app_inv Hf; [|done]. exists q0. split; [apply elem_of_app; right; by left|].
        apply Hm. pose proof (sg_fin _ _ _ Ht Hf). lia.
      * destruct (cut_front_ok p o ti (oq + ti_len q0 - o) Ht Hw ltac:(lia)) as (Hseg & Hlen & Hid & Hwf).
        eexists. split; [exact Hseg|]. rewrite Hlen. split; [lia|]. split; [lia|]. split; [lia|]. split; [|split; [lia|done]].
        intros x Hx. apply qcov_app; [done|]. right. exists 0%nat, oq, q0. split_and!; done || lia.
    + exists o. split_and!; done || lia || apply same_ids_refl.
Qed.

Lemma cut_after_ok K n u o ti oa a : forall p,
  Forall2 (seg p) oa a -> qsorted o oa a -> Forall (fun o' => n < o') oa -> within u oa a ->
  ti_seq ti = u32 (iss + o) -> 0 <= ti_len ti <= 32767 ->
  Forall (fun o' => o' - o < 1073741824) oa -> owns p (qchains a ++ K) ->
  exists a' p' oa', cut_after ti a p = (a', p') /\ Forall2 (seg p') oa' a' /\ qsorted (o + ti_len ti) oa' a' /\
    Forall (fun o' => n < o') oa' /\ within u oa' a' /\ evolve K p (qchains a) p' (qchains a') /\
    (forall x, qcov oa a x -> o <= x < o + ti_len ti \/ qcov oa' a' x) /\
    (marked o ti -> closing oa a -> closing oa' a' /\ (has_fin a -> has_fin (ti :: a'))).
Proof using.
  revert oa. induction a as [|h a IH]; intros oa p Hs Hsort Hn Hu Hti Htl Hwin Ho; cbn [cut_after].
  { apply Forall2_nil_inv_r in Hs as ->. exists [], p, []. split; [done|]. split; [done|]. split; [done|]. split; [done|].
    split; [done|]. split; [by apply evolve_refl|]. split; [by right|]. intros _ _. split; [constructor|]. by intros ?%has_fin_nil. }
  apply Forall2_cons_inv_r in Hs as (oh & oa' & Hh & Hs & ->). cbn [qsorted] in Hsort. destruct Hsort as [Hoh Hsort].
  apply Forall_cons in Hn as [Hnh Hn]. apply Forall2_cons in Hu as [Huh Hu]. apply Forall_cons in Hwin as [Hwh Hwin].
  pose proof (sg_len _ _ _ Hh) as Hhl. rewrite Hti, (sg_seq _ _ _ Hh), seq_diff by lia.
  change (qchains (h :: a)) with (ti_m h ++ qchains a) in *. rewrite <- app_assoc in Ho.
  destruct (o + ti_len ti - oh <=? 0) eqn:Hi.
  { exists (h :: a), p, (oh :: oa'). split; [done|]. split; [by constructor|]. split; [cbn; split; [lia|done]|].
    split; [by apply Forall_cons_2|]. split; [by constructor|]. split; [change (qchains (h :: a)) with (ti_m h ++ qchains a); apply evolve_refl; by rewrite <- app_assoc|].
    split; [by right|]. intros _ Hcl. split; [done|]. intros Hf. apply has_fin_cons. by right. }
  destruct (o + ti_len ti - oh <? ti_len h) eqn:Hc.
  - pose proof (owns_wf _ _ Ho) as Hw. rewrite !Forall_app in Hw. destruct Hw as (Hwh' & Hwa & _).
    destruct (cut_front_ok p oh h (o + ti_len ti - oh) Hh Hwh' ltac:(lia)) as (Hseg & Hlen & Hid & Hwf).
    set (h' := cut_front _ h) in *. exists (h' :: a), p, (oh + (o + ti_len ti - oh) :: oa').
    split; [done|]. split; [by constructor|].
    split; [cbn [qsorted]; split; [lia|]; by replace (oh + (o + ti_len ti - oh) + ti_len h') with (oh + ti_len h) by lia|].
    split; [apply Forall_cons_2; [lia|done]|]. split; [constructor; [lia|done]|]. split.
    + change (qchains (h' :: a)) with (ti_m h' ++ qchains a).
      apply evolve_in; [apply Forall2_app; [done|apply same_ids_refl]|by apply Forall_app_2|by rewrite <- app_assoc].
    + split.
      { intros x. rewrite !qcov_cons. intros [?|?]; [|by auto]. destruct (decide (x < o + ti_len ti)); [left; lia|].
        right. left. lia. }
      intros _ [Hm Hcl]%Forall2_cons. split.
      * constructor; [|done]. intros He. apply Hm. lia.
      * rewrite !has_fin_cons. intros [?|?]; by auto.
  - pose proof (m_freem_ok _ _ _ Ho) as Hf.
    assert (Hs' : Forall2 (seg (m_freem (ti_m h) p)) oa' a).
    { eapply segs_frame; [|exact Hs]. intros m Hm. apply (ev_bytes _ _ _ _ _ Hf), elem_of_app. by left. }
    pose proof (evolve_frame K (qchains a) _ _ _ _ Hf) as Hf2.
    destruct (IH oa' (m_freem (ti_m h) p)) as (a' & p' & oa2 & -> & I1 & I2 & I3 & I4 & I5 & I6 & I7); try done.
    { eapply qsorted_weaken; [|exact Hsort]. lia. }
    { apply (ev_owns _ _ _ _ _ Hf2). }
    exists a', p', oa2. split; [done|]. split; [done|]. split; [done|]. split; [done|]. split; [done|].
    split; [by eapply evolve_trans|]. split; [intros x; rewrite qcov_cons; intros [?|?]; [left; lia|auto]|].
    intros Hm [_ Hcl]%Forall2_cons. destruct (I7 Hm Hcl) as [Hcl' Hf']. split; [done|].
    rewrite has_fin_cons. intros [Hh'|?]; [|auto]. apply has_fin_cons. left. apply Hm.
    pose proof (sg_fin _ _ _ Hh Hh'). lia.
Qed.

(** ** Presenting *)

(** What the reader has been given. *)
Definition stream (s : rcvst) : list Z := concat (sb_data (r_pool s) (r_rcv s)).

Lemma concat_rappend d b : concat (rappend d b) = concat d ++ b.
Proof using.
  unfold rappend. destruct (last d) as [r|] eqn:E.
  - apply split_last in E. rewrite E at 2. rewrite !concat_app. cbn. by rewrite !app_nil_r, app_assoc.
  - apply last_None in E as ->. cbn. by rewrite app_nil_r.
Qed.

(** The receiver with [n] bytes of the stream received, the queued segments being at
    the offsets [os], and within [w] bytes. *)
Definition window : Z := 1073741823.
Definition rbufs (s : rcvst) : chain := concat (sb_mb (r_rcv s)) ++ qchains (seg_next s).
Definition can_receive (s : rcvst) : Prop :=
  Z.land (r_state s) SS_CANTRCVMORE = 0 /\ TCPS_ESTABLISHED <= t_state (r_tp s).

Record rinv (R : chain) (n : Z) (os : list Z) (s : rcvst) : Prop := {
  ri_n : 0 <= n <= zlen D;
  ri_nxt : rcv_nxt (r_tp s) = u32 (iss + n);
  ri_segs : Forall2 (seg (r_pool s)) os (seg_next s);
  ri_sorted : qsorted n os (seg_next s);
  ri_upto : within (n + window) os (seg_next s);
  ri_sb : sb_ok (r_rcv s);
  ri_owns : owns (r_pool s) (rbufs s ++ R) }.

Lemma qsorted_ge n os q : Forall2 (fun _ t => 0 <= ti_len t) os q -> qsorted n os q -> Forall (fun o => n <= o) os.
Proof using.
  intros Hl. revert n. induction Hl as [|o t os q Ht Hl IH]; intros n Hs; [constructor|]. cbn in Hs. destruct Hs as [H1 H2].
  apply Forall_cons_2; [done|]. eapply Forall_impl; [by apply IH|]. cbn. lia.
Qed.

Lemma segs_len p os q : Forall2 (seg p) os q -> Forall2 (fun _ t => 0 <= ti_len t) os q.
Proof using. intros H. eapply Forall2_impl; [exact H|]. intros o t Ht. pose proof (sg_len _ _ _ Ht). lia. Qed.

(** How far the state [s'] got from [s], at [n] before and [n'] after. *)
Definition moved (R : chain) (n n' : Z) (s s' : rcvst) : Prop :=
  n <= n' /\ stream s' = stream s ++ zslice D n (n' - n) /\ evolve R (r_pool s) (rbufs s) (r_pool s') (rbufs s') /\
  r_state s' = r_state s /\ t_state (r_tp s') = t_state (r_tp s) /\ same_limits (r_rcv s) (r_rcv s') /\
  tcpreassfull (r_stat s') = tcpreassfull (r_stat s) /\ r_wnd s' = r_wnd s.

Lemma moved_trans R n1 n2 n3 a b c : 0 <= n1 -> moved R n1 n2 a b -> moved R n2 n3 b c -> moved R n1 n3 a c.
Proof using.
  intros Hn (A1 & A2 & A3 & A4 & A5 & A6 & A7 & A8) (B1 & B2 & B3 & B4 & B5 & B6 & B7 & B8).
  split; [lia|]. split.
  { rewrite B2, A2, <- app_assoc. f_equal. replace n2 with (n1 + (n2 - n1)) at 2 by lia. rewrite <- zslice_app by lia. f_equal. lia. }
  split; [by eapply evolve_trans|]. split; [congruence|]. split; [congruence|]. split; [|split; congruence].
  unfold same_limits in *. destruct A6 as (?&?&?&?&?), B6 as (?&?&?&?&?). split_and!; congruence.
Qed.

(** How a sequence of segments is left: nothing is at [n]. *)
Definition gap (n : Z) (os : list Z) : Prop := Forall (fun o => n < o) os.

Lemma qcov_ge lo os q x : Forall2 (fun _ t => 0 <= ti_len t) os q -> qsorted lo os q -> qcov os q x -> lo <= x.
Proof using.
  intros Hl Hs (i & o & t & Ho & _ & Hx). pose proof (qsorted_ge _ _ _ Hl Hs) as Hg.
  apply (proj1 (Forall_lookup _ _) Hg) in Ho. cbn in Ho. lia.
Qed.

Lemma deliver_ok R n os s o ti q :
  seg_next s = ti :: q -> rinv R n (o :: os) s -> o = n ->
  let s1 := s <| r_tp ::= r_tp s <| rcv_nxt ::= u32 (rcv_nxt (r_tp s) + ti_len ti) |> |> <| seg_next ::= q |> in
  exists sb p, sbappend (r_rcv s1) (ti_m ti) (r_pool s1) = Some (sb, p) /\
    let s2 := s1 <| r_rcv ::= sb |> <| r_pool ::= p |> in
    rinv R (n + ti_len ti) os s2 /\ moved R n (n + ti_len ti) s s2.
Proof using.
  intros Hq [Hn Hnxt Hsegs Hsort Hup Hsb Ho] -> s1. unfold rbufs in Ho. rewrite Hq in *.
  apply Forall2_cons in Hsegs as [Hti Hsegs]. apply Forall2_cons in Hup as [Hu1 Hup].
  destruct Hsort as [_ Hsort]. pose proof (sg_len _ _ _ Hti) as Hl. pose proof (sg_end _ _ _ Hti) as He.
  change (qchains (ti :: q)) with (ti_m ti ++ qchains q) in Ho.
  destruct (sbappend_ok (qchains q ++ R) (r_rcv s) (ti_m ti) (r_pool s) Hsb) as (sb & p & E & Hev & Hd & Hok & Hlim);
    [by rewrite <- !app_assoc in Ho|apply (sg_chain _ _ _ Hti)|].
  exists sb, p. split; [exact E|]. intros s2. pose proof (evolve_frame _ _ _ _ _ _ Hev) as Hev2.
  assert (Hev3 : evolve R (r_pool s) (rbufs s) p (concat (sb_mb sb) ++ qchains q)).
  { unfold rbufs. rewrite Hq. change (qchains (ti :: q)) with (ti_m ti ++ qchains q). by rewrite app_assoc. }
  split.
  - split; try done.
    + lia.
    + change (rcv_nxt (r_tp s2)) with (u32 (rcv_nxt (r_tp s) + ti_len ti)). rewrite Hnxt. apply seq_add.
    + eapply segs_frame; [|exact Hsegs]. intros m Hm. apply (ev_bytes _ _ _ _ _ Hev), elem_of_app. by left.
    + eapply Forall2_impl; [exact Hup|]. intros x t Hx. cbn in *. lia.
    + apply (ev_owns _ _ _ _ _ Hev3).
  - split; [lia|]. split.
    + unfold stream. change (sb_data (r_pool s2) (r_rcv s2)) with (sb_data p sb).
      rewrite Hd, concat_rappend. f_equal. rewrite (sg_bytes _ _ _ Hti). f_equal. lia.
    + split_and!; done.
Qed.

Lemma has_flag_land fl f : has_flag (Z.land fl f) f = has_flag fl f.
Proof using. unfold has_flag. by rewrite <- Z.land_assoc, Z.land_diag. Qed.

Lemma present_loop_ok R q : forall n os s fl,
  seg_next s = q -> rinv R n os s -> Z.land (r_state s) SS_CANTRCVMORE = 0 ->
  (has_flag fl TH_FIN = true -> n = zlen D) ->
  exists fl' s' n' os', present_loop q fl s = Some (fl', s') /\ rinv R n' os' s' /\ moved R n n' s s' /\
    gap n' os' /\ (has_flag fl' TH_FIN = true -> n' = zlen D) /\
    (forall x, n' <= x -> qcov os q x -> qcov os' (seg_next s') x) /\
    fin_kept os q (has_flag fl TH_FIN) os' (seg_next s') (has_flag fl' TH_FIN).
Proof using.
  induction q as [|ti q IH]; intros n os s fl Hq Hi Hst Hfl; cbn [present_loop].
  - pose proof (ri_segs _ _ _ _ Hi) as Hs. rewrite Hq in Hs. apply Forall2_nil_inv_r in Hs as ->.
    exists fl, s, n, []. split; [done|]. split; [done|]. split.
    { split; [lia|]. rewrite Z.sub_diag. unfold zslice. cbn. rewrite app_nil_r. split; [done|].
      split; [apply evolve_refl, (ri_owns _ _ _ _ Hi)|]. by split_and!. }
    split; [constructor|]. split; [done|]. rewrite Hq. by split.
  - pose proof Hi as [Hn Hnxt Hsegs Hsort Hup Hsb Ho]. rewrite Hq in Hsegs, Hsort, Hup.
    apply Forall2_cons_inv_r in Hsegs as (o & os' & Hti & Hsegs & ->).
    cbn [qsorted] in Hsort. destruct Hsort as [Hno Hsort]. apply Forall2_cons in Hup as [Hu1 Hup].
    pose proof (sg_len _ _ _ Hti) as Hl. unfold window in Hu1.
    rewrite (sg_seq _ _ _ Hti), Hnxt, seq_eqb by lia. destruct (o =? n) eqn:Hon.
    + destruct (deliver_ok R n os' s o ti q Hq Hi ltac:(lia)) as (sb & p & E & Hi2 & Hmv).
      cbv zeta. change (r_state (s <| r_tp ::= _ |> <| seg_next ::= q |>)) with (r_state s). rewrite Hst.
      change (negb (0 =? 0)) with false. cbv iota. rewrite <- Hnxt. rewrite E. cbn [mbind option_bind].
      set (s2 := _ <| r_rcv ::= sb |> <| r_pool ::= p |>) in *.
      destruct (IH (n + ti_len ti) os' s2 (Z.land (ti_flags ti) TH_FIN)) as (fl' & s' & n' & os2 & E2 & I2 & M2 & G2 & F2 & C2 & K2);
        [done|done|done| |].
      { intros Hf. assert (has_flag (ti_flags ti) TH_FIN = true).
        { unfold has_flag in *. by rewrite <- Z.land_assoc in Hf. }
        pose proof (sg_fin _ _ _ Hti H). lia. }
      exists fl', s', n', os2. split; [exact E2|]. split; [done|].
      split; [eapply moved_trans; [|exact Hmv|exact M2]; lia|]. split; [done|]. split; [done|].
      split; [intros x Hx; rewrite qcov_cons; intros [?|?]; [|by auto]; destruct M2 as (? & _); lia|].
      intros [Hm Hcl]%Forall2_cons. destruct (K2 Hcl) as [Hcl' Hk]. split; [done|]. intros Hf. apply Hk.
      rewrite has_fin_cons in Hf.
      rewrite has_flag_land. destruct Hf as [[?|?]|Hf]; [by right|by left|right]. apply Hm. specialize (Hfl Hf). lia.
    + exists fl, s, n, (o :: os'). split; [done|]. split; [done|]. split.
      { split; [lia|]. rewrite Z.sub_diag. unfold zslice. cbn. rewrite app_nil_r. split; [done|].
        split; [apply evolve_refl, Ho|]. by split_and!. }
      split; [|split; [done|rewrite Hq; by split]]. apply Forall_cons_2; [lia|].
      eapply Forall_impl; [eapply qsorted_ge; [by eapply segs_len|exact Hsort]|]. cbn. lia.
Qed.

(** With a control block that differs only in what [rinv] does not look at. *)
Lemma rinv_tp R n os s tp :
  rinv R n os s -> rcv_nxt tp = rcv_nxt (r_tp s) -> rinv R n os (s <| r_tp ::= tp |>).
Proof using. intros [] E. split; try done. by rewrite <- ri_nxt0. Qed.
Lemma moved_tp R n n' s s' tp :
  moved R n n' s s' -> t_state tp = t_state (r_tp s') -> moved R n n' s (s' <| r_tp ::= tp |>).
Proof using. intros (H1&H2&H3&H4&H5&H6&H7&H8) E. split_and!; try done. cbn. by rewrite E. Qed.

Lemma moved_refl R n s : owns (r_pool s) (rbufs s ++ R) -> moved R n n s s.
Proof using.
  intros Ho. split; [lia|]. rewrite Z.sub_diag. unfold zslice. cbn. rewrite app_nil_r. split; [done|].
  split; [by apply evolve_refl|]. by split_and!.
Qed.

Lemma present_ok R n os s :
  rinv R n os s -> can_receive s -> 
  exists fl s' n' os', present s = Some (fl, s') /\ rinv R n' os' s' /\ moved R n n' s s' /\
    gap n' os' /\ (has_flag fl TH_FIN = true -> n' = zlen D) /\
    (forall x, n' <= x -> qcov os (seg_next s) x -> qcov os' (seg_next s') x) /\
    fin_kept os (seg_next s) false os' (seg_next s') (has_flag fl TH_FIN).
Proof using.
  intros Hi [Hst Hes]. unfold present, TCPS_HAVERCVDSYN, TCPS_SYN_RECEIVED, TCPS_ESTABLISHED in *.
  replace (3 <=? t_state (r_tp s)) with true by lia. cbn [negb].
  assert (Hsame : forall os', gap n os' -> rinv R n os' s -> os' = os ->
    exists fl s' n' os', Some (0, s) = Some (fl, s') /\ rinv R n' os' s' /\ moved R n n' s s' /\ gap n' os' /\
    (has_flag fl TH_FIN = true -> n' = zlen D) /\ (forall x, n' <= x -> qcov os (seg_next s) x -> qcov os' (seg_next s') x) /\
    fin_kept os (seg_next s) false os' (seg_next s') (has_flag fl TH_FIN)).
  { intros os' Hg _ ->. exists 0, s, n, os. split; [done|]. split; [done|]. split; [apply moved_refl, (ri_owns _ _ _ _ Hi)|].
    by split_and!. }
  destruct (seg_next s) as [|ti q] eqn:Hq.
  { apply (Hsame os); try done. pose proof (ri_segs _ _ _ _ Hi) as Hs. rewrite Hq in Hs.
    apply Forall2_nil_inv_r in Hs as ->. constructor. }
  rewrite <- Hq in *. destruct (ti_seq ti =? rcv_nxt (r_tp s)) eqn:Hseq; cbn [negb].
  - replace (t_state (r_tp s) =? 3) with false by lia. cbn [andb].
    destruct (present_loop_ok R (seg_next s) n os s 0 eq_refl Hi Hst) as (fl & s' & n' & os' & E & Hi' & Hm & Hg & Hf & Hc & Hk); [done|].
    rewrite E. cbn [mbind option_bind]. eexists fl, _, n', os'. split; [reflexivity|].
    set (s2 := if negb _ then _ else s').
    assert (Hi2 : rinv R n' os' s2) by (unfold s2; destruct (negb _); [by apply rinv_tp|done]).
    assert (Hm2 : moved R n n' s s2) by (unfold s2; destruct (negb _); [by apply moved_tp|done]).
    split; [by destruct Hi2|]. split; [exact Hm2|]. split; [done|]. split; [done|].
    split; [intros x Hx Hc'; specialize (Hc x Hx Hc')|]; unfold s2; by destruct (negb _).
  - apply (Hsame os); try done. pose proof Hi as [Hn Hnxt Hsegs Hsort Hup Hsb Ho]. rewrite Hq in Hsegs, Hsort, Hup.
    apply Forall2_cons_inv_r in Hsegs as (o & os' & Hti & Hsegs & ->).
    cbn [qsorted] in Hsort. destruct Hsort as [Hno Hsort]. apply Forall2_cons in Hup as [Hu1 Hup].
    pose proof (sg_len _ _ _ Hti) as Hl. unfold window in Hu1.
    rewrite (sg_seq _ _ _ Hti), Hnxt, seq_eqb in Hseq by lia.
    apply Forall_cons_2; [lia|]. eapply Forall_impl; [eapply qsorted_ge; [by eapply segs_len|exact Hsort]|]. cbn. lia.
Qed.

(** ** A segment *)

(** What became of the segment [ti] at [o] and of its mbufs. *)
Record took (R : chain) (n n' : Z) (s : rcvst) (c : chain) (s' : rcvst) : Prop := {
  tk_n : n <= n';
  tk_stream : stream s' = stream s ++ zslice D n (n' - n);
  tk_evolve : evolve R (r_pool s) (rbufs s ++ c) (r_pool s') (rbufs s');
  tk_state : r_state s' = r_state s /\ t_state (r_tp s') = t_state (r_tp s) /\ r_wnd s' = r_wnd s /\
             same_limits (r_rcv s) (r_rcv s') }.

(** Accepted: every byte of it is delivered or queued.  Refused, by the bound on the
    queue: nothing changed. *)
Definition accepted (os : list Z) (s : rcvst) (o len n' : Z) (os' : list Z) (s' : rcvst) : Prop :=
  tcpreassfull (r_stat s') = tcpreassfull (r_stat s) /\
  forall x, n' <= x -> qcov os (seg_next s) x \/ o <= x < o + len -> qcov os' (seg_next s') x.
Definition refused (n : Z) (os : list Z) (s : rcvst) (o n' : Z) (os' : list Z) (s' : rcvst) : Prop :=
  n < o /\ n' = n /\ os' = os /\ seg_next s' = seg_next s /\
  tcpreassfull (r_stat s') = tcpreassfull (r_stat s) + 1.

Lemma gap_not_cov n os q : gap n os -> ~ qcov os q n.
Proof using. intros Hg (i & o & t & Ho & _ & Hx). apply (proj1 (Forall_lookup _ _) Hg) in Ho. cbn in Ho. lia. Qed.

Lemma stream_frame s p' :
  (forall m, m ∈ rbufs s -> mbuf_bytes p' m = mbuf_bytes (r_pool s) m) ->
  concat (sb_data p' (r_rcv s)) = stream s.
Proof using.
  intros Hb. unfold stream, sb_data. f_equal. apply data_same. intros m Hm. apply Hb. unfold rbufs.
  apply elem_of_app. by left.
Qed.

(** The segment is freed. *)
Lemma drop_seg_ok R n os s c st :
  rinv (c ++ R) n os s -> let s' := drop_seg c (s <| r_stat ::= st |>) in
  rinv R n os s' /\ took R n n s c s'.
Proof using.
  intros [Hn Hnxt Hsegs Hsort Hup Hsb Ho] s'.
  assert (Ho1 : owns (r_pool s) (c ++ rbufs s ++ R)) by (revert Ho; apply owns_Permutation; solve_Permutation).
  pose proof (m_freem_ok _ _ _ Ho1) as Hf. pose proof (evolve_frame R (rbufs s) _ _ _ _ Hf) as Hf2.
  assert (Hb : forall m, m ∈ rbufs s -> mbuf_bytes (r_pool s') m = mbuf_bytes (r_pool s) m).
  { intros m Hm. apply (ev_bytes _ _ _ _ _ Hf), elem_of_app. by left. }
  split.
  - split; try done; [|apply (ev_owns _ _ _ _ _ Hf2)].
    eapply segs_frame; [|exact Hsegs]. intros m Hm. apply Hb. unfold rbufs. apply elem_of_app. by right.
  - split; [lia| | |by split_and!].
    + rewrite Z.sub_diag. unfold zslice. cbn [take]. rewrite app_nil_r. by apply (stream_frame s).
    + eapply evolve_perm; [| |exact Hf2]; [solve_Permutation|done].
Qed.

Lemma addblock_fields tp a e :
  rcv_nxt (tcp_sack_addblock tp a e) = rcv_nxt tp /\ t_state (tcp_sack_addblock tp a e) = t_state tp.
Proof using.
  unfold tcp_sack_addblock. destruct (SEQ_LEQ _ _); [done|]. destruct (SEQ_GEQ _ _); [done|].
  by destruct (fold_left _ _ _).
Qed.

Lemma within_app u o1 q1 o2 q2 : within u o1 q1 -> within u o2 q2 -> within u (o1 ++ o2) (q1 ++ q2).
Proof using. apply Forall2_app. Qed.

Lemma segs_window n o os p q :
  Forall2 (seg p) os q -> qsorted n os q -> within (n + window) os q -> n <= o <= n + window ->
  Forall (fun o' => -1073741824 <= o' - o < 1073741824) os.
Proof using.
  intros Hs Hsort Hup Ho. pose proof (qsorted_ge _ _ _ (segs_len _ _ _ Hs) Hsort) as Hg. clear Hsort.
  unfold window in *. induction Hs as [|o1 t os q H1 Hs IH]; [constructor|].
  apply Forall2_cons in Hup as [Hu Hup]. apply Forall_cons in Hg as [Hg1 Hg].
  pose proof (sg_len _ _ _ H1). apply Forall_cons_2; [lia|auto].
Qed.

Lemma qsorted_qend p lo os q : Forall2 (seg p) os q -> qsorted lo os q -> lo <= qend lo os q.
Proof using.
  intros Hs. revert lo. induction Hs as [|o t os q H1 H IH]; intros lo Hso; cbn [qend]; [lia|].
  destruct Hso as [Hso1 Hso2]. pose proof (sg_len _ _ _ H1). specialize (IH _ Hso2). lia.
Qed.
Lemma qcov_qend p lo os q x : Forall2 (seg p) os q -> qsorted lo os q -> qcov os q x -> x < qend lo os q.
Proof using.
  intros Hs. revert lo. induction Hs as [|o t os q H1 H IH]; intros lo Hso; [by intros (i & ? & ? & ? & _)|].
  rewrite qcov_cons. cbn [qend]. destruct Hso as [_ Hso2].
  intros [Hx|Hx]; [|by apply IH]. pose proof (qsorted_qend _ _ _ _ H Hso2). lia.
Qed.

(** The segment put into the queue. *)
Lemma insert_ok R n os s o ti ob oa b a ti' o' :
  rinv (ti_m ti ++ R) n os s -> gap n os -> seg (r_pool s) o ti -> n <= o -> o + ti_len ti <= n + window ->
  os = ob ++ oa -> seg_next s = b ++ a -> length ob = length b -> (forall o1 oa1, oa = o1 :: oa1 -> o < o1) ->
  seg (r_pool s) o' ti' -> o <= o' -> o' + ti_len ti' = o + ti_len ti -> qend n ob b <= o' ->
  (forall x, o <= x < o' -> qcov ob b x) -> Forall2 same_id (ti_m ti) (ti_m ti') -> Forall (wf_mbuf (r_pool s)) (ti_m ti') ->
  (0 < ti_len ti' \/ o' = o) -> ti_flags ti' = ti_flags ti ->
  exists a' p' oa', cut_after ti' a (r_pool s) = (a', p') /\
    let s' := s <| r_pool ::= p' |> <| seg_next ::= b ++ ti' :: a' |> in
    rinv R n (ob ++ o' :: oa') s' /\ took R n n s (ti_m ti) s' /\
    (forall x, qcov os (seg_next s) x \/ o <= x < o + ti_len ti -> qcov (ob ++ o' :: oa') (b ++ ti' :: a') x) /\
    fin_kept (o :: os) (ti :: seg_next s) false (ob ++ o' :: oa') (b ++ ti' :: a') false.
Proof using.
  intros [Hn Hnxt Hsegs Hsort Hup Hsb Ho] Hgap Ht Hno Hwin -> Hq Hlb Hoa Ht' Hoo Hend Hqe Hcov Hid Hwf Hpos Hfl.
  rewrite Hq in Hsegs, Hsort, Hup. pose proof (segs_window n o _ _ _ Hsegs Hsort Hup) as Hw.
  pose proof (sg_len _ _ _ Ht) as Htl. pose proof (sg_len _ _ _ Ht') as Htl'.
  specialize (Hw ltac:(lia)). apply Forall_app in Hw as [_ Hw].
  apply qsorted_app in Hsort as [Hsb1 Hsa]; [|done]. unfold gap in Hgap. apply Forall_app in Hgap as [Hgb Hga].
  assert (Hs2 : Forall2 (seg (r_pool s)) ob b /\ Forall2 (seg (r_pool s)) oa a)
    by (apply Forall2_app_inv in Hsegs; done).
  destruct Hs2 as [Hsegb Hsega]. apply Forall2_app_inv in Hup as [Hupb Hupa]; [|done].
  set (K := concat (sb_mb (r_rcv s)) ++ qchains b ++ ti_m ti' ++ R).
  assert (He1 : evolve R (r_pool s) (rbufs s ++ ti_m ti) (r_pool s)
    (concat (sb_mb (r_rcv s)) ++ (qchains b ++ qchains a) ++ ti_m ti')).
  { unfold rbufs in *. rewrite Hq, qchains_app in *. rewrite <- app_assoc. apply evolve_in.
    - apply Forall2_app; [apply same_ids_refl|]. apply Forall2_app; [apply same_ids_refl|done].
    - pose proof (owns_wf _ _ Ho) as Hwo. rewrite !Forall_app in Hwo. rewrite !Forall_app. tauto.
    - by rewrite <- !app_assoc in *. }
  destruct (cut_after_ok K n (n + window) o' ti' oa a (r_pool s)) as (a' & p' & oa' & E & C1 & C2 & C3 & C4 & C5 & C6 & C7).
  - done.
  - destruct oa as [|o1 oa1]; destruct a as [|t1 a1]; try done. cbn [qsorted] in *. split; [|tauto].
    pose proof (Hoa o1 oa1 eq_refl). destruct Hpos as [Hpos| ->]; [|lia].
    destruct Hsa as [Hsa _]. destruct (decide (o' <= o1)); [done|]. exfalso.
    destruct (Hcov o1 ltac:(lia)) as (i & oc & tc & Hi & Hti & Hx).
    pose proof (qcov_qend _ n ob b o1 Hsegb Hsb1 (ex_intro _ i (ex_intro _ oc (ex_intro _ tc (conj Hi (conj Hti Hx)))))). lia.
  - done.
  - done.
  - apply (sg_seq _ _ _ Ht').
  - done.
  - eapply Forall_impl; [exact Hw|]. cbn. lia.
  - pose proof (ev_owns _ _ _ _ _ He1) as Ho1. revert Ho1. apply owns_Permutation. unfold K. solve_Permutation.
  - exists a', p', oa'. split; [exact E|]. intros s'.
    assert (Hb : forall m, m ∈ K -> mbuf_bytes p' m = mbuf_bytes (r_pool s) m) by apply (ev_bytes _ _ _ _ _ C5).
    assert (Hevs : evolve R (r_pool s) (rbufs s ++ ti_m ti) p' (rbufs s')).
    { eapply evolve_trans; [exact He1|].
      pose proof (evolve_frame R (concat (sb_mb (r_rcv s)) ++ qchains b ++ ti_m ti') _ _ _ _ ltac:(unfold K in C5; rewrite !app_assoc in C5; rewrite <- !app_assoc in C5; rewrite <- !app_assoc; exact C5)) as H1.
      eapply evolve_perm; [| |exact H1]; [solve_Permutation|].
      unfold rbufs. change (seg_next s') with (b ++ ti' :: a'). change (r_rcv s') with (r_rcv s).
      rewrite qchains_app. change (qchains (ti' :: a')) with (ti_m ti' ++ qchains a'). solve_Permutation. }
    assert (Hfb : Forall2 (seg p') ob b).
    { eapply segs_frame; [|exact Hsegb]. intros m Hm. apply Hb. unfold K. rewrite !elem_of_app. auto. }
    assert (Hft : seg p' o' ti').
    { eapply seg_bytes; [|exact Ht']. intros m Hm. apply Hb. unfold K. rewrite !elem_of_app. auto. }
    split; [|split; [|split]].
    + split; try done.
      * change (seg_next s') with (b ++ ti' :: a'). apply Forall2_app; [done|]. by constructor.
      * change (seg_next s') with (b ++ ti' :: a'). apply qsorted_app; [done|]. split; [done|]. cbn [qsorted]. by split.
      * change (seg_next s') with (b ++ ti' :: a'). apply within_app; [done|]. constructor; [lia|done].
      * apply (ev_owns _ _ _ _ _ Hevs).
    + split; [lia| |exact Hevs|by split_and!]. rewrite Z.sub_diag. unfold zslice. cbn [take]. rewrite app_nil_r.
      unfold stream, sb_data. change (r_rcv s') with (r_rcv s). f_equal. apply data_same.
      intros m Hm. apply Hb. unfold K. rewrite !elem_of_app. auto.
    + intros x Hx. rewrite Hq in Hx. rewrite qcov_app in Hx by done. rewrite qcov_app, qcov_cons by done.
      destruct Hx as [[?|Hx]|Hx]; [by left| |].
      * destruct (C6 x Hx); auto.
      * destruct (decide (x < o')); [left; apply Hcov; lia|right; left; lia].
    + rewrite Hq. intros [Hm [Hcb Hca]%Forall2_app_inv]%Forall2_cons; [|done].
      assert (Hm' : marked o' ti') by (intros He; rewrite Hfl; apply Hm; lia). destruct (C7 Hm' Hca) as [Hca' Hf].
      split; [apply Forall2_app; [done|by constructor]|]. rewrite has_fin_cons, !has_fin_app. intros [[Hx|[?|?]]|?]; [|by auto|by auto|done].
      left. right. apply has_fin_cons. left. by rewrite Hfl.
Qed.

Lemma took_moved R n n' n2 s c s' s2 :
  0 <= n -> took R n n' s c s' -> moved R n' n2 s' s2 -> took R n n2 s c s2.
Proof using.
  intros Hn [K1 K2 K3 (K4 & K5 & K6 & K7)] (H1 & H2 & H3 & H4 & H5 & H6 & H7 & H8). split.
  - lia.
  - rewrite H2, K2, <- app_assoc. f_equal. replace n' with (n + (n' - n)) at 2 by lia. rewrite <- zslice_app by lia. f_equal. lia.
  - by eapply evolve_trans.
  - split; [congruence|]. split; [congruence|]. split; [congruence|].
    unfold same_limits in *. destruct K7 as (?&?&?&?&?), H6 as (?&?&?&?&?). split_and!; congruence.
Qed.

Lemma qend_within u lo os q : within u os q -> lo <= u -> qend lo os q <= u.
Proof using.
  intros Hu. revert lo. induction Hu as [|o t os q H1 H IH]; intros lo Hlo; [done|]. cbn [qend]. by apply IH.
Qed.

Lemma rinv_drop_R R c n os s : rinv (c ++ R) n os s -> owns (r_pool s) ((rbufs s ++ c) ++ R).
Proof using. intros []. by rewrite <- app_assoc. Qed.

Lemma tcp_reass_ok R n os s o ti :
  rinv (ti_m ti ++ R) n os s -> can_receive s -> gap n os ->
  seg (r_pool s) o ti -> n <= o -> o + ti_len ti <= n + window ->
  exists fl s' n' os', tcp_reass (Some ti) s = Some (fl, s') /\ rinv R n' os' s' /\ took R n n' s (ti_m ti) s' /\
    gap n' os' /\ (has_flag fl TH_FIN = true -> n' = zlen D) /\
    (accepted os s o (ti_len ti) n' os' s' /\
       fin_kept (o :: os) (ti :: seg_next s) false os' (seg_next s') (has_flag fl TH_FIN) \/
     refused n os s o n' os' s' /\ fl = 0).
Proof using.
  intros Hi Hcan Hgap Ht Hno Hwin. pose proof Hi as [Hn Hnxt Hsegs Hsort Hup Hsb Ho].
  pose proof (sg_len _ _ _ Ht) as Htl. unfold tcp_reass.
  rewrite (sg_seq _ _ _ Ht), Hnxt, seq_eqb by (unfold window in *; lia).
  destruct (negb (o =? n) && reass_full ti s) eqn:Hfull.
  { set (st := _ <| tcpreassfull ::= _ |>). destruct (drop_seg_ok R n os s (ti_m ti) st Hi) as [H1 H2].
    eexists 0, _, n, os. split; [reflexivity|]. split; [done|]. split; [done|]. split; [done|]. split; [done|].
    right. split; [|done]. split; [lia|]. by split_and!. }
  destruct (find_gt ti (seg_next s)) as [b a] eqn:Hfg.
  pose proof (segs_window n o _ _ _ Hsegs Hsort Hup ltac:(lia)) as Hw.
  destruct (find_gt_ok (r_pool s) os (seg_next s) ti o b a Hsegs (sg_seq _ _ _ Ht) Hw Hfg) as (ob & oa & Hos & Hq & Hlb & Hob & Hoa).
  assert (Hsb2 : Forall2 (seg (r_pool s)) ob b /\ qsorted n ob b /\ Forall (fun o' => -1073741824 <= o' - o) ob /\
    qend n ob b <= n + window).
  { rewrite Hos, Hq in *. apply Forall2_app_inv in Hsegs as [Hs1 _]; [|done]. apply qsorted_app in Hsort as [Hs2 _]; [|done].
    apply Forall_app in Hw as [Hw1 _]. apply Forall2_app_inv in Hup as [Hu1 _]; [|done]. split; [done|]. split; [done|].
    split; [eapply Forall_impl; [exact Hw1|]; cbn; lia|].
    apply qend_within; [done|unfold window; lia]. }
  destruct Hsb2 as (Hsegb & Hsortb & Hwb & Hqe).
  assert (Hwf : Forall (wf_mbuf (r_pool s)) (ti_m ti)).
  { pose proof (owns_wf _ _ Ho) as Hwo. rewrite !Forall_app in Hwo. tauto. }
  assert (Hqe2 : qend n ob b - o < 1073741824) by (unfold window in *; lia).
  pose proof (cut_before_ok (r_pool s) n o ti ob b Hsegb Hsortb Ht Hno Hob Hqe2 Hwb Hwf) as Hcb.
  destruct (cut_before (last b) ti) as [ti'|] eqn:Ecb.
  2:{ set (st := count_dup _ _). destruct (drop_seg_ok R n os s (ti_m ti) st Hi) as [H1 H2].
    eexists 0, _, n, os. split; [reflexivity|]. split; [done|]. split; [done|]. split; [done|]. split; [done|].
    destruct Hcb as [Hcb Hfb]. left. split.
    - split; [done|]. intros x Hx [?|Hc]; [done|]. change (qcov os (seg_next s) x). rewrite Hos, Hq.
      apply qcov_app; [done|]. left. by apply Hcb.
    - intros [_ Hcl]%Forall2_cons. split; [done|]. change (seg_next (drop_seg _ _)) with (seg_next s).
      rewrite has_fin_cons. intros [[Hx|?]|?]; [|by left|done]. left. rewrite Hos, Hq in *.
      apply has_fin_app. left. apply Hfb; [|done]. by apply Forall2_app_inv in Hcl as [? _]. }
  destruct Hcb as (o' & Ht' & Hoo & Hend & Hqo & Hcov & Hsame & Hfl & Hid & Hwf').
  set (s1 := s <| r_stat ::= _ |>).
  assert (Hi1 : rinv (ti_m ti ++ R) n os s1) by (destruct Hi; by split).
  destruct (insert_ok R n os s1 o ti ob oa b a ti' o') as (a' & p' & oa' & E & Hi2 & Htk & Hc2 & Hk2); try done.
  { destruct (decide (qend n ob b <= o)) as [Hle|Hgt]; [right; by apply Hsame|]. left.
    unfold cut_before in Ecb. destruct (last b) as [ql|] eqn:Hlast.
    2:{ apply last_None in Hlast as ->. destruct ob; [|done]. cbn in Hgt. lia. }
    destruct (0 <? _) eqn:E0; [|injection Ecb as <-; exfalso; lia].
    destruct (ti_len ti <=? _) eqn:E1; [done|]. injection Ecb as <-. set (i := s32 _) in *.
    change (0 < s16 (ti_len ti - i)). rewrite s16_small; lia. }
  cbv zeta in Hi2, Htk. rewrite E.
  set (s2 := s1 <| r_pool ::= p' |> <| seg_next ::= b ++ ti' :: a' |>) in *.
  set (s3 := if negb _ then _ else s2).
  assert (Hs3 : exists tp, rcv_nxt tp = rcv_nxt (r_tp s2) /\ t_state tp = t_state (r_tp s2) /\ s3 = s2 <| r_tp ::= tp |>).
  { unfold s3. destruct (negb (Z.land (t_flags (r_tp s2)) TF_SACK_PERMIT =? 0)).
    - eexists. split; [|split; [|reflexivity]]; apply addblock_fields.
    - exists (r_tp s2). split; [done|]. split; [done|]. by destruct s2. }
  destruct Hs3 as (tp & Htp1 & Htp2 & ->).
  destruct (present_ok R n (ob ++ o' :: oa') (s2 <| r_tp ::= tp |>)) as (fl & s' & n' & os' & E2 & Hi' & Hm & Hg & Hf & Hc & Hk).
  { by apply rinv_tp. }
  { destruct Hcan as [C1 C2]. split; [exact C1|]. cbn. rewrite Htp2. exact C2. }
  exists fl, s', n', os'. split; [exact E2|]. split; [done|]. split.
  { assert (Htk' : took R n n s (ti_m ti) s2) by (destruct Htk; by split).
    eapply took_moved; [|exact Htk'|]; [lia|]. destruct Hm as (M1 & M2 & M3 & M4 & M5 & M6 & M7 & M8).
    split; [done|]. split; [exact M2|]. split; [exact M3|]. split; [exact M4|]. split; [by rewrite M5|]. split; [exact M6|]. by split. }
  split; [done|]. split; [done|]. left. split; [|by eapply fin_kept_trans]. split.
  { destruct Hm as (_ & _ & _ & _ & _ & _ & M7 & _). by rewrite M7. }
  intros x Hx Hxx. apply Hc; [done|]. by apply Hc2.
Qed.

(** One segment at or after [n]: nothing but the next bytes of the stream reaches the
    reader; nothing that continues it is left in the queue. *)
Lemma TCP_REASS_ok R n os s o ti :
  rinv (ti_m ti ++ R) n os s -> can_receive s -> gap n os ->
  seg (r_pool s) o ti -> n <= o -> o + ti_len ti <= n + window ->
  exists fl s' n' os', TCP_REASS ti s = Some (fl, s') /\ rinv R n' os' s' /\ took R n n' s (ti_m ti) s' /\
    gap n' os' /\ (has_flag fl TH_FIN = true -> n' = zlen D) /\
    (accepted os s o (ti_len ti) n' os' s' /\
       fin_kept (o :: os) (ti :: seg_next s) false os' (seg_next s') (has_flag fl TH_FIN) \/
     refused n os s o n' os' s' /\ fl = 0).
Proof using.
  intros Hi Hcan Hgap Ht Hno Hwin. pose proof Hi as [Hn Hnxt Hsegs Hsort Hup Hsb Ho].
  pose proof (sg_len _ _ _ Ht) as Htl. pose proof (sg_end _ _ _ Ht) as Hte. unfold TCP_REASS.
  destruct ((ti_seq ti =? rcv_nxt (r_tp s)) && _ && _) eqn:Hfast.
  2:{ destruct (tcp_reass_ok R n os s o ti Hi Hcan Hgap Ht Hno Hwin) as (fl & s' & n' & os' & E & Hi' & Htk & Hg & Hf & Hc).
    rewrite E. cbn [mbind option_bind]. eexists fl, _, n', os'. split; [reflexivity|].
    split; [by apply rinv_tp|]. split; [|split; [done|split; [done|exact Hc]]].
    destruct Htk as [K1 K2 K3 K4]. split; done. }
  apply andb_true_iff in Hfast as [[Hseq Hlen]%andb_true_iff _].
  rewrite (sg_seq _ _ _ Ht), Hnxt, seq_eqb in Hseq by (unfold window in *; lia). assert (o = n) as -> by lia.
  destruct (seg_next s) as [|] eqn:Hq; [|done]. apply Forall2_nil_inv_r in Hsegs as ->.
  set (tp := TCP_SETDELACK (r_tp s)).
  assert (Htp : rcv_nxt tp = rcv_nxt (r_tp s) /\ t_state tp = t_state (r_tp s)) by (unfold tp, TCP_SETDELACK; by destruct (negb _)).
  destruct Htp as [Htp1 Htp2].
  set (s0 := s <| seg_next ::= [ti] |>).
  assert (Hi0 : rinv R n [n] s0).
  { split; try done.
    - by constructor.
    - constructor; [lia|constructor].
    - revert Ho. apply owns_Permutation. unfold rbufs. rewrite Hq. change (seg_next s0) with [ti].
      change (qchains [ti]) with (ti_m ti ++ []). change (qchains []) with (@nil mbuf). rewrite !app_nil_r. solve_Permutation. }
  destruct (deliver_ok R n [] s0 n ti [] eq_refl Hi0 eq_refl) as (sb & p & E & Hi1 & Hmv).
  change (r_rcv (_ <| seg_next ::= [] |>)) with (r_rcv s) in E. change (r_pool (_ <| seg_next ::= [] |>)) with (r_pool s) in E.
  cbv zeta. change (r_rcv (s <| r_tp ::= _ |> <| r_stat ::= _ |>)) with (r_rcv s).
  change (r_pool (s <| r_tp ::= _ |> <| r_stat ::= _ |>)) with (r_pool s). rewrite E. cbn [mbind option_bind].
  cbv zeta in Hi1, Hmv. eexists _, _, (n + ti_len ti), []. split; [reflexivity|].
  split.
  { destruct Hi1 as [J1 J2 J3 J4 J5 J6 J7]. split; try done; try (by cbn; rewrite Hq).
    - cbn. rewrite Htp1. exact J2.
    - unfold rbufs in *. cbn in *. by rewrite Hq. }
  split.
  { destruct Hmv as (M1 & M2 & M3 & M4 & M5 & M6 & M7 & M8). split; [done|exact M2| |].
    - unfold rbufs in *. cbn in *. rewrite Hq. eapply evolve_perm; [| |exact M3]; [|done].
      change (qchains [ti]) with (ti_m ti ++ []). change (qchains []) with (@nil mbuf). rewrite !app_nil_r. done.
    - split; [done|]. split; [cbn; exact Htp2|]. split; [done|]. exact M6. }
  split; [constructor|]. split.
  { intros Hf. apply (sg_fin _ _ _ Ht). unfold has_flag in *. by rewrite <- Z.land_assoc in Hf. }
  left. split; [split; [done|]; intros x Hx [(i & ? & ? & ? & _)|Hx2]; [done|lia]|].
  intros _. cbn. rewrite Hq, has_flag_land, has_fin_cons. split; [constructor|]. intros [[?|?]|?]; by auto.
Qed.

(** ** Trimming *)

(** A connection whose peer may still send, with a reader. *)
Definition receiving (s : rcvst) : Prop :=
  Z.land (r_state s) SS_CANTRCVMORE = 0 /\ has_flag (r_state s) SS_NOFDREF = false /\
  (t_state (r_tp s) = TCPS_ESTABLISHED \/ t_state (r_tp s) = TCPS_FIN_WAIT_1 \/ t_state (r_tp s) = TCPS_FIN_WAIT_2) /\
  0 <= r_wnd s <= window.

Lemma receiving_can s : receiving s -> can_receive s.
Proof using.
  intros (H1 & _ & H2 & _). split; [done|]. unfold TCPS_ESTABLISHED, TCPS_FIN_WAIT_1, TCPS_FIN_WAIT_2 in *. lia.
Qed.
Lemma took_receiving R n n' s c s' : took R n n' s c s' -> receiving s -> receiving s'.
Proof using. intros [_ _ _ (H1 & H2 & H3 & _)] (K1 & K2 & K3 & K4). unfold receiving. by rewrite H1, H2, H3. Qed.

(** A state that differs in the counters, the flags and the D-SACK block only. *)
Definition same_rcv (s s1 : rcvst) : Prop :=
  r_wnd s1 = r_wnd s /\ seg_next s1 = seg_next s /\ r_rcv s1 = r_rcv s /\ r_state s1 = r_state s /\
  r_pool s1 = r_pool s /\ rcv_nxt (r_tp s1) = rcv_nxt (r_tp s) /\ t_state (r_tp s1) = t_state (r_tp s) /\
  tcpreassfull (r_stat s1) = tcpreassfull (r_stat s).

Lemma rinv_same R n os s s1 : same_rcv s s1 -> rinv R n os s -> rinv R n os s1.
Proof using.
  intros (E1 & E2 & E3 & E4 & E5 & E6 & E7 & E8) []. split; rewrite ?E6, ?E5, ?E3, ?E2; try done.
  unfold rbufs in *. by rewrite E2, E3.
Qed.
Lemma took_same R n n' s s1 c s' : same_rcv s s1 -> took R n n' s1 c s' -> took R n n' s c s'.
Proof using.
  intros (E1 & E2 & E3 & E4 & E5 & E6 & E7 & E8) [K1 K2 K3 (K4 & K5 & K6 & K7)]. unfold stream, rbufs in *.
  rewrite E2, E3, E5 in *. split; try done. by rewrite <- E1, <- E4, <- E7.
Qed.

(** What trimming the segment [ti] at [o] came to. *)
Definition trim_spec (R : chain) (n : Z) (os : list Z) (o : Z) (ti : tiseg) (s : rcvst) (r : trimmed_seg) : Prop :=
  match r with
  | Keep ti' fl s1 => same_rcv s s1 /\ exists o', seg (r_pool s) o' ti' /\ n <= o' /\ o' + ti_len ti' <= n + window /\
      Forall2 same_id (ti_m ti) (ti_m ti') /\ Forall (wf_mbuf (r_pool s)) (ti_m ti') /\
      (ti_len ti' = 0 -> has_flag fl TH_FIN = true -> has_flag (ti_flags ti') TH_FIN = true) /\
      (ti_flags ti' = ti_flags ti /\ (has_flag (ti_flags ti) TH_FIN = true -> has_flag fl TH_FIN = true) /\
       (marked o ti -> marked o' ti')) /\
      forall x, n <= x < n + r_wnd s -> o <= x < o + ti_len ti -> o' <= x < o' + ti_len ti'
  | Dropafterack s1 => exists s0 c', same_rcv s s0 /\ Forall2 same_id (ti_m ti) c' /\
      Forall (wf_mbuf (r_pool s)) c' /\ s1 = drop_seg c' s0 <| r_tp ::= add_flags TF_ACKNOW (r_tp s0) |> /\
      has_flag (ti_flags ti) TH_FIN = false /\
      forall x, n <= x < n + r_wnd s -> ~ (o <= x < o + ti_len ti)
  | _ => False
  end.

Lemma cut_back_ok p o t i :
  seg p o t -> Forall (wf_mbuf p) (ti_m t) -> 0 < i <= ti_len t -> has_flag (ti_flags t) TH_FIN = false ->
  let t' := t <| ti_m ::= m_adj (ti_m t) (- i) |> <| ti_len ::= s16 (ti_len t - i) |> in
  seg p o t' /\ ti_len t' = ti_len t - i /\ Forall2 same_id (ti_m t) (ti_m t') /\ Forall (wf_mbuf p) (ti_m t').
Proof using.
  intros [H1 H2 H3 H4 H5 H6 H7] Hw Hi Hfin t'. destruct (m_adj_ok p (ti_m t) (- i) Hw) as (Hb & Hid & Hw').
  assert (Hl : ti_len t' = ti_len t - i) by (cbn; apply s16_small; lia).
  split; [|split; [exact Hl|split; [exact Hid|exact Hw']]]. split; rewrite ?Hl; [lia|lia|lia|exact H4| |by eapply same_id_nil|].
  - change (ti_m t') with (m_adj (ti_m t) (- i)). rewrite Hb, H5. unfold adj_spec. destruct (0 <=? - i) eqn:?; [lia|].
    unfold zslice. rewrite take_take. f_equal. unfold zlen in *. rewrite length_take, length_drop. lia.
  - intros Hf. change (has_flag (ti_flags t) TH_FIN = true) in Hf. congruence.
Qed.

Lemma clear_FIN fl : has_flag (clear_flag fl (Z.lor TH_PUSH TH_FIN)) TH_FIN = false.
Proof using.
  unfold has_flag, clear_flag. rewrite <- Z.land_assoc.
  change (Z.land (Z.lnot (Z.lor TH_PUSH TH_FIN)) TH_FIN) with 0. by rewrite Z.land_0_r.
Qed.

(** At or after [n], with the flags [fl] to be honoured. *)
Lemma trim_back_ok R n os o ti fl s0 s :
  rinv R n os s0 -> same_rcv s0 s -> receiving s0 -> seg (r_pool s0) o ti -> Forall (wf_mbuf (r_pool s0)) (ti_m ti) ->
  n <= o -> o + ti_len ti <= n + window -> has_flag fl TH_SYN = false ->
  (has_flag (ti_flags ti) TH_FIN = true -> o + ti_len ti <= n + r_wnd s0) ->
  has_flag fl TH_FIN = has_flag (ti_flags ti) TH_FIN ->
  trim_spec R n os o ti s0 (trim_back ti fl s).
Proof using.
  intros Hi Hsame Hrc Ht Hw Hno Hwin Hsyn Hfw Hfl. pose proof Hsame as (E1 & E2 & E3 & E4 & E5 & E6 & E7 & E8).
  pose proof Hi as [Hn Hnxt _ _ _ _ _]. destruct Hrc as (_ & _ & _ & Hwnd). pose proof (sg_len _ _ _ Ht) as Hl.
  unfold trim_back. rewrite E6, E1, (sg_seq _ _ _ Ht), Hnxt. unfold window in *.
  replace (s32 _) with (o + ti_len ti - (n + r_wnd s0)) by (clear -Hno Hwin Hwnd Hl Hn; unfold window in *; word_solve).
  set (d := o + ti_len ti - (n + r_wnd s0)). destruct (d <=? 0) eqn:Hd.
  { split; [done|]. exists o. split; [done|]. split; [done|]. split; [done|]. split; [apply same_ids_refl|]. split; [done|].
    rewrite Hfl. split; [auto|]. split; [done|]. by intros x _. }
  assert (Hnofin : has_flag (ti_flags ti) TH_FIN = false).
  { destruct (has_flag (ti_flags ti) TH_FIN); [|done]. specialize (Hfw eq_refl). lia. }
  rewrite Hsyn. cbn [andb]. destruct (ti_len ti <=? d) eqn:Hc.
  - rewrite seq_eqb by lia. destruct ((r_wnd s0 =? 0) && (o =? n)) eqn:Hprobe.
    + assert (d = ti_len ti) as Hdl by lia. rewrite Hdl.
      split; [unfold same_rcv; cbn; by split_and!|]. destruct (decide (ti_len ti = 0)) as [H0|Hne]; [lia|].
      destruct (cut_back_ok _ o ti (ti_len ti) Ht Hw ltac:(lia) Hnofin) as (C1 & C2 & C3 & C4).
      exists o. split; [exact C1|]. split; [done|]. rewrite C2. split; [unfold window; lia|]. split; [done|]. split; [done|].
      split; [by rewrite clear_FIN|]. split; [|lia].
      split; [done|]. split; [by rewrite Hnofin|]. intros _ He. rewrite C2 in He. pose proof (sg_end _ _ _ Ht). lia.
    + eexists _, (ti_m ti). split; [|split; [apply same_ids_refl|split; [done|split; [reflexivity|split; [done|lia]]]]].
      unfold same_rcv. cbn. by split_and!.
  - destruct (cut_back_ok _ o ti d Ht Hw ltac:(lia) Hnofin) as (C1 & C2 & C3 & C4).
    split; [unfold same_rcv; cbn; by split_and!|].
    exists o. split; [exact C1|]. split; [done|]. rewrite C2. split; [unfold window; lia|]. split; [done|]. split; [done|].
    split; [by rewrite clear_FIN|]. split; [|lia].
    split; [done|]. split; [by rewrite Hnofin|]. intros _ He. rewrite C2 in He. pose proof (sg_end _ _ _ Ht). lia.
Qed.

Lemma tcp_trim_ok R n os o ti s :
  rinv R n os s -> receiving s -> seg (r_pool s) o ti -> Forall (wf_mbuf (r_pool s)) (ti_m ti) ->
  n - o <= 2 * window -> o + ti_len ti <= n + window -> has_flag (ti_flags ti) TH_SYN = false ->
  (has_flag (ti_flags ti) TH_FIN = true -> o + ti_len ti <= n + r_wnd s) ->
  trim_spec R n os o ti s (tcp_trim ti s).
Proof using.
  intros Hi Hrc Ht Hw Hlo Hwin Hsyn Hfw. pose proof Hi as [Hn Hnxt _ _ _ _ _].
  pose proof Hrc as (_ & Hnf & _ & Hwnd). pose proof (sg_len _ _ _ Ht) as Hl. pose proof (sg_end _ _ _ Ht) as He.
  pose proof (sg_o _ _ _ Ht) as Ho0.
  unfold tcp_trim. rewrite (sg_seq _ _ _ Ht), Hnxt, seq_diff0 by (unfold window in *; lia). rewrite Hsyn.
  assert (Hs0 : same_rcv s s) by (unfold same_rcv; by split_and!).
  destruct (n - o <=? 0) eqn:Hd.
  { unfold trim_rest. rewrite Hnf. cbn [andb]. by apply (trim_back_ok R n os); try done; lia. }
  destruct ((ti_len ti <? n - o) || (n - o =? ti_len ti) && negb (has_flag (ti_flags ti) TH_FIN)) eqn:Hdup.
  - replace (has_flag (ti_flags ti) TH_FIN && (n - o =? ti_len ti + 1)) with false.
    2:{ destruct (has_flag (ti_flags ti) TH_FIN) eqn:Hf; [|done]. pose proof (sg_fin _ _ _ Ht Hf). lia. }
    eexists _, (ti_m ti). split; [|split; [apply same_ids_refl|split; [done|split; [reflexivity|]]]].
    2:{ split; [|lia]. destruct (has_flag (ti_flags ti) TH_FIN) eqn:Hf; [|done]. pose proof (sg_fin _ _ _ Ht Hf). lia. }
    destruct (has_flag (t_flags (r_tp s)) TF_SACK_PERMIT && (0 <? ti_len ti)); unfold same_rcv; cbn; by split_and!.
  - unfold drop_front, trim_rest. change (r_state (s <| r_stat ::= _ |>)) with (r_state s). rewrite Hnf. cbn [andb].
    destruct (cut_front_ok _ o ti (n - o) Ht Hw ltac:(lia)) as (C1 & C2 & C3 & C4).
    set (urp := if ti_urp ti <=? n - o then 0 else _).
    set (ti' := cut_front (n - o) ti <| ti_urp ::= urp |>). replace (o + (n - o)) with n in C1 by lia.
    assert (Ht' : seg (r_pool s) n ti') by (destruct C1; by split). set (fl := if ti_urp ti <=? n - o then _ else ti_flags ti).
    assert (Hfl : forall f, Z.land f TH_URG = 0 -> has_flag fl f = has_flag (ti_flags ti) f).
    { intros f Hf. unfold fl. destruct (ti_urp ti <=? n - o); [|done]. unfold has_flag, clear_flag.
      rewrite <- Z.land_assoc. do 3 f_equal. apply Z.bits_inj'. intros k Hk.
      rewrite Z.land_spec, Z.lnot_spec by done. destruct (Z.testbit f k) eqn:Ek; [|by rewrite andb_false_r].
      rewrite andb_true_r. apply negb_true_iff. apply (f_equal (fun z => Z.testbit z k)) in Hf.
      rewrite Z.land_spec, Ek, Z.bits_0 in Hf. exact Hf. }
    set (st := _ <| tcps_rcvpartdupbyte ::= _ |>).
    assert (Hs1 : same_rcv s (s <| r_stat ::= st |>)) by (unfold same_rcv; cbn; by split_and!).
    assert (C2' : ti_len ti' = ti_len ti - (n - o)) by exact C2.
    pose proof (trim_back_ok R n os n ti' fl s (s <| r_stat ::= st |>) Hi Hs1 Hrc Ht' C4 ltac:(lia) ltac:(lia)
      ltac:(by rewrite Hfl)) as Hspec.
    assert (Hspec' : trim_spec R n os n ti' s (trim_back ti' fl (s <| r_stat ::= st |>))).
    { apply Hspec; [intros Hf; specialize (Hfw Hf); lia|by rewrite Hfl]. }
    clear Hspec. destruct (trim_back ti' fl _) as [t2 fl2 s2|s2| |]; cbn [trim_spec] in *; try done.
    + destruct Hspec' as (S1 & o2 & S2 & S3 & S4 & S5 & S6 & S7 & (S9 & S10 & S11) & S8). split; [done|]. exists o2.
      split; [done|]. split; [done|]. split; [done|]. split; [by eapply same_ids_trans|]. split; [done|]. split; [done|].
      split; [|intros x Hx Hc; apply S8; [done|]; lia]. split; [done|]. split; [done|].
      intros Hm. apply S11. intros Hn'. apply Hm. lia.
    + destruct Hspec' as (s3 & c' & S1 & S2 & S3 & S4 & S6 & S5). exists s3, c'. split; [done|].
      split; [by eapply same_ids_trans|]. split; [done|]. split; [done|]. split; [done|]. intros x Hx Hc. apply (S5 x Hx). lia.
Qed.

(** ** The text of a segment *)

Definition fin_state (st : Z) : Z :=
  if st =? TCPS_ESTABLISHED then TCPS_CLOSE_WAIT else if st =? TCPS_FIN_WAIT_1 then TCPS_CLOSING else TCPS_TIME_WAIT.

(** The peer's FIN has been taken: all of the stream is delivered. *)
Record finished (s s' : rcvst) : Prop := {
  fi_nxt : rcv_nxt (r_tp s') = u32 (iss + zlen D + 1);
  fi_cant : has_flag (r_state s') SS_CANTRCVMORE = true;
  fi_state : t_state (r_tp s') = fin_state (t_state (r_tp s));
  fi_notice : Socantrcvmore ∈ r_notices s' }.

Lemma tcp_fin_ok R os s :
  rinv R (zlen D) os s -> receiving s ->
  finished s (tcp_fin s) /\ r_pool (tcp_fin s) = r_pool s /\ r_rcv (tcp_fin s) = r_rcv s /\ seg_next (tcp_fin s) = seg_next s.
Proof using.
  intros [_ Hnxt _ _ _ _ _] (Hc & _ & Hst & _). unfold tcp_fin, TCPS_HAVERCVDFIN.
  assert (Hcant : has_flag (Z.lor (r_state s) SS_CANTRCVMORE) SS_CANTRCVMORE = true).
  { unfold has_flag. rewrite Z.land_lor_distr_l, Hc. done. }
  set (s1 := if negb _ then _ else s).
  assert (Hs1 : s1 = notify Socantrcvmore (s <| r_state ::= Z.lor (r_state s) SS_CANTRCVMORE |>
    <| r_tp ::= (add_flags TF_ACKNOW (r_tp s)) <| rcv_nxt ::= u32 (rcv_nxt (r_tp s) + 1) |> |>)).
  { unfold s1. by destruct Hst as [-> | [-> | ->]]. }
  assert (Ht1 : t_state (r_tp s1) = t_state (r_tp s)) by (by rewrite Hs1).
  assert (Hn1 : rcv_nxt (r_tp s1) = u32 (iss + zlen D + 1)).
  { rewrite Hs1. change (u32 (rcv_nxt (r_tp s) + 1) = u32 (iss + zlen D + 1)). rewrite Hnxt, seq_add. f_equal. lia. }
  assert (Hno : Socantrcvmore ∈ r_notices s1) by (rewrite Hs1; apply elem_of_app; right; by left).
  assert (Hr1 : has_flag (r_state s1) SS_CANTRCVMORE = true) by (by rewrite Hs1).
  assert (Hsame : r_pool s1 = r_pool s /\ r_rcv s1 = r_rcv s /\ seg_next s1 = seg_next s) by (by rewrite Hs1).
  clearbody s1. clear Hs1. rewrite Ht1.
  destruct Hst as [E|[E|E]]; rewrite E; cbn [orb Z.eqb TCPS_SYN_RECEIVED TCPS_ESTABLISHED TCPS_FIN_WAIT_1 TCPS_FIN_WAIT_2 Pos.eqb]; (split; [split|]; try done).
  - cbn. by rewrite E.
  - cbn. by rewrite E.
  - cbn. by rewrite E.
  - apply elem_of_app. by left.
Qed.

(** A segment from the network when [n0] bytes have been received and the window is
    [wnd]: a piece of the stream, at most a window behind, no SYN, a FIN only inside the
    receive window. *)
Definition arriving (n0 wnd : Z) (p : mpool) (o : Z) (ti : tiseg) : Prop :=
  seg p o ti /\ n0 - window <= o /\ has_flag (ti_flags ti) TH_SYN = false /\
  (has_flag (ti_flags ti) TH_FIN = true -> o + ti_len ti <= n0 + wnd).

(** What a segment, or several, did: the reader has been given the stream up to [n']
    and nothing else, no mbuf is lost, and the receiver goes on or is finished. *)
Definition came_to (R : chain) (n : Z) (os : list Z) (s : rcvst) (c : chain)
    (fin : bool) (n' : Z) (rest : chain) (s' : rcvst) : Prop :=
  n <= n' <= zlen D /\ stream s' = stream s ++ zslice D n (n' - n) /\
  evolve R (r_pool s) (rbufs s ++ c) (r_pool s') (rbufs s' ++ rest) /\
  if fin then n' = zlen D /\ finished s s'
  else receiving s' /\ r_wnd s' = r_wnd s /\ t_state (r_tp s') = t_state (r_tp s).

Lemma tcp_text_ok R n os s o ti :
  rinv (ti_m ti ++ R) n os s -> receiving s -> gap n os ->
  seg (r_pool s) o ti -> n - o <= 2 * window -> o + ti_len ti <= n + window ->
  has_flag (ti_flags ti) TH_SYN = false ->
  (has_flag (ti_flags ti) TH_FIN = true -> o + ti_len ti <= n + r_wnd s) ->
  exists s' n' os' fin, tcp_text ti s = Some (Some s') /\ has_flag (r_state s') SS_CANTRCVMORE = fin /\
    came_to R n os s (ti_m ti) fin n' [] s' /\
    (fin = false -> rinv R n' os' s' /\ gap n' os' /\
      tcpreassfull (r_stat s) <= tcpreassfull (r_stat s') /\
      (tcpreassfull (r_stat s') = tcpreassfull (r_stat s) -> (forall x, n' <= x < n + r_wnd s ->
         qcov os (seg_next s) x \/ o <= x < o + ti_len ti -> qcov os' (seg_next s') x) /\
         fin_kept (o :: os) (ti :: seg_next s) false os' (seg_next s') false)).
Proof using.
  intros Hi Hrc Hgap Ht Hlo Hwin Hsyn Hfw.
  assert (Hw : Forall (wf_mbuf (r_pool s)) (ti_m ti)).
  { pose proof (owns_wf _ _ (ri_owns _ _ _ _ Hi)) as Hwo. rewrite !Forall_app in Hwo. tauto. }
  pose proof (tcp_trim_ok _ n os o ti s Hi Hrc Ht Hw Hlo Hwin Hsyn Hfw) as Hsp. pose proof (ri_n _ _ _ _ Hi) as Hn.
  unfold tcp_text. 
  assert (Hswap : forall c', Forall2 same_id (ti_m ti) c' -> Forall (wf_mbuf (r_pool s)) c' ->
    rinv (c' ++ R) n os s /\ evolve R (r_pool s) (rbufs s ++ ti_m ti) (r_pool s) (rbufs s ++ c')).
  { intros c' Hid Hwf. pose proof (rinv_drop_R _ _ _ _ _ Hi) as Ho.
    assert (He : evolve R (r_pool s) (rbufs s ++ ti_m ti) (r_pool s) (rbufs s ++ c')).
    { apply evolve_in; [apply Forall2_app; [apply same_ids_refl|done]| |done].
      pose proof (owns_wf _ _ Ho) as Hwo. rewrite !Forall_app in Hwo. apply Forall_app_2; [|done]. tauto. }
    split; [|done]. destruct Hi; split; try done. pose proof (ev_owns _ _ _ _ _ He) as Ho2. by rewrite <- app_assoc in Ho2. }
  destruct (tcp_trim ti s) as [ti' fl s1|s1| |]; cbn [trim_spec] in Hsp; try done.
  - destruct Hsp as (Hsame & o' & Ht' & Hno' & Hwin' & Hid & Hwf & Hfin0 & (Hfl & Hff0 & Hmk) & Hcov).
    destruct (Hswap _ Hid Hwf) as [Hi' Hev]. pose proof (rinv_same _ _ _ _ _ Hsame Hi') as Hi1.
    pose proof Hsame as (E1 & E2 & E3 & E4 & E5 & E6 & E7 & E8).
    assert (Hrc1 : receiving s1) by (unfold receiving in *; by rewrite E4, E7, E1).
    assert (Ht1 : seg (r_pool s1) o' ti') by (by rewrite E5).
    assert (Htk0 : forall n' s', took R n n' s1 (ti_m ti') s' -> took R n n' s (ti_m ti) s').
    { intros n' s' Htk. pose proof (took_same _ _ _ _ _ _ _ Hsame Htk) as [K1 K2 K3 K4]. split; try done. by eapply evolve_trans. }
    unfold tcp_dodata. destruct ((negb (ti_len ti' =? 0) || has_flag fl TH_FIN) && _) eqn:Hdo.
    + destruct (TCP_REASS_ok R n os s1 o' ti' Hi1 (receiving_can _ Hrc1) Hgap Ht1 Hno' Hwin')
        as (flg & s' & n' & os' & E & Hi2 & Htk & Hg & Hf & Hacc).
      rewrite E. cbn [mbind option_bind]. pose proof (took_receiving _ _ _ _ _ _ Htk Hrc1) as Hrc2.
      apply Htk0 in Htk. pose proof (ri_n _ _ _ _ Hi2) as Hn2. destruct (has_flag flg TH_FIN) eqn:Hff.
      * specialize (Hf eq_refl). subst n'. destruct (tcp_fin_ok R os' s' Hi2 Hrc2) as (Hfi & F1 & F2 & F3).
        exists (tcp_fin s'), (zlen D), os', true. split; [done|]. split; [apply (fi_cant _ _ Hfi)|]. split; [|done].
        destruct Htk as [K1 K2 K3 (K4 & K5 & _)]. split; [lia|]. unfold stream, rbufs in *. rewrite F1, F2, F3.
        split; [done|]. rewrite app_nil_r. split; [done|]. split; [done|]. destruct Hfi; split; try done. by rewrite <- K5.
      * exists s', n', os', false. split; [done|]. split; [unfold has_flag; destruct Hrc2 as [-> _]; done|].
        destruct Htk as [K1 K2 K3 (K4 & K5 & K6 & _)]. split.
        { split; [lia|]. split; [done|]. rewrite app_nil_r. split; [done|]. by split. }
        intros _. split; [done|]. split; [done|]. destruct Hacc as [[[Ha1 Ha2] Hk]|[(Hr1 & -> & -> & Hr2 & Hr3) ->]].
        -- split; [lia|]. intros _. split.
           { intros x Hx Hc. apply Ha2; [lia|]. rewrite E2. destruct Hc as [?|Hc]; [by left|right]. apply Hcov; [lia|done]. }
           rewrite E2 in Hk. intros [Hm Hcl]%Forall2_cons. destruct (Hk (proj2 (Forall2_cons _ _ _ _ _) (conj (Hmk Hm) Hcl))) as [Hcl' Hf'].
           split; [done|]. rewrite has_fin_cons in *. by rewrite Hfl in Hf'.
        -- split; [lia|]. lia.
    + assert (Hl0 : ti_len ti' = 0 /\ has_flag fl TH_FIN = false).
      { destruct Hrc1 as (_ & _ & Hst & _). unfold TCPS_HAVERCVDFIN, TCPS_TIME_WAIT, TCPS_ESTABLISHED, TCPS_FIN_WAIT_1, TCPS_FIN_WAIT_2 in *.
        destruct (has_flag fl TH_FIN); lia. }
      destruct Hl0 as [Hl0 Hf0]. cbn [mbind option_bind].
      destruct (drop_seg_ok R n os s1 (ti_m ti') (r_stat s1) Hi1) as [Hi2 Htk].
      assert (Hst : s1 <| r_stat ::= r_stat s1 |> = s1) by (by destruct s1). rewrite Hst in Hi2, Htk.
      assert (Hcl : has_flag (clear_flag fl TH_FIN) TH_FIN = false).
      { unfold has_flag, clear_flag. rewrite <- Z.land_assoc. change (Z.land (Z.lnot TH_FIN) TH_FIN) with 0. by rewrite Z.land_0_r. }
      rewrite Hcl. pose proof (took_receiving _ _ _ _ _ _ Htk Hrc1) as Hrc2. apply Htk0 in Htk.
      eexists _, n, os, false. split; [reflexivity|]. split; [unfold has_flag; destruct Hrc2 as [-> _]; done|].
      destruct Htk as [K1 K2 K3 (K4 & K5 & K6 & _)]. split.
      { split; [lia|]. split; [done|]. rewrite app_nil_r. split; [done|]. by split. }
      intros _. split; [done|]. split; [done|]. split; [cbn; lia|]. intros _. split.
      { intros x Hx [?|Hc]; [cbn; by rewrite E2|]. specialize (Hcov x Hx Hc). lia. }
      intros [_ Hcl0]%Forall2_cons. cbn. rewrite E2, has_fin_cons. split; [done|]. intros [[Hx|?]|?]; [|by left|done].
      specialize (Hff0 Hx). congruence.
  - destruct Hsp as (s0 & c' & Hsame & Hid & Hwf & -> & Hnf & Hcov). destruct (Hswap _ Hid Hwf) as [Hi' Hev].
    pose proof (rinv_same _ _ _ _ _ Hsame Hi') as Hi1. pose proof Hsame as (E1 & E2 & E3 & E4 & E5 & E6 & E7 & E8).
    destruct (drop_seg_ok R n os s0 c' (r_stat s0) Hi1) as [Hi2 Htk].
    assert (Hst : s0 <| r_stat ::= r_stat s0 |> = s0) by (by destruct s0). rewrite Hst in Hi2, Htk.
    assert (Hrc1 : receiving s0) by (unfold receiving in *; by rewrite E4, E7, E1).
    pose proof (took_receiving _ _ _ _ _ _ Htk Hrc1) as Hrc2.
    pose proof (took_same _ _ _ _ _ _ _ Hsame Htk) as [K1 K2 K3 (K4 & K5 & K6 & _)].
    eexists _, n, os, false. split; [reflexivity|]. split; [unfold has_flag; destruct Hrc2 as [Hx _]; cbn in Hx |- *; by rewrite Hx|].
    split.
    { split; [lia|]. split; [exact K2|]. rewrite app_nil_r. split; [by eapply evolve_trans|].
      split; [exact Hrc2|]. by split. }
    intros _. split; [by apply rinv_tp|]. split; [done|]. split; [cbn; lia|]. intros _. split.
    { intros x Hx [?|Hc]; [cbn; by rewrite E2|]. by destruct (Hcov x Hx). }
    intros [_ Hcl]%Forall2_cons. cbn. rewrite E2, has_fin_cons, Hnf. split; [done|]. intros [[?|?]|?]; by auto.
Qed.

(** ** Segments *)

(** A FIN that is still queued is behind a gap. *)
Lemma fin_queued R n os s : rinv R n os s -> gap n os -> has_fin (seg_next s) -> n < zlen D.
Proof using.
  intros Hi Hg (t & [i Ht]%list_elem_of_lookup & Hf).
  destruct (Forall2_lookup_r _ _ _ _ _ (ri_segs _ _ _ _ Hi) Ht) as (o & Ho & Hseg).
  apply (proj1 (Forall_lookup _ _) Hg) in Ho. pose proof (sg_end _ _ _ Hseg). pose proof (sg_len _ _ _ Hseg).
  cbn in Ho. lia.
Qed.

Lemma tcp_texts_ok R n0 wnd : forall segs oi n os s,
  rinv (qchains segs ++ R) n os s -> receiving s -> gap n os -> n0 <= n -> zlen D <= n0 + window -> r_wnd s = wnd ->
  Forall2 (arriving n0 wnd (r_pool s)) oi segs ->
  exists fin rest n' s', tcp_texts segs s = Some (fin, rest, s') /\
    came_to R n os s (qchains segs) fin n' (qchains rest) s' /\
    (fin = false -> rest = [] /\ tcpreassfull (r_stat s) <= tcpreassfull (r_stat s') /\
      (tcpreassfull (r_stat s') = tcpreassfull (r_stat s) -> (forall m, m <= n + wnd ->
         (forall x, n <= x < m -> qcov os (seg_next s) x \/ qcov oi segs x) -> m <= n') /\
         (closing os (seg_next s) -> closing oi segs -> has_fin (seg_next s) \/ has_fin segs -> n' < zlen D))).
Proof using.
  induction segs as [|ti segs IH]; intros oi n os s Hi Hrc Hgap Hn0 HD Hwd Hf; cbn [tcp_texts].
  - apply Forall2_nil_inv_r in Hf as ->. exists false, [], n, s. split; [done|].
    pose proof (ri_owns _ _ _ _ Hi) as Ho. pose proof (ri_n _ _ _ _ Hi). split.
    { split; [lia|]. rewrite Z.sub_diag. unfold zslice. cbn [take]. rewrite app_nil_r. split; [done|].
      change (qchains []) with (@nil mbuf). rewrite app_nil_r. split; [by apply evolve_refl|]. by split. }
    intros _. split; [done|]. split; [lia|]. intros _. split.
    { intros m Hm Hc. destruct (decide (m <= n)); [done|]. exfalso.
      destruct (Hc n ltac:(lia)) as [H1|(i & ? & ? & H1 & _)]; [by apply gap_not_cov in H1|done]. }
    intros _ _ [Hf|?%has_fin_nil]; [|done]. by eapply fin_queued.
  - apply Forall2_cons_inv_r in Hf as (o & oi' & (Ht & Hlo & Hsyn & Hfin) & Hf & ->).
    change (qchains (ti :: segs)) with (ti_m ti ++ qchains segs) in *. rewrite <- app_assoc in Hi.
    pose proof (ri_n _ _ _ _ Hi) as Hn. pose proof (sg_end _ _ _ Ht) as He. pose proof Hrc as (_ & _ & _ & Hw).
    destruct (tcp_text_ok (qchains segs ++ R) n os s o ti Hi Hrc Hgap Ht) as (s1 & n1 & os1 & fin & E & Efin & (Hn1 & Hst1 & Hev1 & Hfi) & Hgo).
    { lia. } { lia. } { done. } { intros Hx. specialize (Hfin Hx). lia. }
    rewrite E. cbn [mbind option_bind]. rewrite Efin. rewrite app_nil_r in Hev1.
    assert (Hev : evolve R (r_pool s) (rbufs s ++ ti_m ti ++ qchains segs) (r_pool s1) (rbufs s1 ++ qchains segs)).
    { apply evolve_frame in Hev1. eapply evolve_perm; [| |exact Hev1]; solve_Permutation. }
    destruct fin.
    + exists true, segs, n1, s1. split; [done|]. split; [|done]. by split.
    + destruct (Hgo eq_refl) as (Hi1 & Hg1 & Hfull & Hcov). destruct Hfi as (Hrc1 & Hw1 & Ht1).
      destruct (IH oi' n1 os1 s1) as (fin & rest & n' & s' & E2 & (Hn2 & Hst2 & Hev2 & Hfi2) & Hgo2); try done; try lia.
      { assert (Hfs : Forall2 (seg (r_pool s1)) oi' segs).
        { eapply (segs_frame (r_pool s)); [|eapply Forall2_impl; [exact Hf|]; by intros ? ? [? _]].
          intros m Hm. apply (ev_bytes _ _ _ _ _ Hev1), elem_of_app. by left. }
        clear -Hf Hfs. induction Hf as [|x t oi segs (K1 & K2) Hf IHf]; [constructor|].
        apply Forall2_cons in Hfs as [F1 F2]. constructor; [by split|auto]. }
      exists fin, rest, n', s'. split; [exact E2|]. split.
      * split; [lia|]. split; [|split; [by eapply evolve_trans|]].
        { rewrite Hst2, Hst1, <- app_assoc. f_equal. replace n1 with (n + (n1 - n)) at 2 by lia.
          rewrite <- zslice_app by lia. f_equal. lia. }
        destruct fin.
        -- destruct Hfi2 as [-> [F1 F2 F3 F4]]. split; [done|]. split; try done. by rewrite F3, Ht1.
        -- destruct Hfi2 as (R1 & R2 & R3). split; [done|]. by rewrite R2, R3.
      * intros Hff. destruct (Hgo2 Hff) as (-> & Hfull2 & Hc2). split; [done|]. split; [lia|].
        intros Hsame. destruct (Hcov ltac:(lia)) as [Hcov' Hk], (Hc2 ltac:(lia)) as [Hc3 Hf3]. split.
        -- intros m Hm Hc. apply Hc3; [lia|]. intros x Hx. destruct (Hc x ltac:(lia)) as [Hq|Hq].
           ++ left. apply Hcov'; [lia|by left].
           ++ apply qcov_cons in Hq as [Hq|Hq]; [|by right]. left. apply Hcov'; [lia|by right].
        -- intros Hcl [Hm Hcls]%Forall2_cons. destruct (Hk (proj2 (Forall2_cons _ _ _ _ _) (conj Hm Hcl))) as [Hcl' Hf'].
           rewrite !has_fin_cons in *. intros H. apply Hf3; [done|done|]. destruct H as [?|[?|?]]; [left|left|by right];
             (destruct Hf' as [?|?]; [by auto|done|done]).
Qed.

(** C30.  The peer's segments, in any order, overlapping, repeated, old or beyond the
    window, with the sequence numbers wrapping wherever they do, a FIN only on a segment
    that ends inside the receive window: the reader is given the bytes of the stream in
    order, each once, and nothing else; it is told of the end only when all of the stream
    is delivered; no mbuf is lost; and unless the bound on the reassembly queue refused a
    segment, everything that arrived without a gap and inside the window has been
    delivered, and the reader has been told of the end when all of the stream and a FIN
    arrived, the segments that reach the stream's end all carrying the FIN. *)
Theorem tcp_texts_correct R segs oi n os s :
  rinv (qchains segs ++ R) n os s -> receiving s -> gap n os -> zlen D <= n + window ->
  Forall2 (arriving n (r_wnd s) (r_pool s)) oi segs ->
  exists fin rest n' s', tcp_texts segs s = Some (fin, rest, s') /\
    came_to R n os s (qchains segs) fin n' (qchains rest) s' /\
    (fin = false -> rest = [] /\ tcpreassfull (r_stat s) <= tcpreassfull (r_stat s') /\
      (tcpreassfull (r_stat s') = tcpreassfull (r_stat s) -> forall m, m <= n + r_wnd s ->
         (forall x, n <= x < m -> qcov os (seg_next s) x \/ qcov oi segs x) -> m <= n')) /\
    (tcpreassfull (r_stat s') = tcpreassfull (r_stat s) -> zlen D <= n + r_wnd s ->
       (forall x, n <= x < zlen D -> qcov os (seg_next s) x \/ qcov oi segs x) ->
       closing os (seg_next s) -> closing oi segs -> has_fin (seg_next s) \/ has_fin segs -> fin = true).
Proof using.
  intros Hi Hrc Hg HD Ha.
  destruct (tcp_texts_ok R n (r_wnd s) segs oi n os s Hi Hrc Hg (Z.le_refl n) HD eq_refl Ha)
    as (fin & rest & n' & s' & E & Hc & Hf).
  exists fin, rest, n', s'. split; [done|]. split; [done|]. split.
  - intros Hff. destruct (Hf Hff) as (H1 & H2 & H3). split; [done|]. split; [done|]. intros Hs. by apply H3.
  - intros Hs Hw Hcov Hc1 Hc2 Hfin. destruct fin; [done|]. destruct (Hf eq_refl) as (_ & _ & H3).
    destruct (H3 Hs) as [H4 H5]. specialize (H4 _ Hw Hcov). specialize (H5 Hc1 Hc2 Hfin). lia.
Qed.
End stream.

(** Two segments of a 9-byte stream whose sequence numbers wrap, the second one, with
    the FIN, arriving first. *)
Definition demo_stream : list Z := map Z.of_nat (seq 20 9).
Definition demo_seg (o len addr fl : Z) : tiseg :=
  mk_tiseg (u32 (4294967293 + o)) len fl 0 [demo_mbuf addr len (20 + o) 0 0 0].
Definition demo_seg1 : tiseg := demo_seg 0 5 4480 16.
Definition demo_seg2 : tiseg := demo_seg 5 4 4736 17.
Definition demo_rcv (wnd : Z) : rcvst :=
  mk_rcvst (tcb 0 0 0 [] <| t_state ::= TCPS_ESTABLISHED |> <| rcv_nxt ::= 4294967293 |> <| t_flags ::= TF_SACK_PERMIT |>)
    wnd (mk_sackblk 0 0) [] demo_sb 0 [] demo_pool (mk_tcpstat 0 0 0 0 0 0 0 0 0 0 0 0).

Lemma demo_segs_owned : owns demo_pool (qchains [demo_seg2; demo_seg1]).
Proof.
  pose proof demo_owns as [_ _ Hf _ Hc]. split; [split| |exact Hf| |exact Hc].
  - apply (bool_decide_unpack _). vm_compute. exact I.
  - repeat apply Forall_cons_2; try apply Forall_nil_2; done.
  - repeat apply Forall_cons_2; try apply Forall_nil_2;
      vm_compute; repeat split; try discriminate; try done.
  - intros a. specialize (Hc a). change (refs _ a) with 0. lia.
Qed.

Lemma tcp_texts_correct_witness :
  exists s', tcp_texts [demo_seg2; demo_seg1] (demo_rcv 4096) = Some (true, [], s') /\
    stream s' = demo_stream /\ rcv_nxt (r_tp s') = 7 /\ t_state (r_tp s') = TCPS_CLOSE_WAIT.
Proof.
  destruct (tcp_texts_correct 4294967293 demo_stream [] [demo_seg2; demo_seg1] [5; 0] 0 [] (demo_rcv 4096))
    as (fin & rest & n' & s' & E & (_ & Hs & _ & Hf) & _).
  - split; [vm_compute; split; discriminate|reflexivity|by apply Forall2_nil_2|exact I|by apply Forall2_nil_2| |].
    + by split.
    + rewrite app_nil_r. exact demo_segs_owned.
  - split; [done|]. split; [done|]. split; [by left|]. vm_compute. split; discriminate.
  - constructor.
  - vm_compute. discriminate.
  - apply Forall2_cons. split; [|apply Forall2_cons; split; [|by apply Forall2_nil_2]].
    + split; [|split; [vm_compute; discriminate|by split]]. split; try done.
    + split; [|split; [vm_compute; discriminate|by split]]. split; try done.
  - assert (fin = true /\ rest = []) as [-> ->] by (clear Hs Hf; vm_compute in E; by injection E as <- <- _).
    destruct Hf as [-> [F1 _ F3 _]]. exists s'. split; [exact E|]. split; [exact Hs|]. split; [exact F1|exact F3].
Defined.

(** A FIN on a segment that ends after the window: [tiflags] loses it with the data,
    [TCP_REASS] takes it from the header again, and the reader is told of the end of the
    stream with two bytes missing. *)
Example fin_after_window :
  match tcp_texts [demo_seg 0 9 4480 17] (demo_rcv 7) with
  | Some (fin, _, s') => fin = true /\ stream s' = take 7 demo_stream /\ r_notices s' = [Sorwakeup; Socantrcvmore]
  | None => False
  end.
Proof. vm_compute. done. Qed.

(** A queued FIN goes with its segment when a segment without the FIN, sent before the
    peer closed, overlaps all of it: the stream is complete, and its end not told until
    the peer sends the FIN again. *)
Example fin_overlapped :
  match tcp_texts [demo_seg 5 4 4736 17; demo_seg 3 6 4608 16; demo_seg 0 5 4480 16] (demo_rcv 4096) with
  | Some (fin, _, s') => fin = false /\ stream s' = demo_stream /\ r_notices s' = [Sorwakeup]
  | None => False
  end.
Proof. vm_compute. done. Qed.
