(* ===== verification/TcpRtt.v ===== *)
(** The timers of a connection, its round-trip estimate and its back-off
    ([netinet/tcp_timer.h], [tcp_canceltimers] and [tcp_backoff] in [netinet/tcp_timer.c],
    [tcp_xmit_timer] in [netinet/tcp_input.c], [tcp_setpersist] in
    [netinet/tcp_output.c]). *)
From S2P Require Import Prelude TcpVar.

Definition PR_SLOWHZ : Z := 2.
Definition TCPT_REXMT : Z := 0.
Definition TCPT_PERSIST : Z := 1.
Definition TCPT_KEEP : Z := 2.
Definition TCPT_2MSL : Z := 3.
Definition TCPTV_PERSMIN : Z := 5 * PR_SLOWHZ.
Definition TCPTV_PERSMAX : Z := 60 * PR_SLOWHZ.
Definition TCPTV_MIN : Z := 1 * PR_SLOWHZ.
Definition TCPTV_RTOBASE : Z := 1 * PR_SLOWHZ.
Definition TCPTV_REXMTMAX : Z := 64 * PR_SLOWHZ.
Definition TCP_MAXRXTSHIFT : Z := 12.
Definition TCP_RTT_SHIFT : Z := 3.
Definition TCP_RTTVAR_SHIFT : Z := 2.

(** A timer that is not there reads as off; the array has four entries ([timers_wf]). *)
Definition timer (tp : tcpcb) (i : Z) : Z := default 0 (zget (t_timer tp) i).
Definition set_timer (i v : Z) (tp : tcpcb) : tcpcb := tp <| t_timer ::= zset (t_timer tp) i v |>.

(** [TCPT_RANGESET]: the value goes through a [short] before it is bounded. *)
Definition TCPT_RANGESET (value tvmin tvmax : Z) : Z :=
  let tv := s16 value in
  if tv <? tvmin then s16 tvmin else if tvmax <? tv then s16 tvmax else tv.

Definition tcp_canceltimers (tp : tcpcb) : tcpcb := tp <| t_timer ::= replicate 4 0 |>.

Definition tcp_backoff : list Z := [1; 2; 4; 8; 16; 32; 64; 64; 64; 64; 64; 64; 64].

Definition TCP_REXMTVAL (tp : tcpcb) : Z := Z.shiftr (t_srtt tp) TCP_RTT_SHIFT + t_rttvar tp.

(** [tcp_xmit_timer(tp, rtt)]: a new measurement, [rtt] a [short]. *)
Definition tcp_xmit_timer (tp : tcpcb) (rtt : Z) : tcpcb :=
  let tp :=
    if negb (t_srtt tp =? 0) then
      let delta := s16 (rtt - 1 - Z.shiftr (t_srtt tp) TCP_RTT_SHIFT) in
      let srtt := s16 (t_srtt tp + delta) in
      let srtt := if srtt <=? 0 then 1 else srtt in
      let delta := if delta <? 0 then s16 (- delta) else delta in
      let delta := s16 (delta - Z.shiftr (t_rttvar tp) TCP_RTTVAR_SHIFT) in
      let rttvar := s16 (t_rttvar tp + delta) in
      let rttvar := if rttvar <=? 0 then 1 else rttvar in
      tp <| t_srtt ::= srtt |> <| t_rttvar ::= rttvar |>
    else tp <| t_srtt ::= s16 (Z.shiftl rtt TCP_RTT_SHIFT) |>
            <| t_rttvar ::= s16 (Z.shiftl rtt (TCP_RTTVAR_SHIFT - 1)) |> in
  let tp := tp <| t_rtt ::= 0 |> <| t_rxtshift ::= 0 |> in
  tp <| t_rxtcur ::= TCPT_RANGESET (TCP_REXMTVAL tp) (t_rttmin tp) TCPTV_REXMTMAX |>
     <| t_softerror ::= 0 |>.

(** [tcp_setpersist]; [None]: the panic, or a shift outside the table. *)
Definition tcp_setpersist (tp : tcpcb) : option tcpcb :=
  let t := Z.shiftr (Z.shiftr (t_srtt tp) 2 + t_rttvar tp) 1 in
  if negb (timer tp TCPT_REXMT =? 0) then None else
  b ← zget tcp_backoff (t_rxtshift tp);
  let tp := set_timer TCPT_PERSIST (TCPT_RANGESET (t * b) TCPTV_PERSMIN TCPTV_PERSMAX) tp in
  Some (if t_rxtshift tp <? TCP_MAXRXTSHIFT then tp <| t_rxtshift ::= s16 (t_rxtshift tp + 1) |> else tp).

(** * Bounds *)

Definition timers_wf (tp : tcpcb) : Prop := zlen (t_timer tp) = 4.

(** The back-off stays in its table, the retransmission interval between the
    connection's minimum and 64 seconds. *)
Definition rto_ok (tp : tcpcb) : Prop :=
  1 <= t_rttmin tp <= TCPTV_REXMTMAX /\ t_rttmin tp <= t_rxtcur tp <= TCPTV_REXMTMAX /\
  0 <= t_rxtshift tp <= TCP_MAXRXTSHIFT.

Lemma rangeset_bounds v lo hi :
  -32768 <= lo <= hi -> hi < 32768 -> lo <= TCPT_RANGESET v lo hi <= hi.
Proof.
  intros. unfold TCPT_RANGESET. pose proof (s16_range v).
  repeat case_match; rewrite ?s16_small by lia; lia.
Qed.

(** Inside [short] the bounded value is the nearest one in the range. *)
Lemma rangeset_clamp v lo hi :
  -32768 <= v < 32768 -> -32768 <= lo <= hi -> hi < 32768 ->
  TCPT_RANGESET v lo hi = Z.max lo (Z.min hi v).
Proof.
  intros. unfold TCPT_RANGESET. rewrite s16_small by lia.
  repeat case_match; rewrite ?s16_small by lia; lia.
Qed.

Lemma timer_set_eq i v tp : timers_wf tp -> 0 <= i < 4 -> timer (set_timer i v tp) i = v.
Proof. unfold timers_wf, timer, set_timer. intros Hw Hi. cbn. by rewrite zget_zset_eq by lia. Qed.
Lemma timer_set_ne i j v tp : i <> j -> timer (set_timer i v tp) j = timer tp j.
Proof. intros. unfold timer, set_timer. cbn. by rewrite zget_zset_ne. Qed.
Lemma timers_wf_set i v tp : timers_wf tp -> timers_wf (set_timer i v tp).
Proof. unfold timers_wf, set_timer. cbn. by rewrite zlen_zset. Qed.
Lemma timer_cancel i tp : timer (tcp_canceltimers tp) i = 0.
Proof.
  unfold timer, tcp_canceltimers. cbn. destruct (zget _ i) as [x|] eqn:E; [|done].
  assert (Hi : 0 <= i < 4) by (apply zget_Some in E; exact E).
  assert (Hc : i = 0 \/ i = 1 \/ i = 2 \/ i = 3) by lia.
  destruct Hc as [-> | [-> | [-> | ->]]]; vm_compute in E; by injection E as <-.
Qed.

Create HintDb tcp.
#[export] Hint Resolve timers_wf_set : tcp.

Lemma tcp_backoff_get s :
  0 <= s <= TCP_MAXRXTSHIFT -> zget tcp_backoff s = Some (2 ^ Z.min s 6).
Proof.
  unfold TCP_MAXRXTSHIFT. intros Hs.
  assert (Hc : s = 0 \/ s = 1 \/ s = 2 \/ s = 3 \/ s = 4 \/ s = 5 \/ s = 6 \/ s = 7 \/ s = 8 \/
               s = 9 \/ s = 10 \/ s = 11 \/ s = 12) by lia.
  repeat destruct Hc as [-> | Hc]; try reflexivity. by subst s.
Qed.

(** Any measurement at all, a forged time stamp's too, leaves the interval in its
    bounds. *)
Lemma tcp_xmit_timer_rto tp rtt :
  1 <= t_rttmin tp <= TCPTV_REXMTMAX -> rto_ok (tcp_xmit_timer tp rtt).
Proof.
  intros Hm. unfold rto_ok.
  assert (E1 : t_rttmin (tcp_xmit_timer tp rtt) = t_rttmin tp) by (unfold tcp_xmit_timer; by case_match).
  assert (E2 : t_rxtshift (tcp_xmit_timer tp rtt) = 0) by (unfold tcp_xmit_timer; by case_match).
  assert (E3 : exists v, t_rxtcur (tcp_xmit_timer tp rtt) = TCPT_RANGESET v (t_rttmin tp) TCPTV_REXMTMAX)
    by (unfold tcp_xmit_timer; case_match; by eexists).
  destruct E3 as [v E3]. rewrite E1, E2, E3. unfold TCPTV_REXMTMAX, TCP_MAXRXTSHIFT, PR_SLOWHZ in *.
  pose proof (rangeset_bounds v (t_rttmin tp) (64 * 2)). lia.
Qed.

(** Measurements of at most [R] ticks: nothing wraps, the estimate is the smoothed
    average of RFC 6298 with gains 1/8 and 1/4, in fixed point. *)
Definition rtt_est (R : Z) (tp : tcpcb) : Prop :=
  0 <= t_srtt tp <= 8 * R /\ (t_srtt tp = 0 \/ 1 <= t_rttvar tp <= 4 * R).

Lemma tcp_xmit_timer_ok R tp rtt :
  R <= 2048 -> 1 <= rtt <= R -> rtt_est R tp ->
  let tp' := tcp_xmit_timer tp rtt in
  rtt_est R tp' /\
  (t_srtt tp = 0 -> t_srtt tp' = 8 * rtt /\ t_rttvar tp' = 2 * rtt) /\
  (t_srtt tp <> 0 ->
     let err := rtt - 1 - t_srtt tp / 8 in
     t_srtt tp' = Z.max 1 (t_srtt tp + err) /\
     t_rttvar tp' = Z.max 1 (t_rttvar tp + Z.abs err - t_rttvar tp / 4)).
Proof.
  intros HR Hr [Hs Hv]. unfold tcp_xmit_timer, TCP_RTT_SHIFT, TCP_RTTVAR_SHIFT.
  rewrite !Z.shiftr_div_pow2, !Z.shiftl_mul_pow2 by lia.
  change (2 ^ 3) with 8; change (2 ^ 2) with 4; change (2 ^ (2 - 1)) with 2.
  destruct (t_srtt tp =? 0) eqn:E; cbn [negb].
  - unfold rtt_est. cbn. rewrite !s16_small by lia. split; [lia|]. split; [lia|]. lia.
  - destruct Hv as [Hv|Hv]; [lia|].
    set (err := rtt - 1 - t_srtt tp / 8).
    assert (He : - R <= err < R) by (unfold err; Z.div_mod_to_equations; lia).
    assert (Hq : 0 <= t_rttvar tp / 4 <= R) by (Z.div_mod_to_equations; lia).
    rewrite (s16_small err), (s16_small (- err)) by lia.
    replace (if err <? 0 then - err else err) with (Z.abs err) by (case_match; lia).
    rewrite (s16_small (t_srtt tp + err)), (s16_small (Z.abs err - _)) by lia.
    rewrite s16_small by lia. unfold rtt_est. cbn.
    assert (Hs8 : t_srtt tp + err <= 8 * R) by (unfold err; Z.div_mod_to_equations; lia).
    assert (Hv4 : t_rttvar tp + (Z.abs err - t_rttvar tp / 4) <= 4 * R)
      by (Z.div_mod_to_equations; lia).
    repeat case_match; split_and!; lia.
Qed.

(** The persist timer is between 5 and 60 seconds, whatever the estimate. *)
Lemma tcp_setpersist_ok tp :
  timers_wf tp -> rto_ok tp -> timer tp TCPT_REXMT = 0 ->
  exists v k, tcp_setpersist tp = Some (set_timer TCPT_PERSIST v tp <| t_rxtshift ::= k |>) /\
    TCPTV_PERSMIN <= v <= TCPTV_PERSMAX /\
    k = Z.min (t_rxtshift tp + 1) TCP_MAXRXTSHIFT.
Proof.
  intros Hw (Hm & Hr & Hk) Hx. unfold tcp_setpersist. rewrite Hx. cbn [Z.eqb negb].
  rewrite tcp_backoff_get by done. cbn [mbind option_bind].
  set (v := TCPT_RANGESET _ _ _). exists v, (Z.min (t_rxtshift tp + 1) TCP_MAXRXTSHIFT).
  assert (Hv : TCPTV_PERSMIN <= v <= TCPTV_PERSMAX) by (apply rangeset_bounds; done).
  split; [|done]. change (t_rxtshift (set_timer TCPT_PERSIST v tp)) with (t_rxtshift tp).
  unfold TCP_MAXRXTSHIFT in *. destruct (_ <? _) eqn:E.
  - rewrite s16_small, Z.min_l by lia. done.
  - rewrite Z.min_r by lia. replace 12 with (t_rxtshift tp) by lia. by destruct tp.
Qed.

(** ** The back-off wraps

    [t_rxtcur] is a [short]: an interval of 512 ticks or more, times 64, leaves it, and is
    then taken for one below the minimum. *)
Example rexmt_wraps :
  TCPT_RANGESET (900 * 32) 2 TCPTV_REXMTMAX = 128 /\ TCPT_RANGESET (900 * 64) 2 TCPTV_REXMTMAX = 2.
Proof. done. Qed.
