(* ===== verification/TcpOpt.v ===== *)
(** The segment size and the options of a connection: [tcp_mss] and [tcp_dooptions] in
    [netinet/tcp_input.c], the options [tcp_output] writes, [netinet/tcp.h]. *)
From S2P Require Import Prelude TcpVar TcpSack Mbuf Sockbuf Socket TcpReass TcpRtt.

Definition TH_RST : Z := 4.
Definition TH_ACK : Z := 16.
Definition TF_NODELAY : Z := 4.
Definition TF_NOOPT : Z := 8.
Definition TF_SENTFIN : Z := 16.
Definition TF_REQ_SCALE : Z := 32.
Definition TF_RCVD_SCALE : Z := 64.
Definition TF_REQ_TSTMP : Z := 128.
Definition TF_RCVD_TSTMP : Z := 256.
Definition TF_REQ_SACK : Z := 512.
Definition TF_SACK_RECOVER : Z := 2048.
Definition TF_SACK_RESCUE : Z := 4096.
Definition TCPOPT_EOL : Z := 0.
Definition TCPOPT_NOP : Z := 1.
Definition TCPOPT_MAXSEG : Z := 2.
Definition TCPOPT_WINDOW : Z := 3.
Definition TCPOPT_SACK_PERMITTED : Z := 4.
Definition TCPOPT_SACK : Z := 5.
Definition TCPOPT_TIMESTAMP : Z := 8.
Definition TCP_MSS : Z := 512.
Definition TCP_MAXWIN : Z := 65535.
Definition TCP_MAX_WINSHIFT : Z := 14.
Definition RTV_MTU : Z := 1.

(** A connection: the control block with the receiving side and the pool
    ([TcpReass.rcvst]), the send buffer, the socket's options and error. *)
Record conn := mk_conn { c_r : rcvst; c_snd : sockbuf; c_options : Z; c_error : Z }.
#[export] Instance conn_eta : Eta conn := fun c =>
  mk_conn (c_r c) (c_snd c) (c_options c) (c_error c).

Definition c_tp (c : conn) : tcpcb := r_tp (c_r c).
Definition set_tp (tp : tcpcb) (c : conn) : conn := c <| c_r ::= c_r c <| r_tp ::= tp |> |>.
Definition tflag (tp : tcpcb) (f : Z) : bool := has_flag (t_flags tp) f.

(** The data queued for sending: the record at the front of the send buffer. *)
Definition snd_bytes (c : conn) : list Z :=
  match sb_mb (c_snd c) with [] => [] | r :: _ => bytes (r_pool (c_r c)) r end.

(** What TCP reads that is not the connection's: the clock and the settings. *)
Record tcpenv := mk_tcpenv { tcp_now : Z; tcp_mssdflt : Z; tcp_iw : Z; e_sb_max : Z }.

(** The route to the peer, as [rtalloc] finds it: the interface's MTU, whether
    [in_localaddr] holds of the peer, the route's metrics. *)
Record rtinfo := mk_rtinfo {
  rt_if_mtu : Z; rt_local : bool; rmx_locks : Z; rmx_mtu : Z; rmx_recvpipe : Z;
  rmx_sendpipe : Z; rmx_ssthresh : Z; rmx_rtt : Z; rmx_rttvar : Z }.

(** * [tcp_mss] *)

(** The estimate the route remembers, when there is none yet. *)
Definition mss_rtt (rt : rtinfo) (tp : tcpcb) : tcpcb :=
  let rtt := s32 (rmx_rtt rt) in
  if (t_srtt tp =? 0) && negb (rtt =? 0) then
    let tp := if has_flag (rmx_locks rt) RTV_MTU then tp <| t_rttmin ::= u16 (Z.quot rtt 500000) |> else tp in
    let tp := tp <| t_srtt ::= s16 (Z.quot rtt 62500) |> in
    let tp := tp <| t_rttvar ::= s16 (if negb (rmx_rttvar rt =? 0) then rmx_rttvar rt / 125000
                                      else Z.quot (t_srtt tp * 4) 8) |> in
    tp <| t_rxtcur ::= TCPT_RANGESET (Z.shiftr (Z.shiftr (t_srtt tp) 2 + t_rttvar tp) 1)
                         (t_rttmin tp) TCPTV_REXMTMAX |>
  else tp.

(** The size the path takes. *)
Definition mss_path (e : tcpenv) (mclb : Z) (rt : rtinfo) : Z :=
  if negb (rmx_mtu rt =? 0) then s32 (rmx_mtu rt - 40)
  else
    let mss := rt_if_mtu rt - 40 in
    let mss := if mclb <? u32 mss then s32 (u32 mss / mclb * mclb) else mss in
    if negb (rt_local rt) && (0 <? tcp_mssdflt e) then s32 (Z.min (u32 mss) (tcp_mssdflt e)) else mss.

(** The buffers, in whole segments; [t_maxseg]. *)
Definition mss_buffers (e : tcpenv) (rt : rtinfo) (mss : Z) (c : conn) : Z * conn :=
  let mclb := mclbytes (conf (r_pool (c_r c))) in
  let bufsize := if rmx_sendpipe rt =? 0 then sb_hiwat (c_snd c) else rmx_sendpipe rt in
  let '(mss, c) :=
    if bufsize <? mss then (Z.max (s32 bufsize) 1, c)
    else (mss, c <| c_snd ::= snd (sbreserve (e_sb_max e) mclb (c_snd c)
                                     (Z.min bufsize (e_sb_max e) / mss * mss)) |>) in
  let c := set_tp (c_tp c <| t_maxseg ::= u16 mss |>) c in
  let bufsize := if rmx_recvpipe rt =? 0 then sb_hiwat (r_rcv (c_r c)) else rmx_recvpipe rt in
  (mss, if mss <? bufsize then
          c <| c_r ::= c_r c <| r_rcv ::= snd (sbreserve (e_sb_max e) mclb (r_rcv (c_r c))
                                                 (Z.min bufsize (e_sb_max e) / mss * mss)) |> |>
        else c).

(** The initial congestion window of RFC 6928. *)
Definition init_cwnd (e : tcpenv) (tp : tcpcb) : Z :=
  let seg := Z.min (Z.max (tcp_iw e) 1) 100 in
  Z.min (u32 (seg * t_maxseg tp)) (Z.max (2 * t_maxseg tp) 14600).

(** [tcp_mss(tp, offer)], the route having been looked up. *)
Definition tcp_mss (e : tcpenv) (rt : option rtinfo) (offer : Z) (c : conn) : Z * conn :=
  match rt with
  | None => (if (0 <? tcp_mssdflt e) && (tcp_mssdflt e <=? 65535) then tcp_mssdflt e else TCP_MSS, c)
  | Some rt =>
      let c := set_tp (mss_rtt rt (c_tp c)) c in
      let mss := mss_path e (mclbytes (conf (r_pool (c_r c)))) rt in
      let mss := if offer =? 0 then mss else s32 (Z.min (u32 mss) offer) in
      let mss := Z.max mss 32 in
      let '(mss, c) :=
        if (mss <? t_maxseg (c_tp c)) || negb (offer =? 0) then mss_buffers e rt mss c else (mss, c) in
      let tp := c_tp c in
      let tp := tp <| snd_cwnd ::= init_cwnd e tp |> in
      let tp := if rmx_ssthresh rt =? 0 then tp
                else tp <| snd_ssthresh ::= Z.max (2 * mss) (rmx_ssthresh rt) |> in
      (mss, set_tp tp c)
  end.

(** * Options *)

Definition word16 (z : Z) : list Z := [u8 (z / 256); u8 z].
Definition word32 (z : Z) : list Z := [u8 (z / 16777216); u8 (z / 65536); u8 (z / 256); u8 z].

(** Two and four bytes at [i], as [bcopy] and [NTOHL] read them. *)
Definition read16 (l : list Z) (i : Z) : option Z := a ← zget l i; b ← zget l (i + 1); Some (be16 a b).
Definition read32 (l : list Z) (i : Z) : option Z :=
  a ← zget l i; b ← zget l (i + 1); c ← zget l (i + 2); d ← zget l (i + 3); Some (be32 a b c d).

(** What [tcp_dooptions] gives back: the time stamp and its echo, the blocks, and the
    connection; [o_mss]: whether [tcp_mss] has been called. *)
Record dopt := mk_dopt { o_ts : option (Z * Z); o_sack : list sackblk; o_mss : bool; o_c : conn }.
#[export] Instance dopt_eta : Eta dopt := fun o => mk_dopt (o_ts o) (o_sack o) (o_mss o) (o_c o).

(** [n] blocks from [cp] on. *)
Fixpoint read_blocks (n : nat) (l : list Z) (i : Z) : option (list sackblk) :=
  match n with
  | O => Some []
  | S n => s ← read32 l i; e ← read32 l (i + 4); r ← read_blocks n l (i + 8); Some (mk_sackblk s e :: r)
  end.

Section dooptions.
Context (env : tcpenv) (rt : option rtinfo) (ti_fl : Z).

(** One option of length [optlen] at the front of [cp]. *)
Definition dooption (opt optlen : Z) (cp : list Z) (o : dopt) : option dopt :=
  let syn := has_flag ti_fl TH_SYN in
  let tp := c_tp (o_c o) in
  if opt =? TCPOPT_MAXSEG then
    if negb (optlen =? 4) || negb syn then Some o else
    mss ← read16 cp 2;
    Some (o <| o_c ::= snd (tcp_mss env rt mss (o_c o)) |> <| o_mss ::= true |>)
  else if opt =? TCPOPT_WINDOW then
    if negb (optlen =? 3) || negb syn then Some o else
    w ← zget cp 2;
    Some (o <| o_c ::= set_tp (add_flags TF_RCVD_SCALE tp
                                 <| requested_s_scale ::= Z.min w TCP_MAX_WINSHIFT |>) (o_c o) |>)
  else if opt =? TCPOPT_SACK_PERMITTED then
    if negb (optlen =? 2) || negb syn then Some o else
    Some (if tflag tp TF_REQ_SACK then o <| o_c ::= set_tp (add_flags TF_SACK_PERMIT tp) (o_c o) |> else o)
  else if opt =? TCPOPT_SACK then
    if negb (tflag tp TF_SACK_PERMIT) then Some o else
    if (optlen <? 2 + 8) || negb ((optlen - 2) mod 8 =? 0) then Some o else
    let n := (optlen - 2) / 8 in
    let room := TCP_MAX_SACK - zlen (o_sack o) in
    let n := if room <? n then (if 0 <? room then room else 0) else n in
    blks ← read_blocks (Z.to_nat n) cp 2;
    Some (o <| o_sack ::= o_sack o ++ blks |>)
  else if opt =? TCPOPT_TIMESTAMP then
    if negb (optlen =? 10) then Some o else
    ts_val ← read32 cp 2;
    ts_ecr ← read32 cp 6;
    let o := o <| o_ts ::= Some (ts_val, ts_ecr) |> in
    Some (if syn && tflag tp TF_REQ_TSTMP
          then o <| o_c ::= set_tp (add_flags TF_RCVD_TSTMP tp <| ts_recent ::= ts_val |>
                                      <| ts_recent_age ::= tcp_now env |>) (o_c o) |>
          else o)
  else Some o.

(** The walk over [cp]; [None]: a read outside, or no fuel left. *)
Fixpoint dooptions_loop (fuel : nat) (cp : list Z) (o : dopt) : option dopt :=
  match fuel with
  | O => None
  | S fuel =>
      match cp with
      | [] => Some o
      | opt :: rest =>
          if opt =? TCPOPT_EOL then Some o
          else if opt =? TCPOPT_NOP then dooptions_loop fuel rest o
          else match rest with
               | [] => Some o
               | optlen :: _ =>
                   if (optlen <? 2) || (zlen cp <? optlen) then Some o else
                   o ← dooption opt optlen cp o;
                   dooptions_loop fuel (drop (Z.to_nat optlen) cp) o
               end
      end
  end.

(** [tcp_dooptions]: the time stamp is taken out of the segment size at the end. *)
Definition tcp_dooptions (om : list Z) (ts : option (Z * Z)) (c : conn) : option dopt :=
  o ← dooptions_loop (S (length om)) om (mk_dopt ts [] false c);
  let tp := c_tp (o_c o) in
  Some (if o_mss o && tflag tp TF_REQ_TSTMP && tflag tp TF_RCVD_TSTMP
        then o <| o_c ::= set_tp (tp <| t_maxseg ::= u16 (t_maxseg tp - 12) |>) (o_c o) |>
        else o).
End dooptions.

(** ** What [tcp_output] writes *)

(** The shift whose scaled window covers the receive buffer. *)
Fixpoint scale_loop (fuel : nat) (hiwat shift : Z) : option Z :=
  match fuel with
  | O => None
  | S fuel =>
      if (shift <? TCP_MAX_WINSHIFT) && (u32 (Z.shiftl TCP_MAXWIN shift) <? hiwat)
      then scale_loop fuel hiwat (u8 (shift + 1)) else Some shift
  end.

(** The options of a SYN, and the connection after [tcp_mss]. *)
Definition syn_options (env : tcpenv) (rt : option rtinfo) (flags : Z) (c : conn) : option (list Z * conn) :=
  if negb (has_flag flags TH_SYN) || tflag (c_tp c) TF_NOOPT then Some ([], c) else
  let '(mss, c) := tcp_mss env rt 0 c in
  let opt := [TCPOPT_MAXSEG; 4] ++ word16 mss in
  let tp := c_tp c in
  '(opt, tp) ←
    (if tflag tp TF_REQ_SCALE && (negb (has_flag flags TH_ACK) || tflag tp TF_RCVD_SCALE) then
       k ← scale_loop 16 (sb_hiwat (r_rcv (c_r c))) (request_r_scale tp);
       Some (opt ++ [TCPOPT_NOP; TCPOPT_WINDOW; 3; k], tp <| request_r_scale ::= k |>)
     else Some (opt, tp));
  let opt :=
    if tflag tp TF_REQ_SACK && (negb (has_flag flags TH_ACK) || tflag tp TF_SACK_PERMIT)
    then opt ++ [TCPOPT_NOP; TCPOPT_NOP; TCPOPT_SACK_PERMITTED; 2] else opt in
  Some (opt, set_tp tp c).

(** The time stamp. *)
Definition ts_options (env : tcpenv) (flags : Z) (tp : tcpcb) : list Z :=
  if tflag tp TF_REQ_TSTMP && negb (tflag tp TF_NOOPT) && negb (has_flag flags TH_RST) &&
     ((has_flag flags TH_SYN && negb (has_flag flags TH_ACK)) || tflag tp TF_RCVD_TSTMP)
  then [TCPOPT_NOP; TCPOPT_NOP; TCPOPT_TIMESTAMP; 10] ++ word32 (tcp_now env) ++ word32 (ts_recent tp)
  else [].

Definition block_bytes (b : sackblk) : list Z := word32 (start b) ++ word32 (fin b).

(** The SACK blocks of a bare acknowledgment, after [optlen] bytes of options. *)
Definition sack_options (flags len optlen : Z) (dsackblk : sackblk) (tp : tcpcb) : list Z * tcpcb :=
  if tflag tp TF_SACK_PERMIT && (len =? 0) && negb (has_flag flags TH_SYN) && negb (has_flag flags TH_RST) &&
     ((0 <? zlen (sackblks tp)) || tflag tp TF_DSACK)
  then
    let maxblk := Z.quot (40 - optlen - 4) 8 in
    let dsack := if tflag tp TF_DSACK then 1 else 0 in
    let dsack := if maxblk <? dsack then 0 else dsack in
    let nblk := Z.max 0 (Z.min (zlen (sackblks tp)) (maxblk - dsack)) in
    let total := dsack + nblk in
    ((if 0 <? total then
        [TCPOPT_NOP; TCPOPT_NOP; TCPOPT_SACK; u8 (2 + total * 8)] ++
        (if 0 <? dsack then block_bytes dsackblk else []) ++
        concat (block_bytes <$> take (Z.to_nat nblk) (sackblks tp))
      else []),
     del_flags TF_DSACK tp)
  else ([], tp).

(** All the options of a segment of [len] data octets, and the connection afterwards. *)
Definition seg_options (env : tcpenv) (rt : option rtinfo) (flags len : Z) (c : conn) : option (list Z * conn) :=
  '(opt, c) ← syn_options env rt flags c;
  let opt := opt ++ ts_options env flags (c_tp c) in
  let '(blks, tp) := sack_options flags len (zlen opt) (r_dsack (c_r c)) (c_tp c) in
  Some (opt ++ blks, set_tp tp c).

(** * Reading any bytes *)

Lemma read16_ok l i : 0 <= i -> i + 2 <= zlen l -> exists z, read16 l i = Some z.
Proof.
  intros. unfold read16. destruct (zget_is_Some l i) as [a ->]; [lia|].
  destruct (zget_is_Some l (i + 1)) as [b ->]; [lia|]. by eexists.
Qed.
Lemma read32_ok l i : 0 <= i -> i + 4 <= zlen l -> exists z, read32 l i = Some z.
Proof.
  intros. unfold read32. destruct (zget_is_Some l i) as [a ->]; [lia|].
  destruct (zget_is_Some l (i + 1)) as [b ->]; [lia|]. destruct (zget_is_Some l (i + 2)) as [c ->]; [lia|].
  destruct (zget_is_Some l (i + 3)) as [d ->]; [lia|]. by eexists.
Qed.
Lemma read_blocks_ok n l i : 0 <= i -> i + 8 * Z.of_nat n <= zlen l ->
  exists r, read_blocks n l i = Some r /\ zlen r = Z.of_nat n.
Proof.
  revert i. induction n as [|n IH]; intros i Hi Hl; cbn [read_blocks]; [by exists []|].
  destruct (read32_ok l i) as [s ->]; [lia|lia|]. destruct (read32_ok l (i + 4)) as [e ->]; [lia|lia|].
  destruct (IH (i + 8)) as (r & -> & Hr); [lia|lia|]. cbn [mbind option_bind].
  eexists. split; [done|]. rewrite zlen_cons, Hr. lia.
Qed.

(** What one option can do: at most [TCP_MAX_SACK] blocks in all, and nothing to the
    connection without a SYN. *)
Definition opt_kept (ti_fl : Z) (o o' : dopt) : Prop :=
  (zlen (o_sack o) <= TCP_MAX_SACK -> zlen (o_sack o') <= TCP_MAX_SACK) /\
  (has_flag ti_fl TH_SYN = false -> o_c o' = o_c o /\ o_mss o' = o_mss o).

Lemma dooption_ok env rt fl opt optlen cp o :
  2 <= optlen <= zlen cp -> exists o', dooption env rt fl opt optlen cp o = Some o' /\ opt_kept fl o o'.
Proof.
  intros Hl. unfold dooption, opt_kept.
  destruct (opt =? TCPOPT_MAXSEG).
  { destruct (_ || _) eqn:E; [by exists o|]. destruct (read16_ok cp 2) as [z ->]; [lia|lia|].
    cbn [mbind option_bind]. eexists. split; [done|]. split; [done|]. intros Hs. rewrite Hs in E. by rewrite orb_true_r in E. }
  destruct (opt =? TCPOPT_WINDOW).
  { destruct (_ || _) eqn:E; [by exists o|]. destruct (zget_is_Some cp 2) as [z ->]; [lia|].
    cbn [mbind option_bind]. eexists. split; [done|]. split; [done|]. intros Hs. rewrite Hs in E. by rewrite orb_true_r in E. }
  destruct (opt =? TCPOPT_SACK_PERMITTED).
  { destruct (_ || _) eqn:E; [by exists o|]. eexists. split; [done|]. destruct (tflag _ _); [|done].
    split; [done|]. intros Hs. rewrite Hs in E. by rewrite orb_true_r in E. }
  destruct (opt =? TCPOPT_SACK).
  { destruct (negb _); [by exists o|]. destruct (_ || _) eqn:E; [by exists o|].
    set (n := if _ <? _ then _ else _). pose proof (zlen_nonneg (o_sack o)) as Hz.
    assert (Hn : 0 <= n <= (optlen - 2) / 8 /\ (zlen (o_sack o) <= TCP_MAX_SACK -> zlen (o_sack o) + n <= TCP_MAX_SACK)).
    { pose proof (Z.div_le_lower_bound (optlen - 2) 8 0). unfold n. repeat case_match; unfold TCP_MAX_SACK in *; lia. }
    pose proof (Z.mul_div_le (optlen - 2) 8).
    destruct (read_blocks_ok (Z.to_nat n) cp 2) as (r & -> & Hr); [lia|lia|]. cbn [mbind option_bind].
    eexists. split; [done|]. split; [|done]. cbn. rewrite zlen_app. lia. }
  destruct (opt =? TCPOPT_TIMESTAMP); [|by exists o].
  destruct (negb _) eqn:E; [by exists o|]. destruct (read32_ok cp 2) as [a ->]; [lia|lia|].
  destruct (read32_ok cp 6) as [b ->]; [lia|lia|]. cbn [mbind option_bind]. eexists. split; [done|].
  destruct (has_flag fl TH_SYN) eqn:Hs; cbn [andb]; [|done]. split; [|done]. by destruct (tflag _ _).
Qed.

Lemma opt_kept_trans fl a b c : opt_kept fl a b -> opt_kept fl b c -> opt_kept fl a c.
Proof.
  intros [H1 H2] [H3 H4]. split; [tauto|]. intros Hs. destruct (H2 Hs), (H4 Hs). split; congruence.
Qed.

Lemma dooptions_loop_ok env rt fl fuel cp o : (length cp < fuel)%nat ->
  exists o', dooptions_loop env rt fl fuel cp o = Some o' /\ opt_kept fl o o'.
Proof.
  revert cp o. induction fuel as [|fuel IH]; intros cp o Hf; [lia|]. cbn [dooptions_loop].
  assert (Hid : opt_kept fl o o) by done.
  destruct cp as [|opt rest]; [by exists o|]. destruct (opt =? TCPOPT_EOL); [by exists o|].
  cbn [length] in Hf. destruct (opt =? TCPOPT_NOP); [apply IH; lia|].
  destruct rest as [|optlen rest]; [by exists o|]. destruct (_ || _) eqn:E; [by exists o|].
  destruct (dooption_ok env rt fl opt optlen (opt :: optlen :: rest) o) as (o1 & -> & H1); [lia|].
  cbn [mbind option_bind]. destruct (IH (drop (Z.to_nat optlen) (opt :: optlen :: rest)) o1) as (o2 & -> & H2).
  { rewrite length_drop. cbn [length] in *. lia. }
  exists o2. split; [done|]. by eapply opt_kept_trans.
Qed.

Lemma tcp_dooptions_ok env rt fl om ts c :
  exists o, tcp_dooptions env rt fl om ts c = Some o /\ zlen (o_sack o) <= TCP_MAX_SACK /\
    (has_flag fl TH_SYN = false -> o_c o = c).
Proof.
  unfold tcp_dooptions.
  destruct (dooptions_loop_ok env rt fl (S (length om)) om (mk_dopt ts [] false c)) as (o & -> & H1 & H2); [lia|].
  cbn [mbind option_bind]. eexists. split; [done|]. split; [destruct (_ && _); by apply H1|].
  intros Hs. destruct (H2 Hs) as [H3 H4]. cbn in H4. rewrite H4. done.
Qed.

(** C37.  Whatever bytes arrive as options: [tcp_dooptions] ends without reading outside
    them, gives at most [TCP_MAX_SACK] blocks, the size of the caller's array, and leaves
    the connection as it was when the segment has no SYN. *)
Theorem tcp_dooptions_safe env rt fl om ts c :
  exists o, tcp_dooptions env rt fl om ts c = Some o /\ zlen (o_sack o) <= TCP_MAX_SACK /\
    (has_flag fl TH_SYN = false -> o_c o = c).
Proof. apply tcp_dooptions_ok. Qed.

(** * Reading what was written *)

(** What a segment's options say. *)
Record offer := mk_offer {
  of_mss : option Z; of_scale : option Z; of_sack : bool; of_stamp : option (Z * Z); of_blocks : list sackblk }.

(** What the receiver of a SYN makes of it. *)
Definition accept_scale (o : offer) (c : conn) : conn :=
  match of_scale o with
  | Some k => set_tp (add_flags TF_RCVD_SCALE (c_tp c) <| requested_s_scale ::= k |>) c
  | None => c
  end.
Definition accept_sack (o : offer) (c : conn) : conn :=
  if of_sack o && tflag (c_tp c) TF_REQ_SACK then set_tp (add_flags TF_SACK_PERMIT (c_tp c)) c else c.
Definition accept_stamp (env : tcpenv) (o : offer) (c : conn) : conn :=
  match of_stamp o with
  | Some (v, _) =>
      if tflag (c_tp c) TF_REQ_TSTMP
      then set_tp (add_flags TF_RCVD_TSTMP (c_tp c) <| ts_recent ::= v |> <| ts_recent_age ::= tcp_now env |>) c else c
  | None => c
  end.
Definition accept_mss (env : tcpenv) (rt : option rtinfo) (o : offer) (c : conn) : conn :=
  match of_mss o with Some mss => snd (tcp_mss env rt mss c) | None => c end.
Definition accept (env : tcpenv) (rt : option rtinfo) (fl : Z) (o : offer) (c : conn) : conn :=
  if negb (has_flag fl TH_SYN) then c else
  let c := accept_stamp env o (accept_sack o (accept_scale o (accept_mss env rt o c))) in
  if bool_decide (is_Some (of_mss o)) && tflag (c_tp c) TF_REQ_TSTMP && tflag (c_tp c) TF_RCVD_TSTMP
  then set_tp (c_tp c <| t_maxseg ::= u16 (t_maxseg (c_tp c) - 12) |>) c else c.

(** ** Words and blocks *)

Definition word32P (z : Z) : Prop := 0 <= z < 4294967296.
Definition wordsP (b : sackblk) : Prop := word32P (start b) /\ word32P (fin b).

Lemma zlen_word32 z : zlen (word32 z) = 4. Proof. done. Qed.
Lemma zlen_block b : zlen (block_bytes b) = 8. Proof. done. Qed.

Lemma zget_app_at {A} (pre l : list A) i k : 0 <= k -> i = zlen pre + k -> zget (pre ++ l) i = zget l k.
Proof. intros Hk ->. rewrite zget_app_r by lia. f_equal. lia. Qed.

Lemma read32_word32 pre z post i : word32P z -> i = zlen pre -> read32 (pre ++ word32 z ++ post) i = Some z.
Proof.
  intros Hz ->. unfold read32.
  rewrite (zget_app_at pre _ (zlen pre) 0), (zget_app_at pre _ (zlen pre + 1) 1), (zget_app_at pre _ (zlen pre + 2) 2),
    (zget_app_at pre _ (zlen pre + 3) 3) by lia.
  change (Some (be32 (u8 (z / 16777216)) (u8 (z / 65536)) (u8 (z / 256)) (u8 z)) = Some z). f_equal. unfold word32P, be32, u8 in *. Z.div_mod_to_equations. lia.
Qed.

Lemma read_blocks_written blks pre post i :
  Forall wordsP blks -> i = zlen pre ->
  read_blocks (length blks) (pre ++ concat (block_bytes <$> blks) ++ post) i = Some blks.
Proof.
  intros Hb. revert pre i. induction Hb as [|b blks [H1 H2] _ IH]; intros pre i Hi; [done|].
  cbn [length read_blocks fmap list_fmap concat]. change (block_bytes b) with (word32 (start b) ++ word32 (fin b)). rewrite <- !app_assoc.
  rewrite (read32_word32 pre (start b) _ i) by done. cbn [mbind option_bind].
  rewrite (app_assoc pre), read32_word32 by (done || (rewrite zlen_app, zlen_word32; lia)). cbn [mbind option_bind].
  rewrite (app_assoc (pre ++ _)), (IH ((pre ++ word32 (start b)) ++ word32 (fin b))).
  - cbn [mbind option_bind]. by destruct b.
  - rewrite !zlen_app, !zlen_word32. lia.
Qed.

Lemma read16_word16 a b z post : read16 (a :: b :: word16 z ++ post) 2 = Some (u16 z).
Proof.
  change (Some (be16 (u8 (z / 256)) (u8 z)) = Some (u16 z)). f_equal. unfold be16, u16, u8. Z.div_mod_to_equations. lia.
Qed.

(** ** The walk *)
Section walk.
Context (env : tcpenv) (rt : option rtinfo) (fl : Z).

(** Any fuel beyond the length gives the same. *)
Lemma loop_fuel f1 f2 cp o : (length cp < f1)%nat -> (length cp < f2)%nat ->
  dooptions_loop env rt fl f1 cp o = dooptions_loop env rt fl f2 cp o.
Proof.
  revert f2 cp o. induction f1 as [|f1 IH]; intros [|f2] cp o H1 H2; try lia. cbn [dooptions_loop].
  destruct cp as [|opt rest]; [done|]. destruct (opt =? TCPOPT_EOL); [done|]. cbn [length] in H1, H2.
  destruct (opt =? TCPOPT_NOP); [apply IH; lia|]. destruct rest as [|optlen rest]; [done|].
  destruct (_ || _) eqn:E; [done|]. destruct (dooption _ _ _ _ _ _ _) as [o1|]; [|done]. cbn [mbind option_bind].
  apply IH; rewrite length_drop; cbn [length] in *; lia.
Qed.

Definition walk (cp : list Z) (o : dopt) : option dopt := dooptions_loop env rt fl (S (length cp)) cp o.

Lemma walk_nil o : walk [] o = Some o.
Proof. done. Qed.
Lemma walk_nop cp o : walk (TCPOPT_NOP :: cp) o = walk cp o.
Proof. done. Qed.
Lemma loop_opt f opt optlen cp o :
  opt <> TCPOPT_EOL -> opt <> TCPOPT_NOP -> 2 <= optlen <= zlen (opt :: optlen :: cp) ->
  dooptions_loop env rt fl (S f) (opt :: optlen :: cp) o =
  (o ← dooption env rt fl opt optlen (opt :: optlen :: cp) o;
   dooptions_loop env rt fl f (drop (Z.to_nat optlen) (opt :: optlen :: cp)) o).
Proof.
  intros H1 H2 Hl. cbn [dooptions_loop]. destruct (opt =? TCPOPT_EOL) eqn:E1; [lia|].
  destruct (opt =? TCPOPT_NOP) eqn:E2; [lia|]. by destruct (_ || _) eqn:E; [lia|].
Qed.
Lemma walk_opt opt optlen body rest o :
  opt <> TCPOPT_EOL -> opt <> TCPOPT_NOP -> optlen = 2 + zlen body ->
  walk (opt :: optlen :: body ++ rest) o =
  (o ← dooption env rt fl opt optlen (opt :: optlen :: body ++ rest) o; walk rest o).
Proof.
  intros H1 H2 Hl. unfold walk. pose proof (zlen_nonneg body). pose proof (zlen_nonneg rest).
  rewrite loop_opt by (done || (rewrite ?zlen_cons, ?zlen_app; lia)).
  destruct (dooption _ _ _ _ _ _ _) as [o1|]; [|done]. cbn [mbind option_bind].
  replace (drop (Z.to_nat optlen) (opt :: optlen :: body ++ rest)) with rest.
  - apply loop_fuel; cbn [length]; rewrite ?length_app; lia.
  - replace (Z.to_nat optlen) with (S (S (length body))) by (unfold zlen in *; lia). cbn [drop].
    by rewrite drop_app_length.
Qed.

(** The time stamp. *)
Lemma walk_stamp v e rest o : word32P v -> word32P e ->
  walk ([TCPOPT_NOP; TCPOPT_NOP; TCPOPT_TIMESTAMP; 10] ++ word32 v ++ word32 e ++ rest) o =
  walk rest (let o := o <| o_ts ::= Some (v, e) |> in
             if has_flag fl TH_SYN then o <| o_c ::= accept_stamp env (mk_offer None None false (Some (v, e)) []) (o_c o) |> else o).
Proof.
  intros Hv He. cbn [app]. rewrite !walk_nop. rewrite (app_assoc (word32 v)).
  rewrite (walk_opt TCPOPT_TIMESTAMP 10 (word32 v ++ word32 e) rest) by done.
  unfold dooption. cbn [Z.eqb TCPOPT_TIMESTAMP TCPOPT_MAXSEG TCPOPT_WINDOW TCPOPT_SACK_PERMITTED TCPOPT_SACK Pos.eqb negb].
  rewrite <- app_assoc. set (cp := _ :: _).
  assert (R1 : read32 cp 2 = Some v) by (by apply (read32_word32 [TCPOPT_TIMESTAMP; 10])).
  assert (R2 : read32 cp 6 = Some e) by exact (read32_word32 ([TCPOPT_TIMESTAMP; 10] ++ word32 v) e rest 6 He eq_refl).
  rewrite R1, R2. cbn [mbind option_bind].
  unfold accept_stamp. cbn [of_stamp]. cbv zeta. change (o_c (o <| o_ts ::= Some (v, e) |>)) with (o_c o).
  destruct (has_flag fl TH_SYN); [|done]. by destruct (tflag (c_tp (o_c o)) TF_REQ_TSTMP); destruct o.
Qed.

(** The blocks. *)
Lemma walk_blocks blks rest o :
  Forall wordsP blks -> zlen (o_sack o) + zlen blks <= TCP_MAX_SACK -> 0 < zlen blks ->
  tflag (c_tp (o_c o)) TF_SACK_PERMIT = true ->
  walk ([TCPOPT_NOP; TCPOPT_NOP; TCPOPT_SACK; u8 (2 + zlen blks * 8)] ++ concat (block_bytes <$> blks) ++ rest) o =
  walk rest (o <| o_sack ::= o_sack o ++ blks |>).
Proof.
  intros Hw Hroom Hpos Hperm. cbn [app]. rewrite !walk_nop. pose proof (zlen_nonneg (o_sack o)).
  assert (Hlen : zlen (concat (block_bytes <$> blks)) = 8 * zlen blks).
  { clear. induction blks as [|b l IH]; [done|]. rewrite fmap_cons. cbn [concat]. rewrite zlen_app, IH, zlen_block, zlen_cons. lia. }
  assert (Hu : u8 (2 + zlen blks * 8) = 2 + zlen blks * 8) by (unfold u8, TCP_MAX_SACK in *; apply Z.mod_small; lia).
  rewrite Hu. rewrite walk_opt by (done || lia).
  unfold dooption. cbn [Z.eqb TCPOPT_TIMESTAMP TCPOPT_MAXSEG TCPOPT_WINDOW TCPOPT_SACK_PERMITTED TCPOPT_SACK Pos.eqb negb].
  rewrite Hperm. cbn [negb]. replace (2 + zlen blks * 8 - 2) with (zlen blks * 8) by lia.
  rewrite Z.mod_mul, Z.div_mul by lia. destruct (_ || _) eqn:E; [lia|].
  destruct (_ <? zlen blks) eqn:E2; [lia|].
  replace (Z.to_nat (zlen blks)) with (length blks) by (unfold zlen; lia).
  set (cp := _ :: _).
  assert (R : read_blocks (length blks) cp 2 = Some blks) by (by apply (read_blocks_written blks [TCPOPT_SACK; 2 + zlen blks * 8])).
  by rewrite R.
Qed.

(** The options of a SYN. *)
Lemma walk_mss m rest o : has_flag fl TH_SYN = true ->
  walk ([TCPOPT_MAXSEG; 4] ++ word16 m ++ rest) o =
  walk rest (o <| o_c ::= snd (tcp_mss env rt (u16 m) (o_c o)) |> <| o_mss ::= true |>).
Proof.
  intros Hs. cbn [app]. rewrite (walk_opt TCPOPT_MAXSEG 4 (word16 m) rest) by done.
  unfold dooption. cbn [Z.eqb TCPOPT_MAXSEG Pos.eqb negb]. rewrite Hs. cbn [orb negb].
  by rewrite read16_word16.
Qed.

Lemma walk_scale k rest o : has_flag fl TH_SYN = true -> 0 <= k <= TCP_MAX_WINSHIFT ->
  walk ([TCPOPT_NOP; TCPOPT_WINDOW; 3; k] ++ rest) o =
  walk rest (o <| o_c ::= accept_scale (mk_offer None (Some k) false None []) (o_c o) |>).
Proof.
  intros Hs Hk. cbn [app]. rewrite walk_nop. rewrite (walk_opt TCPOPT_WINDOW 3 [k] rest) by done.
  unfold dooption. cbn [Z.eqb TCPOPT_MAXSEG TCPOPT_WINDOW Pos.eqb negb]. rewrite Hs. cbn [orb negb].
  change (zget (TCPOPT_WINDOW :: 3 :: [k] ++ rest) 2) with (Some k). cbn [mbind option_bind].
  unfold accept_scale. cbn [of_scale]. by rewrite Z.min_l by lia.
Qed.

Lemma walk_sackok rest o : has_flag fl TH_SYN = true ->
  walk ([TCPOPT_NOP; TCPOPT_NOP; TCPOPT_SACK_PERMITTED; 2] ++ rest) o =
  walk rest (o <| o_c ::= accept_sack (mk_offer None None true None []) (o_c o) |>).
Proof.
  intros Hs. cbn [app]. rewrite !walk_nop. rewrite (walk_opt TCPOPT_SACK_PERMITTED 2 [] rest) by done.
  unfold dooption. cbn [Z.eqb TCPOPT_MAXSEG TCPOPT_WINDOW TCPOPT_SACK_PERMITTED Pos.eqb negb]. rewrite Hs. cbn [orb negb].
  unfold accept_sack. cbn [of_sack andb]. destruct (tflag (c_tp (o_c o)) TF_REQ_SACK); by destruct o.
Qed.
End walk.

(** ** What is written *)

Definition has_stamp (fl : Z) (tp : tcpcb) : bool :=
  tflag tp TF_REQ_TSTMP && negb (tflag tp TF_NOOPT) && negb (has_flag fl TH_RST) &&
  ((has_flag fl TH_SYN && negb (has_flag fl TH_ACK)) || tflag tp TF_RCVD_TSTMP).

(** The blocks reported: the duplicate first, then the list, as many as fit. *)
Definition blocks_sent (fl len optlen : Z) (d : sackblk) (tp : tcpcb) : list sackblk :=
  if tflag tp TF_SACK_PERMIT && (len =? 0) && negb (has_flag fl TH_SYN) && negb (has_flag fl TH_RST)
  then take (Z.to_nat ((36 - optlen) / 8)) ((if tflag tp TF_DSACK then [d] else []) ++ sackblks tp)
  else [].

(** What a segment of [len] octets with flags [fl] says, from the connection [c]. *)
Definition offered (env : tcpenv) (rt : option rtinfo) (fl len : Z) (c : conn) : offer :=
  let tp := c_tp c in
  let syn := has_flag fl TH_SYN && negb (tflag tp TF_NOOPT) in
  let first := negb (has_flag fl TH_ACK) in
  let c1 := (tcp_mss env rt 0 c).2 in
  mk_offer
    (if syn then Some (u16 (tcp_mss env rt 0 c).1) else None)
    (if syn && tflag tp TF_REQ_SCALE && (first || tflag tp TF_RCVD_SCALE)
     then scale_loop 16 (sb_hiwat (r_rcv (c_r c1))) (request_r_scale tp) else None)
    (syn && tflag tp TF_REQ_SACK && (first || tflag tp TF_SACK_PERMIT))
    (if has_stamp fl tp then Some (tcp_now env, ts_recent tp) else None)
    (blocks_sent fl len (if has_stamp fl tp then 12 else 0) (r_dsack (c_r c)) tp).

Lemma scale_loop_ok f hiwat k : 0 <= k <= TCP_MAX_WINSHIFT -> 14 - k < Z.of_nat f ->
  exists k', scale_loop f hiwat k = Some k' /\ k <= k' <= TCP_MAX_WINSHIFT /\
    (u32 (Z.shiftl TCP_MAXWIN k') < hiwat -> k' = TCP_MAX_WINSHIFT).
Proof.
  revert k. induction f as [|f IH]; intros k Hk Hf; [unfold TCP_MAX_WINSHIFT in *; lia|]. cbn [scale_loop].
  destruct (_ && _) eqn:E; [|exists k; split; [done|]; split; [lia|]; unfold TCP_MAX_WINSHIFT in *; lia].
  unfold u8. rewrite Z.mod_small by (unfold TCP_MAX_WINSHIFT in *; lia).
  destruct (IH (k + 1)) as (k' & -> & H1 & H2); [lia|lia|]. exists k'. split; [done|]. split; [lia|done].
Qed.

Lemma tcp_mss_same env rt offer c :
  let c' := (tcp_mss env rt offer c).2 in
  t_flags (c_tp c') = t_flags (c_tp c) /\ ts_recent (c_tp c') = ts_recent (c_tp c) /\
  sackblks (c_tp c') = sackblks (c_tp c) /\ request_r_scale (c_tp c') = request_r_scale (c_tp c) /\
  r_dsack (c_r c') = r_dsack (c_r c).
Proof.
  unfold tcp_mss. destruct rt as [rt|]; [|done].
  assert (Hr : forall tp, let tp' := mss_rtt rt tp in t_flags tp' = t_flags tp /\ ts_recent tp' = ts_recent tp /\
    sackblks tp' = sackblks tp /\ request_r_scale tp' = request_r_scale tp).
  { intros tp. unfold mss_rtt. destruct (_ && _); [|done]. by destruct (has_flag _ _). }
  specialize (Hr (c_tp c)). set (c0 := set_tp _ c).
  assert (Hb : forall mss, let c' := (mss_buffers env rt mss c0).2 in t_flags (c_tp c') = t_flags (c_tp c0) /\
    ts_recent (c_tp c') = ts_recent (c_tp c0) /\ sackblks (c_tp c') = sackblks (c_tp c0) /\
    request_r_scale (c_tp c') = request_r_scale (c_tp c0) /\ r_dsack (c_r c') = r_dsack (c_r c0)).
  { intros mss. unfold mss_buffers. destruct (_ <? mss); by destruct (_ <? _). }
  cbv zeta in Hb. set (mss := Z.max _ 32). destruct (_ || _); [specialize (Hb mss)|clear Hb];
    [destruct (mss_buffers env rt mss c0) as [m c1]; cbn [snd] in Hb; destruct Hb as (B1 & B2 & B3 & B4 & B5)|];
    destruct Hr as (R1 & R2 & R3 & R4); destruct (rmx_ssthresh rt =? 0); cbn;
    repeat split; try done; cbn in *; congruence.
Qed.

(** The bytes of an offer. *)
Definition offer_bytes (o : offer) : list Z :=
  (match of_mss o with Some m => [TCPOPT_MAXSEG; 4] ++ word16 m | None => [] end) ++
  (match of_scale o with Some k => [TCPOPT_NOP; TCPOPT_WINDOW; 3; k] | None => [] end) ++
  (if of_sack o then [TCPOPT_NOP; TCPOPT_NOP; TCPOPT_SACK_PERMITTED; 2] else []) ++
  (match of_stamp o with
   | Some (v, e) => [TCPOPT_NOP; TCPOPT_NOP; TCPOPT_TIMESTAMP; 10] ++ word32 v ++ word32 e
   | None => []
   end) ++
  match of_blocks o with
  | [] => []
  | l => [TCPOPT_NOP; TCPOPT_NOP; TCPOPT_SACK; u8 (2 + zlen l * 8)] ++ concat (block_bytes <$> l)
  end.

(** An offer that can be written: SYN options with a SYN only, blocks only without. *)
Record offer_ok (fl : Z) (o : offer) : Prop := {
  ok_syn : is_Some (of_mss o) \/ is_Some (of_scale o) \/ of_sack o = true -> has_flag fl TH_SYN = true;
  ok_mss : forall m, of_mss o = Some m -> 0 <= m < 65536;
  ok_scale : forall k, of_scale o = Some k -> 0 <= k <= TCP_MAX_WINSHIFT;
  ok_stamp : forall v e, of_stamp o = Some (v, e) -> word32P v /\ word32P e;
  ok_blocks : Forall wordsP (of_blocks o) /\ zlen (of_blocks o) <= TCP_MAX_SACK;
  ok_ack : of_blocks o <> [] -> has_flag fl TH_SYN = false }.

Lemma read_offer env rt fl o c :
  offer_ok fl o -> (of_blocks o <> [] -> tflag (c_tp c) TF_SACK_PERMIT = true) ->
  tcp_dooptions env rt fl (offer_bytes o) None c =
  Some (mk_dopt (of_stamp o) (of_blocks o) (bool_decide (is_Some (of_mss o))) (accept env rt fl o c)).
Proof.
  intros [K1 K0 K2 K3 [K4 K5] K6] Hp.
  assert (E : walk env rt fl (offer_bytes o) (mk_dopt None [] false c) =
    Some (mk_dopt (of_stamp o) (of_blocks o) (bool_decide (is_Some (of_mss o)))
      (if has_flag fl TH_SYN then accept_stamp env o (accept_sack o (accept_scale o (accept_mss env rt o c))) else c))).
  { unfold offer_bytes. destruct o as [mss sc sk st bl]. cbn [of_mss of_scale of_sack of_stamp of_blocks] in *.
    set (r2 := _ ++ (if sk then _ else _) ++ _). set (r3 := (if sk then _ else _) ++ _) in *.
    set (r4 := (match st with Some _ => _ | None => _ end) ++ _) in *.
    set (r5 := match bl with [] => _ | _ => _ end) in *.
    assert (E1 : walk env rt fl ((match mss with Some m => [TCPOPT_MAXSEG; 4] ++ word16 m | None => [] end) ++ r2) (mk_dopt None [] false c)
      = walk env rt fl r2 (mk_dopt None [] (bool_decide (is_Some mss)) (accept_mss env rt (mk_offer mss sc sk st bl) c))).
    { destruct mss as [m|]; [|done]. rewrite <- app_assoc, walk_mss by (apply K1; left; by eexists).
      unfold accept_mss. cbn [of_mss]. f_equal. unfold u16. by rewrite Z.mod_small by (by apply K0). }
    rewrite E1. clear E1. set (c1 := accept_mss _ _ _ _). set (b := bool_decide _).
    assert (E2 : walk env rt fl r2 (mk_dopt None [] b c1) = walk env rt fl r3 (mk_dopt None [] b (accept_scale (mk_offer mss sc sk st bl) c1))).
    { unfold r2. destruct sc as [k|]; [|done]. rewrite walk_scale; [done|apply K1; right; left; by eexists|by apply K2]. }
    rewrite E2. clear E2. set (c2 := accept_scale _ _).
    assert (E3 : walk env rt fl r3 (mk_dopt None [] b c2) = walk env rt fl r4 (mk_dopt None [] b (accept_sack (mk_offer mss sc sk st bl) c2))).
    { unfold r3. destruct sk; [|done]. rewrite walk_sackok; [done|apply K1; by right; right]. }
    rewrite E3. clear E3. set (c3 := accept_sack _ _).
    assert (E4 : walk env rt fl r4 (mk_dopt None [] b c3) =
      walk env rt fl r5 (mk_dopt st [] b (if has_flag fl TH_SYN then accept_stamp env (mk_offer mss sc sk st bl) c3 else c3))).
    { unfold r4. destruct st as [[v e]|]; [|by destruct (has_flag fl TH_SYN)]. destruct (K3 v e eq_refl).
      rewrite <- !app_assoc, walk_stamp by done. cbv zeta. by destruct (has_flag fl TH_SYN). }
    rewrite E4. clear E4.
    assert (Hc3 : has_flag fl TH_SYN = false -> c3 = c).
    { intros Hs. unfold c3, c2, c1, accept_sack, accept_scale, accept_mss. cbn [of_sack of_scale of_mss].
      destruct sk; [by rewrite K1 in Hs by (by right; right)|]. destruct sc; [by rewrite K1 in Hs by (right; left; by eexists)|].
      destruct mss; [by rewrite K1 in Hs by (left; by eexists)|done]. }
    unfold r5. destruct bl as [|b0 bl].
    { rewrite walk_nil. destruct (has_flag fl TH_SYN) eqn:Hs; [done|]. by rewrite Hc3. }
    rewrite K6 in * by done. rewrite Hc3 by done. set (l := b0 :: bl) in *.
    rewrite <- (app_nil_r (concat _)), walk_blocks; [done|done|done|unfold l; rewrite zlen_cons; pose proof (zlen_nonneg bl); lia|by apply Hp]. }
  unfold tcp_dooptions. unfold walk in E. rewrite E. cbn [mbind option_bind o_mss o_c]. unfold accept.
  destruct (has_flag fl TH_SYN) eqn:Hs; cbn [negb]; [by destruct (_ && _)|].
  destruct (bool_decide (is_Some (of_mss o))) eqn:Eb; [|done]. apply bool_decide_eq_true_1 in Eb.
  by specialize (K1 (or_introl Eb)).
Qed.

Lemma tflag_same tp tp' f : t_flags tp' = t_flags tp -> tflag tp' f = tflag tp f.
Proof. unfold tflag. by intros ->. Qed.

Lemma syn_options_offer env rt fl len c :
  0 <= request_r_scale (c_tp c) <= TCP_MAX_WINSHIFT ->
  let o := offered env rt fl len c in
  exists c1, syn_options env rt fl c = Some
      (offer_bytes (mk_offer (of_mss o) (of_scale o) (of_sack o) None []), c1) /\
    t_flags (c_tp c1) = t_flags (c_tp c) /\ ts_recent (c_tp c1) = ts_recent (c_tp c) /\
    sackblks (c_tp c1) = sackblks (c_tp c) /\ r_dsack (c_r c1) = r_dsack (c_r c).
Proof.
  intros Hk. unfold syn_options, offered. cbn [of_mss of_scale of_sack].
  destruct (tcp_mss_same env rt 0 c) as (F1 & F2 & F3 & F4 & F5).
  destruct (tcp_mss env rt 0 c) as [mss c0]. cbn [snd fst] in *.
  destruct (has_flag fl TH_SYN); cbn [negb orb andb]; [|by exists c].
  destruct (tflag (c_tp c) TF_NOOPT); cbn [negb andb]; [by exists c|].
  rewrite !(tflag_same _ _ _ F1), F4.
  assert (Hw : word16 (u16 mss) = word16 mss).
  { unfold word16, u16, u8. f_equal; [|f_equal]; Z.div_mod_to_equations; lia. }
  set (cs := tflag (c_tp c) TF_REQ_SCALE && _). set (ck := tflag (c_tp c) TF_REQ_SACK && _).
  destruct (scale_loop_ok 16 (sb_hiwat (r_rcv (c_r c0))) (request_r_scale (c_tp c)) Hk) as (k & Ek & _); [lia|].
  exists (set_tp (if cs then c_tp c0 <| request_r_scale ::= k |> else c_tp c0) c0). rewrite Ek.
  unfold offer_bytes. cbn [of_mss of_scale of_sack of_stamp of_blocks]. rewrite Hw, !app_nil_r.
  destruct cs; cbn [mbind option_bind];
    rewrite ?(tflag_same (c_tp c0) (c_tp c0 <| request_r_scale ::= k |>)) by done; rewrite ?(tflag_same _ _ _ F1);
    fold ck; destruct ck; rewrite ?app_nil_r, <- ?app_assoc; repeat split; done.
Qed.

Lemma ts_options_offer env fl tp :
  ts_options env fl tp = if has_stamp fl tp
    then [TCPOPT_NOP; TCPOPT_NOP; TCPOPT_TIMESTAMP; 10] ++ word32 (tcp_now env) ++ word32 (ts_recent tp) else [].
Proof. done. Qed.

Lemma take_room {A} (l : list A) m : 0 <= m ->
  let k := Z.max 0 (Z.min (zlen l) m) in
  take (Z.to_nat k) l = take (Z.to_nat m) l /\ zlen (take (Z.to_nat m) l) = k.
Proof.
  intros Hm k. unfold k, zlen. rewrite length_take. split; [|lia].
  destruct (decide (Z.of_nat (length l) <= m)); [rewrite !take_ge by lia; done|]. f_equal. lia.
Qed.

Lemma sack_options_offer fl len optlen d tp : 0 <= optlen <= 36 ->
  (sack_options fl len optlen d tp).1 = offer_bytes (mk_offer None None false None (blocks_sent fl len optlen d tp)).
Proof.
  intros Ho. unfold sack_options, blocks_sent, offer_bytes. cbn [of_mss of_scale of_sack of_stamp of_blocks app].
  destruct (tflag tp TF_SACK_PERMIT && _ && _ && _); cbn [andb fst]; [|done].
  replace (40 - optlen - 4) with (36 - optlen) by lia. rewrite Z.quot_div_nonneg by lia.
  set (m := (36 - optlen) / 8). assert (Hm : 0 <= m <= 4) by (unfold m; Z.div_mod_to_equations; lia). clearbody m.
  pose proof (zlen_nonneg (sackblks tp)) as Hz. destruct (tflag tp TF_DSACK) eqn:Ed.
  - rewrite orb_true_r. cbn [fst app]. destruct (m <? 1) eqn:E1.
    + replace m with 0 by lia. replace (Z.max 0 _) with 0 by lia. done.
    + replace (Z.to_nat m) with (S (Z.to_nat (m - 1))) by lia. cbn [firstn].
      destruct (take_room (sackblks tp) (m - 1)) as [-> Hl]; [lia|]. rewrite <- Hl.
      set (l := take _ _) in *. pose proof (zlen_nonneg l). destruct (0 <? 1 + _) eqn:E2; [|lia].
      rewrite fmap_cons. cbn [concat app]. by rewrite zlen_cons.
  - rewrite orb_false_r. destruct (0 <? zlen (sackblks tp)) eqn:E0; cbn [fst app].
    2: { destruct (sackblks tp) as [|b l]; [by rewrite take_nil|]. rewrite zlen_cons in E0. pose proof (zlen_nonneg l). lia. }
    destruct (m <? 0) eqn:E1; [lia|]. rewrite Z.sub_0_r.
    destruct (take_room (sackblks tp) m) as [-> Hl]; [lia|]. rewrite <- Hl. set (l := take _ _).
    destruct l as [|b l]; [done|]. change (0 <? 0) with false. cbv iota. rewrite Z.add_0_l, zlen_cons.
    pose proof (zlen_nonneg l). destruct (0 <? 1 + zlen l) eqn:E2; [done|lia].
Qed.

Lemma offer_bytes_app o :
  offer_bytes (mk_offer (of_mss o) (of_scale o) (of_sack o) None []) ++
  offer_bytes (mk_offer None None false (of_stamp o) []) ++
  offer_bytes (mk_offer None None false None (of_blocks o)) = offer_bytes o.
Proof. unfold offer_bytes. cbn [of_mss of_scale of_sack of_stamp of_blocks app]. by rewrite !app_nil_r, <- !app_assoc. Qed.

(** The options written are the bytes of the offer. *)
Lemma seg_options_offer env rt fl len c :
  0 <= request_r_scale (c_tp c) <= TCP_MAX_WINSHIFT ->
  exists c1, seg_options env rt fl len c = Some (offer_bytes (offered env rt fl len c), c1).
Proof.
  intros Hk. unfold seg_options.
  destruct (syn_options_offer env rt fl len c Hk) as (c1 & -> & F1 & F2 & F3 & F4). cbn [mbind option_bind].
  set (o := offered env rt fl len c) in *.
  assert (Hs : has_stamp fl (c_tp c1) = has_stamp fl (c_tp c)) by (unfold has_stamp; by rewrite !(tflag_same _ _ _ F1)).
  assert (Ht : ts_options env fl (c_tp c1) = offer_bytes (mk_offer None None false (of_stamp o) [])).
  { rewrite ts_options_offer, Hs, F2.
    change (of_stamp o) with (if has_stamp fl (c_tp c) then Some (tcp_now env, ts_recent (c_tp c)) else None).
    destruct (has_stamp fl (c_tp c)); reflexivity. }
  rewrite Ht. set (opt := _ ++ offer_bytes (mk_offer None None false (of_stamp o) [])).
  assert (Hb : (sack_options fl len (zlen opt) (r_dsack (c_r c1)) (c_tp c1)).1 =
    offer_bytes (mk_offer None None false None (of_blocks o))).
  { destruct (has_flag fl TH_SYN) eqn:Hsyn.
    - unfold sack_options, o, offered. cbn [of_blocks]. unfold blocks_sent. rewrite Hsyn. cbn [negb andb].
      by rewrite !andb_false_r.
    - assert (Hl : zlen opt = if has_stamp fl (c_tp c) then 12 else 0).
      { unfold opt, o, offered, offer_bytes. rewrite Hsyn. cbn [of_mss of_scale of_sack of_stamp of_blocks app andb].
        by destruct (has_stamp fl (c_tp c)). }
      rewrite Hl, sack_options_offer by (destruct (has_stamp _ _); lia). f_equal. f_equal.
      unfold o, offered. cbn [of_blocks]. unfold blocks_sent. by rewrite !(tflag_same _ _ _ F1), F3, F4. }
  destruct (sack_options _ _ _ _ _) as [blks tp]. cbn [fst] in Hb. subst blks.
  exists (set_tp tp c1). unfold opt. by rewrite <- app_assoc, offer_bytes_app.
Qed.

Lemma offered_ok env rt fl len c :
  0 <= request_r_scale (c_tp c) <= TCP_MAX_WINSHIFT -> word32P (tcp_now env) -> word32P (ts_recent (c_tp c)) ->
  Forall wordsP (r_dsack (c_r c) :: sackblks (c_tp c)) -> offer_ok fl (offered env rt fl len c).
Proof.
  intros Hk Hn Hr [Hd Hb]%Forall_cons. unfold offered.
  split; cbn [of_mss of_scale of_sack of_stamp of_blocks].
  - destruct (has_flag fl TH_SYN); [done|]. cbn [andb]. intros [[? ?]|[[? ?]|?]]; done.
  - intros m. destruct (_ && _); [|done]. intros [= <-]. apply u16_range.
  - intros k. destruct (_ && _); [|done].
    destruct (scale_loop_ok 16 (sb_hiwat (r_rcv (c_r (tcp_mss env rt 0 c).2))) (request_r_scale (c_tp c)) Hk) as (k' & -> & H & _); [lia|].
    intros [= <-]. lia.
  - intros v e. destruct (has_stamp _ _); [|done]. by intros [= <- <-].
  - unfold blocks_sent. destruct (tflag (c_tp c) TF_SACK_PERMIT && _ && _ && _); [|done]. set (m := _ / 8).
    assert (Hm : m <= 4) by (unfold m; destruct (has_stamp _ _); Z.div_mod_to_equations; lia).
    split; [|unfold zlen, TCP_MAX_SACK; rewrite length_take; lia].
    apply Forall_take, Forall_app. split; [|done]. destruct (tflag _ _); [by apply Forall_singleton|by apply Forall_nil].
  - unfold blocks_sent. destruct (has_flag fl TH_SYN); [|done]. by rewrite andb_false_r.
Qed.

(** The options fit the buffer and fill whole words of the header. *)
Lemma offer_bytes_len env rt fl len c :
  let n := zlen (offer_bytes (offered env rt fl len c)) in n <= 40 /\ n mod 4 = 0.
Proof.
  set (o := offered env rt fl len c).
  assert (Hlen : forall l, zlen (concat (block_bytes <$> l)) = 8 * zlen l).
  { induction l as [|b l IH]; [done|]. rewrite fmap_cons. cbn [concat]. rewrite zlen_app, IH, zlen_block, zlen_cons. lia. }
  assert (Hb : of_blocks o <> [] -> of_mss o = None /\ of_scale o = None /\ of_sack o = false /\
    (if of_stamp o is Some _ then 12 else 0) + 8 * zlen (of_blocks o) <= 36).
  { unfold o, offered, blocks_sent. cbn [of_mss of_scale of_sack of_stamp of_blocks].
    destruct (has_flag fl TH_SYN); cbn [negb andb]; [by rewrite andb_false_r|].
    destruct (tflag _ TF_SACK_PERMIT && _ && _ && _); [|done]. intros _. repeat split.
    unfold zlen. rewrite length_take. destruct (has_stamp _ _); Z.div_mod_to_equations; lia. }
  cbv zeta. unfold offer_bytes. rewrite !zlen_app.
  replace (zlen (match of_blocks o with [] => [] | _ => _ end)) with (if of_blocks o is [] then 0 else 4 + 8 * zlen (of_blocks o))
    by (destruct (of_blocks o); [done|rewrite zlen_app, Hlen; done]).
  replace (zlen (match of_stamp o with Some _ => _ | None => _ end)) with (if of_stamp o is Some _ then 12 else 0)
    by (by destruct (of_stamp o) as [[? ?]|]).
  replace (zlen (match of_mss o with Some m => _ | None => _ end)) with (if of_mss o is Some _ then 4 else 0) by (by destruct (of_mss o)).
  replace (zlen (match of_scale o with Some m => _ | None => _ end)) with (if of_scale o is Some _ then 4 else 0) by (by destruct (of_scale o)).
  replace (zlen (if of_sack o then _ else _)) with (if of_sack o then 4 else 0) by (by destruct (of_sack o)).
  destruct (of_blocks o) as [|b l] eqn:E.
  - destruct (of_mss o), (of_scale o), (of_sack o), (of_stamp o); cbn; done.
  - destruct Hb as (-> & -> & -> & Hb); [done|]. set (n := zlen (b :: l)) in *.
    destruct (of_stamp o); Z.div_mod_to_equations; lia.
Qed.

(** C38.  The options a segment is sent with fit the option area in whole words, and the
    peer that reads them finds what the sender meant: the segment size, the window's
    shift and the willingness to use SACK of a SYN, the time stamp, and the blocks of an
    acknowledgment, the duplicate first, in order; its connection changes exactly as
    [accept] says. *)
Theorem tcp_options_roundtrip env env' rt rt' fl len c peer :
  0 <= request_r_scale (c_tp c) <= TCP_MAX_WINSHIFT -> word32P (tcp_now env) -> word32P (ts_recent (c_tp c)) ->
  Forall wordsP (r_dsack (c_r c) :: sackblks (c_tp c)) ->
  let o := offered env rt fl len c in
  (of_blocks o <> [] -> tflag (c_tp peer) TF_SACK_PERMIT = true) ->
  exists opt c1, seg_options env rt fl len c = Some (opt, c1) /\ zlen opt <= 40 /\ zlen opt mod 4 = 0 /\
    tcp_dooptions env' rt' fl opt None peer =
    Some (mk_dopt (of_stamp o) (of_blocks o) (bool_decide (is_Some (of_mss o))) (accept env' rt' fl o peer)).
Proof.
  intros Hk Hn Hr Hb o Hp. destruct (seg_options_offer env rt fl len c Hk) as (c1 & E).
  destruct (offer_bytes_len env rt fl len c) as [H1 H2]. eexists _, c1. split; [exact E|]. split; [exact H1|].
  split; [exact H2|]. apply read_offer; [by apply offered_ok|exact Hp].
Qed.

Definition opt_env : tcpenv := mk_tcpenv 77 512 10 65536.
Definition opt_rt : rtinfo := mk_rtinfo 1500 true 0 0 0 0 0 0 0.

(** A connection with [flags], a send buffer of [hiwat] octets and two blocks to report. *)
Definition opt_conn (flags hiwat : Z) : conn :=
  mk_conn (demo_rcv 4096 <| r_dsack ::= mk_sackblk 5 6 |>
      <| r_tp ::= tcb 100 100 100 [] <| t_flags ::= flags |> <| ts_recent ::= 66 |>
                   <| sackblks ::= [mk_sackblk 4294967290 3; mk_sackblk 20 30] |> |>)
    (demo_sb <| sb_hiwat ::= hiwat |>) 0 0.

(** An acknowledgment with a time stamp, a duplicate and two blocks: 40 bytes. *)
Lemma tcp_options_roundtrip_witness :
  let fl := Z.lor TF_SACK_PERMIT (Z.lor TF_DSACK (Z.lor TF_REQ_TSTMP TF_RCVD_TSTMP)) in
  let peer := opt_conn TF_SACK_PERMIT 4096 in
  exists opt c1, seg_options opt_env (Some opt_rt) TH_ACK 0 (opt_conn fl 4096) = Some (opt, c1) /\ zlen opt = 40 /\
    tcp_dooptions opt_env None TH_ACK opt None peer =
    Some (mk_dopt (Some (77, 66)) [mk_sackblk 5 6; mk_sackblk 4294967290 3; mk_sackblk 20 30] false peer).
Proof.
  intros fl peer.
  destruct (tcp_options_roundtrip opt_env opt_env (Some opt_rt) None TH_ACK 0 (opt_conn fl 4096) peer)
    as (opt & c1 & E & _ & _ & R).
  - vm_compute. split; discriminate.
  - vm_compute. split; [discriminate|reflexivity].
  - vm_compute. split; [discriminate|reflexivity].
  - repeat apply Forall_cons_2; try apply Forall_nil_2; vm_compute; repeat split; (discriminate || reflexivity).
  - reflexivity.
  - exists opt, c1. split; [exact E|]. split; [|exact R].
    vm_compute in E. injection E as <- _. reflexivity.
Defined.

(** A send buffer of twelve octets and time stamps: the segment size after the SYN is
    zero; with one octet it is 65525. *)
Example maxseg_wraps :
  let syn := [TCPOPT_MAXSEG; 4; 5; 180; TCPOPT_NOP; TCPOPT_NOP; TCPOPT_TIMESTAMP; 10; 0; 0; 0; 1; 0; 0; 0; 0] in
  let size h := option_map (fun o => t_maxseg (c_tp (o_c o)))
    (tcp_dooptions opt_env (Some opt_rt) TH_SYN syn None (opt_conn TF_REQ_TSTMP h)) in
  size 12 = Some 0 /\ size 1 = Some 65525.
Proof. vm_compute. done. Qed.
