(* ===== verification/TcpOutput.v ===== *)
(** [tcp_output] ([netinet/tcp_output.c]): what to send, and sending it.

    A segment is its TCP header's fields, its options and its data.  The header mbuf, the
    copy of the data and [ip_output] are outside: at each attempt the environment says
    whether [MGETHDR] and [m_copy] succeed ([Mbuf.m_copym]: the copy has the bytes asked
    for) and what [ip_output] answers.  The ports and addresses, which the template
    supplies, the checksum ([InCksum]) and the trace are left out. *)
From S2P Require Import Prelude TcpVar TcpSack Mbuf Sockbuf Socket TcpReass TcpRtt TcpOpt IpOutput.

Record oseg := mk_oseg {
  os_seq : Z; os_ack : Z; os_flags : Z; os_win : Z; os_urp : Z; os_opt : list Z; os_data : list Z }.

Record attempt := mk_attempt { at_hdr : bool; at_copy : bool; at_error : Z }.

(** Counters of [struct tcpstat] of the output side. *)
Record tcpostat := mk_tcpostat {
  tcps_sndtotal : Z; tcps_sndpack : Z; tcps_sndbyte : Z; tcps_sndrexmitpack : Z;
  tcps_sndrexmitbyte : Z; tcps_sndacks : Z; tcps_sndprobe : Z; tcps_sndurg : Z;
  tcps_sndwinup : Z; tcps_sndctrl : Z; tcps_segstimed : Z }.
#[export] Instance tcpostat_eta : Eta tcpostat := fun s =>
  mk_tcpostat (tcps_sndtotal s) (tcps_sndpack s) (tcps_sndbyte s) (tcps_sndrexmitpack s)
    (tcps_sndrexmitbyte s) (tcps_sndacks s) (tcps_sndprobe s) (tcps_sndurg s)
    (tcps_sndwinup s) (tcps_sndctrl s) (tcps_segstimed s).

Definition ENETDOWN : Z := 50.
Definition EHOSTDOWN : Z := 64.


Definition tcp_outflags : list Z :=
  [Z.lor TH_RST TH_ACK; 0; TH_SYN; Z.lor TH_SYN TH_ACK; TH_ACK; TH_ACK;
   Z.lor TH_FIN TH_ACK; Z.lor TH_FIN TH_ACK; Z.lor TH_FIN TH_ACK; TH_ACK; TH_ACK].

(** * What to send

    The segment chosen: [off] and [len], whether there is more ([sendalot]), and for a
    hole of SACK recovery its sequence number ([sack_rxmit], [sack_seq]). *)
Record selection := mk_selection { e_off : Z; e_len : Z; e_more : bool; e_rx : bool; e_seq : Z }.

(** The window, and leaving the persist state when it is open. *)
Definition out_window (tp : tcpcb) : Z * tcpcb :=
  let win := s32 (Z.min (snd_wnd tp) (snd_cwnd tp)) in
  if t_force tp =? 0 then (win, tp)
  else if win =? 0 then (1, tp)
  else (win, set_timer TCPT_PERSIST 0 tp <| t_rxtshift ::= 0 |>).

(** From [snd_nxt] on, at most a segment; a window that closed pulls [snd_nxt] back. *)
Definition out_next (cc win : Z) (tp : tcpcb) : selection * tcpcb :=
  let off := s32 (snd_nxt tp - snd_una tp) in
  let len := s32 (Z.min cc (u32 win) - off) in
  let '(len, tp) :=
    if len <? 0 then
      (0, if win =? 0 then set_timer TCPT_REXMT 0 tp <| snd_nxt ::= snd_una tp |> else tp)
    else (len, tp) in
  (if t_maxseg tp <? len then mk_selection off (t_maxseg tp) true false 0
   else mk_selection off len false false 0, tp).

(** A hole. *)
Definition sel_hole (hs he : Z) (tp : tcpcb) : selection :=
  mk_selection (s32 (hs - snd_una tp)) (s32 (he - hs)) false true hs.

(** The segment cut to [t_maxseg], then to what is there. *)
Definition sel_cut (tp : tcpcb) (e : selection) : selection :=
  let e := if t_maxseg tp <? e_len e then mk_selection (e_off e) (t_maxseg tp) true (e_rx e) (e_seq e) else e in
  if e_len e <? 0 then mk_selection (e_off e) 0 (e_more e) (e_rx e) (e_seq e) else e.

(** RFC 6675: a lost hole, new data as the pipe allows, a rescue. *)
Definition out_holes (cc pipe : Z) (tp : tcpcb) : selection * tcpcb :=
  let '(hs, he, rx) := tcp_sack_nextseg tp in
  let '(e, tp) :=
    if rx : bool then (sel_hole hs he tp, tp)
    else
      let room := s32 (s32 (snd_cwnd tp) - s32 pipe) in
      let off := s32 (snd_max tp - snd_una tp) in
      let len := s32 (Z.min cc (snd_wnd tp) - off) in
      let len := if room <? len then room else len in
      match (if (len <=? 0) && negb (tflag tp TF_SACK_RESCUE) then tcp_sack_rescue tp else None) with
      | Some (hs, he) => (sel_hole hs he tp, add_flags TF_SACK_RESCUE tp)
      | None => (mk_selection off len false false 0, tp)
      end in
  (sel_cut tp e, tp).

(** The probe of a closed window during recovery. *)
Definition out_probe (cc : Z) (e : selection) (tp : tcpcb) : selection :=
  if (e_len e =? 0) && negb (t_force tp =? 0) && (snd_wnd tp =? 0) && SEQ_LT (snd_una tp) (snd_max tp) then
    let len := if s32 cc <? 1 then s32 cc else 1 in
    if len =? 0 then mk_selection 0 0 (e_more e) false 0 else mk_selection 0 len (e_more e) true (snd_una tp)
  else e.

(** SACK recovery in place of [out_next]'s choice. *)
Definition out_recover (fuel : nat) (cc : Z) (e : selection) (tp : tcpcb) : option (selection * tcpcb) :=
  if negb (tflag tp TF_SACK_RECOVER) then Some (e, tp) else
  pipe ← tcp_sack_pipe fuel tp;
  let '(e, tp) := if pipe <? snd_cwnd tp then out_holes cc pipe tp
                  else (mk_selection (e_off e) 0 false false 0, tp) in
  Some (out_probe cc e tp, tp).

(** The sequence number of the segment. *)
Definition sel_seq (e : selection) (tp : tcpcb) : Z := if e_rx e then e_seq e else snd_nxt tp.

(** Reasons to send: [win] is the space in the receive buffer. *)
Definition out_data_now (idle : bool) (cc : Z) (e : selection) (tp : tcpcb) : bool :=
  negb (e_len e =? 0) &&
  ((e_len e =? t_maxseg tp) ||
   (idle || tflag tp TF_NODELAY) && (cc <=? u32 (e_len e + e_off e)) ||
   negb (t_force tp =? 0) ||
   (max_sndwnd tp / 2 <=? u32 (e_len e)) ||
   SEQ_LT (snd_nxt tp) (snd_max tp)).

Definition out_win_update (win hiwat : Z) (tp : tcpcb) : bool :=
  (0 <? win) &&
  (let adv := s32 (win - (rcv_adv tp - rcv_nxt tp)) in
   (2 * t_maxseg tp <=? adv) || (s32 hiwat <=? s32 (2 * adv))).

Definition out_now (idle : bool) (cc flags win hiwat : Z) (e : selection) (tp : tcpcb) : bool :=
  tflag tp TF_SACK_RECOVER && (0 <? e_len e) ||
  out_data_now idle cc e tp ||
  out_win_update win hiwat tp ||
  tflag tp TF_ACKNOW ||
  has_flag flags (Z.lor TH_SYN TH_RST) ||
  SEQ_GT (snd_up tp) (snd_una tp) ||
  has_flag flags TH_FIN && (negb (tflag tp TF_SENTFIN) || (snd_nxt tp =? snd_una tp)).

(** Nothing is sent: a timer for what is queued. *)
Definition out_idle (cc : Z) (tp : tcpcb) : option tcpcb :=
  if negb (cc =? 0) && (timer tp TCPT_REXMT =? 0) && (timer tp TCPT_PERSIST =? 0) then
    if negb (tflag tp TF_SACK_RECOVER) then tcp_setpersist (tp <| t_rxtshift ::= 0 |>)
    else if SEQ_LT (snd_una tp) (snd_max tp) then
      if snd_wnd tp =? 0 then tcp_setpersist (tp <| t_rxtshift ::= 0 |>)
      else Some (set_timer TCPT_REXMT (t_rxtcur tp) tp)
    else Some tp
  else Some tp.

(** * Sending it *)

Definition count_data (len : Z) (tp : tcpcb) (st : tcpostat) : tcpostat :=
  if negb (t_force tp =? 0) && (len =? 1) then st <| tcps_sndprobe ::= tcps_sndprobe st + 1 |>
  else if SEQ_LT (snd_nxt tp) (snd_max tp) then
    st <| tcps_sndrexmitpack ::= tcps_sndrexmitpack st + 1 |>
       <| tcps_sndrexmitbyte ::= tcps_sndrexmitbyte st + len |>
  else st <| tcps_sndpack ::= tcps_sndpack st + 1 |> <| tcps_sndbyte ::= tcps_sndbyte st + len |>.

Definition count_empty (flags : Z) (tp : tcpcb) (st : tcpostat) : tcpostat :=
  if tflag tp TF_ACKNOW then st <| tcps_sndacks ::= tcps_sndacks st + 1 |>
  else if has_flag flags (Z.lor TH_SYN (Z.lor TH_FIN TH_RST)) then st <| tcps_sndctrl ::= tcps_sndctrl st + 1 |>
  else if SEQ_GT (snd_up tp) (snd_una tp) then st <| tcps_sndurg ::= tcps_sndurg st + 1 |>
  else st <| tcps_sndwinup ::= tcps_sndwinup st + 1 |>.

(** The window advertised, in bytes. *)
Definition out_adv_win (win hiwat : Z) (tp : tcpcb) : Z :=
  let win := if (win <? s32 (hiwat / 4)) && (win <? t_maxseg tp) then 0 else win in
  let top := s32 (Z.shiftl TCP_MAXWIN (rcv_scale tp)) in
  let win := if top <? win then top else win in
  let adv := s32 (rcv_adv tp - rcv_nxt tp) in
  if win <? adv then adv else win.

(** The timer behind a hole's retransmission. *)
Definition out_hole_timer (tp : tcpcb) : option tcpcb :=
  if (timer tp TCPT_REXMT =? 0) && negb (snd_nxt tp =? snd_una tp) && (timer tp TCPT_PERSIST =? 0) then
    if snd_wnd tp =? 0 then tcp_setpersist (tp <| t_rxtshift ::= 0 |>)
    else Some (set_timer TCPT_REXMT (t_rxtcur tp) tp)
  else Some tp.

(** [snd_max] follows [snd_nxt], and new data is timed. *)
Definition out_new (startseq : Z) (tp : tcpcb) (st : tcpostat) : tcpcb * tcpostat :=
  if SEQ_GT (snd_nxt tp) (snd_max tp) then
    let tp := tp <| snd_max ::= snd_nxt tp |> in
    if t_rtt tp =? 0 then (tp <| t_rtt ::= 1 |> <| t_rtseq ::= startseq |>,
                           st <| tcps_segstimed ::= tcps_segstimed st + 1 |>)
    else (tp, st)
  else (tp, st).

(** The retransmission timer, in the persist timer's place. *)
Definition out_rexmt (tp : tcpcb) : tcpcb :=
  if (timer tp TCPT_REXMT =? 0) && negb (snd_nxt tp =? snd_una tp) then
    let tp := set_timer TCPT_REXMT (t_rxtcur tp) tp in
    if timer tp TCPT_PERSIST =? 0 then tp else set_timer TCPT_PERSIST 0 tp <| t_rxtshift ::= 0 |>
  else tp.

(** A segment's sequence space is entered in the control block, and a timer started. *)
Definition out_account (flags len : Z) (e : selection) (tp : tcpcb) (st : tcpostat) : option (tcpcb * tcpostat) :=
  if e_rx e then
    let tp := if (0 <? len) && SEQ_GT (e_seq e + len) (snd_highrxt tp)
              then tp <| snd_highrxt ::= u32 (e_seq e + len) |> else tp in
    tp ← out_hole_timer tp;
    Some (tp, st)
  else if (t_force tp =? 0) || (timer tp TCPT_PERSIST =? 0) then
    let startseq := snd_nxt tp in
    let syn := if has_flag flags TH_SYN then 1 else 0 in
    let fin := if has_flag flags TH_FIN then 1 else 0 in
    let tp := if has_flag flags TH_FIN then add_flags TF_SENTFIN tp else tp in
    let tp := tp <| snd_nxt ::= u32 (startseq + syn + fin + len) |> in
    let '(tp, st) := out_new startseq tp st in
    Some (out_rexmt tp, st)
  else Some (if SEQ_GT (snd_nxt tp + len) (snd_max tp) then tp <| snd_max ::= u32 (snd_nxt tp + len) |> else tp, st).

(** [out:] with an error. *)
Definition out_failed (error cc : Z) (tp : tcpcb) : Z * tcpcb :=
  let tp := if negb (cc =? 0) && (timer tp TCPT_REXMT =? 0) && (timer tp TCPT_PERSIST =? 0) &&
               SEQ_LT (snd_una tp) (snd_max tp)
            then set_timer TCPT_REXMT (t_rxtcur tp) tp else tp in
  if error =? ENOBUFS then (0, tp <| snd_cwnd ::= t_maxseg tp |>)
  else if ((error =? EHOSTUNREACH) || (error =? ENETDOWN) || (error =? EHOSTDOWN)) &&
          TCPS_HAVERCVDSYN (t_state tp)
  then (0, tp <| t_softerror ::= error |>)
  else (error, tp).

(** A segment that went out. *)
Definition out_sent (win len : Z) (tp : tcpcb) : tcpcb :=
  let tp := if tflag tp TF_SACK_RECOVER then tp <| prr_out ::= u32 (prr_out tp + len) |> else tp in
  let tp := if (0 <? win) && SEQ_GT (rcv_nxt tp + win) (rcv_adv tp)
            then tp <| rcv_adv ::= u32 (rcv_nxt tp + win) |> else tp in
  del_flags (Z.lor TF_ACKNOW TF_DELACK) (tp <| last_ack_sent ::= rcv_nxt tp |>).

(** What [send] comes to: it went out; or it failed, with [tcp_output]'s value. *)
Inductive sending :=
  | Sent (s : oseg) (c : conn) (st : tcpostat)
  | Failed (error : Z) (s : option oseg) (c : conn) (st : tcpostat).

(** A FIN sent again keeps its sequence number. *)
Definition fin_again (flags : Z) (e : selection) (tp : tcpcb) : tcpcb :=
  if negb (e_rx e) && has_flag flags TH_FIN && tflag tp TF_SENTFIN && (snd_nxt tp =? snd_max tp)
  then tp <| snd_nxt ::= u32 (snd_nxt tp - 1) |> else tp.

(** The urgent pointer. *)
Definition out_urgent (flags : Z) (tp : tcpcb) : Z * Z * tcpcb :=
  if SEQ_GT (snd_up tp) (snd_nxt tp) then (u16 (snd_up tp - snd_nxt tp), Z.lor flags TH_URG, tp)
  else (0, flags, tp <| snd_up ::= snd_una tp |>).

(** [send:], after the options. *)
Definition out_send (a : attempt) (flags win : Z) (e : selection) (opt : list Z) (c : conn) (st : tcpostat)
  : option sending :=
  let cc := sb_cc (c_snd c) in
  let tp := c_tp c in
  let off := Z.max 0 (e_off e) in
  let st := if e_len e =? 0 then count_empty flags tp st else count_data (e_len e) tp st in
  if negb (at_hdr a) then
    let '(error, tp) := out_failed ENOBUFS cc tp in Some (Failed error None (set_tp tp c) st)
  else
    let fits := e_len e <=? MHLEN - (40 + zlen opt) - max_linkhdr in
    let len := if fits || at_copy a then e_len e else 0 in
    data ← blob (snd_bytes c) (if len =? 0 then 0 else off) len;
    let flags := if negb (e_len e =? 0) && (u32 (off + len) =? cc) then Z.lor flags TH_PUSH else flags in
    if negb (t_template tp) then None else
    let tp := fin_again flags e tp in
    let win := out_adv_win win (sb_hiwat (r_rcv (c_r c))) tp in
    let seq := sel_seq e tp in
    let '(urp, hflags, tp) := out_urgent flags tp in
    let s := mk_oseg seq (rcv_nxt tp) hflags (u16 (Z.shiftr win (rcv_scale tp))) urp opt data in
    '(tp, st) ← out_account flags len e tp st;
    Some (if negb (at_error a =? 0) then
            let '(error, tp) := out_failed (at_error a) cc tp in Failed error (Some s) (set_tp tp c) st
          else Sent s (set_tp (out_sent win len tp) c) (st <| tcps_sndtotal ::= tcps_sndtotal st + 1 |>)).

(** The FIN goes with the last octet only. *)
Definition out_mask (cc flags : Z) (e : selection) (tp : tcpcb) : Z :=
  let from := if tflag tp TF_SACK_RECOVER && (0 <? e_len e) then sel_seq e tp else snd_nxt tp in
  if SEQ_LT (from + e_len e) (snd_una tp + cc) then clear_flag flags TH_FIN else flags.

(** The decision, and [send:]; [None]: nothing to send. *)
Definition out_act (env : tcpenv) (rt : option rtinfo) (idle : bool) (a : attempt) (flags : Z) (e : selection)
    (c : conn) (st : tcpostat) : option (option (bool * sending) * conn) :=
  let cc := sb_cc (c_snd c) in
  let win := sbspace (r_rcv (c_r c)) in
  if out_now idle cc flags win (sb_hiwat (r_rcv (c_r c))) e (c_tp c) then
    '(opt, c) ← seg_options env rt flags (e_len e) c;
    s ← out_send a flags win e opt c st;
    Some (Some (e_more e, s), c)
  else
    tp ← out_idle cc (c_tp c);
    Some (None, set_tp tp c).

(** One turn, from [again:] on. *)
Definition out_turn (fuel : nat) (env : tcpenv) (rt : option rtinfo) (idle : bool) (a : attempt)
    (c : conn) (st : tcpostat) : option (option (bool * sending) * conn) :=
  let cc := sb_cc (c_snd c) in
  let '(win, tp) := out_window (c_tp c) in
  flags ← zget tcp_outflags (t_state tp);
  let '(e, tp) := out_next cc win tp in
  '(e, tp) ← out_recover fuel cc e tp;
  out_act env rt idle a (out_mask cc flags e tp) e (set_tp tp c) st.

(** The loop of [sendalot]: the segments given to [ip_output], in order. *)
Fixpoint out_loop (fuel : nat) (env : tcpenv) (rt : option rtinfo) (idle : bool) (w : nat -> attempt)
    (c : conn) (st : tcpostat) : option (Z * list oseg * conn * tcpostat) :=
  match fuel with
  | O => None
  | S n =>
      '(o, c) ← out_turn (S (Z.to_nat (u32 (snd_max (c_tp c) - snd_una (c_tp c))))) env rt idle (w 0%nat) c st;
      match o with
      | None => Some (0, [], c, st)
      | Some (_, Failed error s c st) => Some (error, match s with Some s => [s] | None => [] end, c, st)
      | Some (more, Sent s c st) =>
          if more : bool then
            '(error, segs, c, st) ← out_loop n env rt idle (fun i => w (S i)) c st;
            Some (error, s :: segs, c, st)
          else Some (0, [s], c, st)
      end
  end.

(** Everything acknowledged for a while: slow start again. *)
Definition out_restart (c : conn) : conn :=
  let tp := c_tp c in
  set_tp (if (snd_max tp =? snd_una tp) && (t_rxtcur tp <=? t_idle tp) then tp <| snd_cwnd ::= t_maxseg tp |> else tp) c.

Definition tcp_output (env : tcpenv) (rt : option rtinfo) (w : nat -> attempt) (c : conn) (st : tcpostat)
  : option (Z * list oseg * conn * tcpostat) :=
  let idle := snd_max (c_tp c) =? snd_una (c_tp c) in
  out_loop (Z.to_nat (2 * sb_cc (c_snd c) + 4)) env rt idle w (out_restart c) st.

(** * The invariant of the sending side

    Sequence numbers are measured from [snd_una]; [cc] octets are queued. *)
Definition nx (tp : tcpcb) : Z := rel (snd_una tp) (snd_nxt tp).
Definition mx (tp : tcpcb) : Z := rel (snd_una tp) (snd_max tp).
Definition hx (tp : tcpcb) : Z := rel (snd_una tp) (snd_highrxt tp).
Definition recovering (tp : tcpcb) : bool := tflag tp TF_SACK_RECOVER.
Definition forced (tp : tcpcb) : bool := negb (t_force tp =? 0).
Definition sends_fin (tp : tcpcb) : bool := (TCPS_FIN_WAIT_1 <=? t_state tp) && (t_state tp <=? 8).

Definition wordP (z : Z) : Prop := 0 <= z < 4294967296.

(** What is in flight was queued, a FIN being one octet more; in recovery new data goes
    out at [snd_max], unless the peer's window is closed. *)
Record numbers (cc : Z) (tp : tcpcb) : Prop := {
  nm_words : wordP (snd_una tp) /\ wordP (snd_nxt tp) /\ wordP (snd_max tp);
  nm_nxt : nx tp <= mx tp;
  nm_max : mx tp <= cc + (if tflag tp TF_SENTFIN then 1 else 0);
  nm_fin : tflag tp TF_SENTFIN = true -> sends_fin tp = true -> mx tp = cc + 1;
  nm_seg : 1 <= t_maxseg tp < 65536;
  nm_wnd : 0 <= snd_wnd tp < 1073741824;
  nm_cwnd : 1 <= snd_cwnd tp < 2147483648;
  nm_rec : recovering tp = true ->
    snd_ok tp /\ hx tp <= mx tp /\ (nx tp = mx tp \/ snd_wnd tp = 0) }.

(** The four timers; retransmission and persistence exclude each other. *)
Record clocks (tp : tcpcb) : Prop := {
  ck_wf : timers_wf tp;
  ck_rto : rto_ok tp;
  ck_one : timer tp TCPT_REXMT = 0 \/ timer tp TCPT_PERSIST = 0 }.

Definition armed (tp : tcpcb) : Prop := timer tp TCPT_REXMT <> 0 \/ timer tp TCPT_PERSIST <> 0.

(** What [tcp_output] leaves alone. *)
Definition same_conn (tp tp' : tcpcb) : Prop :=
  t_state tp' = t_state tp /\ snd_una tp' = snd_una tp /\ snd_wnd tp' = snd_wnd tp /\
  t_maxseg tp' = t_maxseg tp /\ t_force tp' = t_force tp /\ rcv_nxt tp' = rcv_nxt tp /\
  snd_sackblks tp' = snd_sackblks tp /\ recovering tp' = recovering tp /\
  t_template tp' = t_template tp.

Lemma same_conn_refl tp : same_conn tp tp.
Proof. done. Qed.
Lemma same_conn_trans a b c : same_conn a b -> same_conn b c -> same_conn a c.
Proof. unfold same_conn. intros (?&?&?&?&?&?&?&?&?) (?&?&?&?&?&?&?&?&?). split_and!; congruence. Qed.

(** The numbers do not depend on the timers, the back-off, nor on the flags they do not
    mention. *)
Lemma numbers_same cc tp tp' :
  same_conn tp tp' -> snd_nxt tp' = snd_nxt tp -> snd_max tp' = snd_max tp ->
  snd_cwnd tp' = snd_cwnd tp -> snd_highrxt tp' = snd_highrxt tp ->
  tflag tp' TF_SENTFIN = tflag tp TF_SENTFIN -> numbers cc tp -> numbers cc tp'.
Proof.
  intros (Es & Eu & Ew & Em & Ef & Er & Eb & Ec & Et) En Ex Ecw Eh Esf [].
  unfold nx, mx, hx, sends_fin, snd_ok in *. split; unfold nx, mx, hx, sends_fin, snd_ok;
    rewrite ?Es, ?Eu, ?Ew, ?Em, ?En, ?Ex, ?Ecw, ?Eh, ?Esf, ?Eb, ?Ec; done.
Qed.

Lemma rel_eqb a b : wordP a -> wordP b -> (b =? a) = (rel a b =? 0).
Proof. unfold wordP, rel. intros. destruct (b =? a) eqn:?, (_ =? 0) eqn:?; word_solve. Qed.

Lemma tflag_lor f g tp : tflag (add_flags g tp) f = tflag tp f || negb (Z.land g f =? 0).
Proof.
  unfold tflag, has_flag, add_flags. cbn. rewrite Z.land_lor_distr_l.
  destruct (Z.land (t_flags tp) f =? 0) eqn:E1.
  - apply Z.eqb_eq in E1. rewrite E1. by rewrite Z.lor_0_l.
  - cbn. apply negb_true_iff, Z.eqb_neq. intros H%Z.lor_eq_0_iff. lia.
Qed.
Lemma tflag_andnot f g tp : Z.land g f = 0 -> tflag (del_flags g tp) f = tflag tp f.
Proof.
  intros H. unfold tflag, has_flag, del_flags. cbn. do 2 f_equal.
  apply Z.bits_inj. intros n. rewrite !Z.land_spec.
  destruct (decide (0 <= n)) as [Hn|Hn]; [|by rewrite !(Z.testbit_neg_r _ n) by lia].
  rewrite Z.lnot_spec by done. pose proof (f_equal (fun z => Z.testbit z n) H) as Hb.
  cbn beta in Hb. rewrite Z.land_spec, Z.bits_0 in Hb.
  destruct (Z.testbit (t_flags tp) n), (Z.testbit g n), (Z.testbit f n); done.
Qed.

(** ** Timers *)

(** The clocks depend on the timers and the back-off only. *)
Lemma clocks_same tp tp' :
  t_timer tp' = t_timer tp -> t_rttmin tp' = t_rttmin tp -> t_rxtcur tp' = t_rxtcur tp ->
  0 <= t_rxtshift tp' <= TCP_MAXRXTSHIFT -> clocks tp -> clocks tp'.
Proof.
  intros Et Em Ec Hs [Hw (H1 & H2 & _) Ho]. unfold timers_wf, timer in *.
  split; unfold timers_wf, rto_ok, timer; rewrite ?Et, ?Em, ?Ec; done.
Qed.

Lemma clocks_eq tp tp' :
  t_timer tp' = t_timer tp -> t_rttmin tp' = t_rttmin tp -> t_rxtcur tp' = t_rxtcur tp ->
  t_rxtshift tp' = t_rxtshift tp -> clocks tp -> clocks tp'.
Proof.
  intros ??? Es Hc. apply (clocks_same tp); try done. rewrite Es. by destruct Hc as [_ (_ & _ & ?) _].
Qed.

Lemma timer_set i j v tp :
  timers_wf tp -> 0 <= i < 4 -> timer (set_timer i v tp) j = if j =? i then v else timer tp j.
Proof.
  intros Hw Hi. destruct (j =? i) eqn:E.
  - apply Z.eqb_eq in E as ->. by apply timer_set_eq.
  - apply timer_set_ne. lia.
Qed.

Lemma clocks_set i v tp :
  clocks tp -> 0 <= i < 4 ->
  (i = TCPT_REXMT -> v <> 0 -> timer tp TCPT_PERSIST = 0) ->
  (i = TCPT_PERSIST -> v <> 0 -> timer tp TCPT_REXMT = 0) -> clocks (set_timer i v tp).
Proof.
  intros [Hw Hr Ho] Hi H1 H2. split; [by apply timers_wf_set|done|].
  rewrite !timer_set by done. unfold TCPT_REXMT, TCPT_PERSIST in *.
  destruct (0 =? i) eqn:?, (1 =? i) eqn:?; lia.
Qed.

Lemma clocks_clear i tp : clocks tp -> 0 <= i < 4 -> clocks (set_timer i 0 tp).
Proof. intros. by apply clocks_set. Qed.

Lemma rexmt_armed tp :
  clocks tp -> timer tp TCPT_PERSIST = 0 ->
  clocks (set_timer TCPT_REXMT (t_rxtcur tp) tp) /\ armed (set_timer TCPT_REXMT (t_rxtcur tp) tp).
Proof.
  intros Hc Hp. pose proof Hc as [Hw (Hm & Hr & _) _]. split; [by apply clocks_set|].
  left. rewrite timer_set_eq by done. lia.
Qed.

Lemma persist_armed tp :
  clocks tp -> timer tp TCPT_REXMT = 0 ->
  exists v k, tcp_setpersist (tp <| t_rxtshift ::= 0 |>)
      = Some (set_timer TCPT_PERSIST v tp <| t_rxtshift ::= k |>) /\
    let tp' := set_timer TCPT_PERSIST v tp <| t_rxtshift ::= k |> in clocks tp' /\ armed tp'.
Proof.
  intros Hc Hx. pose proof Hc as [Hw Hr Ho].
  destruct (tcp_setpersist_ok (tp <| t_rxtshift ::= 0 |>)) as (v & k & E & Hv & Hk); [exact Hw| |exact Hx|].
  { destruct Hr as (H1 & H2 & _). split; [exact H1|]. split; [exact H2|]. change (0 <= 0 <= 12). lia. }
  exists v, k. split; [exact E|]. cbv zeta.
  assert (Ha : timer (set_timer TCPT_PERSIST v tp) TCPT_PERSIST = v) by (by apply timer_set_eq).
  split.
  - eapply (clocks_same (set_timer TCPT_PERSIST v tp)); [done..| |].
    + cbn in Hk |- *. unfold TCP_MAXRXTSHIFT in *. lia.
    + by apply clocks_set.
  - right. change (timer (set_timer TCPT_PERSIST v tp) TCPT_PERSIST <> 0). rewrite Ha.
    unfold TCPTV_PERSMIN, PR_SLOWHZ in *. lia.
Qed.

(** ** The choice *)

(** What is chosen: [win] bounds new data, [tp0] is the block before. *)
Record sel_ok (cc win : Z) (e : selection) (tp : tcpcb) : Prop := {
  se_len : 0 <= e_len e <= t_maxseg tp;
  se_off : 0 < e_len e -> e_off e = rel (snd_una tp) (sel_seq e tp) /\ 0 <= e_off e /\ e_off e + e_len e <= cc;
  se_win : 0 < e_len e -> e_off e + e_len e <= Z.max (mx tp) win;
  se_rx : e_rx e = true -> 0 < e_len e /\ e_off e + e_len e <= mx tp /\ recovering tp = true;
  se_nxt : e_rx e = false -> 0 < e_len e -> recovering tp = true -> nx tp = mx tp;
  se_more : e_more e = true -> e_len e = t_maxseg tp /\ (e_rx e = true -> hx tp <= e_off e) /\
    (e_rx e = false -> t_force tp = 0 \/ timer tp TCPT_PERSIST = 0) }.

(** [Z.min (snd_wnd tp) (snd_cwnd tp)], or one octet when forced into a closed window. *)
Definition usable (tp : tcpcb) : Z :=
  let win := Z.min (snd_wnd tp) (snd_cwnd tp) in if forced tp && (win =? 0) then 1 else win.

Lemma usable_cases tp :
  let win := Z.min (snd_wnd tp) (snd_cwnd tp) in
  usable tp = win /\ (forced tp = true -> win <> 0) \/
  usable tp = 1 /\ win = 0 /\ forced tp = true.
Proof. unfold usable. cbv zeta. destruct (forced tp), (_ =? 0) eqn:E; cbn [andb]; lia. Qed.

Lemma out_window_ok cc tp win tp' :
  numbers cc tp -> clocks tp -> out_window tp = (win, tp') ->
  win = usable tp /\ same_conn tp tp' /\ numbers cc tp' /\ clocks tp' /\
  snd_nxt tp' = snd_nxt tp /\ snd_cwnd tp' = snd_cwnd tp /\ mx tp' = mx tp /\ hx tp' = hx tp /\
  (t_force tp' = 0 \/ timer tp' TCPT_PERSIST = 0 \/ Z.min (snd_wnd tp) (snd_cwnd tp) = 0).
Proof.
  intros Hn Hc E. pose proof (nm_wnd _ _ Hn). pose proof (nm_cwnd _ _ Hn). unfold out_window in E.
  rewrite s32_small in E by lia. unfold usable, forced.
  destruct (t_force tp =? 0) eqn:Ef; cbn [negb andb].
  - injection E as <- <-. split_and!; try done. left. lia.
  - destruct (Z.min _ _ =? 0) eqn:Ew; injection E as <- <-.
    + split_and!; try done. right. right. lia.
    + pose proof (ck_wf _ Hc). split_and!; try done.
      * by eapply (numbers_same cc tp).
      * eapply (clocks_same (set_timer TCPT_PERSIST 0 tp)); [done..|done|]. by apply clocks_clear.
      * right. left. change (timer (set_timer TCPT_PERSIST 0 tp) TCPT_PERSIST = 0). by apply timer_set_eq.
Qed.

Lemma s32_rel2 una x : wordP una -> wordP x -> rel una x < 2147483648 -> s32 (x - una) = rel una x.
Proof. unfold wordP, rel. intros. word_solve. Qed.

Lemma out_next_ok cc tp e tp' :
  0 <= cc < 536870912 -> numbers cc tp -> clocks tp -> out_next cc (usable tp) tp = (e, tp') ->
  (t_force tp = 0 \/ timer tp TCPT_PERSIST = 0 \/ Z.min (snd_wnd tp) (snd_cwnd tp) = 0) ->
  same_conn tp tp' /\ numbers cc tp' /\ clocks tp' /\ mx tp' = mx tp /\ hx tp' = hx tp /\
  snd_cwnd tp' = snd_cwnd tp /\ (timer tp' TCPT_PERSIST = timer tp TCPT_PERSIST) /\
  e_rx e = false /\ (e_more e = true -> nx tp' = nx tp) /\
  (recovering tp = false -> sel_ok cc (usable tp) e tp').
Proof.
  intros Hcc Hn Hc E Hf. pose proof Hn as [(W1 & W2 & W3) N1 N2 N3 N4 N5 N6 N7].
  pose proof (usable_cases tp) as Hu. cbv zeta in Hu.
  assert (Hx : 0 <= nx tp <= cc + 1)
    by (pose proof (rel_range (snd_una tp) (snd_nxt tp)); unfold nx in *; case_match; lia).
  unfold out_next in E. rewrite (s32_rel2 (snd_una tp) (snd_nxt tp)), u32_small in E by (done || (unfold nx in *; lia)).
  fold (nx tp) in E. rewrite (s32_small (_ - _)) in E by lia.
  destruct (_ <? 0) eqn:El.
  - assert (E' : e = mk_selection (nx tp) 0 false false 0).
    { destruct (usable tp =? 0); injection E as <- <-; cbn; (destruct (t_maxseg tp <? 0) eqn:?; [lia|done]). }
    assert (Hsel : forall t, same_conn tp t -> sel_ok cc (usable tp) e t).
    { intros t (_ & _ & _ & Em & _). subst e. split; cbn; rewrite ?Em; try done; lia. }
    destruct (usable tp =? 0) eqn:Ew; injection E as _ <-; [|split_and!; try done; [by subst e|intros; by apply Hsel]].
    assert (Hs : same_conn tp (set_timer TCPT_REXMT 0 tp <| snd_nxt ::= snd_una tp |>)) by done.
    split_and!; try done; [| | |by subst e|by subst e|intros; by apply Hsel].
    + assert (Hw0 : snd_wnd tp = 0) by lia.
      split; unfold nx, mx, hx in *; cbn; try done; rewrite ?rel_self; [by apply rel_range|].
      intros Hr. destruct (N7 Hr) as (K1 & K2 & K3). split; [done|]. split; [done|]. by right.
    + apply (clocks_eq (set_timer TCPT_REXMT 0 tp)); [done..|]. by apply clocks_clear.
    + change (timer (set_timer TCPT_REXMT 0 tp) TCPT_PERSIST = timer tp TCPT_PERSIST). by apply timer_set_ne.
  - set (len := Z.min cc (usable tp) - nx tp) in *.
    assert (Ht : tp' = tp) by (by destruct (_ <? len); injection E).
    subst tp'. split_and!; try done; [by destruct (_ <? len); injection E as <-|].
    intros Hr. assert (Hb : forall m n, 0 <= n <= len -> n <= t_maxseg tp ->
      (m = true -> n = t_maxseg tp /\ n < len) -> sel_ok cc (usable tp) (mk_selection (nx tp) n m false 0) tp).
    { intros m n Hn1 Hn2 Hm. split; cbn; try done; try lia.
      intros _. unfold sel_seq, nx in *. cbn. lia. }
    destruct (_ <? len) eqn:El2; injection E as <-; apply Hb; lia || done.
Qed.

(** A hole the scans offer lies below data the peer has, so it is queued data. *)
Lemma hole_ok cc tp hs he :
  numbers cc tp -> recovering tp = true -> tcp_sack_rescue tp = Some (hs, he) ->
  let e := sel_hole hs he tp in
  0 < e_len e /\ e_off e = rel (snd_una tp) hs /\ hx tp <= e_off e /\ e_off e + e_len e <= cc /\
  e_off e + e_len e <= mx tp.
Proof.
  intros Hn Hr E. destruct (nm_rec _ _ Hn Hr) as (Hok & Hh & _).
  pose proof (rescue_spec tp Hok Hh) as Hs. rewrite E in Hs.
  destruct Hs as ((H1 & H2 & _) & _ & (H3 & H4) & _ & H5). pose proof Hok as (Hm & Hsort & _).
  apply sacked_at_spec in H5. eapply sorted_covered_lo in H5; [|exact Hsort].
  pose proof (nm_max _ _ Hn) as Hmx. unfold mx, hx, wordP in *.
  assert (E1 : s32 (hs - snd_una tp) = rel (snd_una tp) hs) by (unfold rel in *; word_solve).
  assert (E2 : s32 (he - hs) = rel (snd_una tp) he - rel (snd_una tp) hs) by (unfold rel in *; word_solve).
  cbn. rewrite E1, E2. case_match; lia.
Qed.

(** New data: up to the peer's window outside recovery as the congestion window allows. *)
Definition allowed (tp : tcpcb) : Z := if recovering tp then snd_wnd tp else usable tp.

Lemma sel_rx_ok cc win tp e :
  recovering tp = true -> e_rx e = true -> 0 < e_len e <= t_maxseg tp ->
  e_off e = rel (snd_una tp) (e_seq e) -> e_off e + e_len e <= cc -> e_off e + e_len e <= mx tp ->
  (e_more e = true -> e_len e = t_maxseg tp /\ hx tp <= e_off e) -> sel_ok cc win e tp.
Proof.
  intros Hr Hx Hl Ho Hc Hm Hmo. pose proof (rel_range (snd_una tp) (e_seq e)).
  split; unfold sel_seq; rewrite ?Hx; try done; lia.
Qed.

Lemma sel_none_ok cc win tp e :
  1 <= t_maxseg tp -> e_len e = 0 -> e_more e = false -> e_rx e = false -> sel_ok cc win e tp.
Proof. intros Hm E1 E2 E3. split; rewrite ?E1, ?E2, ?E3; done || lia. Qed.

Lemma sel_cut_hole cc tp hs he :
  numbers cc tp -> recovering tp = true -> tcp_sack_rescue tp = Some (hs, he) ->
  sel_ok cc (allowed tp) (sel_cut tp (sel_hole hs he tp)) tp.
Proof.
  intros Hn Hr E. destruct (hole_ok cc tp hs he Hn Hr E) as (H1 & H2 & H3 & H4 & H5).
  pose proof (nm_seg _ _ Hn). unfold sel_cut. set (e := sel_hole hs he tp) in *.
  destruct (t_maxseg tp <? e_len e) eqn:El; cbn [e_len]; (destruct (_ <? 0) eqn:E0; [lia|]);
    apply sel_rx_ok; cbn [e_len e_off e_rx e_seq e_more]; done || lia.
Qed.

Lemma out_holes_ok cc pipe tp e tp' :
  0 <= cc < 536870912 -> numbers cc tp -> clocks tp -> recovering tp = true ->
  0 <= pipe < snd_cwnd tp -> out_holes cc pipe tp = (e, tp') ->
  (t_force tp = 0 \/ timer tp TCPT_PERSIST = 0 \/ snd_wnd tp = 0) ->
  (tp' = tp \/ tp' = add_flags TF_SACK_RESCUE tp) /\ sel_ok cc (allowed tp) e tp.
Proof.
  intros Hcc Hn Hc Hr Hp E Hf. unfold out_holes in E.
  pose proof Hn as [(W1 & W2 & W3) N1 N2 N3 N4 N5 N6 N7]. destruct (N7 Hr) as (Hok & Hh & Hnx).
  assert (Hx : 0 <= mx tp <= cc + 1) by (pose proof (rel_range (snd_una tp) (snd_max tp)); unfold mx in *; case_match; lia).
  assert (Hnext : tcp_sack_nextseg tp = (snd_max tp, snd_max tp, false) \/
    exists hs he, tcp_sack_nextseg tp = (hs, he, true) /\ tcp_sack_rescue tp = Some (hs, he)).
  { unfold tcp_sack_nextseg. rewrite nextseg_rescue. fold (tcp_sack_rescue tp).
    destruct (tcp_sack_rescue tp) as [[hs he]|]; cbn [mbind option_bind]; [|by left].
    destruct (tcp_sack_islost tp hs); [right; by exists hs, he|by left]. }
  destruct Hnext as [Hnext|(hs & he & Hnext & Hres)]; rewrite Hnext in E.
  2: { injection E as <- <-. split; [by left|]. by apply sel_cut_hole. }
  rewrite (s32_rel2 (snd_una tp) (snd_max tp)) in E by (done || (unfold mx in *; lia)). fold (mx tp) in E.
  rewrite (s32_small (snd_cwnd tp)), (s32_small pipe), !s32_small in E by lia. set (room := snd_cwnd tp - pipe) in *.
  set (len := if room <? Z.min cc (snd_wnd tp) - mx tp then room else Z.min cc (snd_wnd tp) - mx tp) in *.
  assert (Hlen : len <= Z.min cc (snd_wnd tp) - mx tp) by (unfold len; clear; destruct (room <? _) eqn:?; lia).
  destruct (if (len <=? 0) && _ then _ else _) as [[hs he]|] eqn:Er; injection E as <- <-.
  - split; [by right|]. destruct (_ && _); [|done]. by apply (sel_cut_hole cc tp hs he).
  - split; [by left|]. clearbody len. unfold sel_cut. cbn [e_len e_off e_more e_rx e_seq].
    assert (Hb : forall m n, 0 <= n <= Z.max 0 len -> n <= t_maxseg tp ->
      (m = true -> n = t_maxseg tp) -> sel_ok cc (allowed tp) (mk_selection (mx tp) n m false 0) tp).
    { intros m n H1 H2 Hm. unfold allowed. rewrite Hr.
      split; unfold sel_seq; cbn; try done; try lia.
      intros Hn0. split; [|lia]. unfold nx, mx in *. lia. }
    destruct (t_maxseg tp <? len) eqn:El; cbn [e_len]; (destruct (_ <? 0) eqn:E0); apply Hb; done || lia.
Qed.

Lemma seq_lt_una tp : snd_ok tp -> SEQ_LT (snd_una tp) (snd_max tp) = (0 <? mx tp).
Proof.
  intros (Hm & _). rewrite (SEQ_LT_rel (snd_una tp)); [by rewrite rel_self| |]; unfold inwin, mx in *;
    rewrite ?rel_self; lia.
Qed.

Lemma out_probe_ok cc win e tp :
  0 <= cc < 536870912 -> 1 <= t_maxseg tp -> snd_ok tp -> recovering tp = true ->
  sel_ok cc win e tp -> sel_ok cc win (out_probe cc e tp) tp.
Proof.
  intros Hcc Hm Hok Hr Hs. unfold out_probe. rewrite seq_lt_una, s32_small by (done || lia).
  destruct (e_len e =? 0) eqn:El; [|done].
  assert (Hmo : e_more e = false) by (destruct (e_more e) eqn:E; [destruct (se_more _ _ _ _ Hs E); lia|done]).
  destruct (_ && _) eqn:Ec; [|done]. destruct (cc <? 1) eqn:E1.
  - destruct (cc =? 0) eqn:E2; [by apply sel_none_ok|lia].
  - destruct (1 =? 0) eqn:E2; [done|]. rewrite Hmo.
    apply sel_rx_ok; cbn [e_rx e_len e_off e_seq e_more]; rewrite ?rel_self; done || lia.
Qed.

Lemma out_recover_ok fuel cc e tp :
  0 <= cc < 536870912 -> numbers cc tp -> clocks tp -> mx tp < Z.of_nat fuel ->
  (t_force tp = 0 \/ timer tp TCPT_PERSIST = 0 \/ snd_wnd tp = 0) -> e_rx e = false ->
  (recovering tp = false -> sel_ok cc (allowed tp) e tp) ->
  exists e' tp', out_recover fuel cc e tp = Some (e', tp') /\
    (tp' = tp \/ recovering tp = true /\ tp' = add_flags TF_SACK_RESCUE tp) /\
    (recovering tp = false -> e' = e) /\ sel_ok cc (allowed tp) e' tp.
Proof.
  intros Hcc Hn Hc Hfu Hf Hrx Hs. unfold out_recover. fold (recovering tp).
  destruct (recovering tp) eqn:Hr; cbn [negb]; [|exists e, tp; split_and!; [done|by left|done|by apply Hs]].
  destruct (nm_rec _ _ Hn Hr) as (Hok & Hh & _). pose proof (nm_seg _ _ Hn) as Hm.
  destruct (pipe_eq tp fuel Hok Hh ltac:(lia) Hfu) as [-> Hpipe]. cbn [mbind option_bind].
  destruct (pipe_spec tp <? snd_cwnd tp) eqn:Ep.
  - destruct (out_holes cc (pipe_spec tp) tp) as [e' tp'] eqn:Eh.
    destruct (out_holes_ok cc (pipe_spec tp) tp e' tp') as [Ht He]; try done; [lia|].
    exists (out_probe cc e' tp'), tp'. split; [done|]. split; [destruct Ht; [by left|right; done]|]. split; [done|].
    replace (out_probe cc e' tp') with (out_probe cc e' tp) by (by destruct Ht as [->| ->]).
    apply out_probe_ok; done || lia.
  - exists (out_probe cc (mk_selection (e_off e) 0 false false 0) tp), tp. split; [done|]. split; [by left|]. split; [done|].
    apply out_probe_ok; try done; [lia|]. apply sel_none_ok; done || lia.
Qed.

(** The choice, up to the decision. *)
Lemma out_choice_ok cc tp win tp1 e tp2 fuel :
  0 <= cc < 536870912 -> numbers cc tp -> clocks tp -> mx tp < Z.of_nat fuel ->
  out_window tp = (win, tp1) -> out_next cc win tp1 = (e, tp2) ->
  exists e' tp', out_recover fuel cc e tp2 = Some (e', tp') /\
    same_conn tp tp' /\ numbers cc tp' /\ clocks tp' /\ mx tp' = mx tp /\ hx tp' = hx tp /\
    snd_cwnd tp' = snd_cwnd tp /\ (t_force tp' = 0 \/ timer tp' TCPT_PERSIST = 0 \/ snd_wnd tp' = 0) /\
    (e_more e' = true -> recovering tp = true \/ nx tp' = nx tp) /\ sel_ok cc (allowed tp) e' tp'.
Proof.
  intros Hcc Hn Hc Hfu E1 E2.
  destruct (out_window_ok cc tp win tp1 Hn Hc E1) as (-> & S1 & N1 & C1 & X1 & W1 & M1 & H1 & F1).
  assert (Hus : usable tp1 = usable tp).
  { destruct S1 as (_ & _ & Ew & _ & Ef & _). unfold usable, forced. by rewrite Ew, Ef, W1. }
  assert (Hmin : Z.min (snd_wnd tp) (snd_cwnd tp) = Z.min (snd_wnd tp1) (snd_cwnd tp1)).
  { destruct S1 as (_ & _ & Ew & _). by rewrite Ew, W1. }
  rewrite <- Hus in E2. rewrite Hmin in F1.
  destruct (out_next_ok cc tp1 e tp2 Hcc N1 C1 E2 F1) as (S2 & N2 & C2 & M2 & H2 & W2 & P2 & R2 & X2 & K2).
  pose proof (same_conn_trans _ _ _ S1 S2) as S12. pose proof S12 as (_ & _ & Ew & _ & Ef & _ & _ & Er & _).
  pose proof S2 as (_ & _ & Ew2 & _ & Ef2 & _ & _ & Er2 & _).
  assert (Hal : allowed tp2 = allowed tp).
  { unfold allowed, usable, forced. by rewrite Er, Ew, Ef, W2, W1. }
  assert (F2 : t_force tp2 = 0 \/ timer tp2 TCPT_PERSIST = 0 \/ snd_wnd tp2 = 0)
    by (rewrite P2, Ef2, Ew2; pose proof (nm_cwnd _ _ N1); lia).
  destruct (out_recover_ok fuel cc e tp2) as (e' & tp' & E3 & Ht & Hsame & Hs); try done.
  { rewrite M2, M1. done. }
  { intros Hr. rewrite Hal. unfold allowed. rewrite <- Er, Hr, <- Hus. apply K2. by rewrite <- Er2. }
  exists e', tp'. split; [done|]. rewrite Hal in Hs.
  assert (Hmo : e_more e' = true -> recovering tp = true \/ nx tp2 = nx tp).
  { destruct (recovering tp) eqn:Hr; [by left|]. rewrite Hsame by done. intros Hm. right. rewrite X2 by done.
    unfold nx. rewrite X1. f_equal. apply S1. }
  destruct Ht as [->|[Hr ->]]; [split_and!; try done; congruence|].
  assert (S3 : same_conn tp2 (add_flags TF_SACK_RESCUE tp2)).
  { unfold same_conn, recovering. rewrite tflag_lor. by rewrite orb_false_r. }
  split_and!; [by eapply same_conn_trans| | |change (mx tp2 = mx tp); congruence|change (hx tp2 = hx tp); congruence|
    change (snd_cwnd tp2 = snd_cwnd tp); congruence|exact F2|exact Hmo|].
  - eapply (numbers_same cc tp2); try done. rewrite tflag_lor. by rewrite orb_false_r.
  - by apply (clocks_eq tp2).
  - destruct Hs as [K1 K3 K4 K5 K6 K7].
    assert (Hrec : recovering (add_flags TF_SACK_RESCUE tp2) = recovering tp2) by (apply S3).
    split; rewrite ?Hrec; done.
Qed.

(** ** The accounts *)

Lemma sorted_hi base lo hi hi' l : hi <= hi' -> sorted base lo hi l -> sorted base lo hi' l.
Proof.
  intros Hh. revert lo. induction l as [|b r IH]; intros lo; [done|]. intros (?&?&?&Hs). cbn.
  split_and!; try lia. by apply IH.
Qed.

Lemma rel_add una x n : 0 <= n -> rel una x + n < 4294967296 -> rel una (u32 (x + n)) = rel una x + n.
Proof. unfold rel. intros. word_solve. Qed.

Lemma rel_inj a x y : wordP x -> wordP y -> rel a x = rel a y -> x = y.
Proof. unfold wordP, rel. intros. word_solve. Qed.

(** A start of the retransmission timer, where one is due. *)
Lemma timer_due tp :
  clocks tp -> exists tp' v k,
    out_hole_timer tp = Some tp' /\ tp' = tp <| t_timer ::= v |> <| t_rxtshift ::= k |> /\ clocks tp' /\
    (snd_nxt tp' <> snd_una tp' -> armed tp').
Proof.
  intros Hc. unfold out_hole_timer. destruct (timer tp TCPT_REXMT =? 0) eqn:E1; cbn [andb].
  2: { exists tp, (t_timer tp), (t_rxtshift tp). split; [done|]. split; [by destruct tp|]. split; [done|]. left. lia. }
  destruct (snd_nxt tp =? snd_una tp) eqn:E2; cbn [andb negb].
  { exists tp, (t_timer tp), (t_rxtshift tp). split; [done|]. split; [by destruct tp|]. split; [done|lia]. }
  destruct (timer tp TCPT_PERSIST =? 0) eqn:E3.
  2: { exists tp, (t_timer tp), (t_rxtshift tp). split; [done|]. split; [by destruct tp|]. split; [done|]. right. lia. }
  destruct (snd_wnd tp =? 0).
  - destruct (persist_armed tp Hc) as (v & k & E & Hc' & Ha); [lia|]. rewrite E.
    eexists _, _, k. split; [done|]. split; [reflexivity|]. by split.
  - destruct (rexmt_armed tp Hc) as [Hc' Ha]; [lia|].
    eexists _, (t_timer (set_timer TCPT_REXMT (t_rxtcur tp) tp)), (t_rxtshift tp).
    split; [done|]. split; [by destruct tp|]. by split.
Qed.

Lemma rexmt_stage tp :
  clocks tp -> exists v k,
    out_rexmt tp = tp <| t_timer ::= v |> <| t_rxtshift ::= k |> /\ clocks (out_rexmt tp) /\
    (snd_nxt tp <> snd_una tp -> armed (out_rexmt tp)).
Proof.
  intros Hc. unfold out_rexmt. pose proof Hc as [Hw Hr Ho]. destruct (timer tp TCPT_REXMT =? 0) eqn:E1; cbn [andb].
  2: { exists (t_timer tp), (t_rxtshift tp). split; [by destruct tp|]. split; [done|]. left. lia. }
  destruct (snd_nxt tp =? snd_una tp) eqn:E2; cbn [negb].
  { exists (t_timer tp), (t_rxtshift tp). split; [by destruct tp|]. split; [done|lia]. }
  cbv zeta. assert (Hp : timer (set_timer TCPT_REXMT (t_rxtcur tp) tp) TCPT_PERSIST = timer tp TCPT_PERSIST)
    by (by apply timer_set_ne).
  rewrite Hp. destruct (timer tp TCPT_PERSIST =? 0) eqn:E3.
  - destruct (rexmt_armed tp Hc) as [Hc' Ha]; [lia|].
    exists (t_timer (set_timer TCPT_REXMT (t_rxtcur tp) tp)), (t_rxtshift tp). split; [by destruct tp|]. by split.
  - set (tp1 := set_timer TCPT_REXMT (t_rxtcur tp) tp). set (tp2 := set_timer TCPT_PERSIST 0 tp1 <| t_rxtshift ::= 0 |>).
    exists (t_timer tp2), 0. split; [done|].
    assert (Hw1 : timers_wf tp1) by (by apply timers_wf_set).
    assert (Hx : timer tp2 TCPT_REXMT = t_rxtcur tp).
    { change (timer (set_timer TCPT_PERSIST 0 tp1) TCPT_REXMT = t_rxtcur tp).
      rewrite timer_set_ne by done. by apply timer_set_eq. }
    destruct Hr as (Hm & Hcur & Hsh). split; [|left; lia].
    split; [by apply (timers_wf_set _ _ tp1)| |].
    + split; [exact Hm|]. split; [exact Hcur|]. change (0 <= 0 <= 12). lia.
    + right. change (timer (set_timer TCPT_PERSIST 0 tp1) TCPT_PERSIST = 0). by apply timer_set_eq.
Qed.

(** How much the loop can still do. *)
Definition todo (cc : Z) (tp : tcpcb) : Z :=
  if recovering tp then 2 * (cc + 1 - mx tp) + (mx tp - hx tp) else cc + 1 - nx tp.

(** [flags] has a FIN only when it comes right after the segment's data, all queued. *)
Definition fin_flags (cc flags : Z) (e : selection) (tp : tcpcb) : Prop :=
  has_flag flags TH_FIN = true ->
  sends_fin tp = true /\ (if e_rx e then e_off e + e_len e = cc else cc <= nx tp + e_len e).

Record accounted (cc win flags : Z) (e : selection) (tp tp1 tp' : tcpcb) : Prop := {
  ac_same : same_conn tp tp';
  ac_numbers : numbers cc tp';
  ac_clocks : clocks tp';
  ac_armed : snd_nxt tp' <> snd_una tp' -> armed tp';
  ac_max : mx tp <= mx tp';
  ac_cwnd : snd_cwnd tp' = snd_cwnd tp;
  ac_win : Z.min (mx tp') cc <= Z.max (Z.min (mx tp) cc) win;
  ac_off : 0 < e_len e -> rel (snd_una tp) (sel_seq e tp1) = e_off e;
  ac_fin : has_flag flags TH_FIN = true -> rel (snd_una tp) (sel_seq e tp1) + e_len e = cc;
  ac_sent : 0 < e_len e -> e_off e + e_len e <= mx tp';
  ac_todo : e_more e = true -> todo cc tp' < todo cc tp }.

Section account.
Context (cc win flags : Z) (e : selection) (tp : tcpcb) (st : tcpostat).
Context (Hcc : 0 <= cc < 536870912) (Hn : numbers cc tp) (Hc : clocks tp)
  (Hsyn : has_flag flags TH_SYN = false) (Hs : sel_ok cc win e tp) (Hfin : fin_flags cc flags e tp).

Lemma mx_range : 0 <= nx tp <= mx tp /\ mx tp <= cc + 1.
Proof using All.
  pose proof (nm_nxt _ _ Hn). pose proof (nm_max _ _ Hn). pose proof (rel_range (snd_una tp) (snd_nxt tp)).
  unfold nx in *. case_match; lia.
Qed.

Lemma account_hole : e_rx e = true ->
  exists tp' st', out_account flags (e_len e) e (fin_again flags e tp) st = Some (tp', st') /\
    accounted cc win flags e tp (fin_again flags e tp) tp'.
Proof using All.
  intros Hrx. destruct (se_rx _ _ _ _ Hs Hrx) as (Hl & Hm & Hr). destruct (nm_rec _ _ Hn Hr) as (Hok & Hh & Hnx).
  destruct (se_off _ _ _ _ Hs Hl) as (Ho & Ho0 & Ho1). pose proof mx_range as Hx.
  pose proof (nm_max _ _ Hn) as Hmax. pose proof (nm_fin _ _ Hn) as Hnf.
  assert (Hfa : fin_again flags e tp = tp) by (unfold fin_again; by rewrite Hrx). rewrite Hfa.
  unfold out_account. rewrite Hrx. destruct (0 <? e_len e) eqn:E0; [|lia]. cbn [andb].
  unfold sel_seq in *. rewrite Hrx in *.
  set (tp1 := if SEQ_GT _ _ then _ else _).
  assert (H1 : exists h, tp1 = tp <| snd_highrxt ::= h |> /\ rel (snd_una tp) h = Z.max (hx tp) (e_off e + e_len e)).
  { assert (E : rel (snd_una tp) (u32 (e_seq e + e_len e)) = e_off e + e_len e) by (rewrite rel_add; lia).
    unfold tp1. rewrite (SEQ_GT_rel (snd_una tp)); unfold inwin.
    - replace (rel (snd_una tp) (e_seq e + e_len e)) with (e_off e + e_len e)
        by (rewrite <- E; unfold rel; word_solve).
      fold (hx tp). destruct (hx tp <? _) eqn:E1.
      + exists (u32 (e_seq e + e_len e)). split; [done|]. lia.
      + exists (snd_highrxt tp). split; [by destruct tp|]. fold (hx tp). lia.
    - replace (rel (snd_una tp) (e_seq e + e_len e)) with (e_off e + e_len e)
        by (rewrite <- E; unfold rel; word_solve). lia.
    - fold (hx tp). lia. }
  clearbody tp1. destruct H1 as (h & -> & Hh1).
  destruct (timer_due (tp <| snd_highrxt ::= h |>)) as (tp' & v & k & E & Et & Hc' & Ha); [by apply (clocks_eq tp)|].
  rewrite E. cbn [mbind option_bind]. exists tp', st. split; [done|].
  assert (Hhx : hx tp' = Z.max (hx tp) (e_off e + e_len e)) by (by subst tp').
  assert (Hmx : mx tp' = mx tp) by (by subst tp'). assert (Hnx' : nx tp' = nx tp) by (by subst tp').
  assert (Hsm : same_conn tp tp') by (by subst tp').
  assert (Hrec : recovering tp' = true) by (by subst tp').
  split; unfold sel_seq; rewrite ?Hmx, ?Hrx; try done; try lia.
  - destruct Hn as [W N1 N2 N3 N4 N5 N6 N7]. split; rewrite ?Hmx, ?Hnx'; try (by subst tp').
    intros _. rewrite Hhx. split; [by subst tp'|]. split; [lia|by subst tp'].
  - by subst tp'.
  - intros Hf. destruct (Hfin Hf) as [_ Hf']. rewrite Hrx in Hf'. lia.
  - intros Hmo. destruct (se_more _ _ _ _ Hs Hmo) as (_ & Hh2 & _). specialize (Hh2 Hrx).
    unfold todo. rewrite Hrec, Hr, Hhx, Hmx. lia.
Qed.

(** Where the segment starts, when it is not a hole's. *)
Lemma fin_again_pos : e_rx e = false ->
  let tp1 := fin_again flags e tp in
  (exists s, tp1 = tp <| snd_nxt ::= s |> /\ wordP s) /\
  0 <= nx tp1 <= mx tp /\ (0 < e_len e -> nx tp1 = e_off e) /\
  (if has_flag flags TH_FIN then nx tp1 + e_len e = cc /\ nx tp <= nx tp1 + 1 /\ sends_fin tp = true
   else tp1 = tp).
Proof using All.
  intros Hrx tp1. pose proof mx_range as Hx. pose proof (nm_words _ _ Hn) as (W1 & W2 & W3).
  pose proof (nm_max _ _ Hn) as Hmax. pose proof (nm_fin _ _ Hn) as Hnf.
  assert (Hoff : 0 < e_len e -> nx tp = e_off e /\ e_off e + e_len e <= cc).
  { intros Hl. destruct (se_off _ _ _ _ Hs Hl) as (Ho & _ & Ho1). unfold sel_seq in Ho. rewrite Hrx in Ho. done. }
  pose proof (se_len _ _ _ _ Hs) as Hlen. unfold fin_flags in Hfin. rewrite Hrx in Hfin.
  assert (Heq : (snd_nxt tp =? snd_max tp) = (nx tp =? mx tp))
    by (unfold nx, mx, rel, wordP in *; destruct (_ =? _) eqn:?, (_ =? _) eqn:?; word_solve).
  unfold tp1, fin_again. rewrite Hrx, Heq. cbn [negb andb].
  destruct (has_flag flags TH_FIN) eqn:Hf; cbn [andb].
  2: { split; [exists (snd_nxt tp); split; [by destruct tp|done]|]. split; [lia|]. split; [lia|done]. }
  destruct (Hfin eq_refl) as [Hsf Hc1].
  destruct (tflag tp TF_SENTFIN) eqn:Hsent; cbn [andb].
  - specialize (Hnf eq_refl Hsf). destruct (nx tp =? mx tp) eqn:Enx.
    + assert (E : nx (tp <| snd_nxt ::= u32 (snd_nxt tp - 1) |>) = nx tp - 1)
        by (unfold nx, rel, wordP in *; cbn; word_solve).
      split; [exists (u32 (snd_nxt tp - 1)); split; [done|apply u32_range]|]. rewrite E.
      destruct (decide (0 < e_len e)); [lia|]. split; [lia|]. split; [lia|]. split; [lia|]. split; [lia|done].
    + split; [exists (snd_nxt tp); split; [by destruct tp|done]|]. split; [lia|]. split; [lia|].
      split; [|split; [lia|done]]. destruct (decide (0 < e_len e)); lia.
  - split; [exists (snd_nxt tp); split; [by destruct tp|done]|]. split; [lia|]. split; [lia|].
    split; [|split; [lia|done]]. destruct (decide (0 < e_len e)); lia.
Qed.

(** The numbers after [snd_nxt] and [snd_max] have moved over the segment. *)
Lemma numbers_moved tp' n :
  same_conn tp tp' -> wordP (snd_nxt tp') -> wordP (snd_max tp') -> snd_cwnd tp' = snd_cwnd tp ->
  snd_highrxt tp' = snd_highrxt tp -> nx tp' <= mx tp' ->
  0 <= n <= cc -> mx tp' = Z.max (mx tp) (n + (if tflag tp' TF_SENTFIN && negb (tflag tp TF_SENTFIN) then 1 else 0)) ->
  (tflag tp TF_SENTFIN = true -> tflag tp' TF_SENTFIN = true) ->
  (tflag tp' TF_SENTFIN = true -> tflag tp TF_SENTFIN = false -> n = cc) ->
  (recovering tp = true -> nx tp' = mx tp' \/ snd_wnd tp = 0) -> numbers cc tp'.
Proof using All.
  intros Hsm W1 W2 Ew Eh Hle Hn0 Hmx Hk1 Hk2 Hr. pose proof mx_range as Hx. pose proof Hsm as (Es & Eu & Ewn & Em & Ef & Er & Eb & Ec & Et).
  pose proof Hn as [(W3 & W4 & W5) N1 N2 N3 N4 N5 N6 N7].
  assert (Hsf : sends_fin tp' = sends_fin tp) by (unfold sends_fin; by rewrite Es).
  split; rewrite ?Eu, ?Em, ?Ewn, ?Ew, ?Ec, ?Hsf; try done.
  - destruct (tflag tp' TF_SENTFIN), (tflag tp TF_SENTFIN); cbn [andb negb] in *; lia.
  - intros K1 K2. rewrite K1 in *. destruct (tflag tp TF_SENTFIN); cbn [andb negb] in *.
    + specialize (N3 eq_refl K2). lia.
    + specialize (Hk2 eq_refl eq_refl). lia.
  - intros K. destruct (N7 K) as ((Hm & Hsort & Hlen) & Hh & _).
    assert (Hhx : hx tp' = hx tp) by (unfold hx; by rewrite Eu, Eh). rewrite Hhx.
    split; [|split; [lia|by apply Hr]]. unfold snd_ok. fold (mx tp') (mx tp) in *. rewrite Eu, Eb.
    split; [destruct (_ && _); lia|]. split; [|done]. eapply sorted_hi; [|exact Hsort]. lia.
Qed.

Lemma account_plain : e_rx e = false -> (t_force tp =? 0) || (timer tp TCPT_PERSIST =? 0) = true ->
  exists tp' st', out_account flags (e_len e) e (fin_again flags e tp) st = Some (tp', st') /\
    accounted cc win flags e tp (fin_again flags e tp) tp'.
Proof using All.
  intros Hrx Hbr. destruct (fin_again_pos Hrx) as ((s & Et1 & Ws) & Hp & Hoff & Hff).
  set (tp1 := fin_again flags e tp) in *. pose proof mx_range as Hx. pose proof (nm_words _ _ Hn) as (W1 & W2 & W3).
  pose proof (se_len _ _ _ _ Hs) as Hlen. pose proof (nm_seg _ _ Hn) as Hseg.
  set (fin := if has_flag flags TH_FIN then 1 else 0).
  set (n := nx tp1 + e_len e).
  assert (Hn1 : 0 <= n + fin <= cc + 1 /\ (0 < e_len e -> e_off e + e_len e = n /\ n <= cc) /\ (fin = 1 -> n = cc)).
  { unfold n, fin. destruct (has_flag flags TH_FIN); [lia|]. destruct (decide (0 < e_len e)); [|lia].
    destruct (se_off _ _ _ _ Hs ltac:(lia)). lia. }
  unfold out_account. rewrite Hrx, Hsyn.
  replace ((t_force tp1 =? 0) || (timer tp1 TCPT_PERSIST =? 0)) with true by (by rewrite Et1).
  fold fin. set (tpf := if has_flag flags TH_FIN then add_flags TF_SENTFIN tp1 else tp1).
  assert (Hf : exists fl, tpf = tp1 <| t_flags ::= fl |> /\ recovering tpf = recovering tp /\
    tflag tpf TF_SENTFIN = (has_flag flags TH_FIN || tflag tp TF_SENTFIN)).
  { unfold tpf, recovering. destruct (has_flag flags TH_FIN).
    - exists (t_flags (add_flags TF_SENTFIN tp1)). split; [done|].
      rewrite !tflag_lor, Et1. split; [by rewrite orb_false_r|by rewrite orb_true_r].
    - exists (t_flags tp1). split; [by destruct tp1|]. by rewrite Et1. }
  destruct Hf as (fl & Hf & Hrec & Hsent). clearbody tpf.
  set (nxt := u32 (snd_nxt tp1 + 0 + fin + e_len e)).
  assert (Enx : rel (snd_una tp) nxt = n + fin).
  { unfold nxt, n. rewrite Z.add_0_r, <- Z.add_assoc. rewrite rel_add; unfold nx in *; rewrite Et1 in *; cbn in *; lia. }
  set (tp2 := tpf <| snd_nxt ::= nxt |>).
  assert (Hmid : exists mxn rtt rts st',
    out_new (snd_nxt tp1) tp2 st = (tp2 <| snd_max ::= mxn |> <| t_rtt ::= rtt |> <| t_rtseq ::= rts |>, st') /\
    wordP mxn /\ rel (snd_una tp) mxn = Z.max (mx tp) (n + fin)).
  { assert (Hgt : SEQ_GT (snd_nxt tp2) (snd_max tp2) = (mx tp <? n + fin)).
    { replace (snd_max tp2) with (snd_max tp) by (unfold tp2; rewrite Hf, Et1; done).
      change (snd_nxt tp2) with nxt. rewrite (SEQ_GT_rel (snd_una tp)); unfold inwin; rewrite ?Enx; fold (mx tp); lia || done. }
    unfold out_new. rewrite Hgt. destruct (mx tp <? n + fin) eqn:E.
    - cbv zeta. change (t_rtt (tp2 <| snd_max ::= snd_nxt tp2 |>)) with (t_rtt tp2). destruct (t_rtt tp2 =? 0).
      + eexists nxt, _, _, _. split; [reflexivity|]. split; [apply u32_range|lia].
      + exists nxt, (t_rtt tp2), (t_rtseq tp2), st. split; [reflexivity|]. split; [apply u32_range|lia].
    - exists (snd_max tp), (t_rtt tp), (t_rtseq tp), st. split; [|split; [done|fold (mx tp); lia]].
      unfold tp2. rewrite Hf, Et1. reflexivity. }
  destruct Hmid as (mxn & rtt & rts & st' & Emid & Wm & Emx). rewrite Emid. cbn [mbind option_bind].
  set (tp3 := tp2 <| snd_max ::= mxn |> <| t_rtt ::= rtt |> <| t_rtseq ::= rts |>).
  assert (Hc3 : clocks tp3) by (apply (clocks_eq tp); unfold tp3, tp2; rewrite ?Hf, ?Et1; done).
  destruct (rexmt_stage tp3 Hc3) as (v & k & E4 & Hc4 & Ha4).
  eexists _, st'. split; [reflexivity|]. rewrite E4 in *.
  set (tp' := tp3 <| t_timer ::= v |> <| t_rxtshift ::= k |>) in *.
  assert (Hsm : same_conn tp tp').
  { unfold same_conn. rewrite <- Hrec. unfold tp', tp3, tp2, recovering. rewrite Hf, Et1. done. }
  assert (Hnx' : nx tp' = n + fin) by (unfold tp', tp3, tp2; rewrite Hf, Et1; exact Enx).
  assert (Hmx' : mx tp' = Z.max (mx tp) (n + fin)) by (unfold tp', tp3, tp2; rewrite Hf, Et1; exact Emx).
  assert (Hsent' : tflag tp' TF_SENTFIN = has_flag flags TH_FIN || tflag tp TF_SENTFIN) by exact Hsent.
  assert (Hhx : hx tp' = hx tp) by (unfold tp', tp3, tp2; rewrite Hf, Et1; done).
  assert (Hseq : rel (snd_una tp) (sel_seq e tp1) = nx tp1) by (unfold sel_seq; rewrite Hrx, Et1; done).
  assert (Hoff0 : 0 < e_len e -> e_off e = nx tp).
  { intros Hl. destruct (se_off _ _ _ _ Hs Hl) as [Ho _]. unfold sel_seq in Ho. by rewrite Hrx in Ho. }
  assert (Hfl : has_flag flags TH_FIN = true /\ fin = 1 \/ has_flag flags TH_FIN = false /\ fin = 0)
    by (unfold fin; destruct (has_flag flags TH_FIN); tauto).
  assert (Hnx1 : nx tp <= nx tp1 + fin) by (unfold fin; destruct (has_flag flags TH_FIN); [lia|rewrite Hff; lia]).
  pose proof (nm_max _ _ Hn) as Hmax. pose proof (nm_fin _ _ Hn) as Hnf.
  assert (Hnd : n = nx tp1 + e_len e) by done. pose proof (se_win _ _ _ _ Hs) as Hwin.
  assert (Hcw : snd_cwnd tp' = snd_cwnd tp) by (unfold tp', tp3, tp2; rewrite Hf, Et1; done).
  split; rewrite ?Hseq, ?Hmx'; try done; try lia.
  - apply (numbers_moved tp' (Z.min n cc)); try done; rewrite ?Hnx', ?Hmx', ?Hsent'; try lia.
    + exact (u32_range _).
    + unfold tp', tp3, tp2. by rewrite Hf, Et1.
    + destruct Hfl as [[Hf1 Hf2]|[Hf1 Hf2]]; rewrite Hf1 in *; destruct (tflag tp TF_SENTFIN); cbn [andb orb negb] in *; lia.
    + intros Hr. destruct (nm_rec _ _ Hn Hr) as (_ & _ & [Hr1|Hr1]); [left; lia|by right].
  - intros Hmo. destruct (se_more _ _ _ _ Hs Hmo) as (Hl & _ & _). unfold todo.
    replace (recovering tp') with (recovering tp) by (symmetry; apply Hsm). rewrite Hmx', Hhx, Hnx'.
    destruct (recovering tp) eqn:Hr; [pose proof (se_nxt _ _ _ _ Hs Hrx ltac:(lia) Hr)|]; lia.
Qed.

(** The probe of the persist timer: [snd_nxt] stays. *)
Lemma account_probe : e_rx e = false -> (t_force tp =? 0) || (timer tp TCPT_PERSIST =? 0) = false ->
  snd_wnd tp = 0 ->
  exists tp' st', out_account flags (e_len e) e (fin_again flags e tp) st = Some (tp', st') /\
    accounted cc win flags e tp (fin_again flags e tp) tp'.
Proof using All.
  intros Hrx Hbr Hw. destruct (fin_again_pos Hrx) as ((s & Et1 & Ws) & Hp & Hoff & Hff).
  set (tp1 := fin_again flags e tp) in *. pose proof mx_range as Hx. pose proof (nm_words _ _ Hn) as (W1 & W2 & W3).
  pose proof (se_len _ _ _ _ Hs) as Hlen. pose proof (nm_seg _ _ Hn) as Hseg.
  assert (Hend : 0 < e_len e -> e_off e + e_len e <= cc) by (intros Hl; destruct (se_off _ _ _ _ Hs Hl); lia).
  unfold out_account. rewrite Hrx.
  replace ((t_force tp1 =? 0) || (timer tp1 TCPT_PERSIST =? 0)) with false by (by rewrite Et1).
  set (tp' := if SEQ_GT _ _ then _ else _). exists tp', st. split; [done|].
  assert (Hgt : SEQ_GT (snd_nxt tp1 + e_len e) (snd_max tp1) = (mx tp <? nx tp1 + e_len e) /\
    rel (snd_una tp) (u32 (snd_nxt tp1 + e_len e)) = nx tp1 + e_len e).
  { assert (E : rel (snd_una tp) (u32 (snd_nxt tp1 + e_len e)) = nx tp1 + e_len e)
      by (rewrite rel_add; unfold nx in *; rewrite Et1 in *; cbn in *; lia).
    split; [|done]. assert (E' : rel (snd_una tp) (snd_nxt tp1 + e_len e) = nx tp1 + e_len e)
      by (rewrite <- E; unfold rel; word_solve).
    replace (snd_max tp1) with (snd_max tp) by (by rewrite Et1).
    rewrite (SEQ_GT_rel (snd_una tp)); unfold inwin; rewrite ?E'; fold (mx tp); lia || done. }
  destruct Hgt as [Hgt Hrel].
  assert (Ht : exists m, tp' = tp1 <| snd_max ::= m |> /\ wordP m /\ rel (snd_una tp) m = Z.max (mx tp) (nx tp1 + e_len e)).
  { unfold tp'. rewrite Hgt. destruct (_ <? nx tp1 + e_len e) eqn:E.
    - eexists. split; [done|]. split; [apply u32_range|]. rewrite Hrel. lia.
    - exists (snd_max tp). split; [by rewrite Et1|]. split; [done|]. fold (mx tp). lia. }
  clearbody tp'. destruct Ht as (m & Et & Wm & Em).
  assert (Hmx' : mx tp' = Z.max (mx tp) (nx tp1 + e_len e)) by (rewrite Et, Et1 at 1; exact Em).
  assert (Hnx' : nx tp' = nx tp1) by (by rewrite Et).
  assert (Hseq : rel (snd_una tp) (sel_seq e tp1) = nx tp1) by (unfold sel_seq; rewrite Hrx, Et1; done).
  assert (Hsent' : tflag tp' TF_SENTFIN = tflag tp TF_SENTFIN) by (by rewrite Et, Et1).
  assert (Hsm : same_conn tp tp') by (by rewrite Et, Et1).
  assert (Hcl : clocks tp') by (apply (clocks_eq tp); rewrite ?Et, ?Et1; done).
  assert (Hfld : snd_nxt tp' = s /\ snd_max tp' = m /\ snd_cwnd tp' = snd_cwnd tp /\ snd_highrxt tp' = snd_highrxt tp)
    by (by rewrite Et, Et1).
  assert (Har : timer tp' TCPT_PERSIST = timer tp TCPT_PERSIST) by (by rewrite Et, Et1).
  assert (Hforce : t_force tp' = t_force tp) by apply Hsm.
  destruct Hfld as (F1 & F2 & F3 & F4). pose proof (nm_max _ _ Hn) as Hmax. clear Et. pose proof (se_win _ _ _ _ Hs) as Hwin.
  split; rewrite ?Hseq, ?Hmx'; try done; try lia.
  - apply (numbers_moved _ (Z.min (nx tp1 + e_len e) cc)); rewrite ?Hnx', ?Hmx', ?Hsent', ?F1, ?F2; try done; try lia.
    + destruct (tflag tp TF_SENTFIN); cbn [andb negb]; lia.
  - intros _. right. rewrite Har. lia.
  - intros Hmo. destruct (se_more _ _ _ _ Hs Hmo) as (_ & _ & Hq). specialize (Hq Hrx). lia.
Qed.

Lemma out_account_ok : (t_force tp = 0 \/ timer tp TCPT_PERSIST = 0 \/ snd_wnd tp = 0) ->
  exists tp' st', out_account flags (e_len e) e (fin_again flags e tp) st = Some (tp', st') /\
    accounted cc win flags e tp (fin_again flags e tp) tp'.
Proof using All.
  intros Hw. destruct (e_rx e) eqn:Hrx; [by apply account_hole|].
  destruct ((t_force tp =? 0) || (timer tp TCPT_PERSIST =? 0)) eqn:E; [by apply account_plain|].
  apply account_probe; [done..|lia].
Qed.
End account.

(** ** The segment *)

(** A block that is still there: synchronised, or closed by [tcp_drop]. *)
Definition TCPS_CLOSED : Z := 0.
Definition closed (tp : tcpcb) : bool := t_state tp =? TCPS_CLOSED.
Definition synced (tp : tcpcb) : Prop := closed tp = true \/ TCPS_ESTABLISHED <= t_state tp <= TCPS_TIME_WAIT.

(** The flags of the state: no SYN, an ACK, RST when closed, a FIN while the end is being
    sent. *)
Definition state_flags (tp : tcpcb) : Z := if closed tp then 20 else if sends_fin tp then 17 else 16.

Lemma outflags_ok tp : synced tp -> zget tcp_outflags (t_state tp) = Some (state_flags tp).
Proof.
  unfold synced, closed, TCPS_CLOSED, TCPS_ESTABLISHED, TCPS_TIME_WAIT, state_flags, closed, sends_fin, TCPS_FIN_WAIT_1. intros H.
  assert (t_state tp = 0 \/ t_state tp = 4 \/ t_state tp = 5 \/ t_state tp = 6 \/ t_state tp = 7 \/ t_state tp = 8 \/
    t_state tp = 9 \/ t_state tp = 10) as Hs by lia.
  destruct Hs as [-> | [-> | [-> | [-> | [-> | [-> | [-> | ->]]]]]]]; reflexivity.
Qed.

(** The flags from the choice on, and with PUSH. *)
Definition choice_flags (rst : bool) (flags : Z) : Prop := if rst then flags = 20 else flags = 16 \/ flags = 17.
Definition plain_flags (rst : bool) (flags : Z) : Prop :=
  if rst then flags = 20 \/ flags = 28 else flags = 16 \/ flags = 17 \/ flags = 24 \/ flags = 25.

Lemma plain_flags_syn rst flags : plain_flags rst flags -> has_flag flags TH_SYN = false.
Proof. destruct rst; [by intros [-> | ->]|by intros [-> | [-> | [-> | ->]]]]. Qed.
Lemma choice_plain rst flags : choice_flags rst flags -> plain_flags rst flags.
Proof. destruct rst; cbn; [by left|]. intros [-> | ->]; [by left|by right; left]. Qed.
Lemma push_plain rst flags (b : bool) : choice_flags rst flags ->
  let fl := if b then Z.lor flags TH_PUSH else flags in
  plain_flags rst fl /\ has_flag fl TH_FIN = has_flag flags TH_FIN /\ has_flag fl TH_ACK = true /\
  has_flag fl TH_SYN = false /\ has_flag fl TH_RST = rst.
Proof.
  destruct rst; cbn; [intros ->|intros [-> | ->]]; destruct b; split_and!; done || tauto.
Qed.

Lemma fin_mask cc tp e :
  0 <= cc < 536870912 -> numbers cc tp -> sel_ok cc (allowed tp) e tp ->
  let flags' := out_mask cc (state_flags tp) e tp in
  choice_flags (closed tp) flags' /\ fin_flags cc flags' e tp.
Proof.
  intros Hcc Hn Hs flags'. unfold out_mask in flags'. fold (recovering tp) in flags'.
  set (from := if recovering tp && _ then _ else _) in *. set (flags := state_flags tp) in *. split.
  { unfold flags', flags, state_flags. destruct (SEQ_LT _ _), (closed tp), (sends_fin tp); done || (by left) || (by right). }
  intros Hf. assert (Hsf : sends_fin tp = true /\ SEQ_LT (from + e_len e) (snd_una tp + cc) = false).
  { unfold flags', flags, state_flags in Hf. by destruct (SEQ_LT _ _), (closed tp), (sends_fin tp). }
  destruct Hsf as [Hsf Hlt]. split; [done|].
  pose proof (nm_nxt _ _ Hn). pose proof (nm_max _ _ Hn). pose proof (nm_seg _ _ Hn).
  pose proof (rel_range (snd_una tp) (snd_nxt tp)). pose proof (se_len _ _ _ _ Hs). unfold nx in *.
  assert (Hmx : mx tp <= cc + 1) by (case_match; lia).
  assert (K : rel (snd_una tp) from + e_len e < 4294967296 /\ cc <= rel (snd_una tp) from + e_len e).
  { assert (Hr : rel (snd_una tp) from < 1073741824).
    { unfold from. destruct (recovering tp && (0 <? e_len e)) eqn:E; [|lia].
      destruct (se_off _ _ _ _ Hs ltac:(lia)). lia. }
    split; [lia|]. rewrite (SEQ_LT_rel (snd_una tp)) in Hlt; unfold inwin.
    - replace (rel (snd_una tp) (from + e_len e)) with (rel (snd_una tp) from + e_len e) in Hlt by (unfold rel in *; word_solve).
      replace (rel (snd_una tp) (snd_una tp + cc)) with cc in Hlt by (unfold rel; word_solve). lia.
    - replace (rel (snd_una tp) (from + e_len e)) with (rel (snd_una tp) from + e_len e) by (unfold rel in *; word_solve). lia.
    - replace (rel (snd_una tp) (snd_una tp + cc)) with cc by (unfold rel; word_solve). lia. }
  destruct (e_rx e) eqn:Hrx.
  - destruct (se_rx _ _ _ _ Hs Hrx) as (Hl & _ & Hr). destruct (se_off _ _ _ _ Hs Hl) as (Ho & _ & Hoc).
    unfold from in K. rewrite Hr in K. destruct (0 <? e_len e) eqn:E; [cbn [andb] in K|]; lia.
  - unfold from, sel_seq in K. rewrite Hrx in K. destruct (recovering tp && _) eqn:E; lia.
Qed.

(** What a turn keeps: the invariant, and data entered up to [allowed]. *)
Record kept (cc : Z) (tp tp' : tcpcb) : Prop := {
  kp_same : same_conn tp tp';
  kp_numbers : numbers cc tp';
  kp_clocks : clocks tp';
  kp_max : mx tp <= mx tp';
  kp_win : Z.min (mx tp') cc <= Z.max (Z.min (mx tp) cc) (allowed tp) }.

(** A segment sent from the connection [c], where [tp'] is the block afterwards. *)
Record oseg_ok (c : conn) (tp' : tcpcb) (s : oseg) : Prop := {
  sg_data : os_data s = zslice (snd_bytes c) (rel (snd_una (c_tp c)) (os_seq s)) (zlen (os_data s));
  sg_size : zlen (os_data s) <= t_maxseg (c_tp c);
  sg_end : os_data s <> [] ->
    let last := rel (snd_una (c_tp c)) (os_seq s) + zlen (os_data s) in
    last <= zlen (snd_bytes c) /\ last <= Z.max (mx (c_tp c)) (allowed (c_tp c)) /\ last <= mx tp';
  sg_ack : os_ack s = rcv_nxt (c_tp c) /\ has_flag (os_flags s) TH_ACK = true;
  sg_plain : has_flag (os_flags s) TH_SYN = false /\ has_flag (os_flags s) TH_RST = closed (c_tp c);
  sg_fin : has_flag (os_flags s) TH_FIN = true -> sends_fin (c_tp c) = true /\
    rel (snd_una (c_tp c)) (os_seq s) + zlen (os_data s) = zlen (snd_bytes c) }.

Lemma out_failed_ok error cc tp :
  0 <= cc < 536870912 -> numbers cc tp -> clocks tp ->
  let tp' := (out_failed error cc tp).2 in
  same_conn tp tp' /\ numbers cc tp' /\ clocks tp' /\ mx tp' = mx tp /\ snd_nxt tp' = snd_nxt tp /\
  (armed tp -> armed tp') /\ (0 < cc -> snd_nxt tp <> snd_una tp -> armed tp').
Proof.
  intros Hcc Hn Hc. unfold out_failed. set (tp1 := if _ && SEQ_LT _ _ then _ else tp).
  assert (H1 : (exists v, tp1 = tp <| t_timer ::= v |>) /\ clocks tp1 /\ (armed tp -> armed tp1) /\
    (0 < cc -> snd_nxt tp <> snd_una tp -> armed tp1)).
  { assert (Hlt : snd_nxt tp <> snd_una tp -> SEQ_LT (snd_una tp) (snd_max tp) = true).
    { intros Hne. pose proof (nm_words _ _ Hn) as (W1 & W2 & W3). pose proof (nm_nxt _ _ Hn). pose proof (nm_max _ _ Hn).
      rewrite (SEQ_LT_rel (snd_una tp)), rel_self; unfold inwin; rewrite ?rel_self; try lia;
        unfold nx, mx in *; [unfold rel, wordP in *; word_solve|case_match; lia]. }
    unfold tp1, armed. destruct (negb (cc =? 0) && (timer tp TCPT_REXMT =? 0) && (timer tp TCPT_PERSIST =? 0)) eqn:E; cbn [andb].
    - destruct (SEQ_LT (snd_una tp) (snd_max tp)).
      + destruct (rexmt_armed tp Hc) as [Hc' Ha]; [lia|].
        split; [by eexists|]. split; [done|]. by split.
      + split; [exists (t_timer tp); by destruct tp|]. split; [done|]. split; [done|]. intros _ Hne. by specialize (Hlt Hne).
    - split; [exists (t_timer tp); by destruct tp|]. split; [done|]. split; [done|]. lia. }
  clearbody tp1. destruct H1 as ((v & Et) & Hc1 & Ha1 & Ha2).
  assert (Hn1 : numbers cc tp1) by (apply (numbers_same cc tp); by rewrite ?Et).
  destruct (error =? ENOBUFS); [|destruct (_ && _)]; cbn [snd].
  - split; [by rewrite Et|]. split; [|split; [by apply (clocks_eq tp1)|by rewrite Et in *]].
    pose proof (nm_seg _ _ Hn1). destruct Hn1 as [W N1 N2 N3 N4 N5 N6 N7]. by split; try done; cbn; lia.
  - split; [by rewrite Et|]. split; [by apply (numbers_same cc tp1)|]. split; [by apply (clocks_eq tp1)|by rewrite Et in *].
  - split; [by rewrite Et|]. split; [done|]. split; [done|by rewrite Et in *].
Qed.

Lemma out_sent_ok win len cc tp :
  numbers cc tp -> clocks tp ->
  let tp' := out_sent win len tp in
  same_conn tp tp' /\ numbers cc tp' /\ clocks tp' /\ mx tp' = mx tp /\ hx tp' = hx tp /\ nx tp' = nx tp /\
  snd_nxt tp' = snd_nxt tp /\ snd_cwnd tp' = snd_cwnd tp /\ (armed tp -> armed tp').
Proof.
  intros Hn Hc tp'.
  assert (H1 : exists p r l, tp' = del_flags (Z.lor TF_ACKNOW TF_DELACK)
    (tp <| prr_out ::= p |> <| rcv_adv ::= r |> <| last_ack_sent ::= l |>)).
  { exists (if tflag tp TF_SACK_RECOVER then u32 (prr_out tp + len) else prr_out tp),
      (if (0 <? win) && SEQ_GT (rcv_nxt tp + win) (rcv_adv tp) then u32 (rcv_nxt tp + win) else rcv_adv tp), (rcv_nxt tp).
    unfold tp', out_sent. destruct tp. by destruct (tflag _ _); cbn; destruct (_ && _). }
  clearbody tp'. destruct H1 as (p & r & l & ->).
  set (tp1 := tp <| prr_out ::= p |> <| rcv_adv ::= r |> <| last_ack_sent ::= l |>).
  set (tp' := del_flags _ tp1).
  assert (Hf : forall f, Z.land (Z.lor TF_ACKNOW TF_DELACK) f = 0 -> tflag tp' f = tflag tp f)
    by (intros f Hf; change (tflag tp f) with (tflag tp1 f); by apply tflag_andnot).
  assert (Hs : same_conn tp tp') by (unfold same_conn, recovering; by rewrite Hf).
  split; [done|]. split; [by apply (numbers_same cc tp); rewrite ?Hf|]. split; [by apply (clocks_eq tp)|done].
Qed.

(** What a turn that has something to send ends with. *)
Definition sending_ok (c : conn) (a : attempt) (more : bool) (s : sending) : Prop :=
  let tp := c_tp c in
  let cc := zlen (snd_bytes c) in
  match s with
  | Sent g c' _ => c' = set_tp (c_tp c') c /\ at_hdr a = true /\ kept cc tp (c_tp c') /\
      oseg_ok c (c_tp c') g /\ snd_cwnd (c_tp c') = snd_cwnd tp /\
      (snd_nxt (c_tp c') <> snd_una (c_tp c') -> armed (c_tp c')) /\
      (more = true -> todo cc (c_tp c') < todo cc tp)
  | Failed _ g c' _ => c' = set_tp (c_tp c') c /\ kept cc tp (c_tp c') /\
      (0 < cc -> snd_nxt (c_tp c') <> snd_una (c_tp c') -> armed (c_tp c')) /\
      match g with Some g => oseg_ok c (c_tp c') g | None => at_hdr a = false end
  end.

(** [send:], the copy of the data succeeding. *)
Section send.
Context (c : conn) (a : attempt) (flags win : Z) (e : selection) (opt : list Z) (st : tcpostat).
Let tp := c_tp c.
Let cc := zlen (snd_bytes c).
Context (Hcc : cc < 536870912) (Hb : sb_cc (c_snd c) = cc) (Ht : t_template tp = true)
  (Hn : numbers cc tp) (Hc : clocks tp) (Hs : sel_ok cc (allowed tp) e tp)
  (Hfl : choice_flags (closed tp) flags) (Hfin : fin_flags cc flags e tp)
  (Hf : t_force tp = 0 \/ timer tp TCPT_PERSIST = 0 \/ snd_wnd tp = 0) (Hcopy : at_copy a = true).

Lemma kept_refl : kept cc tp tp.
Proof using All. split; try done; lia. Qed.

(** The urgent pointer moves [snd_up] only. *)
Lemma urgent_ok rst fl tp1 : plain_flags rst fl ->
  exists urp hf u, out_urgent fl tp1 = (urp, hf, tp1 <| snd_up ::= u |>) /\
    forall f, f = TH_SYN \/ f = TH_RST \/ f = TH_FIN \/ f = TH_ACK -> has_flag hf f = has_flag fl f.
Proof using.
  intros Hp. unfold out_urgent. destruct (SEQ_GT _ _).
  - eexists _, _, (snd_up tp1). split; [by destruct tp1|].
    intros f [-> | [-> | [-> | ->]]]; destruct rst; (by destruct Hp as [-> | ->]) || (by destruct Hp as [-> | [-> | [-> | ->]]]).
  - eexists _, _, _. split; [reflexivity|done].
Qed.

(** The bookkeeping, whatever [snd_up] has become. *)
Lemma account_up fl u st0 : plain_flags (closed tp) fl -> has_flag fl TH_FIN = has_flag flags TH_FIN ->
  exists tp' st', out_account fl (e_len e) e (fin_again fl e tp <| snd_up ::= u |>) st0 = Some (tp', st') /\
    accounted cc (allowed tp) fl e tp (fin_again fl e tp) tp'.
Proof using All.
  intros Hp Hff. set (tp0 := tp <| snd_up ::= u |>).
  assert (E : fin_again fl e tp <| snd_up ::= u |> = fin_again fl e tp0)
    by (unfold fin_again, tp0; by destruct (_ && _)).
  assert (Hseq : sel_seq e (fin_again fl e tp0) = sel_seq e (fin_again fl e tp)) by (by rewrite <- E).
  pose proof (zlen_nonneg (snd_bytes c)).
  destruct (out_account_ok cc (allowed tp) fl e tp0 st0) as (tp' & st' & Ea & Hac).
  - done.
  - destruct Hn. by split.
  - by apply (clocks_eq tp).
  - by apply (plain_flags_syn (closed tp)).
  - destruct Hs. by split.
  - unfold fin_flags. rewrite Hff. apply Hfin.
  - done.
  - rewrite E. exists tp', st'. split; [done|]. destruct Hac as [K1 K2 K3 K4 K5 K6 K7 K8 K9 K10 K11].
    rewrite Hseq in *. by split.
Qed.

Lemma accounted_kept fl tp1 tp' : accounted cc (allowed tp) fl e tp tp1 tp' -> kept cc tp tp'.
Proof using All. intros []. by split. Qed.

Lemma kept_later tp1 tp2 : kept cc tp tp1 -> same_conn tp1 tp2 -> numbers cc tp2 -> clocks tp2 ->
  mx tp2 = mx tp1 -> kept cc tp tp2.
Proof using All.
  intros [K1 K2 K3 K4 K5] H1 H2 H3 H4. split; rewrite ?H4; try done. by eapply same_conn_trans.
Qed.
(** The data of the segment. *)
Lemma data_ok fl : plain_flags (closed tp) fl -> has_flag fl TH_FIN = has_flag flags TH_FIN ->
  exists d, blob (snd_bytes c) (if e_len e =? 0 then 0 else Z.max 0 (e_off e)) (e_len e) = Some d /\
    zlen d = e_len e /\ d = zslice (snd_bytes c) (rel (snd_una tp) (sel_seq e (fin_again fl e tp))) (zlen d).
Proof using All.
  intros Hp Hff. pose proof (se_len _ _ _ _ Hs). pose proof (zlen_nonneg (snd_bytes c)).
  destruct (e_len e =? 0) eqn:El.
  - replace (e_len e) with 0 by lia. rewrite blob_ok by lia. by exists [].
  - destruct (se_off _ _ _ _ Hs ltac:(lia)) as (Ho & Ho0 & Ho1). fold cc in Ho1.
    destruct (account_up fl 0 st Hp Hff) as (tp' & _ & _ & Hac). rewrite (ac_off _ _ _ _ _ _ _ Hac) by lia.
    rewrite Z.max_r, blob_ok by (unfold cc in *; lia). eexists. split; [done|].
    assert (E : zlen (zslice (snd_bytes c) (e_off e) (e_len e)) = e_len e) by (apply zslice_len; unfold cc in *; lia).
    by rewrite E.
Qed.

Lemma out_send_ok : exists s, out_send a flags win e opt c st = Some s /\ sending_ok c a (e_more e) s.
Proof using All.
  unfold out_send. rewrite Hb. fold tp. set (st1 := if e_len e =? 0 then _ else _). clearbody st1.
  pose proof (zlen_nonneg (snd_bytes c)). assert (Hcc' : 0 <= cc < 536870912) by (unfold cc in *; lia).
  destruct (at_hdr a) eqn:Ha; cbn [negb].
  2: { destruct (out_failed_ok ENOBUFS cc tp) as (K1 & K2 & K3 & K4 & K5 & K6 & K7); try done.
    destruct (out_failed ENOBUFS cc tp) as [er tp'] eqn:E. eexists. split; [done|]. cbn [snd] in *.
    split; [done|]. change (c_tp (set_tp tp' c)) with tp'. split; [by eapply kept_later; [apply kept_refl|..]|].
    split; [|done]. replace (snd_una tp') with (snd_una tp) by (symmetry; apply K1). by rewrite K5. }
  rewrite Hcopy, orb_true_r. fold cc. set (fl := if _ && (_ =? cc) then _ else flags).
  pose proof (push_plain _ _ (negb (e_len e =? 0) && (u32 (Z.max 0 (e_off e) + e_len e) =? cc)) Hfl) as Hp. cbv zeta in Hp. fold fl in Hp.
  clearbody fl. destruct Hp as (Hp & Hff & Hk1 & Hk2 & Hk3).
  destruct (data_ok fl Hp Hff) as (d & -> & Hd1 & Hd2). cbn [mbind option_bind]. rewrite Ht. cbn [negb].
  destruct (urgent_ok _ fl (fin_again fl e tp) Hp) as (urp & hf & u & -> & Hhf).
  destruct (account_up fl u st1 Hp Hff) as (tp' & st' & -> & Hac). cbn [mbind option_bind].
  set (seq := sel_seq e (fin_again fl e tp)) in *.
  pose proof (accounted_kept _ _ _ Hac) as Hk. pose proof (ac_cwnd _ _ _ _ _ _ _ Hac) as Hcw.
  assert (Hg : forall w rn tpx, rn = rcv_nxt tp -> mx tpx = mx tp' -> oseg_ok c tpx (mk_oseg seq rn hf w urp opt d)).
  { intros w rn tpx -> Hmx. split; cbn [os_data os_seq os_ack os_flags]; fold tp; rewrite ?Hd1.
    - rewrite <- Hd1. exact Hd2.
    - pose proof (se_len _ _ _ _ Hs). lia.
    - intros Hd. assert (Hl : 0 < e_len e) by (rewrite <- Hd1; destruct d as [|x d']; [done|rewrite zlen_cons; pose proof (zlen_nonneg d'); lia]).
      destruct (se_off _ _ _ _ Hs Hl) as (_ & _ & Ho1). pose proof (ac_off _ _ _ _ _ _ _ Hac Hl) as Hx.
      fold seq in Hx. rewrite Hx, Hmx.
      split; [done|]. split; [by apply (se_win _ _ _ _ Hs)|by apply (ac_sent _ _ _ _ _ _ _ Hac)].
    - split; [done|]. rewrite Hhf by tauto. done.
    - by rewrite !Hhf by tauto.
    - rewrite Hhf by tauto. intros K. split; [rewrite Hff in K; by apply Hfin|by apply (ac_fin _ _ _ _ _ _ _ Hac)]. }
  assert (Hrn : rcv_nxt (fin_again fl e tp <| snd_up ::= u |>) = rcv_nxt tp)
    by (unfold fin_again; by destruct (_ && (snd_nxt tp =? _))).
  eexists. split; [done|].
  destruct (at_error a =? 0) eqn:Er; cbn [negb].
  - destruct (out_sent_ok (out_adv_win win (sb_hiwat (r_rcv (c_r c))) (fin_again fl e tp)) (e_len e) cc tp')
      as (K1 & K2 & K3 & K4 & K5 & K6 & K7 & K8 & K9); [apply Hac..|].
    split; [done|]. split; [done|]. split; [by eapply kept_later|]. split; [by apply Hg; [exact Hrn|]|].
    split; [exact (eq_trans K8 Hcw)|]. set (tp2 := out_sent _ _ _) in *. change (c_tp (set_tp tp2 c)) with tp2.
    split.
    + rewrite K7. replace (snd_una tp2) with (snd_una tp') by (symmetry; apply K1). intros. apply K9. by apply (ac_armed _ _ _ _ _ _ _ Hac).
    + intros Hmo. change (todo cc tp2 < todo cc tp). replace (todo cc tp2) with (todo cc tp') by (unfold todo; rewrite K4, K5, K6; by replace (recovering tp2) with (recovering tp') by (symmetry; apply K1)).
      by apply (ac_todo _ _ _ _ _ _ _ Hac).
  - destruct (out_failed_ok (at_error a) cc tp') as (K1 & K2 & K3 & K4 & K5 & K6 & K7); [done|apply Hac..|].
    destruct (out_failed (at_error a) cc tp') as [er tp2] eqn:E. cbn [snd] in *. split; [done|].
    change (c_tp (set_tp tp2 c)) with tp2. split; [by eapply kept_later|]. split; [|by apply Hg; [exact Hrn|]].
    replace (snd_una tp2) with (snd_una tp') by (symmetry; apply K1). rewrite K5. done.
Qed.
End send.

(** ** A turn *)

Lemma allowed_same tp tp' : same_conn tp tp' -> snd_cwnd tp' = snd_cwnd tp -> allowed tp' = allowed tp.
Proof.
  intros (_ & _ & Ew & _ & Ef & _ & _ & Er & _) Ec. unfold allowed, usable, forced. by rewrite Ew, Ef, Er, Ec.
Qed.

(** A turn's result counts from where the turn began. *)
Lemma sent_ok_from c tp1 a more s :
  let tp := c_tp c in
  same_conn tp tp1 -> mx tp1 = mx tp -> snd_cwnd tp1 = snd_cwnd tp ->
  (more = true -> todo (zlen (snd_bytes c)) tp1 = todo (zlen (snd_bytes c)) tp) ->
  sending_ok (set_tp tp1 c) a more s -> sending_ok c a more s.
Proof.
  intros tp Hs Hm Hc Hmo. pose proof (allowed_same tp tp1 Hs Hc) as Ha.
  assert (Hk : forall tp', kept (zlen (snd_bytes c)) tp1 tp' -> kept (zlen (snd_bytes c)) tp tp').
  { intros tp' [K1 K2 K3 K4 K5]. rewrite Hm, ?Ha in *. split; try done. by eapply same_conn_trans. }
  assert (Hg : forall tp' g, oseg_ok (set_tp tp1 c) tp' g -> oseg_ok c tp' g).
  { intros tp' g [K1 K2 K3 K4 K5 K6]. change (c_tp (set_tp tp1 c)) with tp1 in *.
    change (snd_bytes (set_tp tp1 c)) with (snd_bytes c) in *. pose proof Hs as (Es & Eu & _ & Em & _ & Er & _).
    assert (Ef : sends_fin tp1 = sends_fin tp) by (unfold sends_fin; by rewrite Es).
    assert (Eg : closed tp1 = closed tp) by (unfold closed; by rewrite Es).
    fold tp in Es, Eu, Em, Er. rewrite Hm, Ha, Eu, Em, Er, Ef, Eg in *. by split. }
  destruct s; cbn; change (snd_bytes (set_tp tp1 c)) with (snd_bytes c); change (c_tp (set_tp tp1 c)) with tp1; fold tp.
  - intros (K1 & K2 & K3 & K4 & K5 & K6 & K7). rewrite K1 at 1.
    split; [done|]. split; [done|]. split; [by apply Hk|]. split; [by apply Hg|]. split; [by rewrite K5|].
    split; [done|]. intros Hm'. rewrite <- Hmo by done. by apply K7.
  - intros (K1 & K2 & K3 & K4). rewrite K1 at 1. split; [done|]. split; [by apply Hk|]. split; [done|].
    destruct s; [by apply Hg|done].
Qed.

(** Nothing to send: a timer is there for what is queued. *)
Lemma out_idle_ok cc tp :
  0 <= cc < 536870912 -> numbers cc tp -> clocks tp ->
  exists tp', out_idle cc tp = Some tp' /\ same_conn tp tp' /\ numbers cc tp' /\ clocks tp' /\ mx tp' = mx tp /\
    (0 < cc -> (recovering tp = true -> 0 < mx tp) -> armed tp').
Proof.
  intros Hcc Hn Hc. unfold out_idle. fold (recovering tp).
  destruct (negb (cc =? 0) && _ && _) eqn:E.
  2: { exists tp. split; [done|]. split; [done|]. split; [done|]. split; [done|]. split; [done|].
       intros Hp _. unfold armed. lia. }
  assert (Hper : exists tp', tcp_setpersist (tp <| t_rxtshift ::= 0 |>) = Some tp' /\ same_conn tp tp' /\
    numbers cc tp' /\ clocks tp' /\ mx tp' = mx tp /\ armed tp').
  { destruct (persist_armed tp Hc) as (v & k & -> & Hc' & Ha); [lia|]. eexists. split; [done|]. split; [done|].
    split; [by apply (numbers_same cc tp)|done]. }
  assert (Hrex : let tp' := set_timer TCPT_REXMT (t_rxtcur tp) tp in same_conn tp tp' /\
    numbers cc tp' /\ clocks tp' /\ mx tp' = mx tp /\ armed tp').
  { destruct (rexmt_armed tp Hc) as [Hc' Ha]; [lia|]. cbv zeta. split; [done|]. split; [by apply (numbers_same cc tp)|done]. }
  destruct (recovering tp) eqn:Hr; cbn [negb].
  - destruct (nm_rec _ _ Hn Hr) as (Hok & _). rewrite (seq_lt_una tp Hok). destruct (0 <? mx tp) eqn:Em.
    + destruct (snd_wnd tp =? 0).
      * destruct Hper as (tp' & -> & H1 & H2 & H3 & H4 & H5). by exists tp'.
      * destruct Hrex as (H1 & H2 & H3 & H4 & H5). eexists. by split.
    + exists tp. split; [done|]. split; [done|]. split; [done|]. split; [done|]. split; [done|].
      intros _ Hx. specialize (Hx eq_refl). lia.
  - destruct Hper as (tp' & -> & H1 & H2 & H3 & H4 & H5). by exists tp'.
Qed.

(** A synchronised connection whose send buffer is accounted for. *)
Record ready (c : conn) : Prop := {
  rd_state : synced (c_tp c);
  rd_template : t_template (c_tp c) = true;
  rd_queue : sb_cc (c_snd c) = zlen (snd_bytes c);
  rd_small : zlen (snd_bytes c) < 536870912;
  rd_numbers : numbers (zlen (snd_bytes c)) (c_tp c);
  rd_clocks : clocks (c_tp c) }.

Lemma ready_kept c tp' : ready c -> kept (zlen (snd_bytes c)) (c_tp c) tp' -> ready (set_tp tp' c).
Proof.
  intros [R1 R2 R3 R4 R5 R6] [(Es & _ & _ & _ & _ & _ & _ & _ & Et) K2 K3 _ _].
  split; unfold synced, closed in *; change (c_tp (set_tp tp' c)) with tp'; rewrite ?Es, ?Et; done.
Qed.

Lemma sack_options_same flags len optlen d tp :
  let tp' := (sack_options flags len optlen d tp).2 in tp' = tp \/ tp' = del_flags TF_DSACK tp.
Proof. unfold sack_options. destruct (_ && _); [by right|by left]. Qed.

Lemma dsack_same cc tp tp' : numbers cc tp -> clocks tp -> tp' = tp \/ tp' = del_flags TF_DSACK tp ->
  same_conn tp tp' /\ numbers cc tp' /\ clocks tp' /\ (forall win e, sel_ok cc win e tp -> sel_ok cc win e tp') /\
  (exists fl, tp' = tp <| t_flags ::= fl |>).
Proof.
  intros Hn Hc [-> | ->]; [split_and!; try done; exists (t_flags tp); by destruct tp|].
  assert (Hf : forall f, Z.land TF_DSACK f = 0 -> tflag (del_flags TF_DSACK tp) f = tflag tp f)
    by (intros; by apply tflag_andnot).
  assert (Hs : same_conn tp (del_flags TF_DSACK tp)) by (unfold same_conn, recovering; by rewrite Hf).
  split; [done|]. split; [by apply (numbers_same cc tp); rewrite ?Hf|]. split; [by apply (clocks_eq tp)|].
  split; [|by eexists]. intros win e [K1 K2 K3 K4 K5 K6].
  assert (Hr : recovering (del_flags TF_DSACK tp) = recovering tp) by apply Hs.
  split; rewrite ?Hr; done.
Qed.

(** What a turn ends with. *)
Definition turn_ok (c : conn) (a : attempt) (o : option (bool * sending)) (c' : conn) : Prop :=
  match o with
  | None => c' = set_tp (c_tp c') c /\ kept (zlen (snd_bytes c)) (c_tp c) (c_tp c') /\ mx (c_tp c') = mx (c_tp c) /\
      (0 < zlen (snd_bytes c) -> (recovering (c_tp c) = true -> 0 < mx (c_tp c)) -> armed (c_tp c'))
  | Some (more, s) => sending_ok c a more s
  end.

Lemma out_act_ok env rt idle a flags e c st :
  ready c -> sel_ok (zlen (snd_bytes c)) (allowed (c_tp c)) e (c_tp c) -> choice_flags (closed (c_tp c)) flags ->
  fin_flags (zlen (snd_bytes c)) flags e (c_tp c) ->
  t_force (c_tp c) = 0 \/ timer (c_tp c) TCPT_PERSIST = 0 \/ snd_wnd (c_tp c) = 0 -> at_copy a = true ->
  exists o c', out_act env rt idle a flags e c st = Some (o, c') /\
    turn_ok c a o c' /\ (forall more s, o = Some (more, s) -> more = e_more e).
Proof.
  intros [R1 R2 R3 R4 R5 R6] Hs Hfl Hfin Hf Hcp. pose proof (zlen_nonneg (snd_bytes c)) as H0.
  unfold out_act. rewrite R3. destruct (out_now _ _ _ _ _ _ _).
  - unfold seg_options, syn_options. rewrite (plain_flags_syn _ _ (choice_plain _ _ Hfl)).
    cbn [negb orb mbind option_bind]. set (opt := [] ++ _).
    pose proof (sack_options_same flags (e_len e) (zlen opt) (r_dsack (c_r c)) (c_tp c)) as Hsame.
    destruct (sack_options _ _ _ _ _) as [blks tp]. cbn [snd] in Hsame.
    destruct (dsack_same _ _ _ R5 R6 Hsame) as (K1 & K2 & K3 & K4 & (fl & K5)).
    assert (Hal : allowed tp = allowed (c_tp c)) by (apply allowed_same; [done|by rewrite K5]).
    cbn [mbind option_bind]. destruct (out_send_ok (set_tp tp c) a flags (sbspace (r_rcv (c_r c))) e (opt ++ blks) st) as (s & -> & Hok);
      change (c_tp (set_tp tp c)) with tp; change (snd_bytes (set_tp tp c)) with (snd_bytes c); try done.
    + by rewrite K5.
    + rewrite Hal. by apply K4.
    + unfold closed in *. by rewrite K5.
    + unfold fin_flags, sends_fin in *. by rewrite K5.
    + by rewrite K5.
    + cbn [mbind option_bind]. exists (Some (e_more e, s)), (set_tp tp c). split; [done|]. split; [|by intros ?? [= <- _]].
      cbn [turn_ok]. apply (sent_ok_from c tp); try done; [by rewrite K5..|].
      intros _. unfold todo. replace (recovering tp) with (recovering (c_tp c)) by (symmetry; apply K1). by rewrite K5.
  - destruct (out_idle_ok (zlen (snd_bytes c)) (c_tp c)) as (tp' & -> & K1 & K2 & K3 & K4 & K5); [lia|done..|].
    cbn [mbind option_bind]. exists None, (set_tp tp' c). split; [done|]. split; [|done].
    split; [done|]. split; [|done]. split; try done; change (c_tp (set_tp tp' c)) with tp'; lia.
Qed.

Lemma turn_ok_from c tp1 a o c' :
  let tp := c_tp c in let cc := zlen (snd_bytes c) in
  same_conn tp tp1 -> mx tp1 = mx tp -> snd_cwnd tp1 = snd_cwnd tp ->
  (forall more s, o = Some (more, s) -> more = true -> todo cc tp1 = todo cc tp) ->
  turn_ok (set_tp tp1 c) a o c' -> turn_ok c a o c'.
Proof.
  intros tp cc Hs Hm Hc Ht. destruct o as [[more s]|]; cbn [turn_ok].
  - apply (sent_ok_from c tp1); try done. by apply (Ht more s).
  - change (snd_bytes (set_tp tp1 c)) with (snd_bytes c). change (c_tp (set_tp tp1 c)) with tp1. fold cc tp.
    intros (E & [K1 K2 K3 K4 K5] & Km & K6). rewrite (allowed_same tp tp1), Hm in * by done.
    split; [by rewrite E at 1|]. split; [split; try done; by eapply same_conn_trans|]. split; [done|].
    intros Hp Hr. apply K6; [done|]. intros Hr1. apply Hr. rewrite <- Hr1. symmetry. apply Hs.
Qed.

Lemma out_turn_ok fuel env rt idle a c st :
  ready c -> mx (c_tp c) < Z.of_nat fuel -> at_copy a = true ->
  exists o c', out_turn fuel env rt idle a c st = Some (o, c') /\ turn_ok c a o c'.
Proof.
  intros Hc Hfu Hcp. pose proof Hc as [R1 R2 R3 R4 R5 R6]. pose proof (zlen_nonneg (snd_bytes c)) as H0.
  unfold out_turn. rewrite R3. set (cc := zlen (snd_bytes c)) in *. set (tp := c_tp c) in *.
  destruct (out_window tp) as [win tp1] eqn:E1.
  destruct (out_window_ok cc tp win tp1 R5 R6 E1) as (_ & S1 & _).
  assert (Es1 : zget tcp_outflags (t_state tp1) = Some (state_flags tp))
    by (rewrite <- (outflags_ok tp) by done; f_equal; apply S1).
  rewrite Es1. cbn [mbind option_bind]. destruct (out_next cc win tp1) as [e0 tp2] eqn:E2.
  destruct (out_choice_ok cc tp win tp1 e0 tp2 fuel) as (e & tp3 & E3 & S3 & N3 & C3 & M3 & H3 & W3 & F3 & T3 & K3);
    [lia|done..|].
  rewrite E3. cbn [mbind option_bind].
  pose proof (allowed_same tp tp3 S3 W3) as Hal.
  assert (Hsf : state_flags tp = state_flags tp3)
    by (unfold state_flags, closed, sends_fin; by replace (t_state tp3) with (t_state tp) by (symmetry; apply S3)).
  rewrite Hsf, <- Hal in *. destruct (fin_mask cc tp3 e) as [Hfl Hfin]; [lia|done..|].
  destruct (out_act_ok env rt idle a (out_mask cc (state_flags tp3) e tp3) e (set_tp tp3 c) st)
    as (o & c' & E & Hok & Hmore); try done.
  { apply ready_kept; [done|]. split; fold tp cc; try done; lia. }
  exists o, c'. split; [exact E|]. apply (turn_ok_from c tp3); try done. intros more s Ho Hm.
  rewrite (Hmore _ _ Ho) in Hm. fold cc tp. unfold todo. replace (recovering tp3) with (recovering tp) by (symmetry; apply S3).
  rewrite M3, H3. destruct (T3 Hm) as [->| ->]; [done|]. done.
Qed.

(** ** The loop *)

Definition may_wait (c : conn) : Prop := recovering (c_tp c) = true -> 0 < mx (c_tp c).

(** What a call of [tcp_output] comes to. *)
Record output_ok (c : conn) (w : nat -> attempt) (segs : list oseg) (c' : conn) : Prop := {
  oo_conn : c' = set_tp (c_tp c') c;
  oo_kept : kept (zlen (snd_bytes c)) (c_tp c) (c_tp c');
  oo_segs : Forall (oseg_ok c (c_tp c')) segs;
  oo_timer : 0 < zlen (snd_bytes c) -> snd_nxt (c_tp c') <> snd_una (c_tp c') -> armed (c_tp c');
  oo_wait : 0 < zlen (snd_bytes c) -> may_wait c -> segs = [] -> at_hdr (w 0%nat) = true -> armed (c_tp c') }.

Lemma todo_range cc tp : 0 <= cc -> numbers cc tp -> 0 <= todo cc tp <= 2 * cc + 2.
Proof.
  intros Hcc Hn. pose proof (nm_nxt _ _ Hn). pose proof (nm_max _ _ Hn). unfold todo.
  pose proof (rel_range (snd_una tp) (snd_nxt tp)). pose proof (rel_range (snd_una tp) (snd_max tp)).
  pose proof (rel_range (snd_una tp) (snd_highrxt tp)). unfold nx, mx, hx in *.
  destruct (recovering tp) eqn:Hr; [destruct (nm_rec _ _ Hn Hr) as (_ & Hh & _); unfold hx, mx in Hh|];
    destruct (tflag tp TF_SENTFIN); lia.
Qed.

Lemma oseg_ok_later c tp' tp'' g : mx tp' <= mx tp'' -> oseg_ok c tp' g -> oseg_ok c tp'' g.
Proof. intros Hm [K1 K2 K3 K4 K5 K6]. split; try done. intros Hd. destruct (K3 Hd) as (? & ? & ?). cbv zeta. lia. Qed.

(** Over a segment that went out. *)
Lemma oseg_ok_from c tp1 tp' g :
  kept (zlen (snd_bytes c)) (c_tp c) tp1 -> snd_cwnd tp1 = snd_cwnd (c_tp c) ->
  oseg_ok (set_tp tp1 c) tp' g -> oseg_ok c tp' g.
Proof.
  intros [K1 K2 K3 K4 K5] Hc [G1 G2 G3 G4 G5 G6]. change (c_tp (set_tp tp1 c)) with tp1 in *.
  change (snd_bytes (set_tp tp1 c)) with (snd_bytes c) in *. pose proof (allowed_same _ _ K1 Hc) as Ha.
  pose proof K1 as (Es & Eu & _ & Em & _ & Er & _).
  assert (Ef : sends_fin tp1 = sends_fin (c_tp c)) by (unfold sends_fin; by rewrite Es).
  assert (Eg : closed tp1 = closed (c_tp c)) by (unfold closed; by rewrite Es).
  rewrite Ha, Eu, Em, Er, Ef, Eg in *. split; try done. intros Hd. destruct (G3 Hd) as (G7 & G8 & G9). cbv zeta.
  split; [done|]. split; [lia|done].
Qed.

Lemma out_loop_ok env rt idle n w c st :
  ready c -> (forall i, at_copy (w i) = true) -> todo (zlen (snd_bytes c)) (c_tp c) < Z.of_nat n ->
  exists error segs c' st', out_loop n env rt idle w c st = Some (error, segs, c', st') /\ output_ok c w segs c'.
Proof.
  revert w c st. induction n as [|n IH]; intros w c st Hc Hcp Hn.
  { pose proof (todo_range _ _ (zlen_nonneg _) (rd_numbers _ Hc)). lia. }
  cbn [out_loop].
  destruct (out_turn_ok (S (Z.to_nat (u32 (snd_max (c_tp c) - snd_una (c_tp c))))) env rt idle (w 0%nat) c st)
    as (o & c1 & E & Hok); [done|unfold mx, rel; lia|done|].
  rewrite E. cbn [mbind option_bind]. destruct o as [[more s]|]; cbn [turn_ok] in Hok.
  - destruct s as [g c2 st2|er g c2 st2]; cbn [sending_ok] in Hok.
    + destruct Hok as (H1 & H2 & H3 & H4 & H5 & H6 & H7). destruct more.
      * assert (Hr2 : ready c2) by (rewrite H1; by apply ready_kept).
        assert (Hb2 : snd_bytes c2 = snd_bytes c) by (by rewrite H1).
        destruct (IH (fun i => w (S i)) c2 st2) as (er & segs & c' & st' & E' & [O1 O2 O3 O4 O5]); [done..| |].
        { rewrite Hb2. specialize (H7 eq_refl). lia. }
        rewrite E'. cbn [mbind option_bind]. eexists _, _, _, _. split; [done|]. rewrite Hb2 in *.
        destruct O2 as [P1 P2 P3 P4 P5]. pose proof H3 as [Q1 Q2 Q3 Q4 Q5]. rewrite (allowed_same _ _ Q1 H5) in P5.
        split; try done.
        -- by rewrite O1, H1 at 1.
        -- split; try done; [by eapply same_conn_trans|lia|lia].
        -- constructor; [by eapply oseg_ok_later|]. eapply Forall_impl; [exact O3|].
           intros x Hx. apply (oseg_ok_from c (c_tp c2)); try done. by rewrite <- H1.
      * eexists _, _, _, _. split; [done|]. split; try done; by constructor.
    + destruct Hok as (H1 & H2 & H3 & H4). eexists _, _, _, _. split; [done|].
      split; try done; [destruct g; by constructor|].
      intros _ _ Hg Ha. destruct g; [done|]. by rewrite Ha in H4.
  - destruct Hok as (H1 & H2 & Hm & H3). eexists _, _, _, _. split; [done|]. split; try done; [|intros ? Hw _ _; by apply H3].
    intros Hp Hne. apply H3; [done|]. intros _. pose proof (rel_range (snd_una (c_tp c)) (snd_max (c_tp c))).
    destruct (decide (mx (c_tp c) = 0)) as [H0|H0]; [|unfold mx in *; lia].
    destruct Hne. pose proof (kp_numbers _ _ _ H2) as Hn2. pose proof (nm_nxt _ _ Hn2) as Hx.
    destruct (nm_words _ _ Hn2) as (W1 & W2 & _). pose proof (rel_range (snd_una (c_tp c1)) (snd_nxt (c_tp c1))).
    apply (rel_inj (snd_una (c_tp c1))); [done|done|]. rewrite rel_self. unfold nx in Hx. lia.
Qed.

Lemma restart_ready c : ready c -> ready (out_restart c).
Proof.
  intros [R1 R2 R3 R4 R5 R6]. unfold out_restart. destruct (_ && _); [|by split].
  split; try done; [|by apply (clocks_eq (c_tp c))].
  change (c_tp (set_tp (c_tp c <| snd_cwnd ::= t_maxseg (c_tp c) |>) c)) with (c_tp c <| snd_cwnd ::= t_maxseg (c_tp c) |>).
  change (snd_bytes (set_tp (c_tp c <| snd_cwnd ::= t_maxseg (c_tp c) |>) c)) with (snd_bytes c).
  pose proof (nm_seg _ _ R5). destruct R5 as [W N1 N2 N3 N4 N5 N6 N7]. split; try done. cbn. lia.
Qed.

Lemma tcp_output_ok env rt w c st :
  ready c -> (forall i, at_copy (w i) = true) ->
  exists error segs c' st', tcp_output env rt w c st = Some (error, segs, c', st') /\
    ready c' /\ output_ok (out_restart c) w segs c'.
Proof.
  intros Hc Hcp. unfold tcp_output. pose proof (restart_ready c Hc) as Hr. set (c0 := out_restart c) in *.
  assert (Hb : snd_bytes c0 = snd_bytes c) by done.
  destruct (out_loop_ok env rt (snd_max (c_tp c) =? snd_una (c_tp c)) (Z.to_nat (2 * sb_cc (c_snd c) + 4)) w c0 st)
    as (er & segs & c' & st' & E & Hok); [done|done| |].
  { pose proof (todo_range _ _ (zlen_nonneg _) (rd_numbers _ Hr)). rewrite (rd_queue _ Hc), <- Hb. lia. }
  exists er, segs, c', st'. split; [done|]. split; [|done].
  rewrite (oo_conn _ _ _ _ Hok). apply ready_kept; [done|apply Hok].
Qed.

(** ** What has to go out

    The choice of the first turn, and the segment that comes of it. *)
Definition out_choose (fuel : nat) (c : conn) : option (Z * selection * tcpcb) :=
  let cc := sb_cc (c_snd c) in
  let '(win, tp) := out_window (c_tp c) in
  flags ← zget tcp_outflags (t_state tp);
  let '(e, tp) := out_next cc win tp in
  '(e, tp) ← out_recover fuel cc e tp;
  Some (out_mask cc flags e tp, e, tp).

Lemma out_turn_choose fuel env rt idle a c st :
  out_turn fuel env rt idle a c st =
    '(flags, e, tp) ← out_choose fuel c; out_act env rt idle a flags e (set_tp tp c) st.
Proof.
  unfold out_turn, out_choose. destruct (out_window (c_tp c)) as [win tp1].
  destruct (zget tcp_outflags _) as [fl|]; [|done]. cbn [mbind option_bind].
  destruct (out_next _ _ _) as [e0 tp2]. by destruct (out_recover _ _ _ _) as [[e tp3]|].
Qed.

Definition seg_of (s : sending) : option oseg :=
  match s with Sent g _ _ => Some g | Failed _ g _ _ => g end.

(** The segment of a choice. *)
Record chosen (flags : Z) (e : selection) (c : conn) (g : oseg) : Prop := {
  ch_seq : e_rx e = true \/ has_flag flags TH_FIN && tflag (c_tp c) TF_SENTFIN && (snd_nxt (c_tp c) =? snd_max (c_tp c)) = false ->
    os_seq g = sel_seq e (c_tp c);
  ch_data : blob (snd_bytes c) (if e_len e =? 0 then 0 else Z.max 0 (e_off e)) (e_len e) = Some (os_data g);
  ch_fin : has_flag flags TH_FIN = true -> has_flag (os_flags g) TH_FIN = true }.

Lemma has_flag_lor a b f : has_flag (Z.lor a b) f = has_flag a f || has_flag b f.
Proof.
  unfold has_flag. rewrite Z.land_lor_distr_l. destruct (Z.land a f =? 0) eqn:Ea, (Z.land b f =? 0) eqn:Eb; cbn [negb orb].
  - apply Z.eqb_eq in Ea as ->. apply Z.eqb_eq in Eb as ->. done.
  - apply negb_true_iff, Z.eqb_neq. intros [? ?]%Z.lor_eq_0_iff. lia.
  - apply negb_true_iff, Z.eqb_neq. intros [? ?]%Z.lor_eq_0_iff. lia.
  - apply negb_true_iff, Z.eqb_neq. intros [? ?]%Z.lor_eq_0_iff. lia.
Qed.

Lemma fin_again_seq flags e tp :
  e_rx e = true \/ has_flag flags TH_FIN && tflag tp TF_SENTFIN && (snd_nxt tp =? snd_max tp) = false ->
  fin_again flags e tp = tp.
Proof.
  unfold fin_again. intros [H|H]; [by rewrite H|].
  destruct (negb (e_rx e)); cbn [andb]; [by rewrite H|done].
Qed.

Lemma out_send_seg a flags win e opt c st s :
  out_send a flags win e opt c st = Some s -> at_hdr a = true -> at_copy a = true ->
  exists g, seg_of s = Some g /\ chosen flags e c g.
Proof.
  intros E Ha Hc. unfold out_send in E. rewrite Ha, Hc, orb_true_r in E. cbn [negb] in E.
  destruct (blob _ _ _) as [d|] eqn:Ed; [|done]. cbn [mbind option_bind] in E.
  destruct (negb (t_template _)); [done|]. set (fl := if _ && (_ =? _) then _ else flags) in E.
  assert (Hfl : has_flag fl TH_FIN = has_flag flags TH_FIN)
    by (unfold fl; destruct (_ && _); [by rewrite has_flag_lor, orb_false_r|done]).
  clearbody fl. destruct (out_urgent fl _) as [[urp hf] tpu] eqn:Eu.
  assert (Hhf : has_flag fl TH_FIN = true -> has_flag hf TH_FIN = true)
    by (unfold out_urgent in Eu; destruct (SEQ_GT _ _); injection Eu as _ <- _; [by rewrite has_flag_lor; intros ->|done]).
  destruct (out_account _ _ _ _ _) as [[tp' st']|]; [|done]. cbn [mbind option_bind] in E. injection E as <-.
  eexists. split; [destruct (negb (at_error a =? 0)); [by destruct (out_failed _ _ _)|done]|].
  split; cbn [os_seq os_data os_flags]; [|done|rewrite <- Hfl; done]. intros H. by rewrite fin_again_seq by (rewrite Hfl; exact H).
Qed.

Lemma out_act_seg env rt idle a flags e c st o c' :
  out_act env rt idle a flags e c st = Some (o, c') ->
  out_now idle (sb_cc (c_snd c)) flags (sbspace (r_rcv (c_r c))) (sb_hiwat (r_rcv (c_r c))) e (c_tp c) = true ->
  at_hdr a = true -> at_copy a = true -> has_flag flags TH_SYN = false ->
  exists more s g, o = Some (more, s) /\ seg_of s = Some g /\ chosen flags e c g.
Proof.
  intros E Hn Ha Hc Hsyn. unfold out_act in E. rewrite Hn in E. unfold seg_options, syn_options in E. rewrite Hsyn in E.
  cbn [negb orb mbind option_bind] in E. set (opt := [] ++ _) in E.
  pose proof (sack_options_same flags (e_len e) (zlen opt) (r_dsack (c_r c)) (c_tp c)) as Hsame.
  destruct (sack_options _ _ _ _ _) as [blks tp]. cbn [snd mbind option_bind] in *.
  destruct (out_send _ _ _ _ _ _ _) as [s|] eqn:Es; [|done]. cbn [mbind option_bind] in E. injection E as <- _.
  destruct (out_send_seg _ _ _ _ _ _ _ _ Es Ha Hc) as (g & Hg & [G1 G2 G3]). exists (e_more e), s, g.
  split; [done|]. split; [done|]. change (c_tp (set_tp tp c)) with tp in G1. split; [|exact G2|exact G3].
  intros H. destruct Hsame as [->| ->]; [by apply G1|]. rewrite tflag_andnot in G1 by done. by apply G1.
Qed.

Lemma out_loop_first n env rt idle w c st er segs c' st' :
  out_loop (S n) env rt idle w c st = Some (er, segs, c', st') -> at_hdr (w 0%nat) = true -> at_copy (w 0%nat) = true ->
  synced (c_tp c) ->
  exists flags e tp, out_choose (S (Z.to_nat (u32 (snd_max (c_tp c) - snd_una (c_tp c))))) c = Some (flags, e, tp) /\
    (has_flag flags TH_SYN = false ->
     out_now idle (sb_cc (c_snd c)) flags (sbspace (r_rcv (c_r c))) (sb_hiwat (r_rcv (c_r c))) e tp = true ->
     exists g rest, segs = g :: rest /\ chosen flags e (set_tp tp c) g).
Proof.
  intros E Ha Hc Hsy. cbn [out_loop] in E. rewrite out_turn_choose in E.
  destruct (out_choose _ c) as [[[flags e] tp]|]; [|done]. cbn [mbind option_bind] in E.
  destruct (out_act _ _ _ _ _ _ _ _) as [[o c1]|] eqn:Ea; [|done]. cbn [mbind option_bind] in E.
  exists flags, e, tp. split; [done|]. intros Hsyn Hn.
  destruct (out_act_seg _ _ _ _ _ _ _ _ _ _ Ea Hn Ha Hc Hsyn) as (more & s & g & -> & Hg & Hch).
  destruct s as [g' c2 st2|er' g' c2 st2]; cbn [seg_of] in Hg; [injection Hg as ->|subst g'].
  - destruct more; [|injection E as _ <- _ _; by exists g, []].
    destruct (out_loop _ _ _ _ _ _ _) as [[[[er2 segs2] c3] st3]|]; [|done]. cbn [mbind option_bind] in E.
    injection E as _ <- _ _. by exists g, segs2.
  - injection E as _ <- _ _. by exists g, [].
Qed.

(** What the choice keeps. *)
Lemma out_choose_same fuel c flags e tp : synced (c_tp c) -> out_choose fuel c = Some (flags, e, tp) ->
  t_state tp = t_state (c_tp c) /\ t_force tp = t_force (c_tp c) /\
  tflag tp TF_ACKNOW = tflag (c_tp c) TF_ACKNOW /\ recovering tp = recovering (c_tp c) /\
  flags = out_mask (sb_cc (c_snd c)) (state_flags (c_tp c)) e tp.
Proof.
  intros Hsy. unfold out_choose. destruct (out_window (c_tp c)) as [win tp1] eqn:E1.
  assert (H1 : t_state tp1 = t_state (c_tp c) /\ t_force tp1 = t_force (c_tp c) /\ t_flags tp1 = t_flags (c_tp c)).
  { unfold out_window in E1. destruct (_ =? 0); [by injection E1 as _ <-|].
    destruct (_ =? 0); by injection E1 as _ <-. }
  destruct H1 as (S1 & F1 & G1). rewrite S1, (outflags_ok _ Hsy). cbn [mbind option_bind].
  destruct (out_next _ win tp1) as [e0 tp2] eqn:E2.
  assert (H2 : t_state tp2 = t_state tp1 /\ t_force tp2 = t_force tp1 /\ t_flags tp2 = t_flags tp1).
  { unfold out_next in E2. destruct (_ <? 0); [destruct (win =? 0)|]; destruct (_ <? _); by injection E2 as _ <-. }
  destruct H2 as (S2 & F2 & G2). destruct (out_recover _ _ _ tp2) as [[e1 tp3]|] eqn:E3; [|done].
  cbn [mbind option_bind]. intros [= <- <- <-].
  assert (H3 : tp3 = tp2 \/ tp3 = add_flags TF_SACK_RESCUE tp2).
  { unfold out_recover in E3. destruct (negb _); [injection E3 as _ <-; by left|].
    destruct (tcp_sack_pipe _ _); [|done]. cbn [mbind option_bind] in E3. destruct (_ <? _); [|injection E3 as _ <-; by left].
    unfold out_holes in E3. destruct (tcp_sack_nextseg tp2) as [[? ?] []]; [injection E3 as _ <-; by left|].
    destruct (if _ && _ then _ else _) as [[? ?]|]; injection E3 as _ <-; [by right|by left]. }
  assert (Hf : forall f, Z.land TF_SACK_RESCUE f = 0 -> tflag tp3 f = tflag (c_tp c) f).
  { intros f Hf. destruct H3 as [->| ->]; [|rewrite tflag_lor, Hf, orb_false_r]; unfold tflag; by rewrite G2, G1. }
  split; [destruct H3 as [->| ->]; cbn; congruence|]. split; [destruct H3 as [->| ->]; cbn; congruence|].
  split; [by apply Hf|]. split; [by apply Hf|done].
Qed.

(** The octets that may follow [snd_nxt]. *)
Definition next_len (cc : Z) (tp : tcpcb) : Z := Z.min cc (usable tp) - nx tp.

Lemma out_choose_next fuel c : ready c -> recovering (c_tp c) = false -> 0 <= next_len (sb_cc (c_snd c)) (c_tp c) ->
  exists flags e tp, out_choose fuel c = Some (flags, e, tp) /\
    e_off e = nx (c_tp c) /\ e_len e = Z.min (next_len (sb_cc (c_snd c)) (c_tp c)) (t_maxseg (c_tp c)) /\ e_rx e = false /\
    (exists v k, tp = c_tp c <| t_timer ::= v |> <| t_rxtshift ::= k |>).
Proof.
  intros [R1 R2 R3 R4 R5 R6] Hrec Hl. unfold out_choose. rewrite R3 in *. set (tp := c_tp c) in *. set (cc := zlen (snd_bytes c)) in *.
  pose proof (zlen_nonneg (snd_bytes c)) as H0. fold cc in H0.
  destruct (out_window tp) as [win tp1] eqn:E1.
  destruct (out_window_ok cc tp win tp1 R5 R6 E1) as (-> & S1 & _).
  assert (H1 : exists v k, tp1 = tp <| t_timer ::= v |> <| t_rxtshift ::= k |>).
  { unfold out_window in E1. destruct (_ =? 0); [injection E1 as _ <-; exists (t_timer tp), (t_rxtshift tp); by destruct tp|].
    destruct (_ =? 0); injection E1 as _ <-; [exists (t_timer tp), (t_rxtshift tp); by destruct tp|].
    eexists _, _. reflexivity. }
  destruct H1 as (v & k & E). assert (Hst : zget tcp_outflags (t_state tp1) = Some (state_flags tp))
    by (rewrite E; exact (outflags_ok tp R1)). rewrite Hst. cbn [mbind option_bind].
  pose proof R5 as [(W1 & W2 & W3) N1 N2 N3 N4 N5 N6 N7]. pose proof (usable_cases tp) as Hu. cbv zeta in Hu.
  assert (Hx : 0 <= nx tp <= cc + 1)
    by (pose proof (rel_range (snd_una tp) (snd_nxt tp)); unfold nx in *; case_match; lia).
  unfold out_next. replace (snd_nxt tp1) with (snd_nxt tp) by (by rewrite E).
  replace (snd_una tp1) with (snd_una tp) by (by rewrite E). assert (Hms : t_maxseg tp1 = t_maxseg tp) by (by rewrite E).
  rewrite (s32_rel2 (snd_una tp) (snd_nxt tp)), u32_small by (done || (unfold nx in *; lia)).
  fold (nx tp). rewrite (s32_small (_ - _)) by lia. fold (next_len cc tp).
  destruct (next_len cc tp <? 0) eqn:El; [lia|].
  assert (Hfin : forall e, e_off e = nx tp -> e_len e = Z.min (next_len cc tp) (t_maxseg tp) -> e_rx e = false ->
    exists flags e' tp', ('(e, tp') ← out_recover fuel cc e tp1; Some (out_mask cc (state_flags tp) e tp', e, tp'))
        = Some (flags, e', tp') /\
      e_off e' = nx tp /\ e_len e' = Z.min (next_len cc tp) (t_maxseg tp) /\ e_rx e' = false /\
      (exists v k, tp' = tp <| t_timer ::= v |> <| t_rxtshift ::= k |>)).
  { intros e He1 He2 He3.
    assert (Hr : out_recover fuel cc e tp1 = Some (e, tp1)).
    { unfold out_recover. fold (recovering tp1). replace (recovering tp1) with (recovering tp) by (by rewrite E). by rewrite Hrec. }
    rewrite Hr. cbn [mbind option_bind]. eexists _, e, tp1. split; [reflexivity|]. split_and!; try done. by exists v, k. }
  rewrite Hms. destruct (t_maxseg tp <? next_len cc tp) eqn:Em; apply Hfin; cbn [e_off e_len e_rx]; done || lia.
Qed.

Lemma out_choose_sel fuel c flags e tp : ready c -> mx (c_tp c) < Z.of_nat fuel -> out_choose fuel c = Some (flags, e, tp) ->
  sel_ok (zlen (snd_bytes c)) (allowed (c_tp c)) e tp.
Proof.
  intros [R1 R2 R3 R4 R5 R6] Hfu E. pose proof (zlen_nonneg (snd_bytes c)). unfold out_choose in E. rewrite R3 in E.
  destruct (out_window (c_tp c)) as [win tp1] eqn:E1.
  destruct (zget tcp_outflags _) as [fl|]; [|done]. cbn [mbind option_bind] in E.
  destruct (out_next _ _ tp1) as [e0 tp2] eqn:E2.
  destruct (out_choice_ok (zlen (snd_bytes c)) _ _ _ _ _ fuel ltac:(lia) R5 R6 Hfu E1 E2) as (e' & tp' & E3 & _ & _ & _ & _ & _ & _ & _ & _ & K).
  rewrite E3 in E. cbn [mbind option_bind] in E. by injection E as _ <- <-.
Qed.

(** In recovery, a probe goes into the closed window when there is nothing else. *)
Lemma out_choose_probe fuel c flags e tp :
  ready c -> out_choose fuel c = Some (flags, e, tp) ->
  recovering (c_tp c) = true -> forced (c_tp c) = true -> snd_wnd (c_tp c) = 0 -> 0 < mx (c_tp c) -> 0 < sb_cc (c_snd c) ->
  e_len e <> 0.
Proof.
  intros [R1 R2 R3 R4 R5 R6] E Hr Hf Hw Hm Hcc. unfold out_choose in E. rewrite R3 in *. set (cc := zlen (snd_bytes c)) in *.
  destruct (out_window (c_tp c)) as [win tp1] eqn:E1.
  destruct (out_window_ok cc _ win tp1 R5 R6 E1) as (-> & S1 & N1 & C1 & X1 & W1 & M1 & H1 & F1).
  destruct (zget tcp_outflags _) as [fl|]; [|done]. cbn [mbind option_bind] in E.
  assert (Hus : usable tp1 = usable (c_tp c)).
  { destruct S1 as (_ & _ & Ew & _ & Ef & _). unfold usable, forced. by rewrite Ew, Ef, W1. }
  destruct (out_next cc _ tp1) as [e0 tp2] eqn:E2. rewrite <- Hus in E2.
  assert (Hmin : Z.min (snd_wnd (c_tp c)) (snd_cwnd (c_tp c)) = Z.min (snd_wnd tp1) (snd_cwnd tp1)).
  { destruct S1 as (_ & _ & Ew & _). by rewrite Ew, W1. }
  rewrite Hmin in F1.
  destruct (out_next_ok cc tp1 e0 tp2 ltac:(lia) N1 C1 E2 F1) as (S2 & N2 & C2 & M2 & H2 & W2 & _).
  pose proof (same_conn_trans _ _ _ S1 S2) as (_ & _ & Ew & _ & Ef & _ & _ & Er & _).
  destruct (out_recover _ _ _ tp2) as [[e1 tp3]|] eqn:E3; [|done]. cbn [mbind option_bind] in E. injection E as _ <- _.
  unfold out_recover in E3. fold (recovering tp2) in E3. rewrite Er, Hr in E3. cbn [negb] in E3.
  destruct (tcp_sack_pipe _ _); [|done]. cbn [mbind option_bind] in E3.
  assert (Hrec2 : recovering tp2 = true) by congruence.
  destruct (nm_rec _ _ N2 Hrec2) as (Hok2 & _).
  assert (Hp : forall e tp', tp' = tp2 \/ tp' = add_flags TF_SACK_RESCUE tp2 -> e_len (out_probe cc e tp') <> 0).
  { intros x tp' Ht. unfold out_probe.
    replace (t_force tp') with (t_force (c_tp c)) by (destruct Ht as [->| ->]; symmetry; exact Ef).
    replace (snd_wnd tp') with (snd_wnd (c_tp c)) by (destruct Ht as [->| ->]; symmetry; exact Ew).
    replace (SEQ_LT (snd_una tp') (snd_max tp')) with true
      by (symmetry; replace (SEQ_LT (snd_una tp') (snd_max tp')) with (SEQ_LT (snd_una tp2) (snd_max tp2)) by (by destruct Ht as [->| ->]);
          rewrite seq_lt_una by done; rewrite M2, M1; lia).
    fold (forced (c_tp c)). rewrite Hf, Hw, s32_small by lia. destruct (e_len x =? 0) eqn:El; cbn [andb Z.eqb]; [|lia].
    destruct (cc <? 1) eqn:Ec; [lia|]. done. }
  destruct (_ <? snd_cwnd tp2); [|injection E3 as <- _; apply Hp; by left].
  destruct (out_holes _ _ tp2) as [e' tp'] eqn:Eh. injection E3 as <- _. apply Hp.
  unfold out_holes in Eh. destruct (tcp_sack_nextseg tp2) as [[? ?] []]; [injection Eh as _ <-; by left|].
  destruct (if _ && _ then _ else _) as [[? ?]|]; injection Eh as _ <-; [by right|by left].
Qed.

(** What makes a call send: a closed block has an RST to send, an acknowledgment is owed,
    data behind [snd_nxt] are forced, fill a segment, are sent again or are all there is,
    with nothing in flight or [TF_NODELAY]; the end is to be sent again; or a probe. *)
Definition data_due (c : conn) : Prop :=
  let tp := c_tp c in let cc := zlen (snd_bytes c) in
  recovering tp = false /\ 0 < next_len cc tp /\
  (forced tp = true \/ t_maxseg tp <= next_len cc tp \/ nx tp < mx tp \/
   (mx tp = 0 \/ tflag tp TF_NODELAY = true) /\ cc <= nx tp + next_len cc tp).
Definition fin_due (c : conn) : Prop :=
  let tp := c_tp c in recovering tp = false /\ sends_fin tp = true /\ snd_bytes c = [] /\ nx tp = 0.
Definition probe_due (c : conn) : Prop :=
  let tp := c_tp c in
  recovering tp = true /\ forced tp = true /\ snd_wnd tp = 0 /\ 0 < mx tp /\ snd_bytes c <> [].
Definition due (c : conn) : Prop :=
  closed (c_tp c) = true \/ tflag (c_tp c) TF_ACKNOW = true \/ data_due c \/ fin_due c \/ probe_due c.

(** The first segment of a call that sends. *)
Definition started (c : conn) (segs : list oseg) : Prop :=
  let tp := c_tp c in let len := next_len (zlen (snd_bytes c)) tp in
  exists g rest, segs = g :: rest /\
    (recovering tp = false -> 0 < len -> os_seq g = snd_nxt tp /\ zlen (os_data g) = Z.min len (t_maxseg tp)) /\
    (fin_due c -> os_seq g = snd_nxt tp /\ has_flag (os_flags g) TH_FIN = true) /\
    (probe_due c -> os_data g <> []).

(** The flags of a choice. *)
Lemma out_mask_flags cc e tp0 tp :
  let flags := out_mask cc (state_flags tp0) e tp in
  has_flag flags TH_SYN = false /\ has_flag flags TH_RST = closed tp0 /\
  (has_flag flags TH_FIN = true -> sends_fin tp0 = true).
Proof.
  cbv zeta. unfold out_mask, state_flags. destruct (SEQ_LT _ _), (closed tp0), (sends_fin tp0); done.
Qed.

Lemma has_flag_rst flags : has_flag flags TH_RST = true -> has_flag flags (Z.lor TH_SYN TH_RST) = true.
Proof.
  unfold has_flag. rewrite Z.land_lor_distr_r. intros H%negb_true_iff%Z.eqb_neq.
  apply negb_true_iff, Z.eqb_neq. intros [_ ?]%Z.lor_eq_0_iff. done.
Qed.

Lemma chosen_len cc win flags e c g :
  sel_ok cc win e (c_tp c) -> cc = zlen (snd_bytes c) -> chosen flags e c g -> zlen (os_data g) = e_len e.
Proof.
  intros Hs -> [_ Hd _]. pose proof (se_len _ _ _ _ Hs). pose proof (zlen_nonneg (snd_bytes c)).
  destruct (e_len e =? 0) eqn:E.
  - replace (e_len e) with 0 in * by lia. rewrite blob_ok in Hd by lia. by injection Hd as <-.
  - destruct (se_off _ _ _ _ Hs ltac:(lia)) as (_ & Ho & He). rewrite Z.max_r, blob_ok in Hd by lia.
    injection Hd as <-. apply zslice_len; lia.
Qed.

(** Where the choice is [snd_nxt], with the octets behind it. *)
Lemma out_choose_plain fuel c flags e tp :
  ready c -> out_choose fuel c = Some (flags, e, tp) -> recovering (c_tp c) = false ->
  0 <= next_len (zlen (snd_bytes c)) (c_tp c) ->
  e_off e = nx (c_tp c) /\ e_len e = Z.min (next_len (zlen (snd_bytes c)) (c_tp c)) (t_maxseg (c_tp c)) /\ e_rx e = false /\
  snd_nxt tp = snd_nxt (c_tp c) /\ snd_max tp = snd_max (c_tp c) /\ snd_una tp = snd_una (c_tp c) /\
  t_flags tp = t_flags (c_tp c) /\ t_maxseg tp = t_maxseg (c_tp c) /\ t_force tp = t_force (c_tp c) /\
  recovering tp = false.
Proof.
  intros Hr E Hrec Hl. rewrite <- (rd_queue _ Hr) in *.
  destruct (out_choose_next fuel c Hr Hrec Hl) as (flags' & e' & tp' & E' & K1 & K2 & K3 & v & k & K4).
  rewrite E in E'. injection E' as <- <- <-. rewrite K4. split_and!; done.
Qed.

(** A repeated FIN is behind all data: it is not in the way of data or of itself at
    [snd_una]. *)
Lemma no_fin_again c flags tp :
  ready c -> (has_flag flags TH_FIN = true -> sends_fin (c_tp c) = true) ->
  snd_nxt tp = snd_nxt (c_tp c) -> snd_max tp = snd_max (c_tp c) -> t_flags tp = t_flags (c_tp c) ->
  nx (c_tp c) <= zlen (snd_bytes c) ->
  has_flag flags TH_FIN && tflag tp TF_SENTFIN && (snd_nxt tp =? snd_max tp) = false.
Proof.
  intros Hr Hf En Em Et Hx. destruct (has_flag flags TH_FIN) eqn:Ef; [|done]. cbn [andb].
  unfold tflag. rewrite Et. fold (tflag (c_tp c) TF_SENTFIN). destruct (tflag (c_tp c) TF_SENTFIN) eqn:Es; [|done]. cbn [andb].
  pose proof (nm_fin _ _ (rd_numbers _ Hr) Es (Hf eq_refl)). rewrite En, Em. apply Z.eqb_neq. intros E.
  unfold nx, mx in *. rewrite E in Hx. lia.
Qed.

Lemma data_due_now idle c flags e tp fuel win hiwat :
  ready c -> out_choose fuel c = Some (flags, e, tp) -> data_due c ->
  idle = (snd_max (c_tp c) =? snd_una (c_tp c)) ->
  out_now idle (zlen (snd_bytes c)) flags win hiwat e tp = true.
Proof.
  intros Hr E (Hrec & Hl & Hw) ->. destruct (out_choose_plain _ _ _ _ _ Hr E Hrec ltac:(lia)) as (H1 & H2 & H3 & H4 & H5 & H6 & H7 & H8 & H9 & H10).
  set (cc := zlen (snd_bytes c)) in *. set (len := next_len cc (c_tp c)) in *.
  pose proof (nm_seg _ _ (rd_numbers _ Hr)) as Hm. pose proof (rd_numbers _ Hr) as [(W1 & W2 & W3) N1 N2 _ _ _ _ _].
  pose proof (rd_small _ Hr) as Hsm. fold cc in Hsm, N2. pose proof (rel_range (snd_una (c_tp c)) (snd_nxt (c_tp c))).
  assert (Hmx : nx (c_tp c) <= mx (c_tp c) <= cc + 1) by (case_match; lia).
  assert (Hd : out_data_now (snd_max (c_tp c) =? snd_una (c_tp c)) cc e tp = true).
  { unfold out_data_now. rewrite H8, H2. replace (negb (Z.min len _ =? 0)) with true by lia. cbn [andb].
    destruct Hw as [Hw|[Hw|[Hw|[Hw1 Hw2]]]].
    - unfold forced in Hw. rewrite H9, Hw. by rewrite !orb_true_r.
    - replace (Z.min len _ =? _) with true by lia. done.
    - assert (Hlt : SEQ_LT (snd_nxt tp) (snd_max tp) = true).
      { rewrite H4, H5, (SEQ_LT_rel (snd_una (c_tp c))); unfold inwin, nx, mx in *; lia. }
      rewrite Hlt. by rewrite !orb_true_r.
    - destruct (decide (t_maxseg (c_tp c) <= len)).
      + replace (Z.min len _ =? _) with true by lia. done.
      + rewrite H1, u32_small by (unfold nx in *; lia).
        replace (cc <=? Z.min len (t_maxseg (c_tp c)) + nx (c_tp c)) with true by lia.
        assert (Hi : (snd_max (c_tp c) =? snd_una (c_tp c)) || tflag tp TF_NODELAY = true).
        { unfold tflag. rewrite H7. fold (tflag (c_tp c) TF_NODELAY). destruct Hw1 as [Hw1| ->]; [|by rewrite orb_true_r].
          rewrite rel_eqb by done. fold (mx (c_tp c)). by rewrite Hw1. }
        rewrite Hi. cbn [andb]. by rewrite orb_true_r. }
  unfold out_now. rewrite Hd. by rewrite orb_true_r.
Qed.

Lemma fin_due_now idle c flags e tp fuel win hiwat :
  ready c -> out_choose fuel c = Some (flags, e, tp) -> fin_due c ->
  has_flag flags TH_FIN = true /\ out_now idle (zlen (snd_bytes c)) flags win hiwat e tp = true.
Proof.
  intros Hr E (Hrec & Hs & Hb & Hx). pose proof (out_choose_same _ _ _ _ _ (rd_state _ Hr) E) as (T1 & T2 & T3 & T4 & T5).
  pose proof (usable_cases (c_tp c)) as Hu. cbv zeta in Hu.
  pose proof (nm_wnd _ _ (rd_numbers _ Hr)) as Hwn. pose proof (nm_cwnd _ _ (rd_numbers _ Hr)) as Hcw.
  pose proof (nm_seg _ _ (rd_numbers _ Hr)) as Hms.
  assert (Hl : next_len (zlen (snd_bytes c)) (c_tp c) = 0) by (unfold next_len; rewrite Hb, Hx, zlen_nil; lia).
  destruct (out_choose_plain _ _ _ _ _ Hr E Hrec ltac:(lia)) as (H1 & H2 & H3 & H4 & H5 & H6 & H7 & H8 & H9 & H10).
  rewrite Hl in H2. assert (Hn : snd_nxt tp = snd_una tp).
  { rewrite H4, H6. pose proof (nm_words _ _ (rd_numbers _ Hr)) as (W1 & W2 & _). unfold nx in Hx.
    apply (rel_inj (snd_una (c_tp c))); [done|done|]. by rewrite rel_self. }
  assert (Hf : has_flag flags TH_FIN = true).
  { rewrite T5, (rd_queue _ Hr), Hb. unfold out_mask. replace (e_len e) with 0 by lia. change (0 <? 0) with false. rewrite andb_false_r, Hn.
    change (zlen []) with 0. unfold SEQ_LT. rewrite Z.sub_diag. change (s32 0 <? 0) with false. unfold state_flags.
    destruct (closed (c_tp c)) eqn:Ec; [|by rewrite Hs]. unfold closed, TCPS_CLOSED, sends_fin, TCPS_FIN_WAIT_1 in *. lia. }
  split; [done|]. unfold out_now. rewrite Hf, Hn, Z.eqb_refl. rewrite (orb_true_r (negb _)). by rewrite !orb_true_r.
Qed.

Lemma out_loop_starts n env rt w c st er segs c' st' :
  ready c -> out_loop (S n) env rt (snd_max (c_tp c) =? snd_una (c_tp c)) w c st = Some (er, segs, c', st') ->
  at_hdr (w 0%nat) = true -> at_copy (w 0%nat) = true -> due c -> started c segs.
Proof.
  intros Hr E Ha Hc Hd.
  destruct (out_loop_first _ _ _ _ _ _ _ _ _ _ _ E Ha Hc (rd_state _ Hr)) as (flags & e & tp & Ec & Hgo).
  set (fuel := S (Z.to_nat _)) in Ec.
  assert (Hfu : mx (c_tp c) < Z.of_nat fuel) by (unfold fuel, mx, rel; lia).
  pose proof (out_choose_sel _ _ _ _ _ Hr Hfu Ec) as Hs.
  pose proof (out_choose_same _ _ _ _ _ (rd_state _ Hr) Ec) as (T1 & T2 & T3 & T4 & T5).
  destruct (out_mask_flags (sb_cc (c_snd c)) e (c_tp c) tp) as (F1 & F2 & F3). rewrite <- T5 in F1, F2, F3.
  assert (Hprobe : probe_due c -> 0 < e_len e).
  { intros (P1 & P2 & P3 & P4 & P5). pose proof (se_len _ _ _ _ Hs).
    assert (0 < sb_cc (c_snd c)) by (rewrite (rd_queue _ Hr); destruct (snd_bytes c) as [|x l]; [done|rewrite zlen_cons; pose proof (zlen_nonneg l); lia]).
    pose proof (out_choose_probe _ _ _ _ _ Hr Ec P1 P2 P3 P4 ltac:(done)). lia. }
  destruct Hgo as (g & rest & -> & Hch); [done| |].
  { rewrite (rd_queue _ Hr). destruct Hd as [Hd|[Hd|[Hd|[Hd|Hd]]]].
    - unfold out_now. replace (has_flag flags (Z.lor TH_SYN TH_RST)) with true by (symmetry; apply has_flag_rst; by rewrite F2). by rewrite !orb_true_r.
    - unfold out_now. rewrite T3, Hd. by rewrite !orb_true_r.
    - by apply (data_due_now _ _ _ _ _ fuel).
    - by eapply fin_due_now.
    - pose proof (Hprobe Hd) as He. destruct Hd as (P1 & _). unfold out_now. fold (recovering tp). rewrite T4, P1.
      replace (0 <? e_len e) with true by lia. done. }
  assert (Hlen : zlen (os_data g) = e_len e) by exact (chosen_len _ _ flags e (set_tp tp c) g Hs eq_refl Hch).
  pose proof (usable_cases (c_tp c)) as Hu. cbv zeta in Hu.
  assert (Hseq : forall b, recovering (c_tp c) = false -> 0 <= next_len (zlen (snd_bytes c)) (c_tp c) -> b = os_seq g ->
    b = snd_nxt (c_tp c) /\ e_len e = Z.min (next_len (zlen (snd_bytes c)) (c_tp c)) (t_maxseg (c_tp c))).
  { intros b Hrec Hl ->. destruct (out_choose_plain _ _ _ _ _ Hr Ec Hrec Hl) as (H1 & H2 & H3 & H4 & H5 & H6 & H7 & H8 & H9 & H10).
    split; [|done]. rewrite (ch_seq _ _ _ _ Hch).
    - unfold sel_seq. by rewrite H3.
    - right. change (c_tp (set_tp tp c)) with tp. apply (no_fin_again c); try done. unfold next_len in Hl. lia. }
  exists g, rest. split; [done|]. split; [|split].
  - intros Hrec Hl. destruct (Hseq _ Hrec ltac:(lia) eq_refl) as [H1 H2]. by rewrite Hlen.
  - intros Hf. destruct (fin_due_now false c flags e tp fuel 0 0 Hr Ec Hf) as [Hfin _]. pose proof Hf as (Hrec & _ & Hb & Hx).
    pose proof (nm_wnd _ _ (rd_numbers _ Hr)). pose proof (nm_cwnd _ _ (rd_numbers _ Hr)).
    assert (Hl : 0 <= next_len (zlen (snd_bytes c)) (c_tp c)).
    { unfold next_len. rewrite Hb, Hx. change (zlen []) with 0. lia. }
    destruct (Hseq _ Hrec Hl eq_refl) as [K _].
    split; [done|]. by apply (ch_fin _ _ _ _ Hch).
  - intros Hp. specialize (Hprobe Hp). intros Hnil. rewrite Hnil, zlen_nil in Hlen. lia.
Qed.

Lemma tcp_output_sends env rt w c st er segs c' st' :
  ready c -> tcp_output env rt w c st = Some (er, segs, c', st') ->
  at_hdr (w 0%nat) = true -> at_copy (w 0%nat) = true -> due (out_restart c) -> started (out_restart c) segs.
Proof.
  intros Hr E Ha Hc Hd. unfold tcp_output in E. pose proof (restart_ready c Hr) as Hr0.
  pose proof (zlen_nonneg (snd_bytes c)). pose proof (rd_queue _ Hr).
  replace (Z.to_nat (2 * sb_cc (c_snd c) + 4)) with (S (Z.to_nat (2 * sb_cc (c_snd c) + 3))) in E by lia.
  assert (Hi : (snd_max (c_tp c) =? snd_una (c_tp c)) = (snd_max (c_tp (out_restart c)) =? snd_una (c_tp (out_restart c))))
    by (unfold out_restart; cbv zeta; by destruct (_ && _)).
  rewrite Hi in E. by eapply out_loop_starts.
Qed.


(** ** What a call leaves alone

    A running retransmission timer, its back-off and its interval, while the window is open
    and nothing is forced; and the soft error of a closed block. *)
Definition quiet (tp : tcpcb) : Prop :=
  timer tp TCPT_REXMT <> 0 /\ t_force tp = 0 /\ 0 < snd_wnd tp < 1073741824 /\
  0 < snd_cwnd tp < 2147483648 /\ 1 <= t_maxseg tp < 65536.

Record framed (tp tp' : tcpcb) : Prop := {
  fr_state : t_state tp' = t_state tp;
  fr_soft : closed tp = true -> t_softerror tp' = t_softerror tp;
  fr_quiet : quiet tp -> quiet tp' /\ t_timer tp' = t_timer tp /\ t_rxtshift tp' = t_rxtshift tp /\
    t_rxtcur tp' = t_rxtcur tp /\ snd_wnd tp' = snd_wnd tp }.

Lemma framed_trans a b c : framed a b -> framed b c -> framed a c.
Proof.
  intros [H1 H2 H3] [H4 H5 H6]. split; [congruence| |].
  - intros Hc. rewrite H5; [by apply H2|]. unfold closed in *. by rewrite H1.
  - intros Hq. destruct (H3 Hq) as (Hq1 & ? & ? & ? & ?). destruct (H6 Hq1) as (? & ? & ? & ? & ?).
    split; [done|]. split_and!; congruence.
Qed.

Lemma framed_eq tp tp' :
  t_state tp' = t_state tp -> t_softerror tp' = t_softerror tp -> t_timer tp' = t_timer tp ->
  t_rxtshift tp' = t_rxtshift tp -> t_rxtcur tp' = t_rxtcur tp -> t_force tp' = t_force tp ->
  snd_wnd tp' = snd_wnd tp -> snd_cwnd tp' = snd_cwnd tp -> t_maxseg tp' = t_maxseg tp -> framed tp tp'.
Proof.
  intros E1 E2 E3 E4 E5 E6 E7 E8 E9. split; [done|done|]. intros Hq. split; [|done].
  unfold quiet, timer in *. by rewrite E3, E6, E7, E8, E9.
Qed.

(** The parts that only touch other fields, by computation. *)
Ltac framed_solve := apply framed_eq; reflexivity.

Lemma out_window_framed tp : framed tp (out_window tp).2.
Proof.
  unfold out_window. destruct (t_force tp =? 0) eqn:E; [framed_solve|]. cbv zeta. destruct (s32 _ =? 0); [framed_solve|].
  split; [done|done|]. intros (_ & Hf & _). lia.
Qed.

Lemma out_next_framed cc tp : framed tp (out_next cc (out_window tp).1 tp).2.
Proof.
  unfold out_next. destruct (_ <? 0); [|destruct (_ <? _); framed_solve].
  destruct (_ =? 0) eqn:E; [|destruct (_ <? _); framed_solve].
  assert (H : framed tp (set_timer TCPT_REXMT 0 tp <| snd_nxt ::= snd_una tp |>)).
  { split; [done|done|]. intros (_ & Hf & Hw & Hc & _). unfold out_window in E.
    rewrite s32_small, Hf in E by lia. cbn [Z.eqb fst] in E. lia. }
  by destruct (_ <? _).
Qed.

Lemma out_recover_framed fuel cc e tp e' tp' : out_recover fuel cc e tp = Some (e', tp') -> framed tp tp'.
Proof.
  unfold out_recover. destruct (negb _); [intros [= _ <-]; framed_solve|].
  destruct (tcp_sack_pipe fuel tp) as [pipe|]; [|done]. cbn [mbind option_bind].
  assert (H : framed tp (out_holes cc pipe tp).2).
  { unfold out_holes. destruct (tcp_sack_nextseg tp) as [[hs he] []]; [framed_solve|].
    destruct (if _ && _ then _ else _) as [[? ?]|]; framed_solve. }
  destruct (pipe <? snd_cwnd tp).
  - destruct (out_holes cc pipe tp) as [e1 tp1]. by intros [= _ <-].
  - intros [= _ <-]. framed_solve.
Qed.

Lemma persist_state tp tp' : tcp_setpersist (tp <| t_rxtshift ::= 0 |>) = Some tp' ->
  t_state tp' = t_state tp /\ t_softerror tp' = t_softerror tp.
Proof.
  unfold tcp_setpersist. destruct (negb _); [done|]. destruct (zget _ _); [|done]. cbn [mbind option_bind].
  by destruct (_ <? _); intros [= <-].
Qed.

Lemma framed_unquiet tp tp' : timer tp TCPT_REXMT = 0 -> t_state tp' = t_state tp -> t_softerror tp' = t_softerror tp ->
  framed tp tp'.
Proof. intros Hx H1 H2. split; [done|done|]. by intros (Hq & _). Qed.

Lemma out_idle_framed cc tp tp' : out_idle cc tp = Some tp' -> framed tp tp'.
Proof.
  unfold out_idle. destruct (timer tp TCPT_REXMT =? 0) eqn:E.
  2: { rewrite andb_false_r. cbn [andb]. intros [= <-]. framed_solve. }
  assert (Hp : forall tp1, tcp_setpersist (tp <| t_rxtshift ::= 0 |>) = Some tp1 -> framed tp tp1).
  { intros tp1 H%persist_state. apply framed_unquiet; [lia|apply H..]. }
  destruct (_ && _); [|intros [= <-]; framed_solve]. destruct (negb _); [apply Hp|].
  destruct (SEQ_LT _ _); [|intros [= <-]; framed_solve]. destruct (snd_wnd tp =? 0); [apply Hp|].
  intros [= <-]. apply framed_unquiet; [lia|done..].
Qed.

Lemma out_hole_timer_framed tp tp' : out_hole_timer tp = Some tp' -> framed tp tp'.
Proof.
  unfold out_hole_timer. destruct (timer tp TCPT_REXMT =? 0) eqn:E; [|cbn [andb]; intros [= <-]; framed_solve].
  destruct (_ && _); [|intros [= <-]; framed_solve]. destruct (snd_wnd tp =? 0).
  - intros H%persist_state. apply framed_unquiet; [lia|apply H..].
  - intros [= <-]. apply framed_unquiet; [lia|done..].
Qed.

Lemma out_rexmt_framed tp : framed tp (out_rexmt tp).
Proof.
  unfold out_rexmt. destruct (timer tp TCPT_REXMT =? 0) eqn:E; [|framed_solve]. destruct (negb _); [|framed_solve].
  cbn [andb]. destruct (timer _ TCPT_PERSIST =? 0); apply framed_unquiet; done || lia.
Qed.

Lemma out_failed_framed error cc tp : framed tp (out_failed error cc tp).2.
Proof.
  unfold out_failed. set (tp1 := if _ && SEQ_LT _ _ then _ else tp).
  assert (H1 : framed tp tp1).
  { unfold tp1. destruct (timer tp TCPT_REXMT =? 0) eqn:E.
    - destruct (_ && _); [|framed_solve]. apply framed_unquiet; done || lia.
    - rewrite andb_false_r. cbn [andb]. framed_solve. }
  clearbody tp1. apply (framed_trans _ _ _ H1). destruct (error =? ENOBUFS).
  - split; [done|done|]. intros (Q1 & Q2 & Q3 & Q4 & Q5). split; [|done]. unfold quiet. cbn. split_and!; done || lia.
  - destruct (_ && TCPS_HAVERCVDSYN _) eqn:E; [|framed_solve]. split; [done| |].
    + unfold closed, TCPS_CLOSED. unfold TCPS_HAVERCVDSYN, TCPS_SYN_RECEIVED in E. lia.
    + intros Hq. split; [exact Hq|done].
Qed.

Lemma out_new_framed startseq tp st : framed tp (out_new startseq tp st).1.
Proof. unfold out_new. destruct (SEQ_GT _ _); [|framed_solve]. cbv zeta. destruct (t_rtt _ =? 0); framed_solve. Qed.

Lemma out_account_framed flags len e tp st tp' st' :
  out_account flags len e tp st = Some (tp', st') -> framed tp tp'.
Proof.
  unfold out_account. destruct (e_rx e).
  - set (tp1 := if _ && SEQ_GT _ _ then _ else tp). assert (H1 : framed tp tp1) by (unfold tp1; destruct (_ && _); framed_solve).
    clearbody tp1. destruct (out_hole_timer tp1) as [tp2|] eqn:E; [|done]. cbn [mbind option_bind].
    intros [= <- _]. by apply (framed_trans _ _ _ H1), out_hole_timer_framed.
  - destruct (_ || _).
    + set (tp1 := if has_flag flags TH_FIN then _ else tp).
      assert (H1 : framed tp tp1) by (unfold tp1; destruct (has_flag _ _); framed_solve). clearbody tp1.
      set (tp2 := tp1 <| snd_nxt ::= _ |>). assert (H2 : framed tp1 tp2) by framed_solve. clearbody tp2.
      pose proof (out_new_framed (snd_nxt tp) tp2 st) as H3. destruct (out_new _ tp2 st) as [tp3 st3]. cbn [fst] in H3.
      intros [= <- _]. apply (framed_trans _ _ _ H1), (framed_trans _ _ _ H2), (framed_trans _ _ _ H3), out_rexmt_framed.
    + intros [= <- _]. destruct (SEQ_GT _ _); framed_solve.
Qed.

Definition conn_of (s : sending) : conn := match s with Sent _ c _ => c | Failed _ _ c _ => c end.

Lemma out_sent_framed win len tp : framed tp (out_sent win len tp).
Proof.
  unfold out_sent. set (tp1 := if tflag tp TF_SACK_RECOVER then _ else tp).
  assert (H1 : framed tp tp1) by (unfold tp1; destruct (tflag _ _); framed_solve). clearbody tp1.
  apply (framed_trans _ _ _ H1). destruct (_ && _); framed_solve.
Qed.

Lemma out_send_framed a flags win e opt c st s :
  out_send a flags win e opt c st = Some s -> framed (c_tp c) (c_tp (conn_of s)).
Proof.
  unfold out_send. set (st1 := if e_len e =? 0 then _ else _). clearbody st1. destruct (negb (at_hdr a)).
  { pose proof (out_failed_framed ENOBUFS (sb_cc (c_snd c)) (c_tp c)) as H.
    destruct (out_failed _ _ _) as [er tp]. by intros [= <-]. }
  destruct (blob _ _ _) as [d|]; [|done]. cbn [mbind option_bind]. set (fl := if _ && _ then _ else flags). clearbody fl.
  destruct (negb (t_template _)); [done|].
  assert (H1 : framed (c_tp c) (fin_again fl e (c_tp c))) by (unfold fin_again; destruct (_ && _); framed_solve).
  set (tp1 := fin_again fl e (c_tp c)) in *. clearbody tp1.
  assert (H2 : framed tp1 (out_urgent fl tp1).2) by (unfold out_urgent; destruct (SEQ_GT _ _); framed_solve).
  destruct (out_urgent fl tp1) as [[urp hf] tp2]. cbn [snd] in H2.
  destruct (out_account _ _ _ tp2 _) as [[tp3 st3]|] eqn:E3; [|done]. cbn [mbind option_bind].
  pose proof (framed_trans _ _ _ H1 (framed_trans _ _ _ H2 (out_account_framed _ _ _ _ _ _ _ E3))) as H3.
  destruct (negb (at_error a =? 0)).
  - pose proof (out_failed_framed (at_error a) (sb_cc (c_snd c)) tp3) as H. destruct (out_failed _ _ _) as [er tp].
    intros [= <-]. by apply (framed_trans _ _ _ H3).
  - intros [= <-]. apply (framed_trans _ _ _ H3), out_sent_framed.
Qed.

Lemma out_turn_framed fuel env rt idle a c st o c' :
  synced (c_tp c) -> out_turn fuel env rt idle a c st = Some (o, c') ->
  framed (c_tp c) (c_tp (match o with Some (_, s) => conn_of s | None => c' end)).
Proof.
  intros Hsy. unfold out_turn. pose proof (out_window_framed (c_tp c)) as H1.
  assert (E1 : forall cc, framed (c_tp c) (out_next cc (out_window (c_tp c)).1 (out_window (c_tp c)).2).2).
  { intros cc. unfold out_window. destruct (t_force (c_tp c) =? 0) eqn:Ef.
    - pose proof (out_next_framed cc (c_tp c)) as H2. unfold out_window in H2. by rewrite Ef in H2.
    - split.
      + cbv zeta. destruct (s32 _ =? 0); cbn [fst snd]; unfold out_next; destruct (_ <? 0); [|destruct (_ <? _); done|..];
          repeat (destruct (_ =? 0) || destruct (_ <? _)); done.
      + intros _. cbv zeta. destruct (s32 _ =? 0); cbn [fst snd]; unfold out_next; destruct (_ <? 0);
          [|destruct (_ <? _); done|..]; repeat (destruct (_ =? 0) || destruct (_ <? _)); done.
      + intros (_ & Hf & _). lia. }
  specialize (E1 (sb_cc (c_snd c))). destruct (out_window (c_tp c)) as [win tp1] eqn:Ew. cbn [fst snd] in *.
  destruct (zget _ _) as [flags|] eqn:Efl; [|done]. cbn [mbind option_bind].
  destruct (out_next _ win tp1) as [e tp2]. cbn [snd] in E1.
  destruct (out_recover _ _ e tp2) as [[e3 tp3]|] eqn:E3; [|done]. cbn [mbind option_bind].
  pose proof (framed_trans _ _ _ E1 (out_recover_framed _ _ _ _ _ _ E3)) as H3.
  rewrite (fr_state _ _ H1), (outflags_ok _ Hsy) in Efl. injection Efl as <-.
  assert (Hsyn : has_flag (out_mask (sb_cc (c_snd c)) (state_flags (c_tp c)) e3 tp3) TH_SYN = false).
  { unfold out_mask, state_flags. by destruct (SEQ_LT _ _), (closed (c_tp c)), (sends_fin (c_tp c)). }
  revert Hsyn. generalize (out_mask (sb_cc (c_snd c)) (state_flags (c_tp c)) e3 tp3). intros fl Hsyn.
  unfold out_act. destruct (out_now _ _ _ _ _ _ _).
  - unfold seg_options, syn_options. rewrite Hsyn. cbn [negb orb mbind option_bind]. set (opt := [] ++ _).
    pose proof (sack_options_same fl (e_len e3) (zlen opt) (r_dsack (c_r (set_tp tp3 c))) (c_tp (set_tp tp3 c))) as Hs.
    destruct (sack_options _ _ _ _ _) as [blks tp4]. cbn [snd] in Hs. cbn [mbind option_bind].
    destruct (out_send _ _ _ _ _ _ _) as [s|] eqn:Es; [|done]. cbn [mbind option_bind]. intros [= <- <-].
    apply (framed_trans _ _ _ H3). apply out_send_framed in Es. change (c_tp (set_tp tp4 (set_tp tp3 c))) with tp4 in Es.
    change (c_tp (set_tp tp3 c)) with tp3 in Hs. destruct Hs as [-> | ->]; [done|].
    eapply framed_trans; [|exact Es]. framed_solve.
  - destruct (out_idle _ _) as [tp4|] eqn:E4; [|done]. cbn [mbind option_bind]. intros [= <- <-].
    apply (framed_trans _ _ _ H3). exact (out_idle_framed _ _ _ E4).
Qed.

Lemma out_loop_framed n env rt idle w c st error segs c' st' :
  synced (c_tp c) -> out_loop n env rt idle w c st = Some (error, segs, c', st') -> framed (c_tp c) (c_tp c').
Proof.
  revert w c st error segs c' st'. induction n as [|n IH]; intros w c st error segs c' st' Hsy; [done|]. cbn [out_loop].
  destruct (out_turn _ _ _ _ _ _ _) as [[o c1]|] eqn:E; [|done]. cbn [mbind option_bind].
  apply out_turn_framed in E; [|done].
  destruct o as [[more [g c2 st2|er g c2 st2]]|]; cbn [conn_of] in E; [|by intros [= _ _ <- _]..].
  destruct more; [|by intros [= _ _ <- _]].
  destruct (out_loop n _ _ _ _ _ _) as [[[[er2 segs2] c3] st3]|] eqn:E2; [|done]. cbn [mbind option_bind].
  intros [= _ _ <- _]. apply (framed_trans _ _ _ E). eapply IH; [|exact E2].
  unfold synced, closed in *. by rewrite (fr_state _ _ E).
Qed.

Lemma tcp_output_framed env rt w c st error segs c' st' :
  synced (c_tp c) -> tcp_output env rt w c st = Some (error, segs, c', st') -> framed (c_tp c) (c_tp c').
Proof.
  intros Hsy E. assert (H1 : framed (c_tp c) (c_tp (out_restart c))).
  { unfold out_restart. destruct (_ && _); [|framed_solve]. split; [done|done|]. intros (Q1 & Q2 & Q3 & Q4 & Q5).
    split; [|done]. unfold quiet. cbn. split_and!; done || lia. }
  apply (framed_trans _ _ _ H1). eapply out_loop_framed; [|exact E].
  unfold synced, closed in *. by rewrite (fr_state _ _ H1).
Qed.

(** * Instances *)

Definition demo_env : tcpenv := mk_tcpenv 0 512 10 65536.
Definition all_well : nat -> attempt := fun _ => mk_attempt true true 0.
Definition no_stat : tcpostat := mk_tcpostat 0 0 0 0 0 0 0 0 0 0 0.

(** [len] octets queued in one mbuf, nothing in flight. *)
Definition demo_conn (st una wnd seg len : Z) : conn :=
  mk_conn (demo_rcv 4096 <| r_tp ::= tcb una una una [] <| t_state ::= st |> <| t_rttvar ::= 24 |>
      <| t_maxseg ::= seg |> <| snd_wnd ::= wnd |> <| snd_cwnd ::= 100 |> <| max_sndwnd ::= 100 |> <| rcv_nxt ::= 7 |> <| rcv_adv ::= 4103 |> |>)
    (demo_sb <| sb_cc ::= len |> <| sb_mb ::= [[demo_mbuf 4480 len 4 0 0 0]] |>) 0 0.

Lemma demo_ready : ready (demo_conn TCPS_FIN_WAIT_1 4294967290 100 4 9).
Proof.
  split; try done; [by right|]. split; [done| |by left]. vm_compute. repeat split; discriminate.
Qed.


Definition outcome (o : option (Z * list oseg * conn * tcpostat)) : option (Z * list (Z * Z * list Z) * list Z) :=
  match o with
  | Some (e, segs, c, _) => Some (e, map (fun s => (os_seq s, os_flags s, os_data s)) segs, t_timer (c_tp c))
  | None => None
  end.

(** The copy of the last data fails: the FIN goes out in their place. *)
Example fin_without_data :
  outcome (tcp_output demo_env None (fun _ => mk_attempt true false 0)
             (demo_conn TCPS_FIN_WAIT_1 1000 1000 200 90) no_stat)
  = Some (0, [(1000, Z.lor TH_FIN TH_ACK, [])], [6; 0; 0; 0]).
Proof. vm_compute. reflexivity. Qed.

(** A closed window and an acknowledgment owed: the ACK goes out and no timer is left for
    the data queued; without the ACK the persist timer is started. *)
Example owed_ack_no_persist :
  let c := demo_conn TCPS_ESTABLISHED 1000 0 4 9 in
  outcome (tcp_output demo_env None all_well (set_tp (add_flags TF_ACKNOW (c_tp c)) c) no_stat)
    = Some (0, [(1000, TH_ACK, [])], [0; 0; 0; 0]) /\
  outcome (tcp_output demo_env None all_well c no_stat) = Some (0, [], [0; 12; 0; 0]).
Proof. vm_compute. done. Qed.

(** No header mbuf and nothing in flight: no error, nothing sent, no timer. *)
Example no_mbuf_no_timer :
  outcome (tcp_output demo_env None (fun _ => mk_attempt false true 0)
             (demo_conn TCPS_ESTABLISHED 1000 100 4 9) no_stat) = Some (0, [], [0; 0; 0; 0]).
Proof. vm_compute. reflexivity. Qed.

(** In recovery, after the window has closed and [snd_nxt] been pulled back. *)
Definition pulled_back (wnd : Z) (blks : list sackblk) (c : conn) : conn :=
  set_tp (add_flags TF_SACK_RECOVER (c_tp c) <| snd_max ::= u32 (snd_una (c_tp c) + 8) |> <| snd_wnd ::= wnd |>
    <| snd_sackblks ::= blks |> <| snd_highrxt ::= snd_una (c_tp c) |>) c.

(** The window open again: the ninth octet goes out under the first one's number. *)
Example wrong_octet :
  outcome (tcp_output demo_env None all_well (pulled_back 100 [] (demo_conn TCPS_ESTABLISHED 1000 100 4 9)) no_stat)
  = Some (0, [(1000, Z.lor TH_PUSH TH_ACK, [12])], [6; 0; 0; 0]).
Proof. vm_compute. reflexivity. Qed.

(** A hole sent again into the closed window: no timer. *)
Example hole_no_timer :
  outcome (tcp_output demo_env None all_well
    (pulled_back 0 [mk_sackblk 1004 1008] (demo_conn TCPS_ESTABLISHED 1000 100 4 9)) no_stat)
  = Some (0, [(1000, TH_ACK, [4; 5; 6; 7])], [0; 0; 0; 0]).
Proof. vm_compute. reflexivity. Qed.
