(* ===== verification/TcpTimer.v ===== *)
(** The TCP timers ([netinet/tcp_timer.c]) with [tcp_drop], [tcp_close] and [tcp_respond]
    of [netinet/tcp_subr.c].

    One connection at a time: [tcp_slowtimo] and [tcp_fasttimo] walk the list of blocks and
    do the same to each.  [in_losing], [soisdisconnected] and [in_pcbdetach], which a
    closed connection goes through, act on the route, the socket's state and the list of
    blocks, and the receive-stall detector only logs: they are left out. *)
From S2P Require Import Prelude TcpVar TcpSack Mbuf Sockbuf Socket TcpReass TcpRtt TcpOpt IpOutput TcpOutput.

Definition TCPTV_KEEPCNT : Z := 8.
Definition ETIMEDOUT : Z := 60.
Definition SO_KEEPALIVE : Z := 8.
Definition RTV_SSTHRESH : Z := 32.
Definition RTV_RTT : Z := 64.
Definition RTV_RTTVAR : Z := 128.

(** The settings of the keep-alive timer. *)
Record keepalive := mk_keepalive { tcp_keepidle : Z; tcp_keepintvl : Z }.
Definition tcp_maxidle (k : keepalive) : Z := s32 (TCPTV_KEEPCNT * tcp_keepintvl k).

(** Counters of [struct tcpstat] of the timers. *)
Record tmstat := mk_tmstat {
  tcps_drops : Z; tcps_conndrops : Z; tcps_closed : Z; tcps_delack : Z; tcps_timeoutdrop : Z;
  tcps_rexmttimeo : Z; tcps_persisttimeo : Z; tcps_keeptimeo : Z; tcps_keepprobe : Z; tcps_keepdrops : Z;
  tm_out : tcpostat }.
#[export] Instance tmstat_eta : Eta tmstat := fun s =>
  mk_tmstat (tcps_drops s) (tcps_conndrops s) (tcps_closed s) (tcps_delack s) (tcps_timeoutdrop s)
    (tcps_rexmttimeo s) (tcps_persisttimeo s) (tcps_keeptimeo s) (tcps_keepprobe s) (tcps_keepdrops s) (tm_out s).

(** What a call comes to: the connection is still there, or its block is gone; [so_error]
    and the pool are then what is left of it.  With the segments sent. *)
Inductive fate :=
  | Alive (segs : list oseg) (c : conn) (st : tmstat)
  | Gone (segs : list oseg) (so_error : Z) (rt : option rtinfo) (p : mpool) (st : tmstat).

(** * Closing *)

(** Half the old and half the new value, once there is an old one. *)
Definition rmx_mix (old new : Z) : Z :=
  if negb (old =? 0) then u32 (old + new) / 2 else new.

(** [tcp_close]'s notes for the next connection on the route: [None]: a division by zero. *)
Definition close_metrics (tp : tcpcb) (rt : rtinfo) : option rtinfo :=
  let i := 0 in
  let '(i, rt) :=
    if negb (has_flag (rmx_locks rt) RTV_RTT) then
      let i := u32 (t_srtt tp * 62500) in
      (i, mk_rtinfo (rt_if_mtu rt) (rt_local rt) (rmx_locks rt) (rmx_mtu rt) (rmx_recvpipe rt) (rmx_sendpipe rt)
            (rmx_ssthresh rt) (if negb (rmx_rtt rt =? 0) && negb (i =? 0) then u32 (rmx_rtt rt + i) / 2 else i) (rmx_rttvar rt))
    else (i, rt) in
  let '(i, rt) :=
    if negb (has_flag (rmx_locks rt) RTV_RTTVAR) then
      let i := u32 (t_rttvar tp * 125000) in
      (i, mk_rtinfo (rt_if_mtu rt) (rt_local rt) (rmx_locks rt) (rmx_mtu rt) (rmx_recvpipe rt) (rmx_sendpipe rt)
            (rmx_ssthresh rt) (rmx_rtt rt)
            (if negb (rmx_rttvar rt =? 0) && negb (i =? 0) then u32 (rmx_rttvar rt + i) / 2 else i))
    else (i, rt) in
  let free := negb (has_flag (rmx_locks rt) RTV_SSTHRESH) in
  let i := if free then snd_ssthresh tp else i in
  if free && negb (i =? 0) && negb (rmx_ssthresh rt =? 0) || (i <? rmx_sendpipe rt / 2) then
    if t_maxseg tp =? 0 then None else
    let i := u32 (i + t_maxseg tp / 2) / t_maxseg tp in
    let i := if i <? 2 then 2 else i in
    let i := u32 (i * (t_maxseg tp + 40)) in
    Some (mk_rtinfo (rt_if_mtu rt) (rt_local rt) (rmx_locks rt) (rmx_mtu rt) (rmx_recvpipe rt) (rmx_sendpipe rt)
            (rmx_mix (rmx_ssthresh rt) i) (rmx_rtt rt) (rmx_rttvar rt))
  else Some rt.

(** [tcp_close]; [dflt]: the route is the default route. *)
Definition tcp_close (rt : option rtinfo) (dflt : bool) (segs : list oseg) (c : conn) (st : tmstat) : option fate :=
  let tp := c_tp c in
  rt ← (match rt with
        | Some r =>
            if SEQ_LT (iss tp + sb_hiwat (c_snd c) * 16) (snd_max tp) && negb dflt
            then r ← close_metrics tp r; Some (Some r) else Some (Some r)
        | None => Some None
        end);
  let p := fold_left (fun p t => m_freem (ti_m t) p) (seg_next (c_r c)) (r_pool (c_r c)) in
  Some (Gone segs (c_error c) rt p (st <| tcps_closed ::= tcps_closed st + 1 |>)).

Section timers.
Context (env : tcpenv) (rt : option rtinfo) (dflt : bool) (k : keepalive).

(** [tcp_output] with the segments sent; its error is not looked at. *)
Definition output (w : nat -> attempt) (c : conn) (st : tmstat) : option (list oseg * conn * tmstat) :=
  '(_, segs, c, o) ← tcp_output env rt w c (tm_out st);
  Some (segs, c, st <| tm_out ::= o |>).

Definition tcp_drop (errno : Z) (w : nat -> attempt) (c : conn) (st : tmstat) : option fate :=
  '(segs, c, st) ←
    (if TCPS_HAVERCVDSYN (t_state (c_tp c)) then
       '(segs, c, st) ← output w (set_tp (c_tp c <| t_state ::= TCPS_CLOSED |>) c) st;
       Some (segs, c, st <| tcps_drops ::= tcps_drops st + 1 |>)
     else Some ([], c, st <| tcps_conndrops ::= tcps_conndrops st + 1 |>));
  let errno := if (errno =? ETIMEDOUT) && negb (t_softerror (c_tp c) =? 0) then t_softerror (c_tp c) else errno in
  tcp_close rt dflt segs (c <| c_error ::= errno |>) st.

(** The keep-alive probe: [tcp_respond] without an mbuf; [hdr]: [m_gethdr] succeeds. *)
Definition tcp_respond (hdr : bool) (ack seq : Z) (c : conn) : list oseg :=
  let tp := c_tp c in
  let win := sbspace (r_rcv (c_r c)) in
  let top := s32 (Z.shiftl TCP_MAXWIN (rcv_scale tp)) in
  let win := Z.shiftr (if top <? win then top else win) (rcv_scale tp) in
  if hdr then [mk_oseg (u32 seq) ack TH_ACK (u16 win) 0 [] []] else [].

(** * A timer goes off *)

Definition timer_2msl (c : conn) (st : tmstat) : option fate :=
  let tp := c_tp c in
  if negb (t_state tp =? TCPS_TIME_WAIT) && (t_idle tp <=? tcp_maxidle k)
  then Some (Alive [] (set_tp (set_timer TCPT_2MSL (s16 (tcp_keepintvl k)) tp) c) st)
  else tcp_close rt dflt [] c st.

(** The retransmission of data into a closed window becomes persistence. *)
Definition rexmt_persists (cc : Z) (tp : tcpcb) : bool :=
  (TCPS_ESTABLISHED <=? t_state tp) && (0 <? cc) && (snd_wnd tp =? 0) && SEQ_LT (snd_una tp) (snd_max tp).

(** The next interval; from the fourth time on the estimate is given up. *)
Definition rexmt_backoff (tp : tcpcb) : option tcpcb :=
  b ← zget tcp_backoff (t_rxtshift tp);
  let tp := tp <| t_rxtcur ::= TCPT_RANGESET (s32 (TCP_REXMTVAL tp * b)) (t_rttmin tp) TCPTV_REXMTMAX |> in
  let tp := set_timer TCPT_REXMT (t_rxtcur tp) tp in
  Some (if TCP_MAXRXTSHIFT / 4 <? t_rxtshift tp
        then tp <| t_rttvar ::= s16 (t_rttvar tp + Z.shiftr (t_srtt tp) TCP_RTT_SHIFT) |> <| t_srtt ::= 0 |>
        else tp).

(** Back to [snd_una], out of SACK recovery, one segment at a time; [None]: a division by
    zero. *)
Definition rexmt_restart (tp : tcpcb) : option tcpcb :=
  let tp := tp <| snd_nxt ::= snd_una tp |> in
  let tp := if tflag tp TF_SACK_RECOVER
            then del_flags (Z.lor TF_SACK_RECOVER TF_SACK_RESCUE) tp <| snd_sackblks ::= [] |>
                   <| snd_highrxt ::= snd_una tp |>
            else tp in
  let tp := tp <| t_rtt ::= 0 |> in
  if t_maxseg tp =? 0 then None else
  let win := Z.max 2 (Z.min (snd_wnd tp) (snd_cwnd tp) / 2 / t_maxseg tp) in
  Some (tp <| snd_cwnd ::= t_maxseg tp |> <| snd_ssthresh ::= u32 (win * t_maxseg tp) |> <| t_dupacks ::= 0 |>).

Definition timer_rexmt (w : nat -> attempt) (c : conn) (st : tmstat) : option fate :=
  let tp := c_tp c in
  if rexmt_persists (sb_cc (c_snd c)) tp then
    tp ← tcp_setpersist (set_timer TCPT_REXMT 0 tp <| t_rxtshift ::= 0 |>);
    Some (Alive [] (set_tp tp c) st)
  else
    let tp := tp <| t_rxtshift ::= s16 (t_rxtshift tp + 1) |> in
    if TCP_MAXRXTSHIFT <? t_rxtshift tp then
      tcp_drop (if negb (t_softerror tp =? 0) then t_softerror tp else ETIMEDOUT) w
        (set_tp (tp <| t_rxtshift ::= TCP_MAXRXTSHIFT |>) c)
        (st <| tcps_timeoutdrop ::= tcps_timeoutdrop st + 1 |>)
    else
      let st := st <| tcps_rexmttimeo ::= tcps_rexmttimeo st + 1 |> in
      tp ← rexmt_backoff tp;
      tp ← rexmt_restart tp;
      '(segs, c, st) ← output w (set_tp tp c) st;
      Some (Alive segs c st).

Definition timer_persist (w : nat -> attempt) (c : conn) (st : tmstat) : option fate :=
  let st := st <| tcps_persisttimeo ::= tcps_persisttimeo st + 1 |> in
  tp ← tcp_setpersist (c_tp c);
  '(segs, c, st) ← output w (set_tp (tp <| t_force ::= 1 |>) c) st;
  Some (Alive segs (set_tp (c_tp c <| t_force ::= 0 |>) c) st).

Definition timer_keep (w : nat -> attempt) (c : conn) (st : tmstat) : option fate :=
  let st := st <| tcps_keeptimeo ::= tcps_keeptimeo st + 1 |> in
  let dropit := tcp_drop ETIMEDOUT w c (st <| tcps_keepdrops ::= tcps_keepdrops st + 1 |>) in
  let tp := c_tp c in
  if t_state tp <? TCPS_ESTABLISHED then dropit
  else if has_flag (c_options c) SO_KEEPALIVE && (t_state tp <=? TCPS_CLOSE_WAIT) then
    if s32 (tcp_keepidle k + tcp_maxidle k) <=? t_idle tp then dropit
    else Some (Alive (tcp_respond (at_hdr (w 0%nat)) (rcv_nxt tp) (snd_una tp - 1) c)
                 (set_tp (set_timer TCPT_KEEP (s16 (tcp_keepintvl k)) tp) c)
                 (st <| tcps_keepprobe ::= tcps_keepprobe st + 1 |>))
  else Some (Alive [] (set_tp (set_timer TCPT_KEEP (s16 (tcp_keepidle k)) tp) c) st).

(** [tcp_timers(tp, timer)]. *)
Definition tcp_timers (i : Z) (w : nat -> attempt) (c : conn) (st : tmstat) : option fate :=
  if i =? TCPT_2MSL then timer_2msl c st
  else if i =? TCPT_REXMT then timer_rexmt w c st
  else if i =? TCPT_PERSIST then timer_persist w c st
  else if i =? TCPT_KEEP then timer_keep w c st
  else Some (Alive [] c st).

(** * The clock *)

(** The timers one after the other, counted down; what is sent adds up. *)
Fixpoint tick_timers (ts : list Z) (w : Z -> nat -> attempt) (c : conn) (st : tmstat) : option fate :=
  match ts with
  | [] => Some (Alive [] c st)
  | i :: ts =>
      let tp := c_tp c in
      if timer tp i =? 0 then tick_timers ts w c st else
      let c := set_tp (set_timer i (s16 (timer tp i - 1)) tp) c in
      r ← (if timer (c_tp c) i =? 0 then tcp_timers i (w i) c st else Some (Alive [] c st));
      match r with
      | Gone segs e r p st => Some (Gone segs e r p st)
      | Alive segs c st =>
          r ← tick_timers ts w c st;
          Some (match r with
                | Alive segs' c st => Alive (segs ++ segs') c st
                | Gone segs' e r p st => Gone (segs ++ segs') e r p st
                end)
      end
  end.

(** A connection's part of [tcp_slowtimo]. *)
Definition tcp_slowtimo (w : Z -> nat -> attempt) (c : conn) (st : tmstat) : option fate :=
  r ← tick_timers [TCPT_REXMT; TCPT_PERSIST; TCPT_KEEP; TCPT_2MSL] w c st;
  Some (match r with
        | Alive segs c st =>
            let tp := c_tp c <| t_idle ::= s16 (t_idle (c_tp c) + 1) |> in
            let tp := if negb (t_rtt tp =? 0) then tp <| t_rtt ::= s16 (t_rtt tp + 1) |> else tp in
            Alive segs (set_tp tp c) st
        | g => g
        end).

(** A connection's part of [tcp_fasttimo]. *)
Definition tcp_fasttimo (w : nat -> attempt) (c : conn) (st : tmstat) : option fate :=
  let tp := c_tp c in
  if has_flag (t_flags tp) (Z.lor TF_DELACK TF_ACKNOW) then
    '(segs, c, st) ← output w (set_tp (add_flags TF_ACKNOW (del_flags TF_DELACK tp)) c)
                      (st <| tcps_delack ::= tcps_delack st + 1 |>);
    Some (Alive segs c st)
  else Some (Alive [] c st).
End timers.

(** * What a timer does *)

(** A connection between two events: nothing forced, not closed. *)
Record standing (c : conn) : Prop := {
  sd_ready : ready c;
  sd_state : TCPS_ESTABLISHED <= t_state (c_tp c) <= TCPS_TIME_WAIT;
  sd_force : t_force (c_tp c) = 0 }.

Lemma ready_set c tp' :
  ready c -> synced tp' -> t_template tp' = true -> numbers (zlen (snd_bytes c)) tp' -> clocks tp' -> ready (set_tp tp' c).
Proof. intros [] ????. by split. Qed.

Lemma not_closed c : TCPS_ESTABLISHED <= t_state (c_tp c) <= TCPS_TIME_WAIT -> closed (c_tp c) = false.
Proof. unfold closed, TCPS_CLOSED, TCPS_ESTABLISHED. lia. Qed.

(** A change of the block that the numbers do not see. *)
Lemma standing_same c tp' :
  standing c -> same_conn (c_tp c) tp' -> snd_nxt tp' = snd_nxt (c_tp c) -> snd_max tp' = snd_max (c_tp c) ->
  snd_cwnd tp' = snd_cwnd (c_tp c) -> snd_highrxt tp' = snd_highrxt (c_tp c) ->
  tflag tp' TF_SENTFIN = tflag (c_tp c) TF_SENTFIN -> clocks tp' -> standing (set_tp tp' c).
Proof.
  intros [Hr Hs Hf] Hc H1 H2 H3 H4 H5 Hk. pose proof Hc as (Es & _ & _ & _ & Ef & _ & _ & _ & Et).
  split; change (c_tp (set_tp tp' c)) with tp'; rewrite ?Es, ?Ef; try done.
  apply ready_set; [done|unfold synced, closed; rewrite Es; by right|rewrite Et; apply Hr| |done].
  apply (numbers_same _ (c_tp c)); try done. apply Hr.
Qed.

Lemma restart_state c : t_state (c_tp (out_restart c)) = t_state (c_tp c).
Proof. unfold out_restart. cbv zeta. by destruct (_ && _). Qed.

Section timed.
Context (env : tcpenv) (rt : option rtinfo) (dflt : bool) (k : keepalive).

Lemma output_run w c st :
  ready c -> (forall i, at_copy (w i) = true) ->
  exists segs c' st', output env rt w c st = Some (segs, c', st') /\ ready c' /\
    output_ok (out_restart c) w segs c' /\ framed (c_tp c) (c_tp c') /\
    (at_hdr (w 0%nat) = true -> due (out_restart c) -> started (out_restart c) segs).
Proof.
  intros Hr Hw. destruct (tcp_output_ok env rt w c (tm_out st) Hr Hw) as (er & segs & c' & o & E & Hr' & Hok).
  unfold output. rewrite E. cbn [mbind option_bind]. eexists segs, c', _. split; [done|]. split; [done|]. split; [done|].
  split; [eapply tcp_output_framed; [apply Hr|exact E]|]. intros Ha. by eapply tcp_output_sends.
Qed.

Lemma close_metrics_ok tp r : t_maxseg tp <> 0 -> exists r', close_metrics tp r = Some r'.
Proof.
  intros Hm. unfold close_metrics. destruct (t_maxseg tp =? 0) eqn:E; [lia|].
  destruct (negb (has_flag (rmx_locks r) RTV_RTT)); cbv zeta; cbn [rmx_locks];
    (destruct (negb (has_flag (rmx_locks r) RTV_RTTVAR)); cbn [rmx_locks];
      (destruct (_ || _); eexists; reflexivity)).
Qed.

Lemma tcp_close_ok segs c st : t_maxseg (c_tp c) <> 0 ->
  exists rt' p st', tcp_close rt dflt segs c st = Some (Gone segs (c_error c) rt' p st').
Proof.
  intros Hm. unfold tcp_close. destruct rt as [r|]; [|by eexists _, _, _].
  destruct (_ && _); [|by eexists _, _, _]. destruct (close_metrics_ok (c_tp c) r Hm) as (r' & ->).
  by eexists _, _, _.
Qed.

(** The error a dropped connection is left with. *)
Definition drop_error (errno : Z) (tp : tcpcb) : Z :=
  if (errno =? ETIMEDOUT) && negb (t_softerror tp =? 0) then t_softerror tp else errno.

(** What is sent is an RST. *)
Definition resets (segs : list oseg) : Prop := Forall (fun s => has_flag (os_flags s) TH_RST = true) segs.

Lemma closed_numbers cc tp : numbers cc tp -> numbers cc (tp <| t_state ::= TCPS_CLOSED |>).
Proof. intros []. by split. Qed.

Lemma tcp_drop_ok errno w c st :
  standing c -> (forall i, at_copy (w i) = true) ->
  exists segs rt' p st', tcp_drop env rt dflt errno w c st = Some (Gone segs (drop_error errno (c_tp c)) rt' p st') /\
    resets segs /\ (at_hdr (w 0%nat) = true -> segs <> []).
Proof.
  intros [Hr Hs Hf] Hw. unfold tcp_drop.
  replace (TCPS_HAVERCVDSYN (t_state (c_tp c))) with true
    by (symmetry; unfold TCPS_HAVERCVDSYN, TCPS_SYN_RECEIVED, TCPS_ESTABLISHED in *; lia).
  set (tp0 := c_tp c <| t_state ::= TCPS_CLOSED |>).
  assert (Hr0 : ready (set_tp tp0 c)).
  { apply ready_set; [done|by left|apply Hr|apply closed_numbers, Hr|by apply (clocks_eq (c_tp c)), Hr]. }
  destruct (output_run w (set_tp tp0 c) st Hr0 Hw) as (segs & c' & st' & -> & Hr' & Hok & Hfr & Hgo). cbn [mbind option_bind].
  change (c_tp (set_tp tp0 c)) with tp0 in Hfr. rewrite (fr_soft _ _ Hfr) by done. fold (drop_error errno (c_tp c)).
  pose proof (nm_seg _ _ (rd_numbers _ Hr')) as Hseg.
  set (c2 := c' <| c_error ::= _ |>). set (st2 := st' <| tcps_drops ::= _ |>).
  destruct (tcp_close_ok segs c2 st2) as (rt' & p & st3 & E); [change (t_maxseg (c_tp c') <> 0); lia|].
  exists segs, rt', p, st3. split; [exact E|]. split.
  - eapply Forall_impl; [exact (oo_segs _ _ _ _ Hok)|]. intros g [_ _ _ _ [_ H] _]. rewrite H.
    unfold closed. by rewrite restart_state.
  - intros Ha. destruct (Hgo Ha) as (g & rest & -> & _); [|done]. left. unfold closed. by rewrite restart_state.
Qed.

Lemma standing_timer i v c : standing c -> 2 <= i < 4 -> standing (set_tp (set_timer i v (c_tp c)) c).
Proof.
  intros Hs Hi. apply standing_same; try done. apply clocks_set; [apply Hs|lia|..]; unfold TCPT_REXMT, TCPT_PERSIST; lia.
Qed.

(** A call of [tcp_output] keeps a connection standing. *)
Lemma standing_output w c st :
  standing c -> (forall i, at_copy (w i) = true) ->
  exists segs c' st', output env rt w c st = Some (segs, c', st') /\ standing c' /\
    output_ok (out_restart c) w segs c' /\ framed (c_tp c) (c_tp c') /\
    (at_hdr (w 0%nat) = true -> due (out_restart c) -> started (out_restart c) segs).
Proof.
  intros [Hr Hs Hf] Hw. destruct (output_run w c st Hr Hw) as (segs & c' & st' & E & Hr' & Hok & Hfr & Hgo).
  exists segs, c', st'. split; [done|]. split; [|done]. split; [done|by rewrite (fr_state _ _ Hfr)|].
  pose proof (kp_same _ _ _ (oo_kept _ _ _ _ Hok)) as (_ & _ & _ & _ & -> & _).
  unfold out_restart. cbv zeta. by destruct (_ && _).
Qed.

(** The interval after [s] retransmissions. *)
Definition rexmt_value (tp : tcpcb) (s : Z) : Z :=
  TCPT_RANGESET (s32 (TCP_REXMTVAL tp * 2 ^ Z.min s 6)) (t_rttmin tp) TCPTV_REXMTMAX.

Lemma rexmt_value_range tp s : rto_ok tp -> t_rttmin tp <= rexmt_value tp s <= TCPTV_REXMTMAX.
Proof.
  intros (Hm & _). apply rangeset_bounds; [|done]. unfold TCPTV_REXMTMAX, PR_SLOWHZ in *. lia.
Qed.

Lemma rexmt_backoff_ok tp :
  clocks tp -> timer tp TCPT_PERSIST = 0 ->
  exists tp', rexmt_backoff tp = Some tp' /\ clocks tp' /\ t_rxtshift tp' = t_rxtshift tp /\
    t_rxtcur tp' = rexmt_value tp (t_rxtshift tp) /\ timer tp' TCPT_REXMT = rexmt_value tp (t_rxtshift tp) /\
    timer tp' TCPT_2MSL = timer tp TCPT_2MSL /\
    (exists a b d e, tp' = tp <| t_timer ::= a |> <| t_rxtcur ::= b |> <| t_rttvar ::= d |> <| t_srtt ::= e |>).
Proof.
  intros [Hw Hr Ho] Hp. unfold rexmt_backoff. rewrite tcp_backoff_get by apply Hr. cbn [mbind option_bind].
  set (v := rexmt_value tp (t_rxtshift tp)). pose proof (rexmt_value_range tp (t_rxtshift tp) Hr) as Hv. fold v in Hv.
  set (tp1 := tp <| t_rxtcur ::= v |>). change (tp <| t_rxtcur ::= _ |>) with tp1.
  change (t_rxtcur tp1) with v. set (tp2 := set_timer TCPT_REXMT v tp1).
  assert (Hw2 : timers_wf tp2) by (by apply (timers_wf_set _ _ tp1)).
  assert (Hx : timer tp2 TCPT_REXMT = v) by (by apply (timer_set_eq TCPT_REXMT v tp1)).
  assert (Hc2 : clocks tp2).
  { destruct Hr as (Hm & _ & Hsh). split; [done|by split|]. right.
    unfold tp2. rewrite (timer_set_ne TCPT_REXMT TCPT_PERSIST) by done. exact Hp. }
  assert (Hm : timer tp2 TCPT_2MSL = timer tp TCPT_2MSL) by (change (timer tp2 TCPT_2MSL = timer tp1 TCPT_2MSL); by apply timer_set_ne).
  destruct (_ <? t_rxtshift _).
  - eexists. split; [done|]. split; [by apply (clocks_eq tp2)|]. split; [done|]. split; [done|]. split; [exact Hx|].
    split; [exact Hm|]. eexists _, _, _, _. reflexivity.
  - eexists. split; [done|]. split; [done|]. split; [done|]. split; [done|]. split; [exact Hx|]. split; [exact Hm|].
    exists (t_timer tp2), v, (t_rttvar tp), (t_srtt tp). by destruct tp.
Qed.

Lemma rexmt_restart_ok cc tp :
  numbers cc tp -> clocks tp ->
  exists tp', rexmt_restart tp = Some tp' /\ numbers cc tp' /\ clocks tp' /\ recovering tp' = false /\
    t_timer tp' = t_timer tp /\ t_rxtshift tp' = t_rxtshift tp /\ t_rxtcur tp' = t_rxtcur tp /\ t_state tp' = t_state tp /\
    t_force tp' = t_force tp /\ snd_wnd tp' = snd_wnd tp /\ t_template tp' = t_template tp /\ snd_nxt tp' = snd_una tp /\
    snd_una tp' = snd_una tp /\ snd_max tp' = snd_max tp /\ t_maxseg tp' = t_maxseg tp /\ snd_cwnd tp' = t_maxseg tp.
Proof.
  intros Hn Hc. unfold rexmt_restart. set (tp0 := tp <| snd_nxt ::= snd_una tp |>).
  set (tp1 := if tflag tp0 TF_SACK_RECOVER then _ else tp0).
  assert (H1 : (exists f b h, tp1 = tp0 <| t_flags ::= f |> <| snd_sackblks ::= b |> <| snd_highrxt ::= h |>) /\
    recovering tp1 = false /\ tflag tp1 TF_SENTFIN = tflag tp TF_SENTFIN).
  { unfold tp1. destruct (tflag tp0 TF_SACK_RECOVER) eqn:E.
    - split; [by eexists _, _, _|]. split.
      + unfold recovering, tflag, has_flag, del_flags. cbn. rewrite <- Z.land_assoc.
        change (Z.land (Z.lnot (Z.lor TF_SACK_RECOVER TF_SACK_RESCUE)) TF_SACK_RECOVER) with 0. by rewrite Z.land_0_r.
      + change (tflag (del_flags (Z.lor TF_SACK_RECOVER TF_SACK_RESCUE) tp) TF_SENTFIN = tflag tp TF_SENTFIN).
        by apply tflag_andnot.
    - split; [exists (t_flags tp), (snd_sackblks tp), (snd_highrxt tp); by destruct tp|done]. }
  clearbody tp1. destruct H1 as ((f & b & h & E1) & Hrec & Hfin).
  assert (Hm : t_maxseg (tp1 <| t_rtt ::= 0 |>) = t_maxseg tp) by (by rewrite E1).
  rewrite Hm. pose proof (nm_seg _ _ Hn) as Hseg. destruct (t_maxseg tp =? 0) eqn:E0; [lia|].
  eexists. split; [done|]. set (tp' := _ <| t_dupacks ::= 0 |>).
  assert (Hf' : tflag tp' TF_SENTFIN = tflag tp TF_SENTFIN) by exact Hfin.
  assert (Hr' : recovering tp' = false) by exact Hrec.
  split; [|split; [by apply (clocks_eq tp); unfold tp'; rewrite ?E1|split; [done|unfold tp'; by rewrite E1]]].
  assert (Hnx : nx tp' = 0) by (unfold nx, tp'; rewrite E1; cbn; apply rel_self).
  assert (Hmx : mx tp' = mx tp) by (unfold tp'; by rewrite E1).
  pose proof (rel_range (snd_una tp) (snd_max tp)). pose proof Hn as [(W1 & W2 & W3) N1 N2 N3 N4 N5 N6 N7].
  assert (Hsf : sends_fin tp' = sends_fin tp) by (unfold sends_fin, tp'; by rewrite E1).
  split; rewrite ?Hnx, ?Hmx, ?Hf', ?Hsf, ?Hr'; try done; unfold tp'; rewrite ?E1; cbn; try done; unfold mx in *; lia.
Qed.

(** What a connection whose timer [i] has run out comes to. *)
Definition timeout_error (tp : tcpcb) : Z := if negb (t_softerror tp =? 0) then t_softerror tp else ETIMEDOUT.

(** Sent again: what was sent before, from [snd_una], a segment of it; or the FIN alone. *)
Definition resent (c : conn) (segs : list oseg) : Prop :=
  let tp := c_tp c in let cc := zlen (snd_bytes c) in
  (0 < mx tp -> 0 < snd_wnd tp -> 0 < cc -> exists g rest, segs = g :: rest /\ os_seq g = snd_una tp /\
     zlen (os_data g) = Z.min (Z.min cc (snd_wnd tp)) (t_maxseg tp)) /\
  (cc = 0 -> sends_fin tp = true -> exists g rest, segs = g :: rest /\ os_seq g = snd_una tp /\
     has_flag (os_flags g) TH_FIN = true).

(** Data forced out: from [snd_una], when that is where [snd_nxt] is, one octet into a closed
    window; and in recovery, into a closed window. *)
Definition probed (c : conn) (segs : list oseg) : Prop :=
  let tp := c_tp c in let cc := zlen (snd_bytes c) in
  0 < cc ->
  (recovering tp = false -> snd_nxt tp = snd_una tp -> exists g rest, segs = g :: rest /\ os_seq g = snd_una tp /\
     os_data g <> [] /\ (snd_wnd tp = 0 -> zlen (os_data g) = 1)) /\
  (recovering tp = true -> snd_wnd tp = 0 -> 0 < mx tp -> exists g rest, segs = g :: rest /\ os_data g <> []).

(** [hdr]: the first header mbuf asked for is there. *)
Definition reset_sent (hdr : bool) (segs : list oseg) : Prop := resets segs /\ (hdr = true -> segs <> []).
Definition timed (hdr : bool) (i : Z) (c : conn) (f : fate) : Prop :=
  let tp := c_tp c in
  let probing := has_flag (c_options c) SO_KEEPALIVE && (t_state tp <=? TCPS_CLOSE_WAIT) in
  match f with
  | Alive segs c' _ =>
      let tp' := c_tp c' in
      standing c' /\
      (i = TCPT_REXMT ->
         if rexmt_persists (sb_cc (c_snd c)) tp then segs = [] /\ timer tp' TCPT_PERSIST <> 0
         else t_rxtshift tp < TCP_MAXRXTSHIFT /\ recovering tp' = false /\
           (0 < snd_wnd tp -> t_rxtshift tp' = t_rxtshift tp + 1 /\ snd_wnd tp' = snd_wnd tp /\
              timer tp' TCPT_2MSL = timer tp TCPT_2MSL /\ t_rxtcur tp' = rexmt_value tp (t_rxtshift tp + 1) /\ timer tp' TCPT_REXMT = t_rxtcur tp') /\
           (hdr = true -> resent c segs)) /\
      (i = TCPT_KEEP ->
         c' = set_tp (set_timer TCPT_KEEP (s16 (if probing then tcp_keepintvl k else tcp_keepidle k)) tp) c /\
         if probing && hdr then exists g, segs = [g] /\ os_seq g = u32 (snd_una tp - 1) /\ os_ack g = rcv_nxt tp /\
           os_flags g = TH_ACK /\ os_data g = []
         else segs = []) /\
      (i = TCPT_2MSL -> segs = [] /\ t_state tp <> TCPS_TIME_WAIT /\ t_idle tp <= tcp_maxidle k /\
         c' = set_tp (set_timer TCPT_2MSL (s16 (tcp_keepintvl k)) tp) c) /\
      (i = TCPT_PERSIST -> hdr = true -> probed c segs)
  | Gone segs so_error _ _ _ =>
      i = TCPT_2MSL /\ (t_state tp = TCPS_TIME_WAIT \/ tcp_maxidle k < t_idle tp) /\ segs = [] /\ so_error = c_error c \/
      i = TCPT_REXMT /\ rexmt_persists (sb_cc (c_snd c)) tp = false /\ t_rxtshift tp = TCP_MAXRXTSHIFT /\
        reset_sent hdr segs /\ so_error = timeout_error tp \/
      i = TCPT_KEEP /\ probing = true /\ s32 (tcp_keepidle k + tcp_maxidle k) <= t_idle tp /\
        reset_sent hdr segs /\ so_error = timeout_error tp
  end.

Lemma drop_timeout tp : drop_error (timeout_error tp) tp = timeout_error tp.
Proof. unfold drop_error, timeout_error. destruct (t_softerror tp =? 0) eqn:E; cbn; [by rewrite ?andb_false_r|]. by rewrite andb_true_r; case_match. Qed.
Lemma drop_timedout tp : drop_error ETIMEDOUT tp = timeout_error tp.
Proof. unfold drop_error, timeout_error. done. Qed.

(** ** What is sent *)

Lemma restart_cwnd c : exists cw, c_tp (out_restart c) = c_tp c <| snd_cwnd ::= cw |> /\
  (cw = snd_cwnd (c_tp c) \/ cw = t_maxseg (c_tp c)).
Proof.
  unfold out_restart. destruct (_ && _); [eexists; split; [reflexivity|by right]|].
  exists (snd_cwnd (c_tp c)). split; [by destruct (c_tp c)|by left].
Qed.

Lemma nx_una tp : snd_nxt tp = snd_una tp -> nx tp = 0.
Proof. intros E. unfold nx. rewrite E. apply rel_self. Qed.

(** One octet or more, when the call starts with [snd_nxt] at [snd_una]. *)
Lemma started_una c tp1 cw segs :
  let tp := c_tp c in let tp0 := tp1 <| snd_cwnd ::= cw |> in let cc := zlen (snd_bytes c) in
  snd_nxt tp1 = snd_una tp -> snd_una tp1 = snd_una tp -> snd_max tp1 = snd_max tp -> snd_wnd tp1 = snd_wnd tp ->
  recovering tp1 = false -> t_maxseg tp1 = t_maxseg tp -> 1 <= t_maxseg tp -> 0 < cc -> 0 < usable tp0 ->
  forced tp1 = true \/ 0 < mx tp ->
  (due (set_tp tp0 c) -> started (set_tp tp0 c) segs) ->
  exists g rest, segs = g :: rest /\ os_seq g = snd_una tp /\ os_data g <> [] /\
    zlen (os_data g) = Z.min (Z.min cc (usable tp0)) (t_maxseg tp).
Proof.
  intros tp tp0 cc En Eu Em Ew Hrec Es Hms Hcc Hus Hwhy Hgo.
  assert (Hl : next_len cc tp0 = Z.min cc (usable tp0)).
  { unfold next_len. rewrite (nx_una tp0); [lia|]. change (snd_nxt tp1 = snd_una tp1). congruence. }
  destruct Hgo as (g & rest & -> & H1 & _).
  { right. right. left. split; [exact Hrec|]. change (0 < next_len cc tp0 /\ (forced tp1 = true \/ t_maxseg tp1 <= next_len cc tp0 \/
      nx tp1 < mx tp1 \/ (mx tp1 = 0 \/ tflag tp1 TF_NODELAY = true) /\ cc <= nx tp1 + next_len cc tp0)).
    split; [lia|]. destruct Hwhy as [?|Hm]; [by left|]. right. right. left. rewrite nx_una by congruence.
    unfold mx in *. by rewrite Eu, Em. }
  destruct (H1 Hrec) as [H2 H3]; [change (0 < next_len cc tp0); lia|].
  change (zlen (os_data g) = Z.min (next_len cc tp0) (t_maxseg tp1)) in H3. rewrite Hl, Es in H3.
  exists g, rest. split; [done|]. split; [by rewrite H2|]. split; [|done]. intros E. rewrite E, zlen_nil in H3. lia.
Qed.

Lemma restart_tp tp c : exists cw, out_restart (set_tp tp c) = set_tp (tp <| snd_cwnd ::= cw |>) c /\
  (cw = snd_cwnd tp \/ cw = t_maxseg tp).
Proof.
  destruct (restart_cwnd (set_tp tp c)) as (cw & E & Hcw). exists cw. split; [|exact Hcw].
  unfold out_restart in *. change (c_tp (set_tp tp c)) with tp in *. by rewrite <- E.
Qed.

Lemma started_resent c tp1 segs :
  let tp := c_tp c in
  ready (set_tp tp1 c) -> snd_nxt tp1 = snd_una tp -> snd_una tp1 = snd_una tp -> snd_max tp1 = snd_max tp ->
  snd_wnd tp1 = snd_wnd tp -> recovering tp1 = false -> t_maxseg tp1 = t_maxseg tp -> snd_cwnd tp1 = t_maxseg tp ->
  t_force tp1 = 0 -> t_state tp1 = t_state tp ->
  (due (out_restart (set_tp tp1 c)) -> started (out_restart (set_tp tp1 c)) segs) -> resent c segs.
Proof.
  cbv zeta. intros Hr En Eu Em Ew Hrec Es Ec Ef Est Hgo. destruct (restart_tp tp1 c) as (cw & E & Hcw). rewrite E in Hgo.
  assert (cw = t_maxseg (c_tp c)) as -> by (destruct Hcw; congruence).
  pose proof (nm_seg _ _ (rd_numbers _ Hr)) as Hms. change (c_tp (set_tp tp1 c)) with tp1 in Hms. rewrite Es in Hms.
  assert (Hus : usable (tp1 <| snd_cwnd ::= t_maxseg (c_tp c) |>) = Z.min (snd_wnd (c_tp c)) (t_maxseg (c_tp c))).
  { unfold usable, forced. cbn. by rewrite Ef, Ew. }
  split.
  - intros Hm Hw Hcc. destruct (started_una c tp1 (t_maxseg (c_tp c)) segs) as (g & rest & H1 & H2 & _ & H3); try done; [lia|rewrite Hus; lia|by right|].
    exists g, rest. split; [done|]. split; [done|]. rewrite H3, Hus. lia.
  - intros Hcc Hsf. assert (Hfin : fin_due (set_tp (tp1 <| snd_cwnd ::= t_maxseg (c_tp c) |>) c)).
    { split; [exact Hrec|]. split; [unfold sends_fin in *; cbn; by rewrite Est|].
      split; [destruct (snd_bytes c) as [|x l] eqn:Eb; [done|rewrite zlen_cons in Hcc; pose proof (zlen_nonneg l); lia]|]. change (nx tp1 = 0). apply nx_una. congruence. }
    destruct Hgo as (g & rest & -> & _ & H2 & _); [right; right; right; by left|]. destruct (H2 Hfin) as [H3 H4].
    exists g, rest. split; [done|]. split; [by rewrite H3|done].
Qed.

Lemma started_probed c v k' segs :
  let tp1 := c_tp c <| t_timer ::= v |> <| t_rxtshift ::= k' |> <| t_force ::= 1 |> in
  ready (set_tp tp1 c) ->
  (due (out_restart (set_tp tp1 c)) -> started (out_restart (set_tp tp1 c)) segs) -> probed c segs.
Proof.
  intros tp1 Hr Hgo Hcc. destruct (restart_tp tp1 c) as (cw & E & Hcw). rewrite E in Hgo.
  pose proof (nm_seg _ _ (rd_numbers _ Hr)) as Hms. change (1 <= t_maxseg (c_tp c) < 65536) in Hms.
  pose proof (nm_wnd _ _ (rd_numbers _ Hr)) as Hw. change (0 <= snd_wnd (c_tp c) < 1073741824) in Hw.
  pose proof (nm_cwnd _ _ (rd_numbers _ Hr)) as Hcw'. change (1 <= snd_cwnd (c_tp c) < 2147483648) in Hcw'.
  change (cw = snd_cwnd (c_tp c) \/ cw = t_maxseg (c_tp c)) in Hcw.
  set (tp0 := tp1 <| snd_cwnd ::= cw |>) in *.
  assert (Hus : usable tp0 = if Z.min (snd_wnd (c_tp c)) cw =? 0 then 1 else Z.min (snd_wnd (c_tp c)) cw) by done.
  split.
  - intros Hrec En. destruct (started_una c tp1 cw segs) as (g & rest & H1 & H2 & H3 & H4); try done; [lia|fold tp0; rewrite Hus; destruct (_ =? 0) eqn:?; lia|by left|].
    exists g, rest. split_and!; try done. intros Hw0. fold tp0 in H4. rewrite H4, Hus, Hw0.
    clear -Hms Hcc Hcw Hcw'. assert (Z.min 0 cw = 0) as -> by lia. change (0 =? 0) with true. cbv iota. lia.
  - intros Hrec Hw0 Hm. assert (Hp : probe_due (set_tp tp0 c)).
    { split; [exact Hrec|]. split; [done|]. split; [exact Hw0|]. split; [exact Hm|].
      change (snd_bytes c <> []). intros Hb. apply (f_equal zlen) in Hb. change (zlen []) with 0 in Hb. lia. }
    destruct Hgo as (g & rest & -> & _ & _ & H); [by right; right; right; right|]. exists g, rest. split; [done|by apply H].
Qed.

Lemma timer_2msl_ok hdr c st : standing c -> exists f, timer_2msl rt dflt k c st = Some f /\ timed hdr TCPT_2MSL c f.
Proof.
  intros Hs. unfold timer_2msl. destruct (_ && _) eqn:E.
  - eexists. split; [done|]. split; [by apply standing_timer|]. split; [done|]. split; [done|]. split; [|done]. intros _.
    split; [done|]. split; [lia|]. split; [lia|done].
  - pose proof (nm_seg _ _ (rd_numbers _ (sd_ready _ Hs))).
    destruct (tcp_close_ok [] c st) as (rt' & p & st' & ->); [lia|]. eexists. split; [done|]. left.
    split; [done|]. split; [lia|done].
Qed.

Lemma timer_keep_ok w c st : standing c -> (forall i, at_copy (w i) = true) ->
  exists f, timer_keep env rt dflt k w c st = Some f /\ timed (at_hdr (w 0%nat)) TCPT_KEEP c f.
Proof.
  intros Hs Hw. unfold timer_keep. cbv zeta. pose proof (sd_state _ Hs) as Hst.
  destruct (t_state (c_tp c) <? TCPS_ESTABLISHED) eqn:E0; [lia|].
  destruct (has_flag (c_options c) SO_KEEPALIVE && _) eqn:E1.
  - destruct (_ <=? t_idle (c_tp c)) eqn:E2.
    + destruct (tcp_drop_ok ETIMEDOUT w c (st <| tcps_keeptimeo ::= tcps_keeptimeo st + 1 |>
          <| tcps_keepdrops ::= tcps_keepdrops (st <| tcps_keeptimeo ::= tcps_keeptimeo st + 1 |>) + 1 |>) Hs Hw)
        as (segs & rt' & p & st' & -> & Hr).
      eexists. split; [done|]. right. right. split; [done|]. split; [done|]. split; [lia|]. split; [done|apply drop_timedout].
    + eexists. split; [done|]. split; [by apply standing_timer|]. split; [done|]. split; [|done]. intros _. rewrite E1.
      split; [done|]. unfold tcp_respond. destruct (at_hdr _); [|done]. by eexists.
  - eexists. split; [done|]. split; [by apply standing_timer|]. split; [done|]. split; [|done]. intros _. by rewrite E1.
Qed.

Lemma timer_persist_ok w c st : standing c -> timer (c_tp c) TCPT_REXMT = 0 -> (forall i, at_copy (w i) = true) ->
  exists f, timer_persist env rt w c st = Some f /\ timed (at_hdr (w 0%nat)) TCPT_PERSIST c f.
Proof.
  intros Hs Hx Hw. unfold timer_persist. pose proof Hs as [Hr Hst Hf]. pose proof (rd_clocks _ Hr) as Hc.
  destruct (tcp_setpersist_ok (c_tp c)) as (v & s & -> & Hv & Hk); [apply Hc..|done|]. cbn [mbind option_bind].
  set (tp1 := _ <| t_force ::= 1 |>).
  assert (Hc1 : clocks tp1).
  { apply (clocks_same (set_timer TCPT_PERSIST v (c_tp c))); try done.
    - destruct Hc as [_ (_ & _ & ?) _]. change (0 <= s <= TCP_MAXRXTSHIFT). unfold TCP_MAXRXTSHIFT in *. lia.
    - by apply clocks_set. }
  assert (Hr1 : ready (set_tp tp1 c)).
  { apply ready_set; [done|by right|apply Hr| |done]. destruct (rd_numbers _ Hr). by split. }
  set (st1 := st <| tcps_persisttimeo ::= _ |>).
  destruct (output_run w (set_tp tp1 c) st1 Hr1 Hw) as (segs & c' & st' & -> & Hr' & Hok & Hfr & Hgo). cbn [mbind option_bind].
  eexists. split; [done|]. split; [|split; [done|split; [done|split; [done|]]]].
  2: { intros _ Ha. by apply (started_probed c _ _ _ Hr1), Hgo. }
  split; [| |done].
  - destruct Hr' as [R1 R2 R3 R4 R5 R6]. split; try done; [by destruct R5|by apply (clocks_eq (c_tp c'))].
  - change (TCPS_ESTABLISHED <= t_state (c_tp c') <= TCPS_TIME_WAIT). by rewrite (fr_state _ _ Hfr).
Qed.

Lemma timer_rexmt_ok w c st :
  standing c -> timer (c_tp c) TCPT_REXMT = 0 -> timer (c_tp c) TCPT_PERSIST = 0 -> (forall i, at_copy (w i) = true) ->
  exists f, timer_rexmt env rt dflt w c st = Some f /\ timed (at_hdr (w 0%nat)) TCPT_REXMT c f.
Proof.
  intros Hs Hx Hp Hw. pose proof Hs as [Hr Hst Hf]. pose proof (rd_clocks _ Hr) as Hc. pose proof Hc as [_ (_ & _ & Hsh) _].
  unfold timer_rexmt. cbv zeta. set (tp := c_tp c) in *. destruct (rexmt_persists (sb_cc (c_snd c)) tp) eqn:Ep.
  { assert (Hx0 : timer (set_timer TCPT_REXMT 0 tp) TCPT_REXMT = 0) by (apply (timer_set_eq _ _ _ (ck_wf _ Hc)); done).
    destruct (persist_armed (set_timer TCPT_REXMT 0 tp)) as (v & s & -> & Hc' & Ha); [by apply clocks_clear|done|]. cbn [mbind option_bind]. set (tp1 := _ <| t_rxtshift ::= s |>) in *.
    eexists. split; [done|]. split; [by apply standing_same|]. split; [|done]. intros _. fold tp. rewrite Ep. split; [done|].
    destruct Ha as [Ha|Ha]; [|done]. destruct Ha. change (timer (set_timer TCPT_PERSIST v (set_timer TCPT_REXMT 0 tp)) TCPT_REXMT = 0).
    by rewrite timer_set_ne. }
  set (tp1 := tp <| t_rxtshift ::= s16 (t_rxtshift tp + 1) |>).
  assert (Es : t_rxtshift tp1 = t_rxtshift tp + 1) by (apply s16_small; unfold TCP_MAXRXTSHIFT in *; lia).
  rewrite Es. destruct (TCP_MAXRXTSHIFT <? _) eqn:Eg.
  { set (tp2 := tp1 <| t_rxtshift ::= TCP_MAXRXTSHIFT |>).
    assert (Hs2 : standing (set_tp tp2 c)) by (apply standing_same; try done; by apply (clocks_same tp)).
    destruct (tcp_drop_ok (timeout_error tp) w (set_tp tp2 c) (st <| tcps_timeoutdrop ::= tcps_timeoutdrop st + 1 |>) Hs2 Hw)
      as (segs & rt' & p & st' & E & Hre).
    eexists. split; [exact E|]. right. left. split; [done|]. split; [done|]. split; [fold tp; lia|]. split; [done|].
    exact (drop_timeout tp). }
  assert (Hc1 : clocks tp1) by (apply (clocks_same tp); try done; rewrite Es; lia).
  destruct (rexmt_backoff_ok tp1 Hc1 Hp) as (tp2 & -> & Hc2 & Hs2 & Hcur2 & Hx2 & Hm2 & (a & b & d & e & E2)). cbn [mbind option_bind].
  assert (Hn2 : numbers (zlen (snd_bytes c)) tp2) by (apply (numbers_same _ tp); rewrite ?E2; done || apply Hr).
  destruct (rexmt_restart_ok _ tp2 Hn2 Hc2) as (tp3 & -> & Hn3 & Hc3 & Hr3 & T1 & T2 & T3 & T4 & T5 & T6 & T7 & T8 & T9 & T10 & T11 & T12).
  cbn [mbind option_bind].
  assert (Hf2 : t_state tp2 = t_state tp /\ t_force tp2 = 0 /\ snd_wnd tp2 = snd_wnd tp /\ t_template tp2 = t_template tp)
    by (by rewrite E2). destruct Hf2 as (G1 & G2 & G3 & G4).
  assert (Hs3 : standing (set_tp tp3 c)).
  { split; change (c_tp (set_tp tp3 c)) with tp3; rewrite ?T4, ?T5, ?G1, ?G2; try done.
    apply ready_set; [done|right; by rewrite T4, G1|rewrite T7, G4; apply Hr|done|done]. }
  set (st3 := st <| tcps_rexmttimeo ::= _ |>).
  destruct (standing_output w (set_tp tp3 c) st3 Hs3 Hw) as (segs & c' & st' & -> & Hs' & Hok & Hfr & Hgo). cbn [mbind option_bind].
  eexists. split; [done|]. split; [done|]. split; [|done]. intros _. fold tp. rewrite Ep. split; [lia|].
  assert (Hre : at_hdr (w 0%nat) = true -> resent c segs).
  { intros Ha. apply (started_resent c tp3); try (fold tp; congruence); try done; [apply Hs3|..].
    - rewrite T8, E2. done.
    - rewrite T9, E2. done.
    - rewrite T10, E2. done.
    - rewrite T11, E2. done.
    - rewrite T12, E2. done.
    - by apply Hgo. }
  split; [|split; [|exact Hre]].
  - pose proof (kp_same _ _ _ (oo_kept _ _ _ _ Hok)) as (_ & _ & _ & _ & _ & _ & _ & -> & _).
    unfold out_restart. cbv zeta. by destruct (_ && _).
  - intros Hwnd. change (c_tp (set_tp tp3 c)) with tp3 in Hfr. destruct (fr_quiet _ _ Hfr) as (_ & Q1 & Q2 & Q3 & Q4).
    { pose proof (nm_wnd _ _ Hn3). pose proof (nm_cwnd _ _ Hn3). pose proof (nm_seg _ _ Hn3).
      unfold quiet, timer. rewrite T1, T5, T6, G2, G3 in *. split; [|split_and!; done || lia].
      fold (timer tp2 TCPT_REXMT). rewrite Hx2. pose proof (rexmt_value_range tp1 (t_rxtshift tp1) (ck_rto _ Hc1)) as Hv.
      destruct Hc1 as [_ (Hm & _) _]. lia. }
    unfold timer. rewrite Q1, Q2, Q3, Q4, T1, T2, T3, T6, Hs2, Hcur2, Es, G3.
    fold (timer tp2 TCPT_REXMT) (timer tp2 TCPT_2MSL). by rewrite Hx2, Hm2, Es.
Qed.

Lemma tcp_timers_ok i w c st :
  standing c -> 0 <= i < 4 -> timer (c_tp c) i = 0 -> (forall n, at_copy (w n) = true) ->
  (i = TCPT_REXMT -> timer (c_tp c) TCPT_PERSIST = 0) -> (i = TCPT_PERSIST -> timer (c_tp c) TCPT_REXMT = 0) ->
  exists f, tcp_timers env rt dflt k i w c st = Some f /\ timed (at_hdr (w 0%nat)) i c f.
Proof.
  intros Hs Hi Ht Hw H1 H2. unfold tcp_timers, TCPT_2MSL, TCPT_REXMT, TCPT_PERSIST, TCPT_KEEP in *.
  destruct (i =? 3) eqn:E3; [replace i with 3 by lia; by apply timer_2msl_ok|].
  destruct (i =? 0) eqn:E0; [assert (i = 0) as -> by lia; apply timer_rexmt_ok; by auto|].
  destruct (i =? 1) eqn:E1; [assert (i = 1) as -> by lia; apply timer_persist_ok; by auto|].
  destruct (i =? 2) eqn:E2; [assert (i = 2) as -> by lia; by apply timer_keep_ok|lia].
Qed.
End timed.

(** * How long an unanswered connection lives *)

(** The retransmission timer runs, the window is open; [n] bounds the slow ticks left. *)
Record stuck (n : Z) (c : conn) : Prop := {
  sk_standing : standing c;
  sk_timer : 0 < timer (c_tp c) TCPT_REXMT < 32768;
  sk_2msl : timer (c_tp c) TCPT_2MSL = 0;
  sk_wnd : 0 < snd_wnd (c_tp c);
  sk_left : timer (c_tp c) TCPT_REXMT + (TCP_MAXRXTSHIFT - t_rxtshift (c_tp c)) * TCPTV_REXMTMAX <= n }.

Inductive tick := Slow | Fast.
Definition slow_ticks (evs : list tick) : Z := zlen (List.filter (fun e => if e is Slow then true else false) evs).

(** The time stamp clock goes on before the timers are looked at. *)
Definition tick_now (e : tick) (env : tcpenv) : tcpenv :=
  match e with
  | Slow => mk_tcpenv (u32 (tcp_now env + 1)) (tcp_mssdflt env) (tcp_iw env) (e_sb_max env)
  | Fast => env
  end.

(** The ticks until the block is gone; [w n]: the outcomes of the [n]-th. *)
Fixpoint live rt dflt k (env : tcpenv) (evs : list tick) (w : nat -> Z -> nat -> attempt) (c : conn) (st : tmstat) : option fate :=
  match evs with
  | [] => Some (Alive [] c st)
  | e :: evs =>
      let env := tick_now e env in
      r ← match e with
          | Slow => tcp_slowtimo env rt dflt k (w 0%nat) c st
          | Fast => tcp_fasttimo env rt (w 0%nat 0) c st
          end;
      match r with
      | Gone segs er r p st => Some (Gone segs er r p st)
      | Alive segs c st => live rt dflt k env evs (fun n => w (S n)) c st
      end
  end.

Section live.
Context (env : tcpenv) (rt : option rtinfo) (dflt : bool) (k : keepalive).

(** The run ends with the connection's error set, or the connection is still stuck. *)
Definition doomed (n : Z) (r : option fate) : Prop :=
  exists f, r = Some f /\ match f with Alive _ c _ => stuck n c | Gone _ so_error _ _ _ => so_error <> 0 end.

Lemma timeout_error_pos tp : timeout_error tp <> 0.
Proof. unfold timeout_error. destruct (t_softerror tp =? 0) eqn:E; [done|cbn; lia]. Qed.

(** A change that the retransmission does not see. *)
Lemma stuck_same n c c' :
  stuck n c -> standing c' -> timer (c_tp c') TCPT_REXMT = timer (c_tp c) TCPT_REXMT ->
  timer (c_tp c') TCPT_2MSL = timer (c_tp c) TCPT_2MSL -> snd_wnd (c_tp c') = snd_wnd (c_tp c) ->
  t_rxtshift (c_tp c') = t_rxtshift (c_tp c) -> stuck n c'.
Proof. intros [] ? E1 E2 E3 E4. split; rewrite ?E1, ?E2, ?E3, ?E4; done. Qed.

Lemma stuck_timer n v c : stuck n c -> stuck n (set_tp (set_timer TCPT_KEEP v (c_tp c)) c).
Proof.
  intros Hk. apply (stuck_same n c); try done; [apply standing_timer; [apply Hk|done]|..]; by apply (timer_set_ne TCPT_KEEP).
Qed.

(** The timers after the one that runs, one at a time. *)
Lemma tick_next ts w n c st i :
  doomed n (if timer (c_tp c) i =? 0 then tcp_timers env rt dflt k i (w i) c st else Some (Alive [] c st)) ->
  (forall c st, stuck n c -> doomed n (tick_timers env rt dflt k ts w c st)) ->
  doomed n (r ← (if timer (c_tp c) i =? 0 then tcp_timers env rt dflt k i (w i) c st else Some (Alive [] c st));
    match r with
    | Gone segs e r p st => Some (Gone segs e r p st)
    | Alive segs c st =>
        r ← tick_timers env rt dflt k ts w c st;
        Some (match r with
              | Alive segs' c st => Alive (segs ++ segs') c st
              | Gone segs' e r p st => Gone (segs ++ segs') e r p st
              end)
    end).
Proof.
  intros (f & -> & Hf) IH. cbn [mbind option_bind]. destruct f as [segs c1 st1|segs e r p st1]; [|by eexists].
  destruct (IH c1 st1 Hf) as (f' & -> & Hf'). cbn [mbind option_bind]. eexists. split; [done|]. by destruct f'.
Qed.

Lemma tick_skip ts w c st i :
  timer (c_tp c) i = 0 -> tick_timers env rt dflt k (i :: ts) w c st = tick_timers env rt dflt k ts w c st.
Proof. intros E. cbn [tick_timers]. cbv zeta. by rewrite E. Qed.

Lemma tick_keep w n c st :
  stuck n c -> (forall j m, at_copy (w j m) = true) ->
  doomed n (tick_timers env rt dflt k [TCPT_KEEP; TCPT_2MSL] w c st).
Proof.
  intros Hk Hw.
  assert (H2 : forall c st, stuck n c -> doomed n (tick_timers env rt dflt k [TCPT_2MSL] w c st)).
  { intros c' st' Hk'. rewrite tick_skip by first [done|apply Hk']. by eexists. }
  destruct (timer (c_tp c) TCPT_KEEP =? 0) eqn:E0; [rewrite tick_skip by first [done|lia]; by apply H2|].
  set (ts := [TCPT_2MSL]) in *. cbn [tick_timers]. cbv zeta. rewrite E0. set (c1 := set_tp _ c).
  assert (Hk1 : stuck n c1) by (by apply stuck_timer).
  apply tick_next; [|exact H2]. destruct (timer (c_tp c1) TCPT_KEEP =? 0) eqn:E1; [|by eexists].
  destruct (tcp_timers_ok env rt dflt k TCPT_KEEP (w TCPT_KEEP) c1 st) as (f & E & Hf); [apply Hk1|done|lia|done..|].
  eexists. split; [exact E|]. destruct f as [segs c' st'|segs e r p st'].
  - destruct Hf as (_ & _ & Hf & _). destruct Hf as [-> _]; [done|]. by apply stuck_timer.
  - destruct Hf as [Hf|[Hf|Hf]]; [by destruct Hf|by destruct Hf|]. destruct Hf as (_ & _ & _ & _ & ->). apply timeout_error_pos.
Qed.

(** The retransmission timer: a tick less, or one retransmission more. *)
Lemma tick_slow w n c st :
  stuck n c -> (forall j m, at_copy (w j m) = true) ->
  doomed (n - 1) (tick_timers env rt dflt k [TCPT_REXMT; TCPT_PERSIST; TCPT_KEEP; TCPT_2MSL] w c st).
Proof.
  intros [Hs Hx Hm Hw0 Hl] Hw. pose proof (rd_clocks _ (sd_ready _ Hs)) as Hc. pose proof Hc as [Hwf Hr Ho].
  assert (Hp : timer (c_tp c) TCPT_PERSIST = 0) by (destruct Ho; lia).
  assert (Hnext : forall c st, stuck (n - 1) c -> doomed (n - 1) (tick_timers env rt dflt k [TCPT_PERSIST; TCPT_KEEP; TCPT_2MSL] w c st)).
  { intros c' st' Hk'. rewrite tick_skip; [by apply tick_keep|].
    destruct (ck_one _ (rd_clocks _ (sd_ready _ (sk_standing _ _ Hk')))); [|done]. pose proof (sk_timer _ _ Hk'). lia. }
  set (ts := [TCPT_PERSIST; TCPT_KEEP; TCPT_2MSL]) in *. cbn [tick_timers]. cbv zeta.
  destruct (timer (c_tp c) TCPT_REXMT =? 0) eqn:E0; [lia|]. rewrite s16_small by lia. set (v := timer (c_tp c) TCPT_REXMT - 1).
  set (c1 := set_tp _ c). assert (Hx1 : timer (c_tp c1) TCPT_REXMT = v) by (by apply (timer_set_eq TCPT_REXMT v (c_tp c))).
  assert (Hs1 : standing c1) by (apply standing_same; try done; by apply clocks_set).
  apply tick_next; [|exact Hnext]. rewrite Hx1. destruct (v =? 0) eqn:Ev.
  2: { eexists. split; [done|]. split; [done|rewrite Hx1; lia|..].
    - by rewrite <- Hm; apply (timer_set_ne TCPT_REXMT).
    - done.
    - rewrite Hx1. change (t_rxtshift (c_tp c1)) with (t_rxtshift (c_tp c)). lia. }
  destruct (tcp_timers_ok env rt dflt k TCPT_REXMT (w TCPT_REXMT) c1 st) as (f & E & Hf); [done|done|lia|done|..].
  { intros _. by rewrite <- Hp; apply (timer_set_ne TCPT_REXMT). }
  { done. }
  eexists. split; [exact E|]. destruct f as [segs c' st'|segs e r p st'].
  - destruct Hf as (Hs' & Hf & _). specialize (Hf eq_refl).
    assert (Ep : rexmt_persists (sb_cc (c_snd c1)) (c_tp c1) = false).
    { unfold rexmt_persists. change (snd_wnd (c_tp c1)) with (snd_wnd (c_tp c)). destruct (snd_wnd (c_tp c) =? 0) eqn:Ew; [lia|].
      by rewrite !andb_false_r. }
    rewrite Ep in Hf. destruct Hf as (Hsh & _ & Hf & _). destruct (Hf Hw0) as (F1 & F2 & F3 & F4 & F5).
    pose proof (rexmt_value_range (c_tp c1) (t_rxtshift (c_tp c1) + 1) (ck_rto _ (rd_clocks _ (sd_ready _ Hs1)))) as Hv.
    destruct Hr as (Hmin & _). change (t_rttmin (c_tp c1)) with (t_rttmin (c_tp c)) in Hv.
    split; [done|rewrite F5, F4; unfold TCPTV_REXMTMAX, PR_SLOWHZ in *; lia| |by rewrite F2|].
    + rewrite F3, <- Hm. by apply (timer_set_ne TCPT_REXMT).
    + rewrite F5, F4, F1. change (t_rxtshift (c_tp c1)) with (t_rxtshift (c_tp c)) in *. nia.
  - destruct Hf as [Hf|[Hf|Hf]]; [by destruct Hf| |by destruct Hf]. destruct Hf as (_ & _ & _ & _ & ->). apply timeout_error_pos.
Qed.

Lemma tcp_slowtimo_ok w n c st :
  stuck n c -> (forall j m, at_copy (w j m) = true) -> doomed (n - 1) (tcp_slowtimo env rt dflt k w c st).
Proof.
  intros Hk Hw. unfold tcp_slowtimo. destruct (tick_slow w n c st Hk Hw) as (f & -> & Hf). cbn [mbind option_bind].
  eexists. split; [done|]. destruct f as [segs c' st'|]; [|done]. set (tp1 := c_tp c' <| t_idle ::= _ |>).
  apply (stuck_same (n - 1) c'); try done; try by destruct (negb _).
  destruct (negb _); apply standing_same; try done; try apply Hf;
    by apply (clocks_eq (c_tp c')), (sd_ready _ (sk_standing _ _ Hf)).
Qed.

Lemma tcp_fasttimo_ok w n c st :
  stuck n c -> (forall m, at_copy (w m) = true) -> doomed n (tcp_fasttimo env rt w c st).
Proof.
  intros Hk Hw. unfold tcp_fasttimo. destruct (has_flag _ _); [|by eexists].
  set (tp1 := add_flags _ _). pose proof (sk_standing _ _ Hk) as Hs. pose proof Hs as [Hr _ Hfo].
  assert (Hfin : tflag tp1 TF_SENTFIN = tflag (c_tp c) TF_SENTFIN)
    by (unfold tp1; rewrite tflag_lor, tflag_andnot by done; apply orb_false_r).
  assert (Hrec : recovering tp1 = recovering (c_tp c))
    by (unfold recovering, tp1; rewrite tflag_lor, tflag_andnot by done; apply orb_false_r).
  assert (Hk1 : stuck n (set_tp tp1 c)).
  { apply (stuck_same n c); try done. apply standing_same; try done. by apply (clocks_eq (c_tp c)); try apply Hr. }
  destruct (standing_output env rt w (set_tp tp1 c) (st <| tcps_delack ::= tcps_delack st + 1 |>) (sk_standing _ _ Hk1) Hw)
    as (segs & c' & st' & -> & Hs' & _ & Hfr & _). cbn [mbind option_bind]. eexists. split; [done|].
  pose proof Hk1 as [_ K1 K2 K3 _]. pose proof (rd_numbers _ Hr) as [_ _ _ _ N1 N2 N3 _].
  destruct (fr_quiet _ _ Hfr) as (_ & Q1 & Q2 & Q3 & Q4).
  { unfold quiet. split; [lia|]. change (t_force (c_tp c) = 0 /\ 0 < snd_wnd (c_tp c) < 1073741824 /\
      0 < snd_cwnd (c_tp c) < 2147483648 /\ 1 <= t_maxseg (c_tp c) < 65536). change (0 < snd_wnd (c_tp c)) in K3. lia. }
  apply (stuck_same n (set_tp tp1 c)); unfold timer; rewrite ?Q1, ?Q2, ?Q4; done.
Qed.

End live.

Section runs.
Context (rt : option rtinfo) (dflt : bool) (k : keepalive).

Lemma live_ok env evs w n c st :
  stuck n c -> (forall i j m, at_copy (w i j m) = true) -> doomed (n - slow_ticks evs) (live rt dflt k env evs w c st).
Proof.
  revert env w n c st. induction evs as [|e evs IH]; intros env w n c st Hk Hw; cbn [live]; cbv zeta.
  { eexists. split; [done|]. by rewrite Z.sub_0_r. }
  assert (H1 : doomed (n - slow_ticks [e]) (match e with
          | Slow => tcp_slowtimo (tick_now e env) rt dflt k (w 0%nat) c st
          | Fast => tcp_fasttimo (tick_now e env) rt (w 0%nat 0) c st
          end)).
  { destruct e; [by apply tcp_slowtimo_ok|]. rewrite Z.sub_0_r. by apply tcp_fasttimo_ok. }
  destruct H1 as (f & -> & Hf). cbn [mbind option_bind]. destruct f as [segs c' st'|]; [|by eexists].
  replace (n - slow_ticks (e :: evs)) with (n - slow_ticks [e] - slow_ticks evs) by
    (unfold slow_ticks; destruct e; cbn [List.filter]; rewrite ?zlen_cons; change (zlen []) with 0; lia).
  by apply IH.
Qed.

(** Enough slow ticks: the block is gone. *)
Lemma live_gone env evs w n c st :
  stuck n c -> (forall i j m, at_copy (w i j m) = true) -> n <= slow_ticks evs ->
  exists segs so_error rt' p st', live rt dflt k env evs w c st = Some (Gone segs so_error rt' p st') /\ so_error <> 0.
Proof.
  intros Hk Hw Hn. destruct (live_ok env evs w n c st Hk Hw) as (f & -> & Hf). destruct f as [segs c' st'|segs er rt' p st'].
  - destruct Hf as [Hs Hx _ _ Hl]. destruct (rd_clocks _ (sd_ready _ Hs)) as [_ (_ & _ & Hsh) _].
    unfold TCPTV_REXMTMAX, PR_SLOWHZ in *. nia.
  - by eexists _, _, _, _, _.
Qed.
End runs.

(** C39.  A timer of a standing connection runs out ([tcp_timers]), as the count-down
    leaves it, copies of data succeeding.  The call returns.  Either the connection stands
    again: a retransmission into a closed window has become persistence; any other one
    had not used up its twelve shifts, has left recovery and, with the window open, has the
    next interval, [t_rttmin] and 64 s bounding it, on its timer; the keep-alive timer has
    been set again and at most a probe of octet [snd_una - 1] sent; or 2MSL waits on.  Or
    the block is gone, by 2MSL silently, by the thirteenth retransmission or by unanswered
    probes with nothing but an RST sent and a soft error, or else [ETIMEDOUT], on the
    socket. *)
Theorem tcp_timers_correct env rt dflt k i w c st :
  standing c -> 0 <= i < 4 -> timer (c_tp c) i = 0 -> (forall n, at_copy (w n) = true) ->
  (i = TCPT_REXMT -> timer (c_tp c) TCPT_PERSIST = 0) -> (i = TCPT_PERSIST -> timer (c_tp c) TCPT_REXMT = 0) ->
  exists f, tcp_timers env rt dflt k i w c st = Some f /\ timed k (at_hdr (w 0%nat)) i c f.
Proof. apply tcp_timers_ok. Qed.

(** A probe every 75 seconds after two hours. *)
Definition demo_keep : keepalive := mk_keepalive 14400 150.
Definition no_tmstat : tmstat := mk_tmstat 0 0 0 0 0 0 0 0 0 0 no_stat.
Definition demo_standing (rexmt shift : Z) : conn :=
  let c := demo_conn TCPS_ESTABLISHED 4294967290 100 4 9 in
  set_tp (set_timer TCPT_REXMT rexmt (c_tp c) <| t_rxtshift ::= shift |> <| snd_nxt ::= 2 |> <| snd_max ::= 2 |>) c.

Lemma demo_standing_ok rexmt shift : 0 <= shift <= 12 -> standing (demo_standing rexmt shift).
Proof.
  intros H. split; [|vm_compute; split; discriminate|done]. split; try done; [by right|].
  split; [done| |by right]. split; [|split; [|exact H]]; vm_compute; split; discriminate.
Qed.

(** The fifth retransmission: one segment from [snd_una], the estimate given up. *)
Lemma tcp_timers_correct_witness :
  exists c st, tcp_timers demo_env None false demo_keep TCPT_REXMT all_well (demo_standing 0 4) no_tmstat
    = Some (Alive [mk_oseg 4294967290 7 16 4096 0 [] [4; 5; 6; 7]] c st) /\
    standing c /\ t_rxtshift (c_tp c) = 5 /\ snd_cwnd (c_tp c) = 4.
Proof.
  destruct (tcp_timers_correct demo_env None false demo_keep TCPT_REXMT all_well (demo_standing 0 4) no_tmstat)
    as (f & E & Hf); [by apply demo_standing_ok|done..|].
  vm_compute in E. injection E as <-. eexists _, _. split; [vm_compute; reflexivity|]. split; [exact (proj1 Hf)|]. done.
Defined.

(** C40.  An unanswered connection does not live for ever.  The retransmission timer of a
    standing connection runs, the window is open, 2MSL does not run, and nothing arrives:
    then, whatever [ip_output] and [MGETHDR] do, copies of data succeeding, and however
    fast and slow ticks follow each other, the block is gone and the socket has an error
    by the slow tick with the number the timer and 64 s for each shift left add up to. *)
Theorem tcp_gives_up env rt dflt k evs w c st :
  standing c -> 0 < timer (c_tp c) TCPT_REXMT < 32768 -> timer (c_tp c) TCPT_2MSL = 0 -> 0 < snd_wnd (c_tp c) ->
  (forall i j m, at_copy (w i j m) = true) ->
  timer (c_tp c) TCPT_REXMT + (TCP_MAXRXTSHIFT - t_rxtshift (c_tp c)) * TCPTV_REXMTMAX <= slow_ticks evs ->
  exists segs so_error rt' p st', live rt dflt k env evs w c st = Some (Gone segs so_error rt' p st') /\ so_error <> 0.
Proof.
  intros Hs Hx Hm Hw Hcp Hn. by apply (live_gone rt dflt k env evs w (slow_ticks evs)).
Qed.

(** 771 seconds are enough for a connection that has just sent. *)
Lemma tcp_gives_up_witness :
  exists segs so_error rt' p st', live None false demo_keep demo_env (flat_map (fun _ => [Fast; Slow]) (seq 0 1542))
    (fun _ _ => all_well) (demo_standing 6 0) no_tmstat = Some (Gone segs so_error rt' p st') /\ so_error <> 0.
Proof.
  apply (tcp_gives_up demo_env None false demo_keep _ _ (demo_standing 6 0) no_tmstat);
    [by apply demo_standing_ok|done|done|done|done|vm_compute; discriminate].
Defined.

(** It takes 715: the intervals are 3, 24, 48 and ten times 64 seconds; the last one ends
    with the RST. *)
Example unanswered :
  let after n := match live None false demo_keep demo_env (repeat Slow n) (fun _ _ => all_well) (demo_standing 6 0) no_tmstat with
                 | Some (Alive _ c _) => (0, t_rxtshift (c_tp c), [])
                 | Some (Gone segs e _ _ _) => (e, 0, map os_flags segs)
                 | None => (0, 0, []) end in
  map after [5; 6; 53; 54; 150; 1429; 1430]%nat
  = [(0, 0, []); (0, 1, []); (0, 1, []); (0, 2, []); (0, 3, []); (0, 12, []); (ETIMEDOUT, 0, [Z.lor TH_RST TH_ACK])].
Proof. vm_compute. reflexivity. Qed.
