(* ===== verification/DnsName.v ===== *)
(** Domain names on the wire: expansion, compression and skipping ([dn_expand],
    [dn_comp], [dn_find] and [__dn_skipname] in [api/res_comp.c]) and the query message
    ([res_mkquery] in [api/res_mkquery.c]).

    A message is the list of its bytes and a pointer into it is an offset; a read or
    write outside is [None].  A pointer into a C string is the list of the bytes from it
    to the terminator. *)
From S2P Require Import Prelude.

Definition INDIR_MASK : Z := 192.
Definition MAXLABEL : Z := 63.
Definition DOT : Z := 46.            (* '.' *)
Definition BACKSLASH : Z := 92.      (* '\\' *)

(** * [dn_expand] *)

(** [*dn++ = c], [dn] behind the characters [out] of a buffer of [length]. *)
Definition put_char (length c : Z) (out : list Z) : option (list Z) :=
  if zlen out <? length then Some (out ++ [c]) else None.

(** [while (--n >= 0)]: on [inr], the function has returned -1. *)
Fixpoint expand_label (msg : list Z) (length : Z) (n : nat) (cp : Z) (out : list Z)
  : option (Z * list Z + list Z) :=
  match n with
  | O => Some (inl (cp, out))
  | S n' =>
      if zlen msg <=? cp then Some (inr out) else
      c ← zget msg cp;
      if c =? DOT then
        if length <=? zlen out + Z.of_nat n' + 2 then Some (inr out) else
        out ← put_char length BACKSLASH out;
        out ← put_char length c out;
        expand_label msg length n' (cp + 1) out
      else
        out ← put_char length c out;
        expand_label msg length n' (cp + 1) out
  end.

(** The [for] loop: the return value and what has been written to [exp_dn]. *)
Fixpoint expand_loop (fuel : nat) (msg : list Z) (comp_dn length : Z)
    (cp : Z) (out : list Z) (len checked : Z) : option (Z * list Z) :=
  match fuel with
  | O => None
  | S fuel =>
      if zlen msg <=? cp then Some (-1, out) else
      n ← zget msg cp;
      let cp := cp + 1 in
      if n =? 0 then
        if length <=? zlen out then Some (-1, out) else
        res ← put_char length 0 out;
        Some (if len <? 0 then cp - comp_dn else len, res)
      else if Z.land n INDIR_MASK =? 0 then
        if negb (zlen out =? 0) && (length <=? zlen out) then Some (-1, out) else
        out ← (if zlen out =? 0 then Some out else put_char length DOT out);
        if length <=? zlen out + n then Some (-1, out) else
        r ← expand_label msg length (Z.to_nat n) cp out;
        match r with
        | inl (cp, out) => expand_loop fuel msg comp_dn length cp out len (checked + (n + 1))
        | inr out => Some (-1, out)
        end
      else if Z.land n INDIR_MASK =? INDIR_MASK then
        let len := if len <? 0 then cp - comp_dn + 1 else len in
        if zlen msg <=? cp then Some (-1, out) else
        b ← zget msg cp;
        let cp := Z.lor (Z.shiftl (Z.land n 63) 8) (Z.land b 255) in
        if (cp <? 0) || (zlen msg <=? cp) then Some (-1, out) else
        let checked := checked + 2 in
        if zlen msg <=? checked then Some (-1, out) else
        expand_loop fuel msg comp_dn length cp out len checked
      else Some (-1, out)
  end.

Definition dn_expand (msg : list Z) (comp_dn length : Z) : option (Z * list Z) :=
  expand_loop (S (List.length msg)) msg comp_dn length comp_dn [] (-1) 0.

(** * [__dn_skipname], [eom] the end of the message *)

Fixpoint skip_loop (fuel : nat) (msg : list Z) (cp : Z) : option (Z + unit) :=
  match fuel with
  | O => None
  | S fuel =>
      if zlen msg <=? cp then Some (inl cp) else
      n ← zget msg cp;
      let cp := cp + 1 in
      if n =? 0 then Some (inl cp) else
      if Z.land n INDIR_MASK =? 0 then skip_loop fuel msg (cp + n)
      else if Z.land n INDIR_MASK =? INDIR_MASK then Some (inl (cp + 1))
      else Some (inr tt)
  end.

Definition dn_skipname (msg : list Z) (comp_dn : Z) : option Z :=
  r ← skip_loop (S (List.length msg)) msg comp_dn;
  match r with inl cp => Some (cp - comp_dn) | inr _ => Some (-1) end.

(** * [dn_find] *)

(** The outcome for one entry of the list: the name is here; [goto next]; the search
    returns -1. *)
Inductive found := Found | NextName | Illegal.

(** [while (--n >= 0)]; [Some None] is [goto next]. *)
Fixpoint find_label (buf : list Z) (n : nat) (cp : Z) (dn : list Z)
  : option (option (Z * list Z)) :=
  match n with
  | O => Some (Some (cp, dn))
  | S n' =>
      match dn with
      | [] => None
      | d :: dn' =>
          if d =? DOT then Some None else
          match (if d =? BACKSLASH then dn' else dn) with
          | [] => None
          | e :: dn'' =>
              b ← zget buf cp;
              if e =? b then find_label buf n' (cp + 1) dn'' else Some None
          end
      end
  end.

Fixpoint find_name (fuel : nat) (buf : list Z) (cp : Z) (dn : list Z) : option found :=
  match fuel with
  | O => None
  | S fuel =>
      n ← zget buf cp;
      let cp := cp + 1 in
      if n =? 0 then
        match dn with [] => None | d :: _ => Some (if d =? 0 then Found else NextName) end
      else if Z.land n INDIR_MASK =? 0 then
        r ← find_label buf (Z.to_nat n) cp dn;
        match r with
        | None => Some NextName
        | Some (cp, []) => None
        | Some (cp, d :: dn) =>
            if d =? 0 then b ← zget buf cp; Some (if b =? 0 then Found else NextName)
            else if d =? DOT then find_name fuel buf cp dn else Some NextName
        end
      else if Z.land n INDIR_MASK =? INDIR_MASK then
        b ← zget buf cp;
        find_name fuel buf (Z.lor (Z.shiftl (Z.land n 63) 8) b) dn
      else Some Illegal
  end.

(** The offset in the message, or -1; [ptrs] is the list from [dnptrs] to [lastdnptr]. *)
Fixpoint dn_find (buf : list Z) (ptrs : list Z) (dn : list Z) : option Z :=
  match ptrs with
  | [] => Some (-1)
  | sp :: ptrs =>
      r ← find_name (S (List.length buf)) buf sp dn;
      match r with
      | Found => Some sp
      | Illegal => Some (-1)
      | NextName => dn_find buf ptrs dn
      end
  end.

(** * [dn_comp] *)

(** [*cp++ = c]. *)
Definition put_byte (buf : list Z) (cp c : Z) : option (list Z) :=
  if (0 <=? cp) && (cp <? zlen buf) then Some (zset buf cp (u8 c)) else None.

(** The [do] loop over a label, from [c] and what follows it: the next [c], [dn], [cp] and
    the buffer; [inr] when there is no room. *)
Fixpoint comp_label (eob c : Z) (dn : list Z) (cp : Z) (buf : list Z)
  : option (Z * list Z * Z * list Z + list Z) :=
  if c =? DOT then
    match dn with [] => None | c :: dn => Some (inl (c, dn, cp, buf)) end
  else if c =? BACKSLASH then
    match dn with
    | [] => None
    | c :: dn =>
        if c =? 0 then Some (inl (c, dn, cp, buf)) else
        if eob <=? cp then Some (inr buf) else
        buf ← put_byte buf cp c;
        match dn with
        | [] => None
        | c :: dn => if c =? 0 then Some (inl (c, dn, cp + 1, buf))
                     else comp_label eob c dn (cp + 1) buf
        end
    end
  else
    if eob <=? cp then Some (inr buf) else
    buf ← put_byte buf cp c;
    match dn with
    | [] => None
    | c :: dn => if c =? 0 then Some (inl (c, dn, cp + 1, buf))
                 else comp_label eob c dn (cp + 1) buf
    end.

(** The list of earlier names: the entries behind [dnptrs[0]], and how many more entries
    fit before [lastdnptr - 1] ([None] for a null [lastdnptr]).  [msg] is offset 0. *)
Record dnlist := mk_dnlist { d_ptrs : list Z; d_room : option Z }.

(** [*cpp++ = cp; *cpp = NULL], when there is room: [new] are the entries from [cpp]'s first
    value on. *)
Definition save_ptr (d : dnlist) (new : list Z) (cp : Z) : list Z :=
  match d_room d with
  | Some room => if zlen new <? room then new ++ [cp] else new
  | None => new
  end.

(** The [for] loop.  [d] is the list to search, or [None] without compression; the result
    is the return value, the buffer and the entries added to the list. *)
Fixpoint comp_loop (fuel : nat) (d : option dnlist) (comp_dn eob c : Z) (dn : list Z)
    (cp : Z) (buf : list Z) (new : list Z) : option (Z * list Z * list Z) :=
  let finish cp buf :=
    if eob <=? cp then Some (-1, buf, []) else
    buf ← put_byte buf cp 0; Some (cp + 1 - comp_dn, buf, new) in
  match fuel with
  | O => None
  | S fuel =>
      if c =? 0 then finish cp buf else
      l ← match d with None => Some (-1) | Some d => dn_find buf (d_ptrs d) (c :: dn) end;
      if 0 <=? l then
        if eob <=? cp + 1 then Some (-1, buf, new) else
        buf ← put_byte buf cp (Z.lor (Z.shiftr l 8) INDIR_MASK);
        buf ← put_byte buf (cp + 1) (l mod 256);
        Some (cp + 2 - comp_dn, buf, new)
      else
        let new := match d with None => [] | Some d => save_ptr d new cp end in
        let sp := cp in
        r ← comp_label eob c dn (cp + 1) buf;
        match r with
        | inr buf => Some (-1, buf, [])
        | inl (c, dn, cp, buf) =>
            let l := cp - sp - 1 in
            if (l =? 0) && (c =? 0) then
              if eob <=? cp - 1 then Some (-1, buf, []) else
              buf ← put_byte buf (cp - 1) 0; Some (cp - comp_dn, buf, new)
            else if (l <=? 0) || (MAXLABEL <? l) then Some (-1, buf, [])
            else
              buf ← put_byte buf sp l;
              comp_loop fuel d comp_dn eob c dn cp buf new
        end
  end.

Definition dn_comp (exp_dn : list Z) (buf : list Z) (comp_dn length : Z) (d : option dnlist)
  : option (Z * list Z * list Z) :=
  match exp_dn ++ [0] with
  | [] => None
  | c :: dn => comp_loop (S (List.length exp_dn)) d comp_dn (comp_dn + length) c dn comp_dn buf []
  end.

(** * The query message *)

Definition HEADER_SIZE : Z := 12.
Definition QFIXEDSZ : Z := 4.
Definition QUERY : Z := 0.
Definition RES_PRIMARY : Z := 16.
Definition RES_RECURSE : Z := 64.

Definition putshort (buf : list Z) (cp s : Z) : option (list Z) :=
  buf ← put_byte buf (cp + 1) s;
  put_byte buf cp (Z.shiftr (u16 s) 8).

Definition getshort (msg : list Z) (cp : Z) : option Z :=
  a ← zget msg cp; b ← zget msg (cp + 1);
  Some (u16 (Z.lor (u16 (Z.shiftl a 8)) b)).

Definition getlong (msg : list Z) (cp : Z) : option Z :=
  a ← zget msg cp; b ← zget msg (cp + 1); c ← zget msg (cp + 2); d ← zget msg (cp + 3);
  let u := u32 (Z.shiftl a 8) in
  let u := u32 (Z.shiftl (Z.lor u b) 8) in
  let u := u32 (Z.shiftl (Z.lor u c) 8) in
  Some (Z.lor u d).

(** The query id: microseconds, seconds and the running counter. *)
Definition query_id (tv_secs tv_micro ctr : Z) : Z :=
  Z.lxor (Z.lxor (u16 tv_micro) (u16 (u32 (Z.shiftl tv_secs 5)))) (u16 (u32 (ctr * 40503))).

(** The flag byte [rd] and [opcode], and the one with [pr]. *)
Definition flag_bytes (op options : Z) : list Z :=
  [Z.land op 15 * 8 + (if Z.land options RES_RECURSE =? 0 then 0 else 1);
   (if Z.land options RES_PRIMARY =? 0 then 0 else 64)].

(** The return value, the buffer and [res_id_ctr].  [dnptrs] has 10 slots: the message, the
    terminator, and 8 more. *)
Definition res_mkquery (tv_secs tv_micro ctr options op : Z) (dname : list Z) (class type : Z)
    (buf : list Z) (buflen : Z) : option (Z * list Z * Z) :=
  if u32 buflen <? HEADER_SIZE then Some (-1, buf, ctr) else
  buf ← blit buf 0 (repeat 0 12);
  let ctr := u16 (ctr + 1) in
  buf ← putshort buf 0 (query_id tv_secs tv_micro ctr);
  buf ← blit buf 2 (flag_bytes op options);
  let cp := HEADER_SIZE in
  let buflen := buflen - HEADER_SIZE in
  if op =? QUERY then
    let buflen := buflen - QFIXEDSZ in
    if buflen <? 0 then Some (-1, buf, ctr) else
    r ← dn_comp dname buf cp buflen (Some (mk_dnlist [] (Some 8)));
    let '(n, buf, _) := r in
    if n <? 0 then Some (-1, buf, ctr) else
    let cp := cp + n in
    buf ← putshort buf cp type;
    buf ← putshort buf (cp + 2) class;
    buf ← putshort buf 4 1;
    Some (cp + 4, buf, ctr)
  else Some (-1, buf, ctr).

(** * Names, abstractly

    A name is the list of its labels.  [encodes msg p ls cost size]: the bytes at [p]
    stand for [ls]; the encoding takes [size] bytes there, and [cost] bytes are read,
    following pointers, up to the last pointer. *)

Inductive encodes (msg : list Z) : Z -> list (list Z) -> Z -> Z -> Prop :=
  | enc_root p : zget msg p = Some 0 -> encodes msg p [] 0 1
  | enc_label p n ls cost size :
      zget msg p = Some n -> 1 <= n < 64 -> p + 1 + n <= zlen msg ->
      encodes msg (p + 1 + n) ls cost size ->
      encodes msg p (zslice msg (p + 1) n :: ls)
        (if cost =? 0 then 0 else n + 1 + cost) (n + 1 + size)
  | enc_pointer p n b ls cost size :
      zget msg p = Some n -> 192 <= n -> zget msg (p + 1) = Some b ->
      encodes msg ((n - 192) * 256 + b) ls cost size ->
      encodes msg p ls (2 + cost) 2.

(** The text of a name: labels separated by dots, a dot in a label escaped. *)
Definition escape (l : list Z) : list Z :=
  c ← l; if c =? DOT then [BACKSLASH; DOT] else [c].

Fixpoint dotted (ls : list (list Z)) : list Z :=
  match ls with
  | [] => []
  | [l] => escape l
  | l :: ls => escape l ++ DOT :: dotted ls
  end.

(** The labels of a text, as [dn_comp] reads it: a backslash quotes the next character,
    an empty label with no text behind its dot is the end - so a dot behind the last label
    is allowed, and one more is taken as well; [None] for an empty label with text behind
    its dot, or one of more than 63 characters. *)
Fixpoint split_label (s : list Z) : list Z * option (list Z) :=
  match s with
  | [] => ([], None)
  | c :: s =>
      if c =? DOT then ([], Some s) else
      if c =? BACKSLASH then
        match s with [] => ([], None) | c :: s => let '(l, r) := split_label s in (c :: l, r) end
      else let '(l, r) := split_label s in (c :: l, r)
  end.

Fixpoint labels_of (fuel : nat) (s : list Z) : option (list (list Z)) :=
  match fuel with
  | O => None
  | S fuel =>
      match s with
      | [] => Some []
      | _ =>
          let '(l, r) := split_label s in
          let rest := default [] r in
          if (zlen l =? 0) && (zlen rest =? 0) then Some [] else
          if (zlen l =? 0) || (MAXLABEL <? zlen l) then None else
          ls ← labels_of fuel rest; Some (l :: ls)
      end
  end.

Definition parse_name (s : list Z) : option (list (list Z)) := labels_of (S (length s)) s.

(** The bytes of a name without compression. *)
Fixpoint wire_size (ls : list (list Z)) : Z :=
  match ls with [] => 1 | l :: ls => zlen l + 1 + wire_size ls end.

(** ** Bytes *)

Lemma byte_cases (P : Z -> bool) :
  forallb P (seqZ 0 256) = true -> forall n, 0 <= n < 256 -> P n = true.
Proof.
  intros H n Hn. rewrite forallb_forall in H. apply H, list_elem_of_In, elem_of_seqZ. lia.
Qed.

Lemma land_label n : 0 <= n < 256 -> (Z.land n INDIR_MASK =? 0) = (n <? 64).
Proof.
  intros Hn. apply eqb_prop.
  exact (byte_cases (fun n => eqb (Z.land n INDIR_MASK =? 0) (n <? 64)) ltac:(by vm_compute) n Hn).
Qed.

Lemma land_pointer n : 0 <= n < 256 -> (Z.land n INDIR_MASK =? INDIR_MASK) = (192 <=? n).
Proof.
  intros Hn. apply eqb_prop.
  exact (byte_cases (fun n => eqb (Z.land n INDIR_MASK =? INDIR_MASK) (192 <=? n)) ltac:(by vm_compute) n Hn).
Qed.

Lemma lor_pointer h b : 0 <= h -> 0 <= b < 256 -> Z.lor (Z.shiftl h 8) b = h * 256 + b.
Proof.
  intros Hh Hb. rewrite Z.shiftl_mul_pow2 by lia. change 256 with (2 ^ 8).
  rewrite <- Z.add_lor_land. replace (Z.land _ b) with 0; [lia|]. symmetry.
  apply Z.bits_inj'. intros i Hi. rewrite Z.land_spec, Z.bits_0. destruct (i <? 8) eqn:E.
  - by rewrite Z.mul_pow2_bits_low by lia.
  - rewrite (Z.testbit_eqb b) by lia. rewrite (Z.div_small b); [by rewrite andb_comm|].
    pose proof (Z.pow_le_mono_r 2 8 i ltac:(lia) ltac:(lia)). lia.
Qed.

Lemma pointer_value n b : 192 <= n < 256 -> 0 <= b < 256 ->
  Z.lor (Z.shiftl (Z.land n 63) 8) (Z.land b 255) = (n - 192) * 256 + b.
Proof.
  intros Hn Hb. change 63 with (Z.ones 6). change 255 with (Z.ones 8).
  rewrite !Z.land_ones by lia. change (2 ^ 8) with 256. change (2 ^ 6) with 64. rewrite (Z.mod_small b) by lia.
  rewrite lor_pointer by (Z.div_mod_to_equations; lia). f_equal. f_equal.
  Z.div_mod_to_equations. lia.
Qed.

(** ** Escaping *)

Lemma escape_app l k : escape (l ++ k) = escape l ++ escape k.
Proof. unfold escape. apply bind_app. Qed.

Lemma escape_len l : zlen l <= zlen (escape l).
Proof.
  induction l as [|c l IH]; [done|]. change (c :: l) with ([c] ++ l).
  rewrite escape_app, !zlen_app. change (zlen [c]) with 1.
  enough (1 <= zlen (escape [c])) by lia. unfold escape. cbn [mbind list_bind].
  destruct (c =? DOT); unfold zlen; simpl; lia.
Qed.

Lemma encodes_det msg p ls c s ls' c' s' :
  encodes msg p ls c s -> encodes msg p ls' c' s' -> ls = ls' /\ c = c' /\ s = s'.
Proof.
  intros H. revert ls' c' s'. induction H as [p Hp|p n ls c s Hp Hn Hl _ IH|p n b ls c s Hp Hn Hb _ IH];
    intros ls' c' s' H'; inversion H'; subst; simplify_eq; try lia; [done|..].
  - match goal with H : encodes _ _ ls0 _ _ |- _ => destruct (IH _ _ _ H) as (-> & -> & ->) end. done.
  - match goal with H : encodes _ _ ls' _ _ |- _ => destruct (IH _ _ _ H) as (-> & -> & _) end. done.
Qed.

Lemma encodes_cost msg p ls c s : encodes msg p ls c s -> 0 <= c /\ 0 < s.
Proof. induction 1; try lia. destruct (cost =? 0); lia. Qed.

(** ** Expansion *)

Lemma put_char_ok length c out : zlen out < length -> put_char length c out = Some (out ++ [c]).
Proof. intros. unfold put_char. destruct (_ <? _) eqn:?; [done|lia]. Qed.

Lemma expand_label_ok msg length n : forall cp out,
  0 <= cp <= zlen msg -> zlen out + Z.of_nat n < length ->
  exists r, expand_label msg length n cp out = Some r /\
    let text := escape (zslice msg cp (Z.of_nat n)) in
    match r with
    | inl (cp', out') =>
        cp' = cp + Z.of_nat n /\ cp' <= zlen msg /\ out' = out ++ text /\ zlen out' < length
    | inr _ => zlen msg < cp + Z.of_nat n \/ length <= zlen out + zlen text
    end.
Proof.
  induction n as [|n IH]; intros cp out Hcp Hlen; cbn [expand_label].
  { eexists. split; [done|]. change (Z.of_nat 0) with 0. rewrite zslice_nil.
    cbn. rewrite app_nil_r. simpl in Hlen. split_and!; try done; lia. }
  destruct (zlen msg <=? cp) eqn:E; [eexists; split; [done|]; left; lia|].
  destruct (zget_is_Some msg cp ltac:(lia)) as [c Hc]. rewrite Hc. cbn [mbind option_bind].
  rewrite (zslice_cons msg cp _ c) by (done || lia).
  replace (Z.of_nat (S n) - 1) with (Z.of_nat n) by lia.
  set (tl := zslice msg (cp + 1) (Z.of_nat n)) in *. change (c :: tl) with ([c] ++ tl).
  rewrite escape_app, zlen_app. unfold escape at 1 3. cbn [mbind list_bind]. rewrite !app_nil_r.
  assert (Htl : cp + Z.of_nat (S n) <= zlen msg -> Z.of_nat n <= zlen (escape tl)).
  { intros. rewrite <- (zslice_len msg (cp + 1) (Z.of_nat n)) by lia. apply escape_len. }
  destruct (c =? DOT) eqn:Ed.
  - apply Z.eqb_eq in Ed as ->. change (zlen [BACKSLASH; DOT]) with 2.
    destruct (length <=? _) eqn:El.
    { exists (inr out). split; [done|]. destruct (decide (cp + Z.of_nat (S n) <= zlen msg)); [right|left]; lia. }
    rewrite put_char_ok by lia. cbn [mbind option_bind].
    rewrite put_char_ok by (autorewrite with zlen; lia). cbn [mbind option_bind].
    destruct (IH (cp + 1) ((out ++ [BACKSLASH]) ++ [DOT])) as (r & -> & Hr);
      [lia|autorewrite with zlen; lia|].
    exists r. split; [done|]. destruct r as [[cp' out']|?].
    + destruct Hr as (-> & ? & -> & ?). rewrite <- !app_assoc in *. split_and!; try done; lia.
    + revert Hr. cbv zeta. autorewrite with zlen. fold tl. lia.
  - change (zlen [c]) with 1. rewrite put_char_ok by lia. cbn [mbind option_bind].
    destruct (IH (cp + 1) (out ++ [c])) as (r & -> & Hr);
      [lia|autorewrite with zlen; lia|].
    exists r. split; [done|]. destruct r as [[cp' out']|?].
    + destruct Hr as (-> & ? & -> & ?). rewrite <- !app_assoc in *. split_and!; try done; lia.
    + revert Hr. cbv zeta. autorewrite with zlen. fold tl. lia.
Qed.

(** What is written when the labels [ls] follow the characters [out]. *)
Definition spelled (out : list Z) (ls : list (list Z)) : list Z :=
  match ls with [] => out | _ => if zlen out =? 0 then dotted ls else out ++ DOT :: dotted ls end.

Definition sep (out : list Z) : list Z := if zlen out =? 0 then out else out ++ [DOT].

Lemma spelled_cons out l ls :
  0 < zlen l -> spelled out (l :: ls) = spelled (sep out ++ escape l) ls.
Proof.
  intros Hl. pose proof (escape_len l) as He. unfold spelled, sep. destruct ls as [|k ls].
  - destruct (zlen out =? 0) eqn:E; [|by rewrite <- app_assoc].
    destruct out; [done|]. rewrite zlen_cons in E. pose proof (zlen_nonneg out). lia.
  - set (o := if zlen out =? 0 then _ else out ++ [DOT]). rewrite zlen_app.
    pose proof (zlen_nonneg o). destruct (zlen o + _ =? 0) eqn:E2; [lia|]. subst o.
    change (dotted (l :: k :: ls)) with (escape l ++ DOT :: dotted (k :: ls)).
    destruct (zlen out =? 0) eqn:E.
    + destruct out; [done|]. rewrite zlen_cons in E. pose proof (zlen_nonneg out). lia.
    + by rewrite <- !app_assoc.
Qed.

Lemma spelled_mono out ls : zlen out <= zlen (spelled out ls).
Proof.
  unfold spelled. destruct ls; [lia|]. destruct (_ =? _) eqn:E; [pose proof (zlen_nonneg (dotted (l :: ls))); lia|].
  rewrite zlen_app. pose proof (zlen_nonneg (DOT :: dotted (l :: ls))). lia.
Qed.

(** The loop from [cp] behind [out]: it returns, and what it returns is what is encoded
    there, unless the buffer is too small or the pointers have been followed too far. *)
Definition expands (msg : list Z) (comp_dn length cp : Z) (out : list Z) (len checked : Z)
    (r : Z * list Z) : Prop :=
  (exists ls cost size, encodes msg cp ls cost size /\
     (cost = 0 \/ checked + cost < zlen msg) /\ zlen (spelled out ls) < length /\
     r = (if len <? 0 then cp + size - comp_dn else len, spelled out ls ++ [0])) \/
  (r.1 = -1 /\ forall ls cost size, encodes msg cp ls cost size ->
     (cost = 0 \/ checked + cost < zlen msg) -> length <= zlen (spelled out ls)).

Lemma expands_label msg comp_dn length cp out len checked n r :
  zget msg cp = Some n -> 1 <= n < 64 -> cp + 1 + n <= zlen msg ->
  expands msg comp_dn length (cp + 1 + n)
    (sep out ++ escape (zslice msg (cp + 1) n)) len (checked + (n + 1)) r ->
  expands msg comp_dn length cp out len checked r.
Proof.
  intros Hn Hr Hc H. set (l := zslice msg (cp + 1) n) in *.
  assert (Hl : 0 < zlen l) by (subst l; rewrite zslice_len; pose proof (zget_Some _ _ _ Hn); lia).
  destruct H as [(ls & cost & size & He & Hk & Hs & ->)|[Hf Hnot]].
  - left. exists (l :: ls), (if cost =? 0 then 0 else n + 1 + cost), (n + 1 + size).
    rewrite (spelled_cons _ _ _ Hl). split_and!; [by constructor|destruct (cost =? 0) eqn:?; lia|done|].
    f_equal. case_match; lia.
  - right. split; [done|]. intros ls cost size He Hk. subst l. inversion He; subst; simplify_eq; try lia.
    rewrite (spelled_cons _ _ _ Hl).
    match goal with H : encodes _ (cp + 1 + _) _ ?c _ |- _ => eapply Hnot; [exact H|];
      pose proof (encodes_cost _ _ _ _ _ H); destruct (c =? 0) eqn:? end; lia.
Qed.

Lemma expands_pointer msg comp_dn length cp out len checked n b r :
  zget msg cp = Some n -> 192 <= n < 256 -> zget msg (cp + 1) = Some b ->
  (len < 0 -> comp_dn <= cp) -> checked + 2 < zlen msg ->
  expands msg comp_dn length ((n - 192) * 256 + b) out
    (if len <? 0 then cp + 1 - comp_dn + 1 else len) (checked + 2) r ->
  expands msg comp_dn length cp out len checked r.
Proof.
  intros Hn Hr Hb Hcp Hlt H. destruct H as [(ls & cost & size & He & Hk & Hs & ->)|[Hf Hnot]].
  - left. exists ls, (2 + cost), 2. pose proof (encodes_cost _ _ _ _ _ He).
    split_and!; [eapply enc_pointer; [done|lia|done..]|lia|done|]. f_equal.
    destruct (len <? 0) eqn:E1; [|by rewrite E1].
    destruct (cp + 1 - comp_dn + 1 <? 0) eqn:?; lia.
  - right. split; [done|]. intros ls cost size He Hk. inversion He; subst; simplify_eq; try lia.
    match goal with H : encodes _ ((_ - 192) * 256 + _) _ _ _ |- _ => eapply Hnot; [exact H|];
      pose proof (encodes_cost _ _ _ _ _ H) end. lia.
Qed.

(** A failure where nothing is encoded, or nothing that may be followed. *)
Lemma expands_fail msg comp_dn length cp out len checked o :
  (forall ls cost size, encodes msg cp ls cost size ->
     (cost = 0 \/ checked + cost < zlen msg) -> length <= zlen (spelled out ls)) ->
  expands msg comp_dn length cp out len checked (-1, o).
Proof. by right. Qed.

Lemma expand_loop_ok msg comp_dn length fuel : bytesP msg -> forall cp out len checked,
  0 <= cp -> 0 <= checked <= zlen msg + cp -> (len < 0 -> comp_dn <= cp) ->
  (0 < fuel)%nat -> 2 * zlen msg - checked < 2 * Z.of_nat fuel ->
  exists r, expand_loop fuel msg comp_dn length cp out len checked = Some r /\
    expands msg comp_dn length cp out len checked r.
Proof.
  intros Hm. induction fuel as [|fuel IH]; intros cp out len checked Hcp Hch Hlen Hf0 Hf; [lia|].
  cbn [expand_loop]. destruct (zlen msg <=? cp) eqn:E.
  { eexists. split; [done|]. apply expands_fail. intros ls cost size He.
    inversion He; subst; match goal with H : zget msg cp = _ |- _ => apply zget_Some in H end; lia. }
  destruct (zget_is_Some msg cp ltac:(lia)) as [n Hn]. rewrite Hn. cbn [mbind option_bind].
  pose proof (zget_byte _ _ _ Hm Hn) as Hb.
  destruct (n =? 0) eqn:E0.
  { apply Z.eqb_eq in E0 as ->. destruct (length <=? zlen out) eqn:El.
    - eexists. split; [done|]. apply expands_fail. intros ls cost size He _.
      pose proof (spelled_mono out ls). lia.
    - rewrite put_char_ok by lia. cbn [mbind option_bind]. eexists. split; [done|]. left.
      exists [], 0, 1. split_and!; [by constructor|lia|cbn; lia|done]. }
  rewrite land_label, land_pointer by done. destruct (n <? 64) eqn:E1.
  - assert (Hfit : forall ls cost size, encodes msg cp ls cost size -> exists ls' cost' size',
      encodes msg (cp + 1 + n) ls' cost' size' /\ cp + 1 + n <= zlen msg /\
      spelled out ls = spelled (sep out ++ escape (zslice msg (cp + 1) n)) ls').
    { intros ls cost size He. inversion He; subst; simplify_eq; try lia.
      eexists _, _, _. split_and!; [done|lia|]. apply spelled_cons. rewrite zslice_len; lia. }
    assert (Hsep : zlen out <= zlen (sep out)) by (unfold sep; case_match; autorewrite with zlen; lia).
    destruct (negb (zlen out =? 0) && (length <=? zlen out)) eqn:E2.
    { eexists. split; [done|]. apply expands_fail. intros ls cost size He _.
      pose proof (spelled_mono out ls). lia. }
    replace (if zlen out =? 0 then Some out else put_char length DOT out) with (Some (sep out))
      by (unfold sep; destruct (zlen out =? 0) eqn:?; [done|rewrite put_char_ok by lia; done]).
    cbn [mbind option_bind]. destruct (length <=? zlen (sep out) + n) eqn:E3.
    { eexists. split; [done|]. apply expands_fail. intros ls cost size He _.
      destruct (Hfit _ _ _ He) as (ls' & _ & _ & _ & Hr & ->).
      pose proof (spelled_mono (sep out ++ escape (zslice msg (cp + 1) n)) ls') as Hs.
      pose proof (escape_len (zslice msg (cp + 1) n)) as He'. rewrite zslice_len in He' by lia.
      rewrite zlen_app in Hs. lia. }
    destruct (expand_label_ok msg length (Z.to_nat n) (cp + 1) (sep out)) as (r & -> & Hr); [lia..|].
    rewrite Z2Nat.id in Hr by lia. cbn [mbind option_bind]. destruct r as [[cp' out']|o].
    + destruct Hr as (-> & Hr & -> & ?).
      destruct (IH (cp + 1 + n) (sep out ++ escape (zslice msg (cp + 1) n)) len (checked + (n + 1)))
        as (r & -> & Hx); [lia..|].
      exists r. split; [done|]. eapply expands_label; [done|lia|lia|done].
    + exists (-1, o). split; [done|]. apply expands_fail. intros ls cost size He _.
      destruct (Hfit _ _ _ He) as (ls' & _ & _ & _ & Hin & ->). destruct Hr as [Hr|Hr]; [lia|].
      pose proof (spelled_mono (sep out ++ escape (zslice msg (cp + 1) n)) ls') as Hs.
      rewrite zlen_app in Hs. lia.
  - destruct (192 <=? n) eqn:E2.
    2:{ eexists. split; [done|]. apply expands_fail. intros ls cost size He. inversion He; subst; simplify_eq; lia. }
    destruct (zlen msg <=? cp + 1) eqn:E3.
    { eexists. split; [done|]. apply expands_fail. intros ls cost size He. inversion He; subst; simplify_eq; try lia.
      match goal with H : zget msg (cp + 1) = _ |- _ => apply zget_Some in H end. lia. }
    destruct (zget_is_Some msg (cp + 1) ltac:(lia)) as [b Hb']. rewrite Hb'. cbn [mbind option_bind].
    pose proof (zget_byte _ _ _ Hm Hb') as Hbb. rewrite pointer_value by lia.
    destruct ((_ <? 0) || _) eqn:E4.
    { eexists. split; [done|]. apply expands_fail. intros ls cost size He. inversion He; subst; simplify_eq; try lia.
      match goal with H : encodes _ ((_ - 192) * 256 + _) _ _ _ |- _ =>
        inversion H; subst; match goal with H : zget msg ((_ - 192) * 256 + _) = _ |- _ =>
          apply zget_Some in H end; lia end. }
    destruct (zlen msg <=? checked + 2) eqn:E5.
    { eexists. split; [done|]. apply expands_fail. intros ls cost size He Hk. inversion He; subst; simplify_eq; try lia.
      match goal with H : encodes _ ((_ - 192) * 256 + _) _ _ _ |- _ =>
        pose proof (encodes_cost _ _ _ _ _ H) end. lia. }
    destruct (IH ((n - 192) * 256 + b) out (if len <? 0 then cp + 1 - comp_dn + 1 else len) (checked + 2))
      as (r & -> & Hx); [lia|lia|destruct (len <? 0) eqn:?; lia|lia|lia|].
    exists r. split; [done|]. eapply expands_pointer; [done|lia|done|done|lia|done].
Qed.

Lemma dn_expand_ok msg comp_dn length :
  bytesP msg -> 0 <= comp_dn ->
  exists ret out, dn_expand msg comp_dn length = Some (ret, out) /\
    ((exists ls cost, encodes msg comp_dn ls cost ret /\ (cost = 0 \/ cost < zlen msg) /\
        zlen (dotted ls) < length /\ out = dotted ls ++ [0] /\ 0 < ret) \/
     (ret = -1 /\ forall ls cost size, encodes msg comp_dn ls cost size ->
        cost = 0 \/ cost < zlen msg -> length <= zlen (dotted ls))).
Proof.
  intros Hm Hp. unfold dn_expand.
  destruct (expand_loop_ok msg comp_dn length (S (List.length msg)) Hm comp_dn [] (-1) 0)
    as ([ret out] & Hr & Hx); [unfold zlen; lia..|].
  exists ret, out. split; [done|].
  assert (Hsp : forall ls, spelled [] ls = dotted ls) by (intros []; done).
  destruct Hx as [(ls & cost & size & He & Hk & Hs & Hq)|[Hf Hnot]].
  - left. rewrite Hsp in Hs, Hq. simpl in Hq. simplify_eq. exists ls, cost.
    replace (comp_dn + size - comp_dn) with size by lia. pose proof (encodes_cost _ _ _ _ _ He).
    split_and!; done || lia.
  - right. split; [done|]. intros ls cost size He Hk. rewrite <- Hsp. eapply Hnot; [done|lia].
Qed.

(** Whatever the outcome, what is written lies in the buffer. *)
Definition written (length : Z) (out : list Z) : Prop := zlen out <= Z.max 0 length /\ bytesP out.

Lemma put_char_written length c out out' : byteP c -> bytesP out ->
  put_char length c out = Some out' -> written length out'.
Proof.
  intros Hc Ho. unfold put_char, written. case_match eqn:E; [|done]. intros [= <-]. autorewrite with zlen.
  split; [lia|]. by apply Forall_app; split; [|constructor].
Qed.

Lemma expand_label_written msg length n : bytesP msg -> forall cp out r, written length out ->
  expand_label msg length n cp out = Some r ->
  written length match r with inl (_, out) => out | inr out => out end.
Proof.
  intros Hm. induction n as [|n IH]; intros cp out r Hw; cbn [expand_label]; [by intros [= <-]|].
  destruct (zlen msg <=? cp); [by intros [= <-]|].
  destruct (zget msg cp) as [c|] eqn:Hc; [|done]. cbn [mbind option_bind].
  pose proof (zget_byte _ _ _ Hm Hc) as Hb. destruct (c =? DOT).
  - destruct (length <=? _); [by intros [= <-]|].
    destruct (put_char length BACKSLASH out) as [o1|] eqn:E1; [|done].
    apply put_char_written in E1; [|done|apply Hw]. cbn [mbind option_bind].
    destruct (put_char length c o1) as [o2|] eqn:E2; [|done]. apply put_char_written in E2; [|done|apply E1].
    by apply IH.
  - destruct (put_char length c out) as [o1|] eqn:E1; [|done].
    apply put_char_written in E1; [|done|apply Hw]. by apply IH.
Qed.

Lemma expand_loop_written msg comp_dn length fuel : bytesP msg -> forall cp out len checked r,
  written length out -> expand_loop fuel msg comp_dn length cp out len checked = Some r -> written length r.2.
Proof.
  intros Hm. induction fuel as [|fuel IH]; intros cp out len checked r Hw; [done|]. cbn [expand_loop].
  destruct (zlen msg <=? cp); [by intros [= <-]|].
  destruct (zget msg cp) as [n|] eqn:Hn; [|done]. cbn [mbind option_bind].
  destruct (n =? 0).
  { destruct (length <=? zlen out); [by intros [= <-]|].
    destruct (put_char length 0 out) as [o1|] eqn:E1; [|done]. apply put_char_written in E1; [|done|apply Hw].
    by intros [= <-]. }
  destruct (Z.land n INDIR_MASK =? 0).
  - destruct (negb (zlen out =? 0) && (length <=? zlen out)); [by intros [= <-]|].
    destruct (if zlen out =? 0 then Some out else put_char length DOT out) as [o1|] eqn:E1; [|done].
    assert (written length o1) as Hw1.
    { destruct (zlen out =? 0); [by simplify_eq|]. by eapply put_char_written; [| |exact E1]; [|apply Hw]. }
    cbn [mbind option_bind]. destruct (length <=? zlen o1 + n); [by intros [= <-]|].
    destruct (expand_label msg length (Z.to_nat n) (cp + 1) o1) as [[[cp' o2]|o2]|] eqn:E2; [| |done];
      apply expand_label_written in E2; try done; cbn [mbind option_bind]; [by apply IH|by intros [= <-]].
  - destruct (Z.land n INDIR_MASK =? INDIR_MASK); [|by intros [= <-]].
    destruct (zlen msg <=? cp + 1); [by intros [= <-]|].
    destruct (zget msg (cp + 1)) as [b|]; [|done]. cbn [mbind option_bind].
    destruct ((_ <? 0) || _); [by intros [= <-]|]. destruct (zlen msg <=? checked + 2); [by intros [= <-]|].
    by apply IH.
Qed.

Lemma dn_expand_written msg comp_dn length ret out : bytesP msg ->
  dn_expand msg comp_dn length = Some (ret, out) -> written length out.
Proof. intros Hm H. eapply expand_loop_written in H; [done|done|]. split; [unfold zlen; simpl; lia|constructor]. Qed.

(** ** Skipping *)

Lemma skip_loop_total msg fuel : bytesP msg -> forall cp,
  0 <= cp -> (0 < fuel)%nat -> zlen msg - cp < Z.of_nat fuel ->
  exists r, skip_loop fuel msg cp = Some r /\ match r with inl cp' => cp <= cp' | inr _ => True end.
Proof.
  intros Hm. induction fuel as [|fuel IH]; intros cp Hcp H0 Hf; [lia|]. cbn [skip_loop].
  destruct (zlen msg <=? cp) eqn:E; [eexists; split; [done|]; simpl; lia|].
  destruct (zget_is_Some msg cp ltac:(lia)) as [n Hn]. rewrite Hn. cbn [mbind option_bind].
  pose proof (zget_byte _ _ _ Hm Hn).
  destruct (n =? 0); [eexists; split; [done|]; simpl; lia|].
  destruct (Z.land n INDIR_MASK =? 0) eqn:E1.
  - destruct (IH (cp + 1 + n)) as (r & -> & Hr); [lia..|]. eexists. split; [done|].
    destruct r; [lia|done].
  - case_match; eexists; (split; [done|]); [simpl; lia|done].
Qed.

Lemma dn_skipname_total msg p : bytesP msg -> 0 <= p ->
  exists r, dn_skipname msg p = Some r /\ -1 <= r.
Proof.
  intros Hm Hp. unfold dn_skipname.
  destruct (skip_loop_total msg (S (length msg)) Hm p Hp) as (r & -> & Hr); [lia|unfold zlen; lia|].
  destruct r; eexists; (split; [done|]); lia.
Qed.

Lemma skip_loop_encodes msg fuel : bytesP msg -> forall p ls c s,
  encodes msg p ls c s -> 0 <= p -> zlen msg - p < Z.of_nat fuel ->
  skip_loop fuel msg p = Some (inl (p + s)).
Proof.
  intros Hm. induction fuel as [|fuel IH]; intros p ls c s He Hp Hf.
  { inversion He; subst; match goal with H : zget msg p = _ |- _ => apply zget_Some in H end; lia. }
  cbn [skip_loop].
  assert ((zlen msg <=? p) = false) as ->.
  { inversion He; subst; match goal with H : zget msg p = _ |- _ => apply zget_Some in H end; lia. }
  inversion He as [? Hn|? n ls' c' s' Hn Hr Hl He'|? n b ls' c' s' Hn Hr Hb He']; subst;
    rewrite Hn; cbn [mbind option_bind]; pose proof (zget_byte _ _ _ Hm Hn); [done|..];
    (destruct (n =? 0) eqn:?; [lia|]); rewrite land_label, ?land_pointer by done.
  - destruct (n <? 64) eqn:?; [|lia]. erewrite IH; [|done|lia|lia]. do 2 f_equal. lia.
  - destruct (n <? 64) eqn:?; [lia|]. destruct (192 <=? n) eqn:?; [|lia]. do 2 f_equal. lia.
Qed.

Lemma dn_skipname_encodes msg p ls c s : bytesP msg -> 0 <= p ->
  encodes msg p ls c s -> dn_skipname msg p = Some s.
Proof.
  intros Hm Hp He. unfold dn_skipname. erewrite skip_loop_encodes; [|done..|unfold zlen; lia].
  cbn [mbind option_bind]. f_equal. lia.
Qed.

(** ** Names written by [dn_comp]

    [name_at buf s p q ls]: the bytes from [p] to [q] stand for [ls]; they belong to a
    name that starts at [s], and pointers lead to names from [lo] on that end before [s]. *)
Section names.
Context (lo : Z).

Inductive name_at (buf : list Z) : Z -> Z -> Z -> list (list Z) -> Prop :=
  | at_root s p : zget buf p = Some 0 -> s <= p -> name_at buf s p (p + 1) []
  | at_label s p q l ls :
      zget buf p = Some (zlen l) -> s <= p -> 1 <= zlen l <= MAXLABEL ->
      Forall (fun c => 1 <= c < 256) l -> p + 1 + zlen l <= zlen buf ->
      zslice buf (p + 1) (zlen l) = l ->
      name_at buf s (p + 1 + zlen l) q ls -> name_at buf s p q (l :: ls)
  | at_pointer s p t q ls :
      0 <= t < 16384 -> lo <= t -> s <= p ->
      zget buf p = Some (192 + t / 256) -> zget buf (p + 1) = Some (t mod 256) ->
      name_at buf t t q ls -> q <= s -> name_at buf s p (p + 2) ls.

Lemma name_at_bounds buf s p q ls : name_at buf s p q ls -> s <= p < q /\ 0 <= p /\ q <= zlen buf.
Proof.
  induction 1 as [s p Hp|s p q l ls Hp ???? ? _ IH|s p t q ls ??? Hp Hb _ IH]; apply zget_Some in Hp; try lia.
  apply zget_Some in Hb. lia.
Qed.

Lemma zslice_ext {A} (a b : list A) o n : 0 <= o ->
  (forall i, o <= i < o + n -> zget a i = zget b i) -> zslice a o n = zslice b o n.
Proof.
  intros Ho Hag. unfold zslice. apply list_eq. intros i.
  destruct (decide (i < Z.to_nat n)%nat).
  - rewrite !lookup_take_lt, !lookup_drop by done. specialize (Hag (Z.of_nat (Z.to_nat o + i)) ltac:(lia)).
    by rewrite !zget_nat in Hag.
  - by rewrite !lookup_take_ge by lia.
Qed.

Lemma name_at_agree buf buf' s p q ls :
  lo <= s -> q <= zlen buf' -> (forall i, lo <= i < q -> zget buf i = zget buf' i) ->
  name_at buf s p q ls -> name_at buf' s p q ls.
Proof.
  intros Hlo Hl Hag H. revert Hlo Hl Hag. induction H as [s p Hp|s p q l ls Hp ??? Hz Hsl H IH|s p t q ls ??? Hp Hb H IH];
    intros Hlo Hlen Hag.
  - constructor; [|done]. rewrite <- Hag by lia. done.
  - pose proof (name_at_bounds _ _ _ _ _ H). pose proof (zget_Some _ _ _ Hp). constructor; try done.
    + rewrite <- Hag by lia. done.
    + lia.
    + rewrite <- (zslice_ext buf buf'); [done|lia|]. intros i Hi. apply Hag. lia.
    + by apply IH.
  - apply (at_pointer buf' s p t q ls); try done.
    + rewrite <- Hag by lia. done.
    + rewrite <- Hag by lia. done.
    + pose proof (name_at_bounds _ _ _ _ _ H). apply IH; [lia|lia|]. intros i Hi. apply Hag. lia.
Qed.

Lemma name_at_weaken buf s s' p q ls : s <= s' -> s' <= p -> name_at buf s p q ls -> name_at buf s' p q ls.
Proof.
  intros Hs Hp H. revert s' Hs Hp. induction H as [|s p q l ls ?????? H IH|]; intros s' Hs Hp.
  - by constructor.
  - constructor; try done. apply IH; lia.
  - eapply at_pointer; [done|done|lia|done..|lia].
Qed.

(** Such a name stands for its labels, and few bytes are read to see it. *)
Lemma name_at_encodes buf s p q ls : name_at buf s p q ls ->
  exists cost, encodes buf p ls cost (q - p) /\ (cost = 0 \/ cost <= q - p + s - 1).
Proof.
  induction 1 as [s p Hp|s p q l ls Hp ? Hl ? Hz Hsl H (cost & IH & Hc)|s p t q ls Ht ?? Hp Hb H (cost & IH & Hc)].
  - exists 0. replace (p + 1 - p) with 1 by lia. split; [by constructor|lia].
  - unfold MAXLABEL in *. pose proof (enc_label buf p (zlen l) ls cost _ Hp ltac:(lia) ltac:(lia) IH) as He.
    rewrite Hsl in He. replace (zlen l + 1 + (q - (p + 1 + zlen l))) with (q - p) in He by lia.
    eexists. split; [done|]. destruct (cost =? 0) eqn:?; lia.
  - exists (2 + cost). replace (p + 2 - p) with 2 by lia. split.
    + eapply enc_pointer; [done|Z.div_mod_to_equations; lia|done|].
      replace ((192 + t / 256 - 192) * 256 + t mod 256) with t by (Z.div_mod_to_equations; lia). done.
    + pose proof (name_at_bounds _ _ _ _ _ H). lia.
Qed.

(** ** The search for an earlier name *)

Definition charsP (s : list Z) : Prop := Forall (fun c => 1 <= c < 256) s.

Lemma find_label_ok buf n : forall cp s,
  0 <= cp -> cp + Z.of_nat n <= zlen buf -> charsP (zslice buf cp (Z.of_nat n)) -> charsP s ->
  exists r, find_label buf n cp (s ++ [0]) = Some r /\
    match r with
    | None => True
    | Some (cp', dn') => cp' = cp + Z.of_nat n /\ exists s', dn' = s' ++ [0] /\ charsP s' /\
        (length s' + n <= length s)%nat /\
        split_label s = (zslice buf cp (Z.of_nat n) ++ (split_label s').1, (split_label s').2)
    end.
Proof.
  induction n as [|n IH]; intros cp s Hcp Hn Hl Hs; cbn [find_label].
  { eexists. split; [done|]. simpl. split; [lia|]. exists s.
    split_and!; [done..|lia|]. by destruct (split_label s). }
  destruct (zget_is_Some buf cp ltac:(lia)) as [b Hb].
  rewrite (zslice_cons buf cp _ b) in Hl |- * by (done || lia).
  replace (Z.of_nat (S n) - 1) with (Z.of_nat n) in * by lia. apply Forall_cons in Hl as [Hb1 Hl].
  destruct s as [|d s]; [rewrite app_nil_l|rewrite <- app_comm_cons]; cbv iota.
  { change (0 =? DOT) with false. change (0 =? BACKSLASH) with false. cbv iota. rewrite Hb. cbn [mbind option_bind].
    destruct (0 =? b) eqn:E; [lia|]. by exists None. }
  destruct (d =? DOT) eqn:Ed; [by exists None|]. apply Forall_cons in Hs as [Hd Hs].
  assert (Hgo : forall e s1, charsP s1 -> (length s1 <= length s)%nat ->
    split_label (d :: s) = (let '(l, r) := split_label s1 in (e :: l, r)) ->
    exists r, (b0 ← zget buf cp; if e =? b0 then find_label buf n (cp + 1) (s1 ++ [0]) else Some None) = Some r /\
    match r with
    | None => True
    | Some (cp', dn') => cp' = cp + Z.of_nat (S n) /\ exists s', dn' = s' ++ [0] /\ charsP s' /\
        (length s' + S n <= length (d :: s))%nat /\
        split_label (d :: s) = ((b :: zslice buf (cp + 1) (Z.of_nat n)) ++ (split_label s').1, (split_label s').2)
    end).
  { intros e s1 Hs1 Hl1 Hsp. rewrite Hb. cbn [mbind option_bind]. destruct (e =? b) eqn:Eb; [|by exists None].
    apply Z.eqb_eq in Eb as ->.
    destruct (IH (cp + 1) s1) as (r & -> & Hr); [lia|lia|done|done|]. eexists. split; [done|].
    destruct r as [[cp' dn']|]; [|done]. destruct Hr as (-> & s' & -> & Hs' & Hle & Hsp').
    split; [lia|]. exists s'. split_and!; [done..|simpl; lia|]. by rewrite Hsp, Hsp'. }
  destruct (d =? BACKSLASH) eqn:Eb.
  - destruct s as [|e s]; [rewrite app_nil_l|rewrite <- app_comm_cons]; cbv iota.
    + rewrite Hb. cbn [mbind option_bind]. destruct (0 =? b) eqn:E; [lia|]. by exists None.
    + apply Forall_cons in Hs as [He Hs]. apply (Hgo e s); [done|simpl; lia|].
      cbn [split_label]. by rewrite Ed, Eb.
  - apply (Hgo d s); [done|lia|]. cbn [split_label]. by rewrite Ed, Eb.
Qed.

(** The text [s] reads as the labels [ls]. *)
Definition reads (s : list Z) (ls : list (list Z)) : Prop := parse_name s = Some ls.

Lemma split_label_len n : forall s, (length s <= n)%nat -> s <> [] ->
  (length (default [] (split_label s).2) < length s)%nat.
Proof.
  induction n as [n IH] using lt_wf_ind. intros [|c s] Hn Hne; [done|].
  assert (Hrec : forall s', (length s' <= length s)%nat ->
    (length (default [] (split_label s').2) <= length s')%nat).
  { intros s' Hs'. destruct s' as [|d s']; [simpl; lia|].
    pose proof (IH (length s) ltac:(simpl in *; lia) (d :: s') Hs' ltac:(done)). lia. }
  cbn [split_label]. destruct (c =? DOT); [simpl; lia|]. destruct (c =? BACKSLASH).
  - destruct s as [|d s]; [simpl; lia|]. specialize (Hrec s ltac:(simpl; lia)).
    destruct (split_label s). simpl in *. lia.
  - specialize (Hrec s ltac:(lia)). destruct (split_label s). simpl in *. lia.
Qed.

Lemma labels_of_fuel f : forall g s, (length s < f)%nat -> (length s < g)%nat ->
  labels_of f s = labels_of g s.
Proof.
  induction f as [|f IH]; intros [|g] s Hf Hg; try lia. cbn [labels_of].
  destruct s as [|c s]; [done|]. pose proof (split_label_len _ (c :: s) (le_n _) ltac:(done)) as Hl.
  destruct (split_label (c :: s)) as [l r]. cbn [snd] in Hl. destruct (_ && _); [done|].
  destruct (_ || _); [done|]. by rewrite (IH g) by lia.
Qed.

Lemma parse_name_cons c s :
  parse_name (c :: s) =
    (let l := (split_label (c :: s)).1 in let rest := default [] (split_label (c :: s)).2 in
     if (zlen l =? 0) && (zlen rest =? 0) then Some [] else
     if (zlen l =? 0) || (MAXLABEL <? zlen l) then None else
     ls ← parse_name rest; Some (l :: ls)).
Proof.
  unfold parse_name at 1. cbn [labels_of].
  pose proof (split_label_len _ (c :: s) (le_n _) ltac:(done)) as Hl.
  destruct (split_label (c :: s)) as [l r]. cbn [fst snd] in *. destruct (_ && _); [done|].
  destruct (_ || _); [done|]. unfold parse_name. by rewrite (labels_of_fuel _ (S (length (default [] r)))) by lia.
Qed.

Lemma reads_nil : reads [] [].
Proof. done. Qed.

Lemma reads_label s l r ls :
  split_label s = (l, r) -> s <> [] -> 1 <= zlen l <= MAXLABEL ->
  reads (default [] r) ls -> reads s (l :: ls).
Proof.
  intros Hs Hn Hl Hr. destruct s as [|c s]; [done|]. unfold reads. rewrite parse_name_cons, Hs.
  cbn [fst snd]. destruct (_ && _) eqn:E1; [lia|]. destruct (_ || _) eqn:E2; [lia|]. by rewrite Hr.
Qed.

Lemma find_name_ok buf s0 p q ls : name_at buf s0 p q ls -> bytesP buf -> 0 <= s0 -> forall fuel s,
  charsP s -> q - p + s0 <= Z.of_nat fuel ->
  exists r, find_name fuel buf p (s ++ [0]) = Some r /\ r <> Illegal /\ (r = Found -> reads s ls /\ (ls = [] -> s = [])).
Proof.
  intros H Hb.
  induction H as [s0 p Hp|s0 p q l ls Hp ? Hl Hc Hz Hsl H IH|s0 p t q ls Ht ?? Hp Hb1 H IH];
    intros Hs0 fuel s Hs Hf; pose proof (zget_Some _ _ _ Hp) as Hpr;
    (destruct fuel as [|fuel]; [try (pose proof (name_at_bounds _ _ _ _ _ H)); simpl in *; lia|]); cbn [find_name];
    rewrite Hp; cbn [mbind option_bind].
  - destruct s as [|d s]; simpl.
    + eexists. split_and!; [done..|]. intros _. split; [apply reads_nil|done].
    + apply Forall_cons in Hs as [Hd _]. destruct (d =? 0) eqn:?; [lia|]. by exists NextName.
  - unfold MAXLABEL in *. destruct (zlen l =? 0) eqn:?; [lia|]. rewrite land_label by lia.
    destruct (zlen l <? 64) eqn:?; [|lia].
    destruct (find_label_ok buf (Z.to_nat (zlen l)) (p + 1) s) as (r & -> & Hr);
      [lia|lia|rewrite Z2Nat.id, Hsl by lia; done|done|]. cbn [mbind option_bind].
    destruct r as [[cp' dn']|]; [|by exists NextName]. rewrite Z2Nat.id, Hsl in Hr by lia.
    destruct Hr as (-> & s' & -> & Hs' & Hle & Hsp).
    assert (Hne : s <> []) by (intros ->; simpl in Hle; unfold zlen in *; lia).
    destruct s' as [|d s']; [rewrite app_nil_l|rewrite <- app_comm_cons]; cbv iota.
    + change (0 =? 0) with true. cbn iota. simpl in Hsp. rewrite app_nil_r in Hsp.
      pose proof (name_at_bounds _ _ _ _ _ H) as Hbd.
      destruct (zget_is_Some buf (p + 1 + zlen l) ltac:(lia)) as [b Hb0]. rewrite Hb0. cbn [mbind option_bind].
      eexists. split_and!; [done|by destruct (b =? 0)|].
      destruct (b =? 0) eqn:E0; [|done]. intros _. apply Z.eqb_eq in E0 as ->.
      inversion H; subst; simplify_eq; [|lia|Z.div_mod_to_equations; lia].
      split; [|done]. eapply reads_label; [done|done|done|apply reads_nil].
    + apply Forall_cons in Hs' as [Hd Hs']. destruct (d =? 0) eqn:?; [lia|].
      destruct (d =? DOT) eqn:Ed; [|by exists NextName].
      destruct (IH Hs0 fuel s' Hs' ltac:(pose proof (name_at_bounds _ _ _ _ _ H); lia)) as (r & -> & Hi & Hr).
      eexists. split_and!; [done..|]. intros ->. cbn [split_label] in Hsp. rewrite Ed in Hsp.
      simpl in Hsp. rewrite app_nil_r in Hsp.
      split; [|done]. eapply reads_label; [done|done|done|by apply Hr].
  - destruct (_ =? 0) eqn:?; [Z.div_mod_to_equations; lia|].
    rewrite land_label, land_pointer by (Z.div_mod_to_equations; lia).
    destruct (_ <? 64) eqn:?; [Z.div_mod_to_equations; lia|].
    destruct (192 <=? _) eqn:?; [|Z.div_mod_to_equations; lia]. rewrite Hb1. cbn [mbind option_bind].
    replace (t mod 256) with (Z.land (t mod 256) 255)
      by (change 255 with (Z.ones 8); rewrite Z.land_ones by lia; apply Z.mod_mod; lia).
    rewrite pointer_value by (Z.div_mod_to_equations; lia).
    replace ((192 + t / 256 - 192) * 256 + t mod 256) with t by (Z.div_mod_to_equations; lia).
    pose proof (name_at_bounds _ _ _ _ _ H). apply IH; [lia|done|lia].
Qed.

(** An entry of the list of earlier names. *)
Definition entry (buf : list Z) (lim p : Z) : Prop :=
  lo <= p /\ exists q ls, name_at buf p p q ls /\ q <= lim.

Lemma dn_find_ok buf lim ptrs s :
  bytesP buf -> charsP s -> Forall (entry buf lim) ptrs ->
  exists l, dn_find buf ptrs (s ++ [0]) = Some l /\
    (l = -1 \/ exists q ls, lo <= l /\ name_at buf l l q ls /\ q <= lim /\ reads s ls /\ (ls = [] -> s = [])).
Proof.
  intros Hb Hs. induction 1 as [|p ptrs (Hlo & q & ls & Hn & Hq) _ IH]; cbn [dn_find]; [eexists; split; [done|by left]|].
  destruct (find_name_ok _ _ _ _ _ Hn Hb ltac:(pose proof (name_at_bounds _ _ _ _ _ Hn); lia) (S (length buf)) s Hs) as (r & -> & Hi & Hr).
  { pose proof (name_at_bounds _ _ _ _ _ Hn). unfold zlen in *. lia. }
  cbn [mbind option_bind]. destruct r; [|apply IH|done].
  destruct (Hr eq_refl). eexists. split; [done|]. right. by exists q, ls.
Qed.

(** ** Compression *)

(** [buf'] differs from [buf] only between [a] and [b]. *)
Definition same_except (a b : Z) (buf buf' : list Z) : Prop :=
  zlen buf' = zlen buf /\ forall i, i < a \/ b <= i -> zget buf' i = zget buf i.

Lemma same_except_refl a b buf : same_except a b buf buf.
Proof. done. Qed.

Lemma same_except_trans a b buf1 buf2 buf3 :
  same_except a b buf1 buf2 -> same_except a b buf2 buf3 -> same_except a b buf1 buf3.
Proof.
  intros [H1 H2] [H3 H4]. split; [lia|]. intros i Hi. by rewrite H4, H2.
Qed.

Lemma same_except_mono a b a' b' buf buf' :
  a' <= a -> b <= b' -> same_except a b buf buf' -> same_except a' b' buf buf'.
Proof. intros ?? [Hl H]. split; [done|]. intros i Hi. apply H. lia. Qed.

Lemma put_byte_ok buf cp c : 0 <= cp < zlen buf ->
  exists buf', put_byte buf cp c = Some buf' /\ same_except cp (cp + 1) buf buf' /\
    zget buf' cp = Some (u8 c) /\ (bytesP buf -> bytesP buf').
Proof.
  intros Hcp. unfold put_byte. destruct (_ && _) eqn:?; [|lia]. eexists. split; [done|]. split_and!.
  - split; [apply zlen_zset|]. intros i Hi. apply zget_zset_ne. lia.
  - by apply zget_zset_eq.
  - intros Hb. unfold zset. case_match; [done|]. apply Forall_insert; [done|]. apply u8_range.
Qed.

Lemma zslice_snoc {A} (l : list A) o n x y : 0 <= o -> 0 <= n ->
  zget l (o + n) = Some x -> zslice l o n = y -> zslice l o (n + 1) = y ++ [x].
Proof.
  intros Ho Hn Hx <-. rewrite zslice_app by lia. f_equal.
  rewrite (zslice_cons l (o + n) 1 x) by (done || lia). by rewrite zslice_nil.
Qed.

(** One character of a label: written, then the rest. *)
Definition put_rest (eob c : Z) (dn : list Z) (cp : Z) (buf : list Z)
  : option (Z * list Z * Z * list Z + list Z) :=
  if eob <=? cp then Some (inr buf) else
  buf ← put_byte buf cp c;
  match dn with
  | [] => None
  | c :: dn => if c =? 0 then Some (inl (c, dn, cp + 1, buf))
               else comp_label eob c dn (cp + 1) buf
  end.

Definition label_done (eob cp : Z) (buf : list Z) (l : list Z) (rest : list Z)
    (r : Z * list Z * Z * list Z + list Z) : Prop :=
  match r with
  | inl (c', dn', cp', buf') =>
      c' :: dn' = rest ++ [0] /\ cp' = cp + zlen l /\ (l = [] \/ cp' <= eob) /\
      same_except cp eob buf buf' /\ bytesP buf' /\ zslice buf' cp (zlen l) = l
  | inr buf' => eob < cp + zlen l /\ same_except cp eob buf buf' /\ bytesP buf'
  end.

Definition comp_label_spec (eob c : Z) (s : list Z) (cp : Z) (buf : list Z)
    (f : option (Z * list Z * Z * list Z + list Z)) (lr : list Z * option (list Z)) : Prop :=
  exists r, f = Some r /\ label_done eob cp buf lr.1 (default [] lr.2) r /\
    charsP lr.1 /\ charsP (default [] lr.2) /\ (length (default [] lr.2) <= length s)%nat.

Lemma put_rest_ok eob c s cp buf :
  (forall d s', s = d :: s' -> forall cp buf, bytesP buf -> 0 <= cp -> eob <= zlen buf ->
     comp_label_spec eob d s' cp buf (comp_label eob d (s' ++ [0]) cp buf) (split_label s)) ->
  1 <= c < 256 -> charsP s -> bytesP buf -> 0 <= cp -> eob <= zlen buf ->
  comp_label_spec eob c s cp buf (put_rest eob c (s ++ [0]) cp buf)
    (c :: (split_label s).1, (split_label s).2).
Proof.
  intros Hgo Hc Hs Hb Hcp He. unfold put_rest.
  assert (Hsplit : charsP (split_label s).1 /\ charsP (default [] (split_label s).2) /\
    (length (default [] (split_label s).2) <= length s)%nat).
  { destruct s as [|d s]; [done|]. destruct (Hgo d s eq_refl cp buf Hb Hcp He) as (? & _ & _ & ? & ? & ?).
    split_and!; [done..|rewrite length_cons; lia]. }
  destruct Hsplit as (H1 & H2 & H3).
  destruct (eob <=? cp) eqn:E.
  { exists (inr buf). split_and!; cbn [fst snd label_done]; [done| |by constructor|done|done].
    split; [|done]. rewrite zlen_cons. pose proof (zlen_nonneg (split_label s).1). lia. }
  destruct (put_byte_ok buf cp c ltac:(lia)) as (buf1 & -> & Hse & Hg & Hb1).
  cbn [mbind option_bind]. rewrite u8_small in Hg by lia.
  assert (Hse' : same_except cp eob buf buf1) by (eapply same_except_mono; [..|done]; lia).
  destruct s as [|d s].
  - exists (inl (0, [], cp + 1, buf1)). split; [done|]. cbn [split_label fst snd] in *.
    split_and!; [|by constructor|done|done]. cbn [label_done].
    change (zlen [c]) with 1. split_and!; [done|done|right; lia|done|by apply Hb1|].
    rewrite (zslice_cons buf1 cp 1 c) by (done || lia). by rewrite zslice_nil.
  - rewrite <- app_comm_cons. cbv iota. apply Forall_cons in Hs as [Hd Hs].
    destruct (d =? 0) eqn:?; [lia|].
    destruct (Hgo d s eq_refl (cp + 1) buf1) as (r & -> & Hr & _); [by apply Hb1|lia|destruct Hse; lia|].
    exists r. split; [done|]. split_and!; cbn [fst snd]; [|by constructor|done|done].
    set (l := (split_label (d :: s)).1) in *. destruct r as [[[[c' dn'] cp'] buf']|buf']; cbn [label_done] in *.
    + destruct Hr as (? & -> & Hroom & Hse2 & Hb2 & Hsl). split_and!; [done|rewrite zlen_cons; lia|..].
      * right. destruct Hroom as [Hl0|]; [rewrite Hl0, zlen_nil; lia|done].
      * eapply same_except_trans; [done|]. eapply same_except_mono; [..|done]; lia.
      * done.
      * rewrite zlen_cons. rewrite (zslice_cons buf' cp _ c).
        -- replace (1 + zlen l - 1) with (zlen l) by lia. by rewrite Hsl.
        -- pose proof (zlen_nonneg l). lia.
        -- destruct Hse2 as [_ Hse2]. rewrite Hse2 by lia. done.
    + destruct Hr as (? & Hse2 & ?). split_and!; [rewrite zlen_cons; lia| |done].
      eapply same_except_trans; [done|]. eapply same_except_mono; [..|done]; lia.
Qed.

Lemma comp_label_ok eob n : forall c s cp buf,
  (length s <= n)%nat -> 1 <= c < 256 -> charsP s -> bytesP buf -> 0 <= cp -> eob <= zlen buf ->
  comp_label_spec eob c s cp buf (comp_label eob c (s ++ [0]) cp buf) (split_label (c :: s)).
Proof.
  induction n as [n IH] using lt_wf_ind. intros c s cp buf Hn Hc Hs Hb Hcp He.
  destruct (c =? DOT) eqn:Ed.
  { destruct s as [|d s].
    - exists (inl (0, [], cp, buf)). cbn [app comp_label split_label]. rewrite Ed. split; [done|].
      split_and!; try done. cbn. split_and!; try done; [rewrite zlen_nil; lia|by left].
    - exists (inl (d, s ++ [0], cp, buf)). cbn [app comp_label split_label]. rewrite Ed. split; [done|].
      split_and!; try done; [|constructor]. cbn. split_and!; try done; [rewrite zlen_nil; lia|by left]. }
  destruct (c =? BACKSLASH) eqn:Eb.
  - destruct s as [|e s].
    + exists (inl (0, [], cp, buf)). cbn [app comp_label split_label]. rewrite Ed, Eb. split; [done|].
      split_and!; try done. cbn. split_and!; try done; [rewrite zlen_nil; lia|by left].
    + apply Forall_cons in Hs as [He' Hs]. cbn [split_label]. rewrite Ed, Eb.
      destruct (put_rest_ok eob e s cp buf) as (r & Hr & Hl & ? & ? & ?); try done.
      { intros d s' -> cp1 buf1 ???. apply Forall_cons in Hs as [??].
        apply (IH (length s')); [simpl in *; lia|done..]. }
      exists r. destruct (split_label s) as [l0 r0]. cbn [fst snd] in *.
      split_and!; try done; [|rewrite length_cons; lia]. rewrite <- app_comm_cons. cbn [comp_label]. rewrite Ed, Eb.
      destruct (e =? 0) eqn:?; [lia|]. exact Hr.
  - cbn [split_label]. rewrite Ed, Eb.
    destruct (put_rest_ok eob c s cp buf) as (r & Hr & Hl & ? & ? & ?); try done.
    { intros d s' -> cp1 buf1 ???. apply Forall_cons in Hs as [??].
      apply (IH (length s')); [simpl in *; lia|done..]. }
    exists r. destruct (split_label s) as [l0 r0]. cbn [fst snd] in *. split_and!; try done.
    destruct s as [|d s]; [rewrite app_nil_l in *|rewrite <- app_comm_cons in *]; cbn [comp_label]; rewrite Ed, Eb; exact Hr.
Qed.

Lemma wire_size_pos ls : 1 <= wire_size ls.
Proof. induction ls as [|l ls IH]; cbn [wire_size]; [lia|]. pose proof (zlen_nonneg l). lia. Qed.

Lemma reads_cons c s ls : reads (c :: s) ls ->
  let l := (split_label (c :: s)).1 in let rest := default [] (split_label (c :: s)).2 in
  (l = [] /\ rest = [] /\ ls = []) \/
  (1 <= zlen l <= MAXLABEL /\ exists ls', reads rest ls' /\ ls = l :: ls').
Proof.
  unfold reads. rewrite parse_name_cons. cbv zeta. intros H.
  set (l := (split_label (c :: s)).1) in *. set (rest := default [] _) in *.
  pose proof (zlen_nonneg l). destruct (_ && _) eqn:E1.
  - left. destruct l as [|x l'] eqn:El, rest as [|y rest'] eqn:Er; rewrite ?zlen_cons in E1;
      try (pose proof (zlen_nonneg l')); try (pose proof (zlen_nonneg rest')); try lia. by simplify_eq.
  - right. destruct (_ || _) eqn:E2; [done|]. split; [lia|].
    destruct (parse_name rest) as [ls'|]; simpl in H; [|done]. simplify_eq. by exists ls'.
Qed.

Lemma lor_indir h : 0 <= h < 64 -> u8 (Z.lor h INDIR_MASK) = 192 + h.
Proof.
  intros Hh. assert (H : forall n, 0 <= n < 256 -> (if n <? 64 then u8 (Z.lor n INDIR_MASK) =? 192 + n else true) = true)
    by (apply byte_cases; by vm_compute).
  specialize (H h ltac:(lia)). destruct (h <? 64) eqn:?; lia.
Qed.

Lemma head_zero c dn r : c :: dn = r ++ [0] -> charsP r -> (c =? 0) = (zlen r =? 0).
Proof.
  intros H Hr. destruct r as [|x r]; [by injection H as -> ->|]. injection H as -> ->. apply Forall_cons in Hr as [? _].
  rewrite zlen_cons. pose proof (zlen_nonneg r). destruct (x =? 0) eqn:?, (1 + _ =? 0) eqn:?; lia.
Qed.

Section comp.
Context (d : option dnlist) (comp_dn eob : Z).
Hypothesis Hdn : 0 <= comp_dn.

(** What the list holds before the call. *)
Definition dn_ready (buf : list Z) : Prop :=
  zlen buf <= 16384 /\ eob <= zlen buf /\ bytesP buf /\
  match d with Some d => Forall (entry buf comp_dn) (d_ptrs d) | None => True end.

(** What the loop does from the text [s], the label to be written at [cp]. *)
Definition comp_done (s : list Z) (cp : Z) (buf new : list Z) (r : Z * list Z * list Z) : Prop :=
  let '(ret, buf', new') := r in
  same_except cp eob buf buf' /\ bytesP buf' /\
  ((exists ls, reads s ls /\ 0 < ret /\ comp_dn + ret <= eob /\
      name_at buf' comp_dn cp (comp_dn + ret) ls /\ comp_dn + ret <= cp + wire_size ls /\
      exists ext, new' = new ++ ext /\
        Forall (fun x => comp_dn <= x /\ exists ls', name_at buf' comp_dn x (comp_dn + ret) ls') ext) \/
   (ret = -1 /\ (forall ls, reads s ls -> eob < cp + wire_size ls) /\
      (new' = [] \/ (exists ls, reads s ls) /\
         exists ext, new' = new ++ ext /\ Forall (fun x => comp_dn <= x < eob) ext))).

Lemma entry_same buf buf' cp p : comp_dn <= cp -> same_except cp eob buf buf' ->
  entry buf comp_dn p -> entry buf' comp_dn p.
Proof using.
  intros Hc [Hl Hs] (Hp & q & ls & Hn & Hq). split; [done|]. exists q, ls. split; [|done].
  pose proof (name_at_bounds _ _ _ _ _ Hn). eapply name_at_agree; [lia| |intros i Hi; symmetry; apply Hs; lia|done]. lia.
Qed.

Lemma ready_same buf buf' cp : comp_dn <= cp -> same_except cp eob buf buf' -> bytesP buf' ->
  dn_ready buf -> dn_ready buf'.
Proof using.
  intros Hc Hs Hb (H1 & H2 & _ & H3). pose proof Hs as [Hl _]. split_and!; try done; try lia.
  destruct d as [d0|]; [|done]. eapply Forall_impl; [done|]. intros x. by apply (entry_same buf buf' cp).
Qed.

(** The search, with or without a list. *)
Lemma search_ok buf c s : dn_ready buf -> charsP (c :: s) ->
  exists l, match d with None => Some (-1) | Some d => dn_find buf (d_ptrs d) (c :: s ++ [0]) end = Some l /\
    (l = -1 \/ exists q ls, lo <= l /\ name_at buf l l q ls /\ q <= comp_dn /\ reads (c :: s) ls /\ ls <> []).
Proof using.
  intros (_ & _ & Hb & Hd) Hs. destruct d as [d0|]; [|by exists (-1); split; [|left]].
  destruct (dn_find_ok buf comp_dn (d_ptrs d0) (c :: s) Hb Hs Hd) as (l & Hf & H). exists l. split; [exact Hf|].
  destruct H as [->|(q & ls & ? & ? & ? & ? & Hne)]; [by left|]. right. exists q, ls. split_and!; try done.
  intros ->. by specialize (Hne eq_refl).
Qed.

(** A pointer to an earlier name. *)
Lemma comp_pointer s cp buf new l q ls :
  dn_ready buf -> comp_dn <= cp -> lo <= l -> name_at buf l l q ls -> q <= comp_dn -> reads s ls -> ls <> [] ->
  exists r, (if eob <=? cp + 1 then Some (-1, buf, new) else
      buf ← put_byte buf cp (Z.lor (Z.shiftr l 8) INDIR_MASK);
      buf ← put_byte buf (cp + 1) (l mod 256);
      Some (cp + 2 - comp_dn, buf, new)) = Some r /\ comp_done s cp buf new r.
Proof using Hdn.
  intros (Hsz & He & Hb & _) Hcp Hll Hn Hq Hr Hne. pose proof (name_at_bounds _ _ _ _ _ Hn) as Hbd.
  assert (Hw : 2 <= wire_size ls).
  { destruct ls as [|l0 ls]; [done|]. cbn [wire_size]. pose proof (wire_size_pos ls). pose proof (zlen_nonneg l0). lia. }
  destruct (eob <=? cp + 1) eqn:E.
  { eexists. split; [done|]. split_and!; [done..|]. right. split; [done|].
    split; [intros ls' Hr'; unfold reads in *; simplify_eq; lia|]. right. split; [by exists ls|].
    exists []. rewrite app_nil_r. by split. }
  destruct (put_byte_ok buf cp (Z.lor (Z.shiftr l 8) INDIR_MASK)) as (b1 & -> & H1 & G1 & B1); [lia|].
  cbn [mbind option_bind].
  destruct (put_byte_ok b1 (cp + 1) (l mod 256)) as (b2 & -> & H2 & G2 & B2); [destruct H1; lia|].
  cbn [mbind option_bind]. eexists. split; [done|].
  assert (Hs2 : same_except cp eob buf b2).
  { eapply same_except_trans; (eapply same_except_mono; [..|done]; lia). }
  split_and!; [done|by apply B2, B1|]. left. exists ls. split_and!; [done|lia|lia| |lia|].
  - replace (comp_dn + (cp + 2 - comp_dn)) with (cp + 2) by lia.
    apply (at_pointer b2 comp_dn cp l q ls); [lia|done|done|..].
    + destruct H2 as [_ H2]. rewrite H2, G1 by lia. f_equal. rewrite Z.shiftr_div_pow2 by lia.
      change (2 ^ 8) with 256. apply lor_indir. Z.div_mod_to_equations. lia.
    + rewrite G2. f_equal. apply u8_small. Z.div_mod_to_equations. lia.
    + destruct Hs2 as [Hl Hs2]. eapply name_at_agree; [done| |intros i Hi; symmetry; apply Hs2; lia|done]. lia.
    + done.
  - exists []. rewrite app_nil_r. by split.
Qed.

(** The terminator. *)
Lemma comp_root s cp buf new ext :
  dn_ready buf -> comp_dn <= cp -> reads s [] ->
  Forall (fun x => x = cp) ext ->
  exists r, (if eob <=? cp then Some (-1, buf, []) else
      buf ← put_byte buf cp 0; Some (cp + 1 - comp_dn, buf, new ++ ext)) = Some r /\
    comp_done s cp buf new r.
Proof using Hdn.
  intros (Hsz & He & Hb & _) Hcp Hr Hx. destruct (eob <=? cp) eqn:E.
  { eexists. split; [done|]. split_and!; [done..|]. right. split; [done|].
    split; [|by left]. intros ls' Hr'. unfold reads in *. simplify_eq. cbn [wire_size]. lia. }
  destruct (put_byte_ok buf cp 0) as (b1 & -> & H1 & G1 & B1); [lia|].
  cbn [mbind option_bind]. eexists. split; [done|].
  assert (Hn : name_at b1 comp_dn cp (comp_dn + (cp + 1 - comp_dn)) []).
  { replace (comp_dn + (cp + 1 - comp_dn)) with (cp + 1) by lia. by constructor. }
  split_and!; [eapply same_except_mono; [..|done]; lia|by apply B1|]. left. exists [].
  split_and!; [done|lia|lia|done|cbn [wire_size]; lia|]. exists ext. split; [done|].
  eapply Forall_impl; [done|]. intros x ->. split; [lia|]. by exists [].
Qed.


(** The label was too long or empty where one was needed, or there was no room. *)
Lemma comp_fail s cp buf new buf' :
  dn_ready buf -> same_except cp eob buf buf' -> bytesP buf' ->
  (forall ls, reads s ls -> eob < cp + wire_size ls) ->
  comp_done s cp buf new (-1, buf', []).
Proof using. intros (Hsz & He & Hb & _) Hs Hb' Hn. split_and!; [done..|]. right. split; [done|]. split; [done|by left]. Qed.

(** A label, then what the rest of the loop did. *)
Lemma comp_step c s cp buf buf1 buf2 new ext r :
  let l := (split_label (c :: s)).1 in let rest := default [] (split_label (c :: s)).2 in
  comp_dn <= cp -> 1 <= zlen l <= MAXLABEL -> charsP l ->
  same_except (cp + 1) eob buf buf1 -> cp + 1 + zlen l <= eob -> eob <= zlen buf ->
  zslice buf1 (cp + 1) (zlen l) = l ->
  same_except cp (cp + 1) buf1 buf2 -> zget buf2 cp = Some (zlen l) ->
  Forall (fun x => x = cp) ext ->
  comp_done rest (cp + 1 + zlen l) buf2 (new ++ ext) r -> comp_done (c :: s) cp buf new r.
Proof using Hdn.
  intros l rest Hcp Hl Hc Hs1 Hroom He Hsl Hs2 Hg Hx. destruct r as [[ret buf'] new'].
  intros (Hs3 & Hb3 & H).
  assert (Hs : same_except cp eob buf buf').
  { apply same_except_trans with buf1; [by eapply same_except_mono; [..|done]; lia|].
    apply same_except_trans with buf2; (eapply same_except_mono; [..|done]; lia). }
  split_and!; [done..|].
  assert (Hlen : zlen buf' = zlen buf) by (destruct Hs; done).
  assert (Hl1 : zlen buf1 = zlen buf) by (destruct Hs1; done).
  assert (Hl2 : zlen buf2 = zlen buf1) by (destruct Hs2; done).
  assert (Hr : forall ls', reads rest ls' -> reads (c :: s) (l :: ls')).
  { intros ls' Hr. apply (reads_label _ l (split_label (c :: s)).2); [apply surjective_pairing|done..]. }
  destruct H as [(ls & Hrd & Hret & Hfit & Hn & Hw & ext' & -> & Hext)|(-> & Hno & Hnew)].
  - left. exists (l :: ls).
    assert (Hat : name_at buf' comp_dn cp (comp_dn + ret) (l :: ls)).
    { destruct Hs3 as [_ Hs3]. pose proof Hs2 as [_ Hs2']. constructor; try done; [by rewrite Hs3 by lia|lia|].
      rewrite (zslice_ext buf' buf1); [done|lia|]. intros i Hi. rewrite Hs3 by lia. apply Hs2'. lia. }
    split_and!; [by apply Hr|done|done|done|cbn [wire_size]; lia|]. exists (ext ++ ext').
    split; [by rewrite app_assoc|]. apply Forall_app. split; [|done].
    eapply Forall_impl; [done|]. intros x ->. split; [lia|]. by exists (l :: ls).
  - right. split; [done|]. split.
    + intros ls Hrd. destruct (reads_cons _ _ _ Hrd) as [(Hl0 & _)|(_ & ls' & Hr' & ->)].
      * fold l in Hl0. rewrite Hl0, zlen_nil in Hl. lia.
      * cbn [wire_size]. fold l. specialize (Hno ls' Hr'). lia.
    + destruct Hnew as [->|((ls & Hrd) & ext' & -> & Hext)]; [by left|right]. split; [exists (l :: ls); by apply Hr|].
      exists (ext ++ ext'). split; [by rewrite app_assoc|]. apply Forall_app. split; [|done].
      eapply Forall_impl; [done|]. intros x ->. lia.
Qed.

Lemma comp_loop_ok fuel : forall s c dn cp buf new,
  s ++ [0] = c :: dn -> (length s < fuel)%nat -> charsP s -> dn_ready buf -> comp_dn <= cp ->
  (d = None -> new = []) ->
  exists r, comp_loop fuel d comp_dn eob c dn cp buf new = Some r /\ comp_done s cp buf new r.
Proof using Hdn.
  induction fuel as [|fuel IH]; intros s c dn cp buf new Hs Hf Hch Hrd Hcp Hnew; [lia|].
  cbn [comp_loop]. destruct s as [|c0 s].
  { simplify_eq/=. pose proof (comp_root [] cp buf new [] Hrd Hcp reads_nil ltac:(done)) as H.
    rewrite app_nil_r in H. exact H. }
  rewrite <- app_comm_cons in Hs. simplify_eq.
  pose proof Hch as Hch'. apply Forall_cons in Hch' as [Hc0 Hs0].
  destruct (c =? 0) eqn:?; [lia|].
  destruct (search_ok buf c s Hrd Hch) as (l & -> & Hl). cbn [mbind option_bind].
  destruct Hl as [->|(q & ls & Hll & Hn & Hq & Hr & Hne)].
  2:{ pose proof (name_at_bounds _ _ _ _ _ Hn). destruct (0 <=? l) eqn:?; [|lia].
      by apply (comp_pointer _ _ _ _ l q ls). }
  change (0 <=? -1) with false. cbv iota.
  set (new1 := match d with Some _ => _ | None => _ end).
  assert (exists ext, new1 = new ++ ext /\ Forall (fun x => x = cp) ext /\ (d = None -> new1 = []))
    as (ext & Hnew1 & Hext & Hnn).
  { subst new1. destruct d as [d0|]; [|exists []; rewrite Hnew by done; done]. unfold save_ptr.
    destruct (d_room d0); [case_match|]; [exists [cp]|exists []..]; rewrite ?app_nil_r;
      (split_and!; [done| |done]); repeat constructor. }
  clearbody new1. subst new1. pose proof Hrd as (Hsz & Heob & Hb & _).
  destruct (comp_label_ok eob _ c s (cp + 1) buf (le_n _) Hc0 Hs0 Hb ltac:(lia) Heob)
    as (r & -> & Hd & Hcl & Hcr & Hlen).
  cbn [mbind option_bind]. set (l := (split_label (c :: s)).1) in *.
  set (rest := default [] (split_label (c :: s)).2) in *. pose proof (zlen_nonneg l) as Hl0.
  pose proof (reads_cons c s) as Hrc. fold l rest in Hrc.
  destruct r as [[[[c' dn'] cp'] buf1]|buf1]; cbn [label_done] in Hd.
  2:{ destruct Hd as (Hd & Hs1 & Hb1). eexists. split; [done|].
      apply comp_fail; [done|eapply same_except_mono; [..|done]; lia|done|].
      intros ls Hr. destruct (Hrc ls Hr) as [(El & _ & ->)|(_ & ls' & _ & ->)].
      - rewrite El, zlen_nil in Hd. cbn [wire_size]. lia.
      - cbn [wire_size]. pose proof (wire_size_pos ls'). lia. }
  destruct Hd as (Hcd & -> & Hroom & Hs1 & Hb1 & Hsl).
  assert (Hs1' : same_except cp eob buf buf1) by (eapply same_except_mono; [..|done]; lia).
  replace (cp + 1 + zlen l - cp - 1) with (zlen l) by lia.
  assert (Hc'0 : (c' =? 0) = (zlen rest =? 0)) by (by apply (head_zero _ dn')).
  rewrite Hc'0. destruct ((zlen l =? 0) && (zlen rest =? 0)) eqn:E0.
  { assert (Hr : reads (c :: s) []).
    { unfold reads. rewrite parse_name_cons. cbv zeta. fold l rest. by rewrite E0. }
    replace (cp + 1 + zlen l - 1) with cp by lia. replace (cp + 1 + zlen l - comp_dn) with (cp + 1 - comp_dn) by lia.
    destruct (comp_root (c :: s) cp buf1 new ext) as (r & -> & Hr2); [by eapply ready_same|done..|].
    eexists. split; [done|]. destruct r as [[ret buf'] new']. destruct Hr2 as (H1 & H2 & H3).
    split_and!; [by eapply same_except_trans|done|done]. }
  destruct ((zlen l <=? 0) || (MAXLABEL <? zlen l)) eqn:E1.
  { eexists. split; [done|]. apply comp_fail; [done..|].
    intros ls Hr. destruct (Hrc ls Hr) as [(El & Er & ->)|(? & _)]; [|lia].
    rewrite El, Er, zlen_nil in E0. done. }
  destruct (put_byte_ok buf1 cp (zlen l)) as (buf2 & -> & Hs2 & Hg2 & Hb2);
    [destruct Hs1; destruct Hroom as [El|]; [rewrite El, zlen_nil in E1|]; lia|].
  cbn [mbind option_bind]. unfold MAXLABEL in *. rewrite u8_small in Hg2 by lia.
  assert (Hfit : cp + 1 + zlen l <= eob) by (destruct Hroom as [El|]; [rewrite El, zlen_nil in E1|]; lia).
  assert (Hrd2 : dn_ready buf2).
  { apply (ready_same buf buf2 cp); [done| |by apply Hb2|done].
    eapply same_except_trans; [done|]. eapply same_except_mono; [..|done]; lia. }
  destruct (IH rest c' dn' (cp + 1 + zlen l) buf2 (new ++ ext)) as (r & -> & Hr);
    [done|simpl in Hf; lia|done|done|lia|done|].
  exists r. split; [done|].
  apply (comp_step c s cp buf buf1 buf2 new ext r); fold l rest; unfold MAXLABEL; try done; lia.
Qed.
End comp.

Lemma dn_comp_ok s buf comp_dn length d :
  0 <= comp_dn -> charsP s -> dn_ready d comp_dn (comp_dn + length) buf ->
  exists r, dn_comp s buf comp_dn length d = Some r /\
    comp_done comp_dn (comp_dn + length) s comp_dn buf [] r.
Proof.
  intros Hp Hs Hr. unfold dn_comp. destruct (s ++ [0]) as [|c dn] eqn:E; [by destruct s|].
  apply comp_loop_ok; done || lia.
Qed.

(** ** Canonical text *)

(** A label as names have them: not empty, at most 63 characters, no backslash. *)
Definition label_ok (l : list Z) : Prop :=
  1 <= zlen l <= MAXLABEL /\ Forall (fun c => 1 <= c < 256 /\ c <> BACKSLASH) l.

Lemma charsP_escape l : Forall (fun c => 1 <= c < 256 /\ c <> BACKSLASH) l -> charsP (escape l).
Proof.
  induction 1 as [|c l [Hc _] _ IH]; [constructor|]. change (c :: l) with ([c] ++ l).
  rewrite escape_app. apply Forall_app. split; [|done]. unfold escape. cbn [mbind list_bind].
  rewrite app_nil_r. destruct (c =? DOT); repeat (apply Forall_cons_2; [done|]); constructor.
Qed.

Lemma charsP_dotted ls : Forall label_ok ls -> charsP (dotted ls).
Proof.
  induction 1 as [|l ls [_ Hl] _ IH]; [constructor|]. cbn [dotted]. destruct ls as [|k ls].
  - by apply charsP_escape.
  - apply Forall_app. split; [by apply charsP_escape|]. constructor; [by unfold DOT|done].
Qed.

Lemma split_escape l t : Forall (fun c => 1 <= c < 256 /\ c <> BACKSLASH) l ->
  split_label (escape l ++ t) = (l ++ (split_label t).1, (split_label t).2).
Proof.
  induction 1 as [|c l [Hc Hb] _ IH]; [apply surjective_pairing|].
  change (c :: l) with ([c] ++ l). rewrite escape_app, <- app_assoc. unfold escape at 1. cbn [mbind list_bind].
  destruct (c =? DOT) eqn:E; simpl app; cbn [split_label].
  - apply Z.eqb_eq in E as ->. change (BACKSLASH =? DOT) with false. change (BACKSLASH =? BACKSLASH) with true.
    cbv iota. by rewrite IH.
  - rewrite E. destruct (c =? BACKSLASH) eqn:E2; [lia|]. by rewrite IH.
Qed.

(** What [dn_expand] writes, [dn_comp] reads as the same labels. *)
Lemma reads_dotted ls : Forall label_ok ls -> reads (dotted ls) ls.
Proof.
  induction 1 as [|l ls [Hl Hc] Hls IH]; [apply reads_nil|]. pose proof (escape_len l) as He.
  assert (Hne : forall t, escape l ++ t <> []).
  { intros t E%app_eq_nil. destruct E as [E _]. rewrite E, zlen_nil in He. lia. }
  destruct ls as [|k ls].
  - change (dotted [l]) with (escape l). rewrite <- (app_nil_r (escape l)).
    apply (reads_label _ l None); [|done|done|apply reads_nil].
    rewrite split_escape by done. by rewrite app_nil_r.
  - change (dotted (l :: k :: ls)) with (escape l ++ DOT :: dotted (k :: ls)).
    apply (reads_label _ l (Some (dotted (k :: ls)))); [|done|done|done].
    rewrite split_escape by done. cbn [split_label]. change (DOT =? DOT) with true. cbn [fst snd].
    by rewrite app_nil_r.
Qed.

(** ** A name in a message *)

Lemma zget_take {A} (l : list A) n i : i < n -> zget (take (Z.to_nat n) l) i = zget l i.
Proof.
  intros Hi. unfold zget. destruct (i <? 0) eqn:?; [done|]. apply lookup_take_lt. lia.
Qed.

Lemma zlen_take {A} (l : list A) n : 0 <= n <= zlen l -> zlen (take (Z.to_nat n) l) = n.
Proof. unfold zlen. rewrite length_take. lia. Qed.

(** [dn_expand] on a name that [dn_comp] wrote, the message ending anywhere behind it. *)
Lemma name_at_expand buf s p q ls N length :
  bytesP buf -> 0 <= s -> lo <= s -> name_at buf s p q ls -> q <= N <= zlen buf -> zlen (dotted ls) < length ->
  dn_expand (take (Z.to_nat N) buf) p length = Some (q - p, dotted ls ++ [0]) /\
  dn_skipname (take (Z.to_nat N) buf) p = Some (q - p).
Proof.
  intros Hb Hs Hlo Hn HN Hlen. set (msg := take _ buf). pose proof (name_at_bounds _ _ _ _ _ Hn) as Hbd.
  assert (Hm : bytesP msg) by by apply Forall_take.
  assert (Hz : zlen msg = N) by (apply zlen_take; lia).
  assert (Hn' : name_at msg s p q ls).
  { eapply name_at_agree; [done| |intros i Hi|done]; [lia|]. symmetry. apply zget_take. lia. }
  destruct (name_at_encodes _ _ _ _ _ Hn') as (cost & He & Hc).
  split; [|by eapply dn_skipname_encodes; [done|lia|]].
  destruct (dn_expand_ok msg p length Hm ltac:(lia)) as (ret & out & -> & [H|[_ H]]).
  - destruct H as (ls' & cost' & He' & _ & _ & -> & _).
    by destruct (encodes_det _ _ _ _ _ _ _ _ He He') as (-> & _ & ->).
  - specialize (H ls cost (q - p) He). lia.
Qed.

End names.

(** ** The query *)

Lemma blit_same dst off src : 0 <= off -> off + zlen src <= zlen dst ->
  exists d, blit dst off src = Some d /\ same_except off (off + zlen src) dst d /\
    (forall i, 0 <= i < zlen src -> zget d (off + i) = zget src i) /\
    (bytesP dst -> bytesP src -> bytesP d).
Proof.
  intros Ho Hl. unfold blit. destruct (_ || _) eqn:?; [lia|]. eexists. split; [done|].
  pose proof (zlen_nonneg src).
  assert (Ht : zlen (take (Z.to_nat off) dst) = off) by (apply zlen_take; lia).
  split_and!.
  - split.
    + rewrite !zlen_app, Ht. unfold zlen in *. rewrite length_drop. lia.
    + intros i Hi. destruct (decide (i < off)).
      * rewrite zget_app_l by lia. by apply zget_take.
      * rewrite zget_app_r, Ht, zget_app_r, zget_drop by lia. f_equal. lia.
  - intros i Hi. rewrite zget_app_r, Ht, zget_app_l by lia. f_equal. lia.
  - intros H1 H2. apply Forall_app. split; [by apply Forall_take|]. apply Forall_app. split; [done|].
    by apply Forall_drop.
Qed.

Lemma getshort_of msg cp a b : zget msg cp = Some a -> zget msg (cp + 1) = Some b ->
  byteP a -> byteP b -> getshort msg cp = Some (a * 256 + b).
Proof.
  unfold byteP. intros Ha Hb ??. unfold getshort. rewrite Ha, Hb. cbn [mbind option_bind]. f_equal.
  rewrite (u16_small (Z.shiftl a 8)) by (rewrite Z.shiftl_mul_pow2 by lia; change (2 ^ 8) with 256; lia).
  rewrite lor_pointer by lia. apply u16_small. lia.
Qed.

Lemma putshort_ok buf cp s : 0 <= cp -> cp + 2 <= zlen buf ->
  exists buf', putshort buf cp s = Some buf' /\ same_except cp (cp + 2) buf buf' /\
    getshort buf' cp = Some (u16 s) /\ (bytesP buf -> bytesP buf').
Proof.
  intros Hc Hl. unfold putshort.
  destruct (put_byte_ok buf (cp + 1) s) as (b1 & -> & H1 & G1 & B1); [lia|]. cbn [mbind option_bind].
  destruct (put_byte_ok b1 cp (Z.shiftr (u16 s) 8)) as (b2 & -> & H2 & G2 & B2); [destruct H1; lia|].
  eexists. split; [done|]. split_and!.
  - eapply same_except_trans; (eapply same_except_mono; [..|done]; lia).
  - erewrite getshort_of; [|exact G2| |apply u8_range..].
    2:{ destruct H2 as [_ H2]. rewrite H2 by lia. exact G1. }
    f_equal. rewrite Z.shiftr_div_pow2 by lia. change (2 ^ 8) with 256. word_solve.
  - intros. by apply B2, B1.
Qed.

Lemma getshort_same a b buf buf' cp : same_except a b buf buf' -> cp + 2 <= a \/ b <= cp ->
  getshort buf' cp = getshort buf cp.
Proof. intros [_ H] Hc. unfold getshort. by rewrite !H by lia. Qed.

Lemma getshort_take N msg cp : cp + 2 <= N -> getshort (take (Z.to_nat N) msg) cp = getshort msg cp.
Proof. intros. unfold getshort. by rewrite !zget_take by lia. Qed.

(** The message asks for [ls], of the type and class. *)
Definition asks (msg : list Z) (ls : list (list Z)) (type class id : Z) : Prop :=
  (forall length, zlen (dotted ls) < length ->
     dn_expand msg HEADER_SIZE length = Some (zlen msg - 16, dotted ls ++ [0])) /\
  dn_skipname msg HEADER_SIZE = Some (zlen msg - 16) /\
  getshort msg (zlen msg - 4) = Some (u16 type) /\ getshort msg (zlen msg - 2) = Some (u16 class) /\
  getshort msg 0 = Some (u16 id) /\ getshort msg 4 = Some 1 /\
  Forall (fun cp => getshort msg cp = Some 0) [6; 8; 10].

Lemma res_mkquery_ok tv_secs tv_micro ctr options ls class type buf buflen :
  Forall label_ok ls -> bytesP buf -> HEADER_SIZE <= buflen <= zlen buf -> zlen buf <= 16384 ->
  exists ret buf' ctr', res_mkquery tv_secs tv_micro ctr options QUERY (dotted ls) class type buf buflen
      = Some (ret, buf', ctr') /\ zlen buf' = zlen buf /\
    ((ret = -1 /\ buflen < 16 + wire_size ls) \/
     (16 < ret <= buflen /\ ret <= 16 + wire_size ls /\
      asks (take (Z.to_nat ret) buf') ls type class (query_id tv_secs tv_micro (u16 (ctr + 1))))).
Proof.
  intros Hls Hb Hlen Hmax. unfold HEADER_SIZE in *. unfold res_mkquery, HEADER_SIZE, QFIXEDSZ.
  rewrite u32_small by lia. destruct (buflen <? 12) eqn:?; [lia|].
  destruct (blit_same buf 0 (repeat 0 12)) as (b1 & -> & S1 & G1 & B1); [lia|change (zlen (repeat 0 12)) with 12; lia|].
  cbn [mbind option_bind]. change (0 + zlen (repeat 0 12)) with 12 in S1.
  destruct (putshort_ok b1 0 (query_id tv_secs tv_micro (u16 (ctr + 1)))) as (b2 & -> & S2 & G2 & B2);
    [lia|destruct S1; lia|]. cbn [mbind option_bind].
  destruct (blit_same b2 2 (flag_bytes QUERY options)) as (b3 & -> & S3 & _ & B3);
    [lia|change (zlen (flag_bytes QUERY options)) with 2; destruct S1, S2; lia|]. cbn [mbind option_bind].
  change (2 + zlen (flag_bytes QUERY options)) with 4 in S3.
  assert (Hb3 : bytesP b3).
  { apply B3; [apply B2, B1; [done|by repeat constructor]|]. unfold flag_bytes.
    repeat apply Forall_cons_2; try constructor; case_match; done. }
  assert (Hz3 : zlen b3 = zlen buf) by (destruct S1, S2, S3; lia).
  change (QUERY =? QUERY) with true. cbv iota. pose proof (wire_size_pos ls).
  destruct (buflen - 12 - 4 <? 0) eqn:?; [eexists _, _, _; split; [done|]; split; [done|]; left; lia|].
  destruct (dn_comp_ok 12 (dotted ls) b3 12 (buflen - 12 - 4) (Some (mk_dnlist [] (Some 8))))
    as ([[n b4] new] & -> & S4 & B4 & Hres); [lia|by apply charsP_dotted|split_and!; [lia|lia|done|constructor]|].
  cbn [mbind option_bind]. pose proof (reads_dotted ls Hls) as Hrd.
  destruct Hres as [(ls' & Hr & Hn & Hfit & Hat & Hw & _)|(-> & Hno & _)].
  2:{ exists (-1), b4, (u16 (ctr + 1)). split; [done|]. split; [destruct S4; lia|]. left. specialize (Hno _ Hrd). lia. }
  assert (ls' = ls) as -> by (unfold reads in *; congruence). destruct (n <? 0) eqn:?; [lia|].
  destruct (putshort_ok b4 (12 + n) type) as (b5 & -> & S5 & G5 & B5); [lia|destruct S4; lia|]. cbn [mbind option_bind].
  destruct (putshort_ok b5 (12 + n + 2) class) as (b6 & -> & S6 & G6 & B6); [lia|destruct S4, S5; lia|]. cbn [mbind option_bind].
  destruct (putshort_ok b6 4 1) as (b7 & -> & S7 & G7 & B7); [lia|destruct S4, S5, S6; lia|]. cbn [mbind option_bind].
  eexists _, _, _. split; [done|].
  assert (Hz : zlen b7 = zlen buf) by (destruct S4, S5, S6, S7; lia). split; [done|].
  right. split; [lia|]. split; [lia|].
  assert (Hzm : zlen (take (Z.to_nat (12 + n + 4)) b7) = 12 + n + 4) by (apply zlen_take; lia).
  assert (Hat7 : name_at 12 b7 12 12 (12 + n) ls).
  { eapply name_at_agree; [done| |intros i Hi|exact Hat]; [lia|].
    destruct S5 as [_ S5], S6 as [_ S6], S7 as [_ S7]. by rewrite S7, S6, S5 by lia. }
  unfold asks, HEADER_SIZE. rewrite Hzm. repeat split.
  - intros length Hl. destruct (name_at_expand 12 b7 12 12 (12 + n) ls (12 + n + 4) length) as [H1 _];
      try done; try lia; [by apply B7, B6, B5|].
    rewrite H1. by replace (12 + n + 4 - 16) with (12 + n - 12) by lia.
  - destruct (name_at_expand 12 b7 12 12 (12 + n) ls (12 + n + 4) (zlen (dotted ls) + 1)) as [_ H2];
      try done; try lia; [by apply B7, B6, B5|].
    rewrite H2. by replace (12 + n + 4 - 16) with (12 + n - 12) by lia.
  - replace (12 + n + 4 - 4) with (12 + n) by lia. rewrite getshort_take by lia.
    by rewrite (getshort_same _ _ _ _ _ S7), (getshort_same _ _ _ _ _ S6) by lia.
  - replace (12 + n + 4 - 2) with (12 + n + 2) by lia. rewrite getshort_take by lia.
    by rewrite (getshort_same _ _ _ _ _ S7) by lia.
  - rewrite getshort_take by lia.
    by rewrite (getshort_same _ _ _ _ _ S7), (getshort_same _ _ _ _ _ S6), (getshort_same _ _ _ _ _ S5),
      (getshort_same _ _ _ _ _ S4), (getshort_same _ _ _ _ _ S3) by lia.
  - by rewrite getshort_take by lia.
  - assert (H0 : forall cp, 6 <= cp <= 10 -> getshort (take (Z.to_nat (12 + n + 4)) b7) cp = Some 0).
    { intros cp Hcp. rewrite getshort_take by lia.
      rewrite (getshort_same _ _ _ _ _ S7), (getshort_same _ _ _ _ _ S6), (getshort_same _ _ _ _ _ S5),
        (getshort_same _ _ _ _ _ S4), (getshort_same _ _ _ _ _ S3), (getshort_same _ _ _ _ _ S2) by lia.
      assert (Hz0 : forall i, 0 <= i < 12 -> zget b1 i = Some 0).
      { intros i Hi. replace i with (0 + i) by lia. rewrite G1 by done.
        unfold zget. destruct (i <? 0) eqn:?; [lia|]. generalize (Z.to_nat i), (ltac:(lia) : (Z.to_nat i < 12)%nat).
        intros k Hk. do 12 (destruct k as [|k]; [done|]). lia. }
      by rewrite (getshort_of _ _ 0 0) by (done || (apply Hz0; lia)). }
    repeat apply Forall_cons_2; try constructor; apply H0; lia.
Qed.

(** * Properties *)

(** C31. For every message, every position in it (or behind it) and every buffer size,
    [dn_expand] returns, reading only the message and writing only the buffer.  It
    succeeds exactly when the bytes there stand for a name - labels, root and pointers
    inside the message - that is reached without following pointers over as many bytes as
    the message has, and whose text with its terminator fits the buffer; then the buffer
    holds that text, dots inside labels escaped, and the value is the size of the name in
    place, the one that [__dn_skipname] skips.  Otherwise it returns -1: malformed,
    truncated and looping names are errors. *)
Theorem dn_expand_correct msg comp_dn length :
  bytesP msg -> 0 <= comp_dn ->
  exists ret out, dn_expand msg comp_dn length = Some (ret, out) /\
    ((exists ls cost, encodes msg comp_dn ls cost ret /\ (cost = 0 \/ cost < zlen msg) /\
        zlen (dotted ls) < length /\ out = dotted ls ++ [0] /\ 0 < ret /\
        dn_skipname msg comp_dn = Some ret) \/
     (ret = -1 /\ forall ls cost size, encodes msg comp_dn ls cost size ->
        cost = 0 \/ cost < zlen msg -> length <= zlen (dotted ls))).
Proof.
  intros Hm Hp. destruct (dn_expand_ok msg comp_dn length Hm Hp) as (ret & out & -> & H).
  exists ret, out. split; [done|]. destruct H as [(ls & cost & He & H)|H]; [left|by right].
  exists ls, cost. destruct H as (? & ? & ? & ?). split_and!; try done. by eapply dn_skipname_encodes.
Qed.

(** "a.b" and a name "c" followed by a pointer to "b", in a message of 21 bytes. *)
Definition demo_msg : list Z :=
  [0; 0; 0; 0; 0; 0; 0; 0; 0; 0; 0; 0; 1; 97; 1; 98; 0; 1; 99; 192; 14].

Lemma dn_expand_correct_witness :
  bytesP demo_msg /\ dn_expand demo_msg 17 4 = Some (4, [99; 46; 98; 0]) /\
  dn_expand demo_msg 17 3 = Some (-1, [99; 46]).
Proof.
  assert (Hb : bytesP demo_msg) by (apply (bool_decide_unpack _); vm_compute; exact I).
  split; [exact Hb|]. split; [|reflexivity].
  destruct (dn_expand_correct demo_msg 17 4 Hb ltac:(lia)) as (ret & out & E & _). by vm_compute in E |- *.
Defined.



(** When there is no room for the pointer, the entries of the labels before it stay in the
    list, though the name has not been written. *)
Example dangling_entry :
  dn_comp [99; 46; 98] (demo_msg ++ repeat 0 8) 17 3 (Some (mk_dnlist [12; 14] (Some 4))) =
    Some (-1, demo_msg ++ repeat 0 8, [17]).
Proof. reflexivity. Qed.

(** A second dot at the end is taken as one. *)
Example two_trailing_dots :
  dn_comp [98; 46; 46] (repeat 0 8) 0 8 None = Some (3, [1; 98; 0; 0; 0; 0; 0; 0], []).
Proof. reflexivity. Qed.

(** A backslash in a label is not escaped: [dn_comp] reads the text as another label. *)
Example backslash_lost :
  dn_expand [2; 92; 98; 0] 0 8 = Some (4, [92; 98; 0]) /\
  dn_comp [92; 98] (repeat 0 4) 0 4 None = Some (3, [1; 98; 0; 0], []).
Proof. split; reflexivity. Qed.
