(* ===== verification/DnsAnswer.v ===== *)
(** Answers of a name server ([getanswer], [makehostent] and [ng_hostent_from_response] in
    [api/gethostnamadr.c]).

    Pointers into [hostbuf] and into the reply are offsets; the pointer arrays are lists of
    [option Z], [None] a null pointer.  Reads and writes outside an array are [None]. *)
From S2P Require Import Prelude DnsName.

Definition MAXALIASES : Z := 35.
Definition MAXADDRS : Z := 35.
Definition MAXPACKET : Z := 1024.
Definition HOSTBUF_SIZE : Z := 512.
Definition T_A : Z := 1.
Definition T_CNAME : Z := 5.
Definition T_PTR : Z := 12.
Definition C_IN : Z := 1.
Definition C_ANY : Z := 255.
Definition AF_UNSPEC : Z := 0.
Definition AF_INET : Z := 2.
Definition HOST_NOT_FOUND : Z := 1.
Definition TRY_AGAIN : Z := 2.

(** [struct hoststruct] with its [struct hostent]; [h_name] is [None] until it is set. *)
Record hoststruct := mk_hoststruct {
  host_aliases : list (option Z); h_addr_ptrs : list (option Z);
  host_alias_count : Z; h_addr_count : Z; min_ttl : Z;
  h_name : option Z; h_addrtype : Z; h_length : Z; hostbuf : list Z }.
#[export] Instance hoststruct_eta : Eta hoststruct := fun h =>
  mk_hoststruct (host_aliases h) (h_addr_ptrs h) (host_alias_count h) (h_addr_count h) (min_ttl h)
    (h_name h) (h_addrtype h) (h_length h) (hostbuf h).

(** [strlen(buf + p)]. *)
Fixpoint cstrlen (s : list Z) : option Z :=
  match s with
  | [] => None
  | c :: s => if c =? 0 then Some 0 else n ← cstrlen s; Some (n + 1)
  end.
Definition strlen (buf : list Z) (p : Z) : option Z := cstrlen (drop (Z.to_nat p) buf).

(** [*ap++ = p]. *)
Definition put_ptr (a : list (option Z)) (i : Z) (p : option Z) : option (list (option Z)) :=
  if (0 <=? i) && (i <? zlen a) then Some (zset a i p) else None.

(** The locals of the loop. *)
Record anst := mk_anst {
  a_cp : Z; a_bp : Z; a_buflen : Z; a_have : Z; a_getclass : Z; a_minttl : Z;
  a_ap : Z; a_hap : Z; a_hs : hoststruct }.
#[export] Instance anst_eta : Eta anst := fun s =>
  mk_anst (a_cp s) (a_bp s) (a_buflen s) (a_have s) (a_getclass s) (a_minttl s) (a_ap s) (a_hap s) (a_hs s).

Inductive turn := Continue (s : anst) | Break (s : anst).

(** [dn_expand(answer, eom, cp, bp, buflen)] with what it leaves in [hostbuf]. *)
Definition expand_name (msg : list Z) (s : anst) : option (Z * anst) :=
  r ← dn_expand msg (a_cp s) (a_buflen s);
  let '(n, out) := r in
  hb ← blit (hostbuf (a_hs s)) (a_bp s) out;
  Some (n, s <| a_hs ::= a_hs s <| hostbuf ::= hb |> |>).

(** [n = strlen(bp) + 1; bp += n; buflen -= n]. *)
Definition keep_name (s : anst) : option anst :=
  n ← strlen (hostbuf (a_hs s)) (a_bp s);
  Some (s <| a_bp ::= a_bp s + (n + 1) |> <| a_buflen ::= a_buflen s - (n + 1) |>).

Definition rr_cname (n : Z) (s : anst) : option turn :=
  let s := s <| a_cp ::= a_cp s + n |> in
  let h := a_hs s in
  if MAXALIASES <=? host_alias_count h then Some (Continue s) else
  al ← put_ptr (host_aliases h) (a_ap s) (Some (a_bp s));
  let h := h <| host_aliases ::= al |> <| host_alias_count ::= host_alias_count h + 1 |> in
  s ← keep_name (s <| a_ap ::= a_ap s + 1 |> <| a_hs ::= h |>);
  Some (Continue s).

Definition rr_ptr (msg : list Z) (s : anst) : option turn :=
  r ← expand_name msg s;
  let '(n, s) := r in
  if n <? 0 then Some (Break s) else
  let h := a_hs s in
  len ← strlen (hostbuf h) (a_bp s);
  Some (Break (s <| a_cp ::= a_cp s + n |> <| a_hs ::= h <| h_name ::= Some (a_bp s) |> |>
                 <| a_have ::= 1 |> <| a_bp ::= a_bp s + (len + 1) |>)).

(** The first address: its length, class and owner are those of the answer. *)
Definition first_addr (iquery : bool) (n class : Z) (s : anst) : option anst :=
  let h := a_hs s in
  let h := h <| h_length ::= n |> <| h_addrtype ::= if class =? C_IN then AF_INET else AF_UNSPEC |> in
  let s := s <| a_getclass ::= class |> <| a_hs ::= h |> in
  if iquery then Some s else
  keep_name (s <| a_hs ::= h <| h_name ::= Some (a_bp s) |> |>).

Definition store_addr (msg : list Z) (n : Z) (s : anst) : option turn :=
  let h := a_hs s in
  if a_buflen s <=? h_length h then Some (Break s) else
  if MAXADDRS <=? h_addr_count h then Some (Continue (s <| a_cp ::= a_cp s + n |>)) else
  ps ← put_ptr (h_addr_ptrs h) (a_hap s) (Some (a_bp s));
  data ← blob msg (a_cp s) n;
  hb ← blit (hostbuf h) (a_bp s) data;
  let h := h <| h_addr_ptrs ::= ps |> <| hostbuf ::= hb |> <| h_addr_count ::= h_addr_count h + 1 |> in
  Some (Continue (s <| a_hs ::= h |> <| a_hap ::= a_hap s + 1 |> <| a_bp ::= a_bp s + n |>
    <| a_buflen ::= a_buflen s - n |> <| a_cp ::= a_cp s + n |> <| a_have ::= a_have s + 1 |>)).

Definition rr_addr (msg : list Z) (iquery : bool) (class n : Z) (s : anst) : option turn :=
  let next := Some (Continue (s <| a_cp ::= a_cp s + n |>)) in
  if negb (n =? 4) then next else
  if negb (a_have s =? 0) then
    if negb (n =? h_length (a_hs s)) then next else
    if negb (class =? a_getclass s) then next else
    store_addr msg n s
  else
    s ← first_addr iquery n class s; store_addr msg n s.

(** The body of the loop over the resource records. *)
Definition answer_rr (msg : list Z) (iquery : bool) (s : anst) : option turn :=
  if a_buflen s <=? 0 then Some (Break s) else
  r ← expand_name msg s;
  let '(n, s) := r in
  if n <? 0 then Some (Break s) else
  let cp := a_cp s + n in
  if zlen msg <? cp + 10 then Some (Break (s <| a_cp ::= cp |>)) else
  type ← getshort msg cp;
  class ← getshort msg (cp + 2);
  ttl ← getlong msg (cp + 4);
  n ← getshort msg (cp + 8);
  let s := s <| a_minttl ::= if ttl <? a_minttl s then ttl else a_minttl s |>
             <| a_cp ::= cp + 10 |> in
  if (n <? 0) || (zlen msg <? a_cp s + n) then Some (Break s) else
  if type =? T_CNAME then rr_cname n s else
  if iquery && (type =? T_PTR) then rr_ptr msg s else
  if iquery || negb (type =? T_A) then Some (Continue (s <| a_cp ::= a_cp s + n |>)) else
  rr_addr msg iquery class n s.

(** [while (--ancount >= 0 && cp < eom)]. *)
Fixpoint answer_loop (ancount : nat) (msg : list Z) (iquery : bool) (s : anst) : option anst :=
  match ancount with
  | O => Some s
  | S ancount =>
      if zlen msg <=? a_cp s then Some s else
      t ← answer_rr msg iquery s;
      match t with
      | Continue s => answer_loop ancount msg iquery s
      | Break s => Some s
      end
  end.

Fixpoint skip_questions (qdcount : nat) (msg : list Z) (cp : Z) : option Z :=
  match qdcount with
  | O => Some cp
  | S qdcount => n ← dn_skipname msg cp; skip_questions qdcount msg (cp + n + QFIXEDSZ)
  end.

(** The result: the pointer behind the data in [hostbuf], or null with [h_errno]. *)
Definition getanswer (answer : list Z) (anslen : Z) (iquery : bool) (hs : hoststruct)
  : option ((Z + Z) * hoststruct) :=
  let msg := take (Z.to_nat anslen) answer in
  ancount ← getshort answer 6;
  qdcount ← getshort answer 4;
  flags ← zget answer 2;
  if (qdcount =? 0) && iquery then
    Some (inr (if Z.land flags 4 =? 0 then TRY_AGAIN else HOST_NOT_FOUND), hs)
  else
  cp ← skip_questions (Z.to_nat qdcount) msg HEADER_SIZE;
  let hs := hs <| host_alias_count ::= 1 |> <| h_addr_count ::= 1 |> in
  s ← answer_loop (Z.to_nat ancount) msg iquery
        (mk_anst cp 0 HOSTBUF_SIZE 0 C_ANY 4294967295 0 0 hs);
  let h := a_hs s in
  if a_have s =? 0 then Some (inr TRY_AGAIN, h) else
  al ← put_ptr (host_aliases h) (a_ap s) None;
  ps ← put_ptr (h_addr_ptrs h) (a_hap s) None;
  Some (inl (a_bp s), h <| host_aliases ::= al |> <| h_addr_ptrs ::= ps |> <| min_ttl ::= a_minttl s |>).

(** * The caller's [struct hostent]

    One block: the structure, the used part of [hostbuf], the two arrays.  Pointers into
    [hostbuf] are moved along, so they keep their offsets. *)
Record hostent := mk_hostent {
  he_name : Z; he_aliases : list Z; he_addrs : list Z; he_addrtype : Z; he_length : Z; he_data : list Z }.

Definition HOSTENT_SIZE : Z := 20.   (* sizeof(struct hostent) *)

(** [for (i = 0; a[i]; i++)]. *)
Fixpoint until_null (a : list (option Z)) : option (list Z) :=
  match a with
  | [] => None
  | None :: _ => Some []
  | Some p :: a => l ← until_null a; Some (p :: l)
  end.

(** [alloc]: whether there is memory for the block.  The inner [None] is the null pointer. *)
Definition makehostent (alloc : Z -> bool) (hs : hoststruct) (bp : Z) : option (option hostent) :=
  let i := (bp + 3) / 4 * 4 in
  let n := i + HOSTENT_SIZE + h_addr_count hs * 4 + host_alias_count hs * 4 in
  if negb (alloc n) then Some None else
  data ← blob (hostbuf hs) 0 i;
  name ← h_name hs;
  al ← until_null (host_aliases hs);
  ps ← until_null (h_addr_ptrs hs);
  if n <? HOSTENT_SIZE + i + (zlen al + 1 + zlen ps + 1) * 4 then None else
  Some (Some (mk_hostent name al ps (h_addrtype hs) (h_length hs) data)).

(** The hostent, and the minimum time to live for the cache; [hs0] is the memory that
    [bsd_malloc] gives, if it does. *)
Definition ng_hostent_from_response (hs0 : option hoststruct) (alloc : Z -> bool)
    (response : list Z) (len : Z) (iquery : bool) : option (option (hostent * Z)) :=
  match hs0 with
  | None => Some None
  | Some hs0 =>
      r ← getanswer response len iquery hs0;
      let '(p, hs) := r in
      match p with
      | inr _ => Some None
      | inl bp =>
          e ← makehostent alloc hs bp;
          Some (e ← e; Some (e, min_ttl hs))
      end
  end.

(** * The buffer and the pointers into it *)

(** The bytes [d] lie at [p], below [lim]. *)
Definition holds (hb : list Z) (lim p : Z) (d : list Z) : Prop :=
  0 <= p /\ p + zlen d <= lim /\ zslice hb p (zlen d) = d.

(** The string [t] lies at [p] with its terminator. *)
Definition holds_str (hb : list Z) (lim p : Z) (t : list Z) : Prop :=
  holds hb lim p (t ++ [0]) /\ Forall (fun c => c <> 0) t.

Lemma holds_same hb hb' lim lim' b p d : same_except lim b hb hb' -> lim <= lim' ->
  holds hb lim p d -> holds hb' lim' p d.
Proof.
  intros [_ Hs] Hl (Hp & Hle & Hd). split_and!; [done|lia|].
  rewrite (zslice_ext hb' hb); [done|done|]. intros i Hi. apply Hs. lia.
Qed.

Lemma holds_str_same hb hb' lim lim' b p t : same_except lim b hb hb' -> lim <= lim' ->
  holds_str hb lim p t -> holds_str hb' lim' p t.
Proof. intros Hs Hl [H Ht]. split; [by eapply holds_same|done]. Qed.

Lemma holds_mono hb lim lim' p d : lim <= lim' -> holds hb lim p d -> holds hb lim' p d.
Proof. intros Hl. by apply (holds_same _ _ _ _ 0), Hl. Qed.

Lemma holds_str_mono hb lim lim' p t : lim <= lim' -> holds_str hb lim p t -> holds_str hb lim' p t.
Proof. intros Hl [H ?]. split; [|done]. by eapply holds_mono. Qed.

(** The text of a C string. *)
Fixpoint ctext (s : list Z) : list Z :=
  match s with [] => [] | c :: s => if c =? 0 then [] else c :: ctext s end.

Lemma ctext_nonzero s : Forall (fun c => c <> 0) (ctext s).
Proof. induction s as [|c s IH]; cbn [ctext]; [constructor|]. destruct (c =? 0) eqn:?; constructor; [lia|done]. Qed.

Lemma ctext_id s : Forall (fun c => c <> 0) s -> ctext s = s.
Proof.
  induction 1 as [|c s Hc _ IH]; [done|]. cbn [ctext]. destruct (c =? 0) eqn:?; [lia|]. by rewrite IH.
Qed.

Lemma ctext_prefix s : exists r, s ++ [0] = (ctext s ++ [0]) ++ r.
Proof.
  induction s as [|c s (r & IH)]; [by exists []|]. cbn [ctext]. destruct (c =? 0) eqn:E.
  - apply Z.eqb_eq in E as ->. by exists (s ++ [0]).
  - exists r. change ((c :: s) ++ [0]) with (c :: (s ++ [0])). by rewrite IH.
Qed.

Lemma cstrlen_text t r : Forall (fun c => c <> 0) t -> cstrlen (t ++ 0 :: r) = Some (zlen t).
Proof.
  induction 1 as [|c t Hc _ IH]; [done|]. rewrite <- app_comm_cons. cbn [cstrlen].
  destruct (c =? 0) eqn:?; [lia|]. rewrite IH. cbn [mbind option_bind]. rewrite zlen_cons. f_equal. lia.
Qed.

Lemma drop_zslice {A} (l : list A) p n : 0 <= p -> 0 <= n ->
  drop (Z.to_nat p) l = zslice l p n ++ drop (Z.to_nat (p + n)) l.
Proof.
  intros Hp Hn. unfold zslice. rewrite Z2Nat.inj_add by lia. rewrite <- drop_drop. by rewrite take_drop.
Qed.

Lemma strlen_holds hb lim p t : holds_str hb lim p t -> strlen hb p = Some (zlen t).
Proof.
  intros [(Hp & _ & Hd) Ht]. unfold strlen. rewrite (drop_zslice hb p (zlen (t ++ [0]))) by (done || apply zlen_nonneg).
  rewrite Hd, <- app_assoc. simpl app. by apply cstrlen_text.
Qed.

Lemma put_ptr_ok a i p : 0 <= i < zlen a -> put_ptr a i p = Some (zset a i p).
Proof. intros. unfold put_ptr. destruct (_ && _) eqn:?; [done|lia]. Qed.

(** The first pointers of an array, and where they lead. *)
Definition ptrs {A} (P : Z -> A -> Prop) (a : list (option Z)) (xs : list A) : Prop :=
  exists ps, zslice a 0 (zlen xs) = map Some ps /\ Forall2 P ps xs.

Lemma ptrs_impl {A} (P Q : Z -> A -> Prop) a xs : (forall p x, P p x -> Q p x) -> ptrs P a xs -> ptrs Q a xs.
Proof. intros HPQ (ps & Ha & H). exists ps. split; [done|]. by eapply Forall2_impl. Qed.

Lemma zslice_set {A} (l : list A) i x : 0 <= i < zlen l ->
  zslice (zset l i x) 0 (i + 1) = zslice l 0 i ++ [x].
Proof.
  intros Hi. apply zslice_snoc; [lia|lia|by apply zget_zset_eq|].
  apply zslice_ext; [lia|]. intros j Hj. apply zget_zset_ne. lia.
Qed.

Lemma ptrs_snoc {A} (P : Z -> A -> Prop) a xs p x : zlen xs < zlen a -> P p x -> ptrs P a xs ->
  ptrs P (zset a (zlen xs) (Some p)) (xs ++ [x]).
Proof.
  intros Hl Hp (ps & Ha & H). exists (ps ++ [p]). split; [|by apply Forall2_app; [|constructor]].
  rewrite zlen_app. change (zlen [x]) with 1. rewrite zslice_set by (pose proof (zlen_nonneg xs); lia).
  by rewrite Ha, map_app.
Qed.

Lemma ptrs_until_null {A} (P : Z -> A -> Prop) a xs : zlen xs < zlen a -> ptrs P a xs ->
  exists ps, until_null (zset a (zlen xs) None) = Some ps /\ Forall2 P ps xs.
Proof.
  intros Hl (ps & Ha & H). exists ps. split; [|done]. pose proof (zlen_nonneg xs) as H0.
  assert (Hs : zset a (zlen xs) None = map Some ps ++ None :: drop (Z.to_nat (zlen xs + 1)) a).
  { pose proof (drop_zslice (zset a (zlen xs) None) 0 (zlen xs + 1) ltac:(lia) ltac:(lia)) as Hd.
    change (drop (Z.to_nat 0) ?x) with x in Hd. rewrite Hd, zslice_set, Ha, <- app_assoc by lia.
    f_equal. simpl. f_equal. unfold zset. case_match; [done|].
    by rewrite drop_insert_lt by lia. }
  rewrite Hs. clear. induction ps as [|p ps IH]; [done|]. simpl. by rewrite IH.
Qed.

(** * The invariant of the loop

    [als], [ads] and [hn] are the aliases, the addresses and the host name found so far. *)
Record ans_inv (iquery : bool) (s : anst) (als ads : list (list Z)) (hn : option (list Z)) : Prop := {
  ai_cp : 0 <= a_cp s;
  ai_buf : zlen (hostbuf (a_hs s)) = HOSTBUF_SIZE;
  ai_bytes : bytesP (hostbuf (a_hs s));
  ai_bp : 0 <= a_bp s <= HOSTBUF_SIZE;
  ai_alen : zlen (host_aliases (a_hs s)) = MAXALIASES + 1;
  ai_hlen : zlen (h_addr_ptrs (a_hs s)) = MAXADDRS + 1;
  ai_acount : host_alias_count (a_hs s) = zlen als + 1 /\ zlen als < MAXALIASES;
  ai_hcount : h_addr_count (a_hs s) = zlen ads + 1 /\ zlen ads < MAXADDRS;
  ai_ap : a_ap s = zlen als;
  ai_hap : a_hap s = zlen ads;
  ai_als : ptrs (holds_str (hostbuf (a_hs s)) (a_bp s)) (host_aliases (a_hs s)) als;
  ai_ads : ptrs (fun p d => holds (hostbuf (a_hs s)) (a_bp s) p d /\ zlen d = 4) (h_addr_ptrs (a_hs s)) ads;
  ai_name : forall t, hn = Some t -> exists p, h_name (a_hs s) = Some p /\ holds_str (hostbuf (a_hs s)) (a_bp s) p t;
  ai_have : a_have s <> 0 -> is_Some hn /\ (iquery = false -> h_length (a_hs s) = 4);
  ai_havenot : 0 <= a_have s /\ (iquery = false -> a_have s = zlen ads) }.

(** What [buflen] counts, as long as the loop goes on. *)
Definition buf_ok (s : anst) : Prop := a_buflen s = HOSTBUF_SIZE - a_bp s.

(** The string [t] has just been written behind what is kept. *)
Definition named (s : anst) (t : list Z) : Prop :=
  holds_str (hostbuf (a_hs s)) HOSTBUF_SIZE (a_bp s) t.

Lemma inv_buf iq s als ads hn hb :
  ans_inv iq s als ads hn -> same_except (a_bp s) HOSTBUF_SIZE (hostbuf (a_hs s)) hb -> bytesP hb ->
  ans_inv iq (s <| a_hs ::= a_hs s <| hostbuf ::= hb |> |>) als ads hn.
Proof.
  intros [] Hs Hb. pose proof Hs as [Hl _]. constructor; cbn in *; try done; try lia.
  - eapply ptrs_impl; [|done]. intros p t. by eapply holds_str_same.
  - eapply ptrs_impl; [|done]. intros p t [??]. split; [by eapply holds_same|done].
  - intros t Ht. destruct (ai_name0 t Ht) as (p & Hp & Ht'). exists p. split; [done|]. by eapply holds_str_same.
Qed.

Lemma inv_cp iq s als ads hn cp : ans_inv iq s als ads hn -> 0 <= cp -> ans_inv iq (s <| a_cp ::= cp |>) als ads hn.
Proof. intros [] Hc. by constructor. Qed.

Lemma inv_buflen iq s als ads hn n : ans_inv iq s als ads hn -> ans_inv iq (s <| a_buflen ::= n |>) als ads hn.
Proof. intros []. by constructor. Qed.

Lemma inv_minttl iq s als ads hn m : ans_inv iq s als ads hn -> ans_inv iq (s <| a_minttl ::= m |>) als ads hn.
Proof. intros []. by constructor. Qed.

(** The pointer moves on: what was below it stays below. *)
Lemma inv_bp iq s als ads hn bp : ans_inv iq s als ads hn -> a_bp s <= bp <= HOSTBUF_SIZE ->
  ans_inv iq (s <| a_bp ::= bp |>) als ads hn.
Proof.
  intros [] Hbp. constructor; cbn in *; try done; try lia.
  - eapply ptrs_impl; [|done]. intros p t. apply holds_str_mono. lia.
  - eapply ptrs_impl; [|done]. intros p t [? ?]. split; [|done]. eapply holds_mono; [|done]. lia.
  - intros t Ht. destruct (ai_name0 t Ht) as (p & Hp & Ht'). exists p. split; [done|].
    eapply holds_str_mono; [|done]. lia.
Qed.

(** The text behind [dn_expand]: labels with their bytes. *)
Lemma encodes_bytes msg p ls c s : bytesP msg -> encodes msg p ls c s -> Forall bytesP ls.
Proof. intros Hm. induction 1; try constructor; try done. by apply zslice_Forall. Qed.

Lemma escape_bytes l : bytesP l -> bytesP (escape l).
Proof.
  induction 1 as [|c l Hc _ IH]; [constructor|]. change (c :: l) with ([c] ++ l). rewrite escape_app.
  apply Forall_app. split; [|done]. unfold escape. cbn [mbind list_bind]. rewrite app_nil_r.
  destruct (c =? DOT); repeat (apply Forall_cons_2; [done|]); constructor.
Qed.

Lemma dotted_bytes ls : Forall bytesP ls -> bytesP (dotted ls).
Proof.
  induction 1 as [|l ls Hl _ IH]; [constructor|]. cbn [dotted]. destruct ls; [by apply escape_bytes|].
  apply Forall_app. split; [by apply escape_bytes|]. by constructor.
Qed.

Lemma expand_name_ok iq msg s als ads hn :
  bytesP msg -> ans_inv iq s als ads hn -> buf_ok s -> 0 < a_buflen s ->
  exists n s', expand_name msg s = Some (n, s') /\ ans_inv iq s' als ads hn /\
    a_cp s' = a_cp s /\ a_bp s' = a_bp s /\ a_buflen s' = a_buflen s /\ a_minttl s' = a_minttl s /\
    a_have s' = a_have s /\ a_getclass s' = a_getclass s /\
    h_addrtype (a_hs s') = h_addrtype (a_hs s) /\
    ((exists ls cost, encodes msg (a_cp s) ls cost n /\ 0 < n /\ (cost = 0 \/ cost < zlen msg) /\
        zlen (dotted ls) < a_buflen s /\ named s' (ctext (dotted ls))) \/
     (n = -1 /\ forall ls cost size, encodes msg (a_cp s) ls cost size ->
        cost = 0 \/ cost < zlen msg -> a_buflen s <= zlen (dotted ls))).
Proof.
  intros Hm Hi Hbuf Hpos. unfold buf_ok in Hbuf. pose proof Hi as Hi'. destruct Hi'. unfold expand_name.
  destruct (dn_expand_ok msg (a_cp s) (a_buflen s) Hm ai_cp0) as (n & out & Hx & H).
  pose proof (dn_expand_written _ _ _ _ _ Hm Hx) as [Hw Hb]. rewrite Hx. cbn [mbind option_bind].
  destruct (blit_same (hostbuf (a_hs s)) (a_bp s) out) as (hb & -> & Hs & Hg & Hbb);
    [lia|lia|]. cbn [mbind option_bind].
  assert (Hs' : same_except (a_bp s) HOSTBUF_SIZE (hostbuf (a_hs s)) hb)
    by (eapply same_except_mono; [..|done]; lia).
  exists n. eexists. split; [done|]. split; [by apply inv_buf, Hbb; [done|..]|].
  split_and!; [done..|]. destruct H as [(ls & cost & He & Hc & Hfit & -> & Hn)|H]; [left|by right].
  exists ls, cost. split_and!; [done..|].
  destruct (ctext_prefix (dotted ls)) as (r & Hr). split; [|apply ctext_nonzero].
  cbn. pose proof (zlen_nonneg r). rewrite Hr in *. rewrite zlen_app in *.
  set (t := ctext (dotted ls) ++ [0]) in *. split_and!; [lia|lia|].
  apply list_eq. intros i. rewrite <- !zget_nat. destruct (decide (Z.of_nat i < zlen t)).
  - rewrite zget_zslice, Hg, zget_app_l by lia. done.
  - assert (H1 : zlen (zslice hb (a_bp s) (zlen t)) = zlen t).
    { apply zslice_len; [lia|apply zlen_nonneg|]. destruct Hs'. lia. }
    rewrite (proj2 (zget_None (zslice _ _ _) _)) by lia. symmetry. apply zget_None. lia.
Qed.

Lemma keep_name_ok iq s als ads hn t : ans_inv iq s als ads hn -> named s t ->
  exists s', keep_name s = Some s' /\ ans_inv iq s' als ads hn /\
    s' = s <| a_bp ::= a_bp s + zlen t + 1 |> <| a_buflen ::= a_buflen s - zlen t - 1 |> /\
    holds_str (hostbuf (a_hs s')) (a_bp s') (a_bp s) t.
Proof.
  intros Hi Hn. unfold keep_name. rewrite (strlen_holds _ _ _ _ Hn). cbn [mbind option_bind].
  pose proof Hn as [(Hp & Hle & Hd) Ht]. rewrite zlen_app in Hle. change (zlen [0]) with 1 in Hle.
  pose proof Hi as []. eexists. split; [done|]. split_and!.
  - apply inv_buflen, inv_bp; [done|]. pose proof (zlen_nonneg t). lia.
  - replace (a_bp s + (zlen t + 1)) with (a_bp s + zlen t + 1) by lia.
    by replace (a_buflen s - (zlen t + 1)) with (a_buflen s - zlen t - 1) by lia.
  - cbn. split; [|done]. split_and!; [lia|rewrite zlen_app; change (zlen [0]) with 1; lia|done].
Qed.

Lemma inv_alias iq s als ads hn t bp : ans_inv iq s als ads hn -> zlen als < 34 ->
  a_bp s <= bp <= HOSTBUF_SIZE -> holds_str (hostbuf (a_hs s)) bp (a_bp s) t ->
  ans_inv iq (s <| a_bp ::= bp |> <| a_ap ::= a_ap s + 1 |>
    <| a_hs ::= a_hs s <| host_aliases ::= zset (host_aliases (a_hs s)) (a_ap s) (Some (a_bp s)) |>
                       <| host_alias_count ::= host_alias_count (a_hs s) + 1 |> |>) (als ++ [t]) ads hn.
Proof.
  intros Hi Hl Hbp Ht. apply (inv_bp _ _ _ _ _ bp) in Hi; [|done]. destruct Hi.
  unfold MAXALIASES in *. cbn in *. constructor; cbn; try done; try lia.
  - by rewrite zlen_zset.
  - rewrite zlen_app. change (zlen [t]) with 1. unfold MAXALIASES. lia.
  - rewrite zlen_app. change (zlen [t]) with 1. lia.
  - rewrite ai_ap0. apply ptrs_snoc; [lia|done|done].
Qed.

Lemma rr_cname_ok iq n s als ads hn t :
  ans_inv iq s als ads hn -> buf_ok s -> named s t -> 0 <= n ->
  exists s', rr_cname n s = Some (Continue s') /\
    ans_inv iq s' (if zlen als <? 34 then als ++ [t] else als) ads hn /\ buf_ok s' /\
    a_bp s <= a_bp s' <= a_bp s + zlen t + 1 /\ a_cp s' = a_cp s + n /\
    a_minttl s' = a_minttl s /\ a_getclass s' = a_getclass s /\ a_have s' = a_have s /\
    h_addrtype (a_hs s') = h_addrtype (a_hs s).
Proof.
  intros Hi Hb Hn H0. unfold rr_cname. pose proof Hi as []. cbn. unfold MAXALIASES in *.
  pose proof (zlen_nonneg t). pose proof (zlen_nonneg als). destruct (_ <=? _) eqn:E.
  { exists (s <| a_cp ::= a_cp s + n |>). destruct (zlen als <? 34) eqn:?; [lia|].
    split_and!; try done; cbn; try lia. apply inv_cp; [done|lia]. }
  rewrite put_ptr_ok by lia. cbn [mbind option_bind].
  destruct (zlen als <? 34) eqn:?; [|lia].
  unfold keep_name. cbn. unfold named in Hn. rewrite (strlen_holds _ _ _ _ Hn). cbn [mbind option_bind].
  pose proof Hn as [(Hp & Hle & Hd) Ht]. rewrite zlen_app in Hle. change (zlen [0]) with 1 in Hle.
  eexists. split; [done|]. split_and!; try done; unfold buf_ok in *; cbn; try lia.
  assert (Hs : holds_str (hostbuf (a_hs s)) (a_bp s + (zlen t + 1)) (a_bp s) t).
  { split; [|done]. split_and!; [lia|rewrite zlen_app; change (zlen [0]) with 1; lia|done]. }
  pose proof (inv_alias iq s als ads hn t (a_bp s + (zlen t + 1)) Hi ltac:(lia) ltac:(lia) Hs) as Ha.
  apply (inv_cp _ _ _ _ _ (a_cp s + n)) in Ha; [|lia].
  apply (inv_buflen _ _ _ _ _ (a_buflen s - (zlen t + 1))) in Ha. exact Ha.
Qed.

(** [h_name] is the string that has just been kept. *)
Lemma inv_name iq s als ads t hn p : ans_inv iq s als ads hn ->
  holds_str (hostbuf (a_hs s)) (a_bp s) p t ->
  ans_inv iq (s <| a_hs ::= a_hs s <| h_name ::= Some p |> |>) als ads (Some t).
Proof.
  intros [] Ht. constructor; cbn; try done.
  - intros t' [= <-]. by exists p.
  - intros Hh. destruct (ai_have0 Hh). by split.
Qed.

Lemma rr_ptr_ok msg s als ads hn :
  bytesP msg -> ans_inv true s als ads hn -> buf_ok s -> 0 < a_buflen s ->
  exists s' hn', rr_ptr msg s = Some (Break s') /\ ans_inv true s' als ads hn' /\
    ((exists ls cost n, encodes msg (a_cp s) ls cost n /\ hn' = Some (ctext (dotted ls)) /\ a_have s' = 1) \/
     (hn' = hn /\ a_have s' = a_have s)).
Proof.
  intros Hm Hi Hb Hpos. unfold rr_ptr.
  destruct (expand_name_ok true msg s als ads hn Hm Hi Hb Hpos)
    as (n & s1 & -> & Hi1 & Hcp & Hbp & Hbl & Hmt & Hh & Hgc & Hat & H). cbn [mbind option_bind].
  destruct H as [(ls & cost & He & Hn & _ & _ & Ht)|(-> & _)].
  2:{ eexists _, hn. split; [done|]. split; [done|]. by right. }
  destruct (n <? 0) eqn:?; [lia|]. set (t := ctext (dotted ls)) in *. unfold named in Ht.
  rewrite (strlen_holds _ _ _ _ Ht). cbn [mbind option_bind]. eexists _, (Some t). split; [done|].
  split; [|left; by exists ls, cost, n].
  pose proof Ht as [(Hp & Hle & Hd) Hz]. rewrite zlen_app in Hle. change (zlen [0]) with 1 in Hle.
  pose proof (zlen_nonneg t).
  assert (Hs : holds_str (hostbuf (a_hs s1)) (a_bp s1 + (zlen t + 1)) (a_bp s1) t).
  { split; [|done]. split_and!; [lia|rewrite zlen_app; change (zlen [0]) with 1; lia|done]. }
  pose proof Hi1 as []. apply (inv_bp _ _ _ _ _ (a_bp s1 + (zlen t + 1))) in Hi1; [|lia].
  apply (inv_name _ _ _ _ _ _ _ Hi1) in Hs. apply (inv_cp _ _ _ _ _ (a_cp s1 + n)) in Hs; [|cbn; lia].
  by destruct Hs; constructor.
Qed.

(** An address is stored behind the data. *)
Lemma inv_addr iq s als ads hn hb d : ans_inv iq s als ads hn -> zlen ads < 34 -> zlen d = 4 ->
  a_bp s + 4 <= HOSTBUF_SIZE -> hn <> None -> h_length (a_hs s) = 4 -> iq = false ->
  same_except (a_bp s) HOSTBUF_SIZE (hostbuf (a_hs s)) hb -> bytesP hb -> zslice hb (a_bp s) 4 = d ->
  ans_inv iq (s <| a_bp ::= a_bp s + 4 |> <| a_hap ::= a_hap s + 1 |> <| a_have ::= a_have s + 1 |>
    <| a_hs ::= a_hs s <| h_addr_ptrs ::= zset (h_addr_ptrs (a_hs s)) (a_hap s) (Some (a_bp s)) |>
                       <| hostbuf ::= hb |> <| h_addr_count ::= h_addr_count (a_hs s) + 1 |> |>)
    als (ads ++ [d]) hn.
Proof.
  intros Hi Hl Hd Hbp Hn Hhl Hiq Hs Hb Hz. pose proof (ai_bp _ _ _ _ _ Hi) as Hb0. apply (inv_buf _ _ _ _ _ hb) in Hi; [|done|done].
  apply (inv_bp _ _ _ _ _ (a_bp s + 4)) in Hi; [|cbn; destruct Hi; cbn in *; lia]. destruct Hi.
  unfold MAXADDRS in *. cbn in *. constructor; cbn; try done; try lia.
  - by rewrite zlen_zset.
  - rewrite zlen_app. change (zlen [d]) with 1. unfold MAXADDRS. lia.
  - rewrite zlen_app. change (zlen [d]) with 1. lia.
  - rewrite ai_hap0. apply ptrs_snoc; [lia| |done]. split; [|done]. split_and!; [lia|lia|by rewrite Hd].
  - intros _. split; [by destruct hn|done].
  - rewrite zlen_app. change (zlen [d]) with 1. split; [lia|]. intros Hq. destruct ai_havenot0 as [_ H]. specialize (H Hq). lia.
Qed.

Lemma store_addr_ok msg s als ads hn :
  bytesP msg -> ans_inv false s als ads hn -> buf_ok s -> hn <> None -> h_length (a_hs s) = 4 ->
  a_cp s + 4 <= zlen msg ->
  exists t, store_addr msg 4 s = Some t /\
    match t with
    | Break s' => s' = s
    | Continue s' => buf_ok s' /\ a_bp s <= a_bp s' <= a_bp s + 4 /\ a_cp s' = a_cp s + 4 /\
        a_minttl s' = a_minttl s /\ a_getclass s' = a_getclass s /\
        h_addrtype (a_hs s') = h_addrtype (a_hs s) /\
        ans_inv false s' als (if zlen ads <? 34 then ads ++ [zslice msg (a_cp s) 4] else ads) hn
    end /\ (4 < a_buflen s -> exists s', t = Continue s').
Proof.
  intros Hm Hi Hb Hn Hl Hcp. unfold store_addr. pose proof Hi as []. rewrite Hl. unfold MAXADDRS in *.
  pose proof (zlen_nonneg ads).
  destruct (a_buflen s <=? 4) eqn:E1; [eexists; split; [done|]; split; [done|lia]|].
  destruct (35 <=? h_addr_count (a_hs s)) eqn:E2.
  { eexists. split; [done|]. destruct (zlen ads <? 34) eqn:?; [lia|].
    split; [|by eexists]. split_and!; try done; cbn; try lia. apply inv_cp; [done|lia]. }
  rewrite put_ptr_ok by lia. cbn [mbind option_bind]. rewrite blob_ok by lia. cbn [mbind option_bind].
  assert (Hz : zlen (zslice msg (a_cp s) 4) = 4) by (apply zslice_len; lia). unfold buf_ok in Hb.
  destruct (blit_same (hostbuf (a_hs s)) (a_bp s) (zslice msg (a_cp s) 4)) as (hb & -> & Hs & Hg & Hbb); [lia|lia|].
  cbn [mbind option_bind]. eexists. split; [done|]. split; [|by eexists]. cbn [a_bp a_cp].
  destruct (zlen ads <? 34) eqn:?; [|lia].
  split_and!; unfold buf_ok; try done; cbn; try lia.
  assert (Hsl : zslice hb (a_bp s) 4 = zslice msg (a_cp s) 4).
  { apply list_eq. intros i. rewrite <- !zget_nat. destruct (decide (Z.of_nat i < 4)).
    - rewrite zget_zslice, Hg by lia. done.
    - assert (H1 : zlen (zslice hb (a_bp s) 4) = 4) by (apply zslice_len; destruct Hs; lia).
      rewrite (proj2 (zget_None (zslice hb _ _) _)) by lia. symmetry. apply zget_None. lia. }
  pose proof (inv_addr false s als ads hn hb (zslice msg (a_cp s) 4) Hi ltac:(lia) Hz ltac:(lia) Hn Hl eq_refl
    ltac:(eapply same_except_mono; [..|exact Hs]; lia) ltac:(by apply Hbb, zslice_Forall) Hsl) as Ha.
  apply (inv_buflen _ _ _ _ _ (a_buflen s - 4)) in Ha. apply (inv_cp _ _ _ _ _ (a_cp s + 4)) in Ha; [|lia].
  exact Ha.
Qed.

(** * Resource records *)

Record rr := mk_rr { rr_name : list (list Z); rr_type : Z; rr_class : Z; rr_ttl : Z; rr_data : list Z }.

(** The record at [cp], and where it ends. *)
Definition rr_at (msg : list Z) (cp : Z) (r : rr) (next : Z) : Prop :=
  exists cost size n,
    encodes msg cp (rr_name r) cost size /\ (cost = 0 \/ cost < zlen msg) /\
    getshort msg (cp + size) = Some (rr_type r) /\ getshort msg (cp + size + 2) = Some (rr_class r) /\
    getlong msg (cp + size + 4) = Some (rr_ttl r) /\ getshort msg (cp + size + 8) = Some n /\
    rr_data r = zslice msg (cp + size + 10) n /\ next = cp + size + 10 + n /\ next <= zlen msg.

(** What the records mean for a lookup by name: aliases from CNAME records, addresses from
    A records of the class of the first, the host name its owner, and the least time to live. *)
Record answer := mk_answer {
  f_als : list (list Z); f_ads : list (list Z); f_name : option (list Z); f_class : Z; f_ttl : Z }.
#[export] Instance answer_eta : Eta answer := fun f =>
  mk_answer (f_als f) (f_ads f) (f_name f) (f_class f) (f_ttl f).

Definition owner (r : rr) : list Z := ctext (dotted (rr_name r)).

Definition take_addr (f : answer) (name : list Z) (class : Z) (data : list Z) : answer :=
  if negb (zlen data =? 4) then f
  else if zlen (f_ads f) =? 0 then
    f <| f_name ::= Some name |> <| f_class ::= class |> <| f_ads ::= [data] |>
  else if negb (class =? f_class f) then f
  else f <| f_ads ::= if zlen (f_ads f) <? 34 then f_ads f ++ [data] else f_ads f |>.

Definition take_rr (f : answer) (r : rr) : answer :=
  let f := f <| f_ttl ::= Z.min (rr_ttl r) (f_ttl f) |> in
  if rr_type r =? T_CNAME then
    f <| f_als ::= if zlen (f_als f) <? 34 then f_als f ++ [owner r] else f_als f |>
  else if negb (rr_type r =? T_A) then f
  else take_addr f (owner r) (rr_class r) (rr_data r).

Definition no_answer : answer := mk_answer [] [] None C_ANY 4294967295.

(** The room a record can take in [hostbuf]. *)
Definition rr_room (r : rr) : Z := zlen (dotted (rr_name r)) + 5.

(** ** Fixed fields *)

Lemma getshort_total msg cp : bytesP msg -> 0 <= cp -> cp + 2 <= zlen msg ->
  exists v, getshort msg cp = Some v /\ 0 <= v.
Proof.
  intros Hm Hc Hl. destruct (zget_is_Some msg cp) as [a Ha]; [lia|].
  destruct (zget_is_Some msg (cp + 1)) as [b Hb]; [lia|].
  pose proof (zget_byte _ _ _ Hm Ha). pose proof (zget_byte _ _ _ Hm Hb).
  exists (a * 256 + b). split; [by apply getshort_of|lia].
Qed.

Lemma getlong_total msg cp : 0 <= cp -> cp + 4 <= zlen msg -> exists v, getlong msg cp = Some v.
Proof.
  intros Hc Hl. unfold getlong.
  destruct (zget_is_Some msg cp) as [a ->]; [lia|]. destruct (zget_is_Some msg (cp + 1)) as [b ->]; [lia|].
  destruct (zget_is_Some msg (cp + 2)) as [c ->]; [lia|]. destruct (zget_is_Some msg (cp + 3)) as [d ->]; [lia|].
  by eexists.
Qed.

(** ** One turn of the loop, by name *)

Record tracks (s : anst) (f : answer) : Prop := {
  tr_inv : ans_inv false s (f_als f) (f_ads f) (f_name f);
  tr_buf : buf_ok s;
  tr_ttl : a_minttl s = f_ttl f;
  tr_none : f_ads f = [] -> f_name f = None;
  tr_class : f_ads f <> [] -> a_getclass s = f_class f /\
    h_addrtype (a_hs s) = if f_class f =? C_IN then AF_INET else AF_UNSPEC }.

Lemma inv_first s als ads class t : ans_inv false s als ads None -> a_have s = 0 -> buf_ok s -> named s t ->
  exists s', first_addr false 4 class s = Some s' /\ ans_inv false s' als ads (Some t) /\ buf_ok s' /\
    a_bp s' = a_bp s + zlen t + 1 /\ h_length (a_hs s') = 4 /\ a_cp s' = a_cp s /\
    a_minttl s' = a_minttl s /\ a_getclass s' = class /\
    h_addrtype (a_hs s') = if class =? C_IN then AF_INET else AF_UNSPEC.
Proof.
  intros Hi Hh Hb Hn. unfold first_addr, keep_name. cbn. unfold named in Hn.
  rewrite (strlen_holds _ _ _ _ Hn). cbn [mbind option_bind].
  pose proof Hn as [(Hp & Hle & Hd) Hz]. rewrite zlen_app in Hle. change (zlen [0]) with 1 in Hle.
  pose proof (zlen_nonneg t). unfold buf_ok in *.
  assert (Hs : holds_str (hostbuf (a_hs s)) (a_bp s + (zlen t + 1)) (a_bp s) t).
  { split; [|done]. split_and!; [lia|rewrite zlen_app; change (zlen [0]) with 1; lia|done]. }
  eexists. split; [done|]. split_and!; try done; cbn; try lia.
  apply (inv_bp _ _ _ _ _ (a_bp s + (zlen t + 1))) in Hi; [|lia]. destruct Hi. constructor; cbn in *; try done.
  intros t' [= <-]. by exists (a_bp s).
Qed.

Lemma zlen_zero {A} (l : list A) : (zlen l =? 0) = true -> l = [].
Proof. destruct l; [done|]. rewrite zlen_cons. pose proof (zlen_nonneg l). lia. Qed.

Lemma zlen_pos {A} (l : list A) : (zlen l =? 0) = false -> l <> [].
Proof. by intros H ->. Qed.

Definition turn_inv (iq : bool) (t : turn) : Prop :=
  match t with Continue s | Break s => exists als ads hn, ans_inv iq s als ads hn end.

(** An address once the host name is known. *)
Lemma store_turn msg s f : bytesP msg -> ans_inv false s (f_als f) (f_ads f) (f_name f) -> buf_ok s ->
  f_name f <> None -> h_length (a_hs s) = 4 -> a_cp s + 4 <= zlen msg ->
  a_minttl s = f_ttl f -> a_getclass s = f_class f ->
  h_addrtype (a_hs s) = (if f_class f =? C_IN then AF_INET else AF_UNSPEC) ->
  exists t, store_addr msg 4 s = Some t /\ turn_inv false t /\
    (4 < a_buflen s -> exists s', t = Continue s') /\
    forall s', t = Continue s' ->
      tracks s' (f <| f_ads ::= if zlen (f_ads f) <? 34 then f_ads f ++ [zslice msg (a_cp s) 4] else f_ads f |>) /\
      a_cp s' = a_cp s + 4 /\ a_bp s <= a_bp s' <= a_bp s + 4.
Proof.
  intros Hm Hi Hb Hn Hl Hcp Ht Hc Ha.
  destruct (store_addr_ok msg s _ _ _ Hm Hi Hb Hn Hl Hcp) as (t & -> & H & Hcont). exists t. split; [done|].
  destruct t as [s'|s'].
  - destruct H as (Hb' & Hbp & Hcp' & Ht' & Hg' & Ha' & Hi'). split; [by eexists _, _, _|]. split; [done|].
    intros ? [= <-]. split; [|lia]. constructor; cbn; [done|done|congruence| |by rewrite Hg', Ha'].
    intros H0. exfalso. destruct (zlen (f_ads f) <? 34) eqn:E; [by destruct (f_ads f)|]. rewrite H0 in E. done.
  - subst s'. split; [by eexists _, _, _|]. by split.
Qed.

Lemma rr_addr_turn msg s f t class n :
  bytesP msg -> tracks s f -> named s t -> 0 <= n -> a_cp s + n <= zlen msg ->
  exists tn, rr_addr msg false class n s = Some tn /\ turn_inv false tn /\
    (zlen t + 5 < a_buflen s -> exists s', tn = Continue s') /\
    forall s', tn = Continue s' ->
      tracks s' (take_addr f t class (zslice msg (a_cp s) n)) /\ a_cp s' = a_cp s + n /\
      a_bp s <= a_bp s' <= a_bp s + zlen t + 5.
Proof.
  intros Hm Htr Hn Hn0 Hcp. pose proof Htr as [Hi Hb Ht Hnone Hcl]. pose proof (ai_cp _ _ _ _ _ Hi) as Hc0.
  pose proof (zlen_nonneg t).
  assert (Hz : zlen (zslice msg (a_cp s) n) = n) by (apply zslice_len; lia).
  assert (Hnext : forall f', f' = f -> exists tn, Some (Continue (s <| a_cp ::= a_cp s + n |>)) = Some tn /\
    turn_inv false tn /\ (zlen t + 5 < a_buflen s -> exists s', tn = Continue s') /\
    forall s', tn = Continue s' -> tracks s' f' /\ a_cp s' = a_cp s + n /\ a_bp s <= a_bp s' <= a_bp s + zlen t + 5).
  { intros f' ->. eexists. split; [done|].
    assert (Hi' : ans_inv false (s <| a_cp ::= a_cp s + n |>) (f_als f) (f_ads f) (f_name f)) by (apply inv_cp; [done|lia]).
    split; [by eexists _, _, _|]. split; [by eexists|]. intros s' [= <-]. split; [|cbn; lia]. by constructor. }
  unfold rr_addr, take_addr. rewrite Hz. destruct (negb (n =? 4)) eqn:E4; [by apply Hnext|].
  assert (n = 4) as -> by lia. pose proof Hi as []. destruct ai_havenot0 as [_ Hhave]. specialize (Hhave eq_refl).
  rewrite Hhave. destruct (zlen (f_ads f) =? 0) eqn:E0; cbn [negb].
  - apply zlen_zero in E0. rewrite (Hnone E0) in Hi. rewrite E0 in Hi, Hhave.
    destruct (inv_first s _ _ class t Hi Hhave Hb Hn) as (s1 & -> & Hi1 & Hb1 & Hbp1 & Hl1 & Hcp1 & Ht1 & Hg1 & Ha1).
    cbn [mbind option_bind].
    destruct (store_turn msg s1 (f <| f_name ::= Some t |> <| f_class ::= class |>)) as (tn & -> & H1 & H2 & H3);
      try done; [by cbn; rewrite E0|lia|by rewrite Ht1|].
    exists tn. split; [done|]. split; [done|]. unfold buf_ok in *. split; [intros; apply H2; lia|].
    intros s' Hs'. destruct (H3 s' Hs') as (Htk & Hc' & Hb'). cbn in Htk. rewrite E0 in Htk. cbn in Htk.
    rewrite Hcp1 in *. split; [done|]. lia.
  - pose proof (zlen_pos _ E0) as Hne. destruct (Hcl Hne) as [Hg Ha].
    destruct (ai_have0 ltac:(lia)) as [[nm Hnm] Hl]. specialize (Hl eq_refl). rewrite Hl. cbn [negb Z.eqb Pos.eqb].
    rewrite Hg. destruct (negb (class =? f_class f)); [by apply Hnext|].
    destruct (store_turn msg s f) as (tn & -> & H1 & H2 & H3); try done; [by rewrite Hnm|].
    exists tn. split; [done|]. split; [done|]. split; [intros; apply H2; lia|].
    intros s' Hs'. destruct (H3 s' Hs') as (Htk & Hc' & Hb'). split; [done|]. lia.
Qed.

Lemma ctext_len t : zlen (ctext t) <= zlen t.
Proof.
  induction t as [|c t IH]; cbn [ctext]; [lia|]. destruct (c =? 0); autorewrite with zlen; [|lia].
  pose proof (zlen_nonneg t). lia.
Qed.

Lemma rr_at_det msg cp r next r' next' : rr_at msg cp r next -> rr_at msg cp r' next' -> r = r' /\ next = next'.
Proof.
  intros (c & z & n & He & _ & H1 & H2 & H3 & H4 & H5 & -> & _) (c' & z' & n' & He' & _ & G1 & G2 & G3 & G4 & G5 & -> & _).
  destruct (encodes_det _ _ _ _ _ _ _ _ He He') as (Hn & _ & ->). destruct r, r'; cbn in *. by simplify_eq.
Qed.

(** One turn: it ends, the invariant is kept, and as long as it goes on a record has been
    read and taken; a record with room in the buffer is taken. *)
Lemma answer_rr_turn msg s f : bytesP msg -> tracks s f ->
  exists t, answer_rr msg false s = Some t /\ turn_inv false t /\
    (forall s', t = Continue s' -> exists r next, rr_at msg (a_cp s) r next /\ tracks s' (take_rr f r) /\
       a_cp s' = next /\ a_bp s <= a_bp s' <= a_bp s + rr_room r) /\
    (forall r next, rr_at msg (a_cp s) r next -> a_bp s + rr_room r < HOSTBUF_SIZE -> exists s', t = Continue s').
Proof.
  intros Hm Htr. pose proof Htr as [Hi Hb Ht Hnone Hcl]. pose proof (ai_cp _ _ _ _ _ Hi) as Hc0.
  unfold answer_rr, rr_room. unfold buf_ok in Hb.
  assert (Hstop : forall s', ans_inv false s' (f_als f) (f_ads f) (f_name f) ->
    (forall r next, rr_at msg (a_cp s) r next -> HOSTBUF_SIZE <= a_bp s + (zlen (dotted (rr_name r)) + 5)) ->
    exists t, Some (Break s') = Some t /\ turn_inv false t /\
    (forall s', t = Continue s' -> exists r next, rr_at msg (a_cp s) r next /\ tracks s' (take_rr f r) /\
       a_cp s' = next /\ a_bp s <= a_bp s' <= a_bp s + (zlen (dotted (rr_name r)) + 5)) /\
    (forall r next, rr_at msg (a_cp s) r next -> a_bp s + (zlen (dotted (rr_name r)) + 5) < HOSTBUF_SIZE -> exists s', t = Continue s')).
  { intros s' Hi' Hno. exists (Break s'). split; [done|]. split; [by eexists _, _, _|]. split; [done|].
    intros r next Hr Hroom. specialize (Hno r next Hr). lia. }
  destruct (a_buflen s <=? 0) eqn:E0.
  { apply Hstop; [done|]. intros r next Hr. pose proof (zlen_nonneg (dotted (rr_name r))). lia. }
  destruct (expand_name_ok false msg s _ _ _ Hm Hi Hb ltac:(lia))
    as (n & s1 & -> & Hi1 & Hcp & Hbp & Hbl & Hmt & Hh & Hgc & Hat & H). cbn [mbind option_bind].
  destruct H as [(ls & cost & He & Hn & Hk & Hfit & Hnm)|(-> & Hno)].
  2:{ apply Hstop; [done|]. intros r next (c & z & n & He & Hk & _). specialize (Hno _ _ _ He Hk). lia. }
  destruct (n <? 0) eqn:?; [lia|]. rewrite Hcp.
  assert (Hdet : forall r next, rr_at msg (a_cp s) r next -> a_cp s + n + 10 <= zlen msg /\
    exists n', getshort msg (a_cp s + n + 8) = Some n' /\ a_cp s + n + 10 + n' <= zlen msg).
  { intros r next (c & z & n' & He' & _ & _ & _ & _ & H4 & _ & -> & Hle).
    destruct (encodes_det _ _ _ _ _ _ _ _ He He') as (_ & _ & <-).
    destruct (decide (a_cp s + n + 10 <= zlen msg)); [split; [done|]; by exists n'|].
    exfalso. unfold getshort in H4. destruct (zget msg (a_cp s + n + 8)) as [a|] eqn:G; [|done]. cbn in H4.
    destruct (zget msg (a_cp s + n + 8 + 1)) as [b|] eqn:G1; [|done]. apply zget_Some in G1. lia. }
  destruct (zlen msg <? a_cp s + n + 10) eqn:E1.
  { apply Hstop; [by apply inv_cp; [|lia]|]. intros r next Hr. destruct (Hdet r next Hr). lia. }
  destruct (getshort_total msg (a_cp s + n) Hm ltac:(lia) ltac:(lia)) as (type & Hty & _).
  destruct (getshort_total msg (a_cp s + n + 2) Hm ltac:(lia) ltac:(lia)) as (class & Hcs & _).
  destruct (getlong_total msg (a_cp s + n + 4) ltac:(lia) ltac:(lia)) as (ttl & Httl).
  destruct (getshort_total msg (a_cp s + n + 8) Hm ltac:(lia) ltac:(lia)) as (m & Hmm & Hm0).
  rewrite Hty, Hcs, Httl, Hmm. cbn [mbind option_bind]. cbv zeta.
  set (s2 := s1 <| a_minttl ::= _ |> <| a_cp ::= _ |>).
  assert (Hi2 : ans_inv false s2 (f_als f) (f_ads f) (f_name f)) by (apply inv_cp; [by apply inv_minttl|lia]).
  change (a_cp s2) with (a_cp s + n + 10).
  destruct ((m <? 0) || _) eqn:E2.
  { apply Hstop; [done|]. intros r next Hr. destruct (Hdet r next Hr) as (_ & n' & Hn' & ?). simplify_eq. lia. }
  set (r := mk_rr ls type class ttl (zslice msg (a_cp s + n + 10) m)).
  assert (Hr : rr_at msg (a_cp s) r (a_cp s + n + 10 + m)).
  { exists cost, n, m. split_and!; try done. lia. }
  set (f1 := f <| f_ttl ::= Z.min ttl (f_ttl f) |>).
  assert (Htr2 : tracks s2 f1).
  { constructor; cbn; try done; unfold buf_ok; cbn; [lia| |by rewrite Hgc, Hat]. rewrite Hmt, Ht. destruct (ttl <? f_ttl f) eqn:?; lia. }
  assert (Hnm2 : named s2 (owner r)) by done.
  pose proof (ctext_len (dotted ls)) as Hcl2.
  assert (Hgo : forall f' tn, turn_inv false tn ->
     (zlen (owner r) + 5 < a_buflen s2 -> exists s', tn = Continue s') ->
     (forall s', tn = Continue s' -> tracks s' f' /\ a_cp s' = a_cp s2 + m /\ a_bp s2 <= a_bp s' <= a_bp s2 + zlen (owner r) + 5) ->
     f' = take_rr f r ->
     exists t, Some tn = Some t /\ turn_inv false t /\
     (forall s', t = Continue s' -> exists r next, rr_at msg (a_cp s) r next /\ tracks s' (take_rr f r) /\
       a_cp s' = next /\ a_bp s <= a_bp s' <= a_bp s + (zlen (dotted (rr_name r)) + 5)) /\
     (forall r next, rr_at msg (a_cp s) r next -> a_bp s + (zlen (dotted (rr_name r)) + 5) < HOSTBUF_SIZE -> exists s', t = Continue s')).
  { intros f' tn G1 G2 G3 ->. exists tn. split; [done|]. split; [done|].
    change (a_bp s2) with (a_bp s1) in *. change (a_cp s2) with (a_cp s + n + 10) in *. change (a_buflen s2) with (a_buflen s1) in *.
    split.
    - intros s' Hs'. destruct (G3 s' Hs') as (? & ? & ?). exists r, (a_cp s + n + 10 + m).
      split_and!; try done; change (owner r) with (ctext (dotted ls)) in *; cbn; lia.
    - intros r' next' Hr' Hroom. destruct (rr_at_det _ _ _ _ _ _ Hr Hr') as [<- _]. apply G2.
      change (owner r) with (ctext (dotted ls)). cbn in Hroom. lia. }
  destruct (type =? T_CNAME) eqn:E3.
  { destruct (rr_cname_ok false m s2 _ _ _ _ (tr_inv _ _ Htr2) (tr_buf _ _ Htr2) Hnm2 Hm0)
      as (s3 & -> & Hi3 & Hb3 & Hbp3 & Hcp3 & Ht3 & Hg3 & _ & Ha3).
    eapply Hgo; [by eexists _, _, _|by eexists| |reflexivity].
    intros s' [= <-]. split; [|split; [done|pose proof (zlen_nonneg (owner r)); lia]].
    unfold take_rr. change (rr_type r) with type. rewrite E3.
    destruct Htr2 as [? ? Ht2 Hn2 Hc2]. constructor; [done|done|by rewrite Ht3|done|]. intros Hne. by rewrite Hg3, Ha3; apply Hc2. }
  cbn [andb orb]. destruct (negb (type =? T_A)) eqn:E4.
  { eapply (Hgo f1); [|by eexists| |]; [by eexists _, _, _; apply inv_cp; [done|change (a_cp s2) with (a_cp s + n + 10); lia]| |].
    - intros s' Hs'. injection Hs' as <-. pose proof (zlen_nonneg (owner r)).
      split; [|split; [done|split; [apply Z.le_refl|]]].
      + destruct Htr2. constructor; try done. apply inv_cp; [done|change (a_cp s2) with (a_cp s + n + 10); lia].
      + transitivity (a_bp s2); [apply Z.le_refl|lia].
    - unfold take_rr. change (rr_type r) with type. by rewrite E3, E4. }
  destruct (rr_addr_turn msg s2 f1 (owner r) class m Hm Htr2 Hnm2 Hm0) as (tn & -> & G1 & G2 & G3);
    [change (a_cp s2) with (a_cp s + n + 10); lia|].
  eapply Hgo; [done|done|done|]. unfold take_rr. change (rr_type r) with type. by rewrite E3, E4.
Qed.

(** One turn of an inverse lookup. *)
Lemma answer_rr_inverse msg s als ads hn : bytesP msg -> ans_inv true s als ads hn -> buf_ok s ->
  exists t, answer_rr msg true s = Some t /\ turn_inv true t /\ (forall s', t = Continue s' -> buf_ok s').
Proof.
  intros Hm Hi Hb. pose proof (ai_cp _ _ _ _ _ Hi) as Hc0. unfold answer_rr.
  assert (Hstop : forall s' als ads hn, ans_inv true s' als ads hn ->
    exists t, Some (Break s') = Some t /\ turn_inv true t /\ (forall s', t = Continue s' -> buf_ok s')).
  { intros s' a d h Hi'. eexists. split; [done|]. by split; [eexists _, _, _|]. }
  assert (Hgo : forall s' als ads hn, ans_inv true s' als ads hn -> buf_ok s' ->
    exists t, Some (Continue s') = Some t /\ turn_inv true t /\ (forall s', t = Continue s' -> buf_ok s')).
  { intros s' a d h Hi' Hb'. eexists. split; [done|]. split; [by eexists _, _, _|]. by intros ? [= <-]. }
  destruct (a_buflen s <=? 0) eqn:E0; [by eapply Hstop|].
  destruct (expand_name_ok true msg s _ _ _ Hm Hi Hb ltac:(lia))
    as (n & s1 & -> & Hi1 & Hcp & Hbp & Hbl & _ & _ & _ & _ & H). cbn [mbind option_bind].
  destruct H as [(ls & cost & He & Hn & Hk & Hfit & Hnm)|(-> & _)]; [|by eapply Hstop].
  destruct (n <? 0) eqn:?; [lia|]. rewrite Hcp.
  destruct (zlen msg <? a_cp s + n + 10) eqn:E1; [eapply Hstop, inv_cp; [done|lia]|].
  destruct (getshort_total msg (a_cp s + n) Hm ltac:(lia) ltac:(lia)) as (type & -> & _).
  destruct (getshort_total msg (a_cp s + n + 2) Hm ltac:(lia) ltac:(lia)) as (class & -> & _).
  destruct (getlong_total msg (a_cp s + n + 4) ltac:(lia) ltac:(lia)) as (ttl & ->).
  destruct (getshort_total msg (a_cp s + n + 8) Hm ltac:(lia) ltac:(lia)) as (m & -> & Hm0).
  cbn [mbind option_bind]. cbv zeta. set (s2 := s1 <| a_minttl ::= _ |> <| a_cp ::= _ |>).
  assert (Hi2 : ans_inv true s2 als ads hn) by (apply inv_cp; [by apply inv_minttl|lia]).
  assert (Hb2 : buf_ok s2) by (unfold buf_ok in *; cbn; lia).
  destruct ((m <? 0) || _) eqn:E2; [by eapply Hstop|].
  destruct (type =? T_CNAME) eqn:E3.
  { destruct (rr_cname_ok true m s2 _ _ _ _ Hi2 Hb2 Hnm Hm0) as (s3 & -> & Hi3 & Hb3 & _).
    eexists. split; [done|]. split; [by eexists _, _, _|]. by intros ? [= <-]. }
  destruct (type =? T_PTR) eqn:E4; cbn [andb orb].
  - destruct (rr_ptr_ok msg s2 als ads hn Hm Hi2 Hb2 ltac:(change (a_buflen s2) with (a_buflen s1); lia))
      as (s3 & hn' & -> & Hi3 & _). by eapply Hstop.
  - eapply Hgo; [apply inv_cp; [done|change (a_cp s2) with (a_cp s + n + 10); lia]|done].
Qed.

(** The loop returns, whatever the message holds. *)
Lemma answer_loop_safe k msg iq : bytesP msg -> forall s f,
  (if iq : bool then exists als ads hn, ans_inv true s als ads hn /\ buf_ok s else tracks s f) ->
  exists s' als ads hn, answer_loop k msg iq s = Some s' /\ ans_inv iq s' als ads hn.
Proof.
  intros Hm. induction k as [|k IH]; intros s f Hs; cbn [answer_loop].
  - destruct iq; [destruct Hs as (als & ads & hn & Hi & _)|destruct Hs]; by eexists _, _, _, _.
  - destruct (zlen msg <=? a_cp s).
    { destruct iq; [destruct Hs as (als & ads & hn & Hi & _)|destruct Hs]; by eexists _, _, _, _. }
    destruct iq.
    + destruct Hs as (als & ads & hn & Hi & Hb).
      destruct (answer_rr_inverse msg s als ads hn Hm Hi Hb) as (t & -> & Ht & Hc). cbn [mbind option_bind].
      destruct t as [s'|s']; destruct Ht as (als' & ads' & hn' & Hi'); [|by eexists _, _, _, _].
      apply (IH s' f). exists als', ads', hn'. split; [done|by apply Hc].
    + destruct (answer_rr_turn msg s f Hm Hs) as (t & -> & Ht & Hc & _). cbn [mbind option_bind].
      destruct t as [s'|s']; [|destruct Ht as (als' & ads' & hn' & Hi'); by eexists _, _, _, _].
      destruct (Hc s' eq_refl) as (r & next & _ & Htr & _). by apply (IH s' (take_rr f r)).
Qed.

(** The records from [cp] on. *)
Inductive rrs (msg : list Z) : Z -> list rr -> Prop :=
  | rrs_nil cp : rrs msg cp []
  | rrs_cons cp r next l : rr_at msg cp r next -> rrs msg next l -> rrs msg cp (r :: l).

Fixpoint rrs_room (l : list rr) : Z :=
  match l with [] => 0 | r :: l => rr_room r + rrs_room l end.

Lemma rrs_room_nonneg l : 0 <= rrs_room l.
Proof.
  induction l as [|r l IH]; cbn [rrs_room]; [lia|]. unfold rr_room. pose proof (zlen_nonneg (dotted (rr_name r))). lia.
Qed.

Lemma answer_loop_records msg : bytesP msg -> forall l s f,
  tracks s f -> rrs msg (a_cp s) l -> a_bp s + rrs_room l < HOSTBUF_SIZE ->
  exists s', answer_loop (length l) msg false s = Some s' /\ tracks s' (fold_left take_rr l f).
Proof.
  intros Hm l. induction l as [|r l IH]; intros s f Hs Hl Hroom; [by exists s|].
  cbn [answer_loop length rrs_room fold_left] in *. inversion Hl as [|? ? next ? Hr Hrs]; subst.
  pose proof (rrs_room_nonneg l).
  assert ((zlen msg <=? a_cp s) = false) as ->.
  { destruct Hr as (c & z & n & He & _). inversion He; subst;
      match goal with H : zget msg (a_cp s) = _ |- _ => apply zget_Some in H end; lia. }
  destruct (answer_rr_turn msg s f Hm Hs) as (t & -> & _ & Hc & Hroom'). cbn [mbind option_bind].
  destruct (Hroom' r next Hr ltac:(lia)) as (s' & ->).
  destruct (Hc s' eq_refl) as (r' & next' & Hr' & Htr & Hcp & Hbp).
  destruct (rr_at_det _ _ _ _ _ _ Hr Hr') as [<- <-]. apply IH; [done|by rewrite Hcp|lia].
Qed.

Lemma skip_questions_total k msg : bytesP msg -> forall cp, 0 <= cp ->
  exists cp', skip_questions k msg cp = Some cp' /\ 0 <= cp'.
Proof.
  intros Hm. induction k as [|k IH]; intros cp Hcp; cbn [skip_questions]; [by eexists|].
  destruct (dn_skipname_total msg cp Hm Hcp) as (r & -> & Hr). cbn [mbind option_bind].
  apply IH. unfold QFIXEDSZ. lia.
Qed.

(** The questions from [cp] on, each a name with type and class. *)
Inductive questions (msg : list Z) : Z -> list (list (list Z)) -> Z -> Prop :=
  | qs_nil cp : questions msg cp [] cp
  | qs_cons cp ls cost size l cp' : encodes msg cp ls cost size ->
      questions msg (cp + size + QFIXEDSZ) l cp' -> questions msg cp (ls :: l) cp'.

Lemma skip_questions_ok msg cp l cp' : bytesP msg -> questions msg cp l cp' -> 0 <= cp ->
  skip_questions (length l) msg cp = Some cp'.
Proof.
  intros Hm. induction 1 as [|cp ls cost size l cp' He _ IH]; intros Hcp; [done|]. cbn [skip_questions length].
  rewrite (dn_skipname_encodes _ _ _ _ _ Hm Hcp He). cbn [mbind option_bind]. apply IH.
  pose proof (encodes_cost _ _ _ _ _ He). unfold QFIXEDSZ. lia.
Qed.

(** * The result *)

(** [struct hoststruct] as it comes from [bsd_malloc]: any contents. *)
Definition hs_ok (h : hoststruct) : Prop :=
  zlen (hostbuf h) = HOSTBUF_SIZE /\ bytesP (hostbuf h) /\
  zlen (host_aliases h) = MAXALIASES + 1 /\ zlen (h_addr_ptrs h) = MAXADDRS + 1.

(** What the caller finds behind the pointers. *)
Definition shows (e : hostent) (name : list Z) (als ads : list (list Z)) : Prop :=
  holds_str (he_data e) (zlen (he_data e)) (he_name e) name /\
  Forall2 (holds_str (he_data e) (zlen (he_data e))) (he_aliases e) als /\
  Forall2 (holds (he_data e) (zlen (he_data e))) (he_addrs e) ads.

Lemma start_inv iq h cp : hs_ok h -> 0 <= cp ->
  ans_inv iq (mk_anst cp 0 HOSTBUF_SIZE 0 C_ANY 4294967295 0 0
    (h <| host_alias_count ::= 1 |> <| h_addr_count ::= 1 |>)) [] [] None.
Proof.
  intros (H1 & H2 & H3 & H4) Hcp. constructor; cbn; try done; unfold HOSTBUF_SIZE, MAXALIASES, MAXADDRS in *; try lia.
  - exists []. by split.
  - exists []. by split.
Qed.

Lemma start_tracks h cp : hs_ok h -> 0 <= cp ->
  tracks (mk_anst cp 0 HOSTBUF_SIZE 0 C_ANY 4294967295 0 0
    (h <| host_alias_count ::= 1 |> <| h_addr_count ::= 1 |>)) no_answer.
Proof. intros Hh Hcp. constructor; try done. by apply start_inv. Qed.

Lemma holds_head hb lim i p d : lim <= i -> holds hb lim p d -> holds (zslice hb 0 i) i p d.
Proof.
  intros Hi (Hp & Hl & Hd). pose proof (zlen_nonneg d). split_and!; [done|lia|].
  rewrite zslice_zslice by lia. done.
Qed.

Lemma holds_str_head hb lim i p t : lim <= i -> holds_str hb lim p t -> holds_str (zslice hb 0 i) i p t.
Proof. intros Hi [H Ht]. split; [by eapply holds_head|done]. Qed.

(** Building the block from a finished [hoststruct]: it fits, and shows what was found. *)
Lemma makehostent_ok iq s als ads t alloc : ans_inv iq s als ads (Some t) ->
  let h := a_hs s <| host_aliases ::= zset (host_aliases (a_hs s)) (a_ap s) None |>
                  <| h_addr_ptrs ::= zset (h_addr_ptrs (a_hs s)) (a_hap s) None |>
                  <| min_ttl ::= a_minttl s |> in
  exists r, makehostent alloc h (a_bp s) = Some r /\
    match r with
    | Some e => shows e t als ads /\ he_length e = h_length (a_hs s) /\ he_addrtype e = h_addrtype (a_hs s)
    | None => exists n, alloc n = false
    end.
Proof.
  intros Hi h. destruct Hi. unfold makehostent.
  set (i := (a_bp s + 3) / 4 * 4). set (n := i + HOSTENT_SIZE + _ + _).
  destruct (alloc n) eqn:Ea; cbn [negb]; [|eexists; split; [done|]; by exists n].
  change (hostbuf h) with (hostbuf (a_hs s)). change (h_name h) with (h_name (a_hs s)).
  assert (Hil : a_bp s <= i <= HOSTBUF_SIZE).
  { unfold HOSTBUF_SIZE in *. subst i. Z.div_mod_to_equations. lia. }
  rewrite blob_ok by lia. cbn [mbind option_bind].
  destruct (ai_name0 t eq_refl) as (p & -> & Hp). cbn [mbind option_bind].
  unfold MAXALIASES, MAXADDRS in *.
  apply ptrs_until_null in ai_als0 as (pa & Hpa & Ha); [|lia].
  apply ptrs_until_null in ai_ads0 as (pd & Hpd & Hd); [|lia].
  change (host_aliases h) with (zset (host_aliases (a_hs s)) (a_ap s) None).
  change (h_addr_ptrs h) with (zset (h_addr_ptrs (a_hs s)) (a_hap s) None).
  rewrite ai_ap0, ai_hap0, Hpa, Hpd. cbn [mbind option_bind].
  apply Forall2_length in Ha as Hla. apply Forall2_length in Hd as Hld.
  change (h_addr_count h) with (h_addr_count (a_hs s)) in n.
  change (host_alias_count h) with (host_alias_count (a_hs s)) in n.
  destruct (n <? _) eqn:En; [unfold zlen in *; lia|]. eexists. split; [done|].
  assert (Hz : zlen (zslice (hostbuf (a_hs s)) 0 i) = i) by (apply zslice_len; lia).
  split; [|done]. unfold shows. cbn [he_data he_name he_aliases he_addrs]. rewrite Hz. split_and!.
  - eapply holds_str_head; [|done]. lia.
  - eapply Forall2_impl; [done|]. intros x y. apply holds_str_head. lia.
  - eapply Forall2_impl; [done|]. intros x y [Hxy _]. revert Hxy. apply holds_head. lia.
Qed.

Lemma ads_length (P : Z -> list Z -> Prop) a xs : ptrs (fun p d => P p d /\ zlen d = 4) a xs ->
  Forall (fun d => zlen d = 4) xs.
Proof. intros (ps & _ & H). clear -H. induction H as [|p x ps xs [_ Hx] _ IH]; by constructor. Qed.

Lemma getanswer_safe_ok h alloc answer len iquery :
  hs_ok h -> bytesP answer -> zlen answer = MAXPACKET -> 0 <= len <= MAXPACKET ->
  exists r, ng_hostent_from_response (Some h) alloc answer len iquery = Some r /\
    match r with
    | Some (e, ttl) => exists name als ads, shows e name als ads /\
        (iquery = false -> ads <> [] /\ Forall (fun d => zlen d = 4) ads /\ he_length e = 4)
    | None => True
    end.
Proof.
  intros Hh Hb Hl Hlen. unfold ng_hostent_from_response, getanswer. unfold MAXPACKET in *.
  set (msg := take _ answer). assert (Hm : bytesP msg) by by apply Forall_take.
  destruct (getshort_total answer 6 Hb ltac:(lia) ltac:(lia)) as (an & -> & _). cbn [mbind option_bind].
  destruct (getshort_total answer 4 Hb ltac:(lia) ltac:(lia)) as (qd & -> & _). cbn [mbind option_bind].
  destruct (zget_is_Some answer 2 ltac:(lia)) as [fl ->]. cbn [mbind option_bind].
  destruct (_ && iquery); [by eexists|].
  destruct (skip_questions_total (Z.to_nat qd) msg Hm HEADER_SIZE ltac:(done)) as (cp & -> & Hcp).
  cbn [mbind option_bind].
  destruct (answer_loop_safe (Z.to_nat an) msg iquery Hm
    (mk_anst cp 0 HOSTBUF_SIZE 0 C_ANY 4294967295 0 0 (h <| host_alias_count ::= 1 |> <| h_addr_count ::= 1 |>)) no_answer)
    as (s & als & ads & hn & -> & Hi).
  { destruct iquery; [|by apply start_tracks]. exists [], [], None. split; [by apply start_inv|done]. }
  cbn [mbind option_bind]. destruct (a_have s =? 0) eqn:E; [by eexists|].
  pose proof Hi as []. destruct (ai_have0 ltac:(lia)) as [[t ->] Hlen4]. unfold MAXALIASES, MAXADDRS in *.
  pose proof (zlen_nonneg als). pose proof (zlen_nonneg ads).
  rewrite !put_ptr_ok by lia. cbn [mbind option_bind].
  destruct (makehostent_ok iquery s als ads t alloc Hi) as (r & Hr & Hs). rewrite Hr. cbn [mbind option_bind].
  destruct r as [e|]; [|by eexists]. eexists. split; [done|]. exists t, als, ads.
  destruct Hs as (Hs & Hhl & _). split; [done|]. intros Hq. destruct ai_havenot0 as [_ Hh']. specialize (Hh' Hq).
  split_and!; [intros ->; rewrite zlen_nil in Hh'; lia|by eapply ads_length|by rewrite Hhl; apply Hlen4].
Qed.

(** C33. Whatever bytes a reply holds, and whatever length up to the size of the query
    buffer it has, looking it up - by name or by address - returns: nothing outside the
    reply, [hostbuf], the pointer arrays and the caller's block is read or written.  When
    there is a result, its name, aliases and addresses are terminated strings and
    addresses inside the caller's block; a lookup by name has at least one address, of
    four bytes each. *)
Theorem getanswer_safe h alloc answer len iquery :
  hs_ok h -> bytesP answer -> zlen answer = MAXPACKET -> 0 <= len <= MAXPACKET ->
  exists r, ng_hostent_from_response (Some h) alloc answer len iquery = Some r /\
    match r with
    | Some (e, ttl) => exists name als ads, shows e name als ads /\
        (iquery = false -> ads <> [] /\ Forall (fun d => zlen d = 4) ads /\ he_length e = 4)
    | None => True
    end.
Proof. apply getanswer_safe_ok. Qed.

(** Only the bytes of the reply matter, not what is behind them in the buffer. *)
Lemma response_same hs0 alloc a b len iq : zlen a = zlen b -> 12 <= len <= zlen a ->
  take (Z.to_nat len) a = take (Z.to_nat len) b ->
  ng_hostent_from_response hs0 alloc a len iq = ng_hostent_from_response hs0 alloc b len iq.
Proof.
  intros Hl Hlen Ht. destruct hs0 as [h|]; [|done]. unfold ng_hostent_from_response, getanswer. rewrite Ht.
  assert (Hz : forall i, i < len -> zget a i = zget b i).
  { intros i Hi. by rewrite <- (zget_take a len i Hi), Ht, zget_take. }
  unfold getshort at 1 2. unfold getshort at 1 2. by rewrite !Hz by lia.
Qed.

(** Zeroed memory and a reply to a query for "a.b": an alias and two addresses. *)
Definition demo_hs : hoststruct :=
  mk_hoststruct (repeat None 36) (repeat None 36) 0 0 0 None 0 0 (repeat 0 512).

Definition demo_query : list Z :=
  match res_mkquery 1000 250000 7 (RES_RECURSE) QUERY [97; 46; 98] C_IN T_A (repeat 0 1024) 1024 with
  | Some (n, buf, _) => take (Z.to_nat n) buf
  | None => []
  end.

Definition demo_reply : list Z :=
  let q := zset (zset demo_query 2 129) 7 3 in
  q ++ [192; 12; 0; 5; 0; 1; 0; 0; 14; 16; 0; 4; 1; 99; 192; 14]
    ++ [1; 99; 192; 14; 0; 1; 0; 1; 0; 0; 0; 60; 0; 4; 10; 0; 0; 1]
    ++ [192; 37; 0; 1; 0; 1; 0; 0; 0; 30; 0; 4; 10; 0; 0; 2].

Definition demo_answer : list Z := demo_reply ++ repeat 0 (1024 - length demo_reply).

Lemma demo_hs_ok : hs_ok demo_hs.
Proof.
  split; [reflexivity|]. split; [apply (bool_decide_unpack _); vm_compute; exact I|]. by split.
Qed.

Lemma getanswer_safe_witness :
  hs_ok demo_hs /\
  exists e ttl, ng_hostent_from_response (Some demo_hs) (fun _ => true) demo_answer 71 false = Some (Some (e, ttl)) /\
    he_length e = 4 /\ ttl = 30.
Proof.
  split; [apply demo_hs_ok|].
  destruct (getanswer_safe demo_hs (fun _ => true) demo_answer 71 false demo_hs_ok) as (r & E & Hr).
  - apply (bool_decide_unpack _). vm_compute. exact I.
  - reflexivity.
  - vm_compute. split; discriminate.
  - destruct r as [[e ttl]|]; [|vm_compute in E; discriminate].
    exists e, ttl. split; [exact E|]. destruct Hr as (name & als & ads & _ & H).
    split; [by apply H|]. vm_compute in E. by injection E.
Defined.

(** C34. A lookup by name gives what the reply says: if behind its questions the reply holds
    the records [l], and there is room in [hostbuf] for their names, the result shows the
    owner of the first address record as the name, the owners of the CNAME records as
    aliases and the addresses of the class of the first, in their order (34 at most of
    each), the least time to live of all records; without any address it is the null
    pointer, and so it is when there is no memory. *)
Theorem getanswer_correct h alloc answer len qs cp l :
  hs_ok h -> bytesP answer -> zlen answer = MAXPACKET -> 0 <= len <= MAXPACKET ->
  getshort answer 4 = Some (zlen qs) -> getshort answer 6 = Some (zlen l) ->
  let msg := take (Z.to_nat len) answer in
  questions msg HEADER_SIZE qs cp -> rrs msg cp l -> rrs_room l < HOSTBUF_SIZE ->
  let f := fold_left take_rr l no_answer in
  exists r, ng_hostent_from_response (Some h) alloc answer len false = Some r /\
    match r with
    | Some (e, ttl) => exists name, f_name f = Some name /\ f_ads f <> [] /\ ttl = f_ttl f /\
        shows e name (f_als f) (f_ads f) /\ he_length e = 4 /\
        he_addrtype e = if f_class f =? C_IN then AF_INET else AF_UNSPEC
    | None => f_ads f = [] \/ exists n, alloc n = false
    end.
Proof.
  intros Hh Hb Hl Hlen Hq Ha msg Hqs Hrs Hroom f. unfold ng_hostent_from_response, getanswer. fold msg.
  unfold MAXPACKET in *. assert (Hm : bytesP msg) by by apply Forall_take.
  rewrite Hq, Ha. cbn [mbind option_bind].
  destruct (zget_is_Some answer 2 ltac:(lia)) as [fl ->]. cbn [mbind option_bind].
  rewrite andb_false_r. replace (Z.to_nat (zlen qs)) with (length qs) by (unfold zlen; lia).
  rewrite (skip_questions_ok _ _ _ _ Hm Hqs ltac:(done)). cbn [mbind option_bind].
  assert (Hcp : 0 <= cp).
  { pose proof (skip_questions_ok _ _ _ _ Hm Hqs ltac:(done)) as H1.
    destruct (skip_questions_total (length qs) msg Hm HEADER_SIZE ltac:(done)) as (cp' & H2 & ?). congruence. }
  replace (Z.to_nat (zlen l)) with (length l) by (unfold zlen; lia).
  destruct (answer_loop_records msg Hm l _ _ (start_tracks h cp Hh Hcp) Hrs Hroom) as (s & -> & Htr).
  cbn [mbind option_bind]. fold f in Htr. destruct Htr as [Hi _ Httl Hnone Hcl].
  pose proof Hi as []. destruct ai_havenot0 as [_ Hhave]. specialize (Hhave eq_refl). rewrite Hhave.
  destruct (zlen (f_ads f) =? 0) eqn:E; [eexists; split; [done|]; left; by apply zlen_zero|].
  destruct (ai_have0 ltac:(lia)) as [[t Ht] Hlen4]. unfold MAXALIASES, MAXADDRS in *.
  pose proof (zlen_nonneg (f_als f)). pose proof (zlen_nonneg (f_ads f)).
  rewrite !put_ptr_ok by lia. cbn [mbind option_bind]. rewrite Ht in Hi.
  destruct (makehostent_ok false s _ _ t alloc Hi) as (r & Hr & Hs). rewrite Hr. cbn [mbind option_bind].
  destruct r as [e|]; [|eexists; split; [done|]; by right]. eexists. split; [done|].
  destruct Hs as (Hs & Hhl & Hat). pose proof (zlen_pos _ E) as Hne. destruct (Hcl Hne) as [_ Hc].
  exists t. split_and!; [done|done|done|done|by rewrite Hhl; apply Hlen4|by rewrite Hat].
Qed.

Definition demo_records : list rr :=
  [mk_rr [[97]; [98]] T_CNAME C_IN 3600 [1; 99; 192; 14];
   mk_rr [[99]; [98]] T_A C_IN 60 [10; 0; 0; 1];
   mk_rr [[99]; [98]] T_A C_IN 30 [10; 0; 0; 2]].

Lemma demo_rrs : let msg := take (Z.to_nat 71) demo_answer in
  questions msg HEADER_SIZE [[[97]; [98]]] 21 /\ rrs msg 21 demo_records.
Proof.
  intros msg. assert (Hmsg : msg = demo_reply) by by vm_compute. rewrite Hmsg. clear msg Hmsg.
  assert (E14 : encodes demo_reply 14 [[98]] 0 3).
  { apply (enc_label demo_reply 14 1 [] 0 1); [reflexivity|lia|vm_compute; congruence|]. by apply enc_root. }
  assert (E12 : encodes demo_reply 12 [[97]; [98]] 0 5).
  { apply (enc_label demo_reply 12 1 [[98]] 0 3); [reflexivity|lia|vm_compute; congruence|exact E14]. }
  assert (E37 : encodes demo_reply 37 [[99]; [98]] 4 4).
  { apply (enc_label demo_reply 37 1 [[98]] 2 2); [reflexivity|lia|vm_compute; congruence|].
    by apply (enc_pointer demo_reply 39 192 14 [[98]] 0 3). }
  split.
  { apply (qs_cons demo_reply 12 [[97]; [98]] 0 5 [] 21); [exact E12|]. apply (qs_nil demo_reply 21). }
  apply (rrs_cons _ 21 _ 37).
  { exists 2, 2, 4. split; [by apply (enc_pointer demo_reply 21 192 12 [[97]; [98]] 0 5)|].
    split; [right; by vm_compute|]. by vm_compute. }
  apply (rrs_cons _ 37 _ 55).
  { exists 4, 4, 4. split; [exact E37|]. split; [right; by vm_compute|]. by vm_compute. }
  apply (rrs_cons _ 55 _ 71); [|constructor].
  exists 6, 2, 4. split; [by apply (enc_pointer demo_reply 55 192 37 [[99]; [98]] 4 4)|].
  split; [right; by vm_compute|]. by vm_compute.
Qed.

Lemma getanswer_correct_witness :
  exists e, ng_hostent_from_response (Some demo_hs) (fun _ => true) demo_answer 71 false = Some (Some (e, 30)) /\
    shows e [99; 46; 98] [[97; 46; 98]] [[10; 0; 0; 1]; [10; 0; 0; 2]] /\ he_addrtype e = AF_INET.
Proof.
  destruct demo_rrs as [Hq Hr].
  destruct (getanswer_correct demo_hs (fun _ => true) demo_answer 71 [[[97]; [98]]] 21 demo_records demo_hs_ok) as (r & E & H).
  - apply (bool_decide_unpack _). vm_compute. exact I.
  - reflexivity.
  - vm_compute. split; discriminate.
  - reflexivity.
  - reflexivity.
  - exact Hq.
  - exact Hr.
  - reflexivity.
  - destruct r as [[e ttl]|]; [|vm_compute in E; discriminate].
    destruct H as (name & Hn & _ & -> & Hs & _ & Ha). vm_compute in Hn. injection Hn as <-.
    exists e. split; [exact E|]. split; [exact Hs|exact Ha].
Defined.
