(* ===== verification/DnsCache.v ===== *)
(** The cache of name server answers ([api/dns_cache.c]).

    The clock is the [ULONG] of [GetSysTime]; each call holds the semaphore over the
    table, so a call is one step.  Memory is a parameter: a call is told whether its
    [AllocVec]s succeed.  A name is the list of its characters, without the terminator. *)
From S2P Require Import Prelude DnsName DnsAnswer.

Definition DNS_CACHE_TTL_MIN : Z := 30.
Definition DNS_CACHE_TTL_MAX : Z := 3600.
Definition DNS_CACHE_NEG_TTL : Z := 30.
Definition DNS_CACHE_MAXRESP : Z := 1024.

(** [struct dns_ent]; [resp_len] is the length of [e_response]. *)
Record dns_ent := mk_ent {
  e_name : option (list Z); e_response : option (list Z); e_type : Z; e_negative : bool; e_expiry : Z }.
#[export] Instance dns_ent_eta : Eta dns_ent := fun e =>
  mk_ent (e_name e) (e_response e) (e_type e) (e_negative e) (e_expiry e).

Definition ent_empty : dns_ent := mk_ent None None 0 false 0.

Definition lower (c : Z) : Z := if (65 <=? c) && (c <=? 90) then c + 32 else c.

Fixpoint name_ieq (lc raw : list Z) : bool :=
  match lc, raw with
  | [], [] => true
  | l :: lc, r :: raw => if l =? lower r then name_ieq lc raw else false
  | _, _ => false
  end.

Definition name_dup_lc (s : list Z) : list Z := map lower s.

(** [(LONG)(now - e->expiry) >= 0]. *)
Definition expired (now : Z) (e : dns_ent) : bool := 0 <=? s32 (now - e_expiry e).

(** [ent_clear(e)]. *)
Definition ent_clear (i : nat) (tab : list dns_ent) : list dns_ent := <[i := ent_empty]> tab.

(** [pick_slot]: an empty or expired slot, else the one that expires first.  [victim] is
    the best so far. *)
Fixpoint pick_slot (now : Z) (tab : list dns_ent) (i : nat) (victim : option (nat * dns_ent)) : option nat :=
  match tab with
  | [] => fst <$> victim
  | c :: tab =>
      match e_name c with
      | None => Some i
      | Some _ =>
          if expired now c then Some i else
          let better := match victim with
                        | None => true
                        | Some (_, v) => s32 (e_expiry c - e_expiry v) <? 0
                        end in
          pick_slot now tab (S i) (if better then Some (i, c) else victim)
      end
  end.

(** [e->name != NULL && e->type == type && name_ieq(e->name, name)]. *)
Definition ent_match (name : list Z) (type : Z) (e : dns_ent) : bool :=
  match e_name e with
  | Some n => (e_type e =? type) && name_ieq n name
  | None => false
  end.

Fixpoint match_at (name : list Z) (type : Z) (tab : list dns_ent) (i : nat) : option (nat * dns_ent) :=
  match tab with
  | [] => None
  | e :: tab => if ent_match name type e then Some (i, e) else match_at name type tab (S i)
  end.

(** [ent_find]: the live entry, and the table with an expired match cleared. *)
Definition ent_find (name : list Z) (type now : Z) (tab : list dns_ent) : option (nat * dns_ent) * list dns_ent :=
  match match_at name type tab 0 with
  | Some (i, e) => if expired now e then (None, ent_clear i tab) else (Some (i, e), tab)
  | None => (None, tab)
  end.

(** The static state: [dns_ready] and the table, [dns_tab_n] long. *)
Record dns_cache := mk_cache { dns_ready : bool; dns_tab : list dns_ent }.

Definition ng_dnscache_init (max : Z) (alloc : bool) (c : dns_cache) : dns_cache :=
  if dns_ready c then c
  else mk_cache true (if (0 <? max) && alloc then repeat ent_empty (Z.to_nat max) else []).

Definition ng_dnscache_flush (c : dns_cache) : dns_cache :=
  if negb (dns_ready c) then c else mk_cache (dns_ready c) (map (fun _ => ent_empty) (dns_tab c)).

Definition disabled (c : dns_cache) : bool := negb (dns_ready c) || (zlen (dns_tab c) <=? 0).

(** What a lookup finds in the table: [neg], and the response copied out. *)
Definition dnscache_look (name : list Z) (type now : Z) (c : dns_cache) : bool * option (list Z) * dns_cache :=
  let '(e, tab) := ent_find name type now (dns_tab c) in
  let c := mk_cache (dns_ready c) tab in
  match e with
  | None => (false, None, c)
  | Some (_, e) =>
      if e_negative e then (true, None, c) else
      match e_response e with
      | Some r => if (0 <? zlen r) && (zlen r <=? DNS_CACHE_MAXRESP) then (false, Some r, c) else (false, None, c)
      | None => (false, None, c)
      end
  end.

(** [ng_dnscache_get]: [resp] is the scratch buffer [AllocVec] gives, if it does; [hs0] and
    [alloc] the memory of the replay.  The result is the host entry, [*neg] and the table;
    [None] when the replay leaves its buffers. *)
Definition ng_dnscache_get (resp : option (list Z)) (hs0 : option hoststruct) (alloc : Z -> bool)
    (name : list Z) (type now : Z) (c : dns_cache) : option (option hostent * bool * dns_cache) :=
  if disabled c then Some (None, false, c) else
  match resp with
  | None => Some (None, false, c)
  | Some buf =>
      let '(neg, hit, c) := dnscache_look name type now c in
      match hit with
      | None => Some (None, neg, c)
      | Some r =>
          buf ← blit buf 0 r;
          h ← ng_hostent_from_response hs0 alloc buf (zlen r) (type =? T_PTR);
          Some (match h with Some (e, _) => Some e | None => None end, neg, c)
      end
  end.

(** The entry goes over an earlier one for the question, or to a slot of its own. *)
Definition store_ent (name : list Z) (type now : Z) (e : dns_ent) (c : dns_cache) : dns_cache :=
  let '(found, tab) := ent_find name type now (dns_tab c) in
  let slot := match found with Some (i, _) => Some i | None => pick_slot now tab 0 None end in
  mk_cache (dns_ready c) (match slot with Some i => <[i := e]> (ent_clear i tab) | None => tab end).

Definition clamp_ttl (min_ttl : Z) : Z :=
  if min_ttl <? DNS_CACHE_TTL_MIN then DNS_CACHE_TTL_MIN
  else if DNS_CACHE_TTL_MAX <? min_ttl then DNS_CACHE_TTL_MAX else min_ttl.

Definition ng_dnscache_put (alloc : bool) (name : list Z) (type : Z) (response : list Z) (resp_len min_ttl now : Z)
    (c : dns_cache) : option dns_cache :=
  if disabled c || (resp_len <=? 0) || (DNS_CACHE_MAXRESP <? resp_len) then Some c else
  if negb alloc then Some c else
  rc ← blob response 0 resp_len;
  Some (store_ent name type now
    (mk_ent (Some (name_dup_lc name)) (Some rc) type false (u32 (now + clamp_ttl min_ttl))) c).

Definition ng_dnscache_put_negative (alloc : bool) (name : list Z) (type now : Z) (c : dns_cache) : dns_cache :=
  if disabled c || negb alloc then c else
  store_ent name type now (mk_ent (Some (name_dup_lc name)) None type true (u32 (now + DNS_CACHE_NEG_TTL))) c.

(** * The cache, abstractly

    A question is a lower-cased name and a type.  What has happened is a list of events,
    the newest first: an answer ([Some] response, [None] "not found") with the second it
    dies in, or a flush. *)

Definition question : Type := list Z * Z.
Definition ask (name : list Z) (type : Z) : question := (map lower name, type).

Inductive event := Answered (q : question) (expiry : Z) (v : option (list Z)) | Flushed.

Fixpoint latest (h : list event) (q : question) : option (Z * option (list Z)) :=
  match h with
  | [] => None
  | Answered q' x v :: h => if decide (q' = q) then Some (x, v) else latest h q
  | Flushed :: _ => None
  end.

(** The questions answered since the last flush. *)
Fixpoint asked (h : list event) : gset question :=
  match h with
  | [] => ∅
  | Answered q _ _ :: h => {[q]} ∪ asked h
  | Flushed :: _ => ∅
  end.

Lemma latest_asked h q x : latest h q = Some x -> q ∈ asked h.
Proof.
  induction h as [|[q' x' v'|] h IH]; cbn [latest asked]; try done.
  case_decide; [set_solver|]. intros Hl. specialize (IH Hl). set_solver.
Qed.

(** ** One table *)

Definition ent_key (e : dns_ent) : option question := n ← e_name e; Some (n, e_type e).

Definition ent_is (e : dns_ent) (x : Z) (v : option (list Z)) : Prop :=
  e_expiry e = u32 x /\ e_response e = v /\ e_negative e = match v with Some _ => false | None => true end.

Lemma name_ieq_spec lc raw : name_ieq lc raw = true <-> lc = map lower raw.
Proof.
  revert raw. induction lc as [|l lc IH]; intros [|r raw]; cbn; try done.
  destruct (l =? lower r) eqn:E; [|split; [done|]; intros Hx; injection Hx as -> _; lia].
  apply Z.eqb_eq in E as ->. rewrite IH. split; [by intros ->|]. intros H. by injection H.
Qed.

Lemma ent_match_spec name type e : ent_match name type e = true <-> ent_key e = Some (ask name type).
Proof.
  unfold ent_match, ent_key, ask. destruct (e_name e) as [n|]; cbn; [|done].
  rewrite andb_true_iff, name_ieq_spec. split.
  - intros [H ->]. apply Z.eqb_eq in H as ->. done.
  - intros [= -> ->]. by rewrite Z.eqb_refl.
Qed.

Lemma match_at_spec name type tab : forall i,
  match match_at name type tab i with
  | Some (j, e) => exists k, j = (i + k)%nat /\ tab !! k = Some e /\ ent_key e = Some (ask name type)
  | None => forall k e, tab !! k = Some e -> ent_key e <> Some (ask name type)
  end.
Proof.
  induction tab as [|e tab IH]; intros i; cbn [match_at]; [done|].
  destruct (ent_match name type e) eqn:E.
  - apply ent_match_spec in E. exists 0%nat. split; [lia|done].
  - specialize (IH (S i)). destruct (match_at name type tab (S i)) as [[j e']|].
    + destruct IH as (k & -> & H1 & H2). exists (S k). split; [lia|done].
    + intros [|k] e' Hk; [|by eapply IH]. simpl in Hk. simplify_eq. intros H%ent_match_spec. congruence.
Qed.

(** The slot taken: empty or expired; or all are in use and live, and it is one of them
    that expires first. *)
Lemma pick_slot_spec now tab : forall i v,
  match pick_slot now tab i v with
  | Some j =>
      (exists k e, j = (i + k)%nat /\ tab !! k = Some e /\ (e_name e = None \/ expired now e = true)) \/
      (Forall (fun e => e_name e <> None /\ expired now e = false) tab /\
       ((fst <$> v) = Some j \/ exists k, j = (i + k)%nat /\ (k < length tab)%nat))
  | None => v = None /\ tab = []
  end.
Proof.
  induction tab as [|c tab IH]; intros i v; cbn [pick_slot].
  { destruct v as [[j e]|]; cbn; [|done]. right. split; [constructor|by left]. }
  destruct (e_name c) as [n|] eqn:En; [|left; exists 0%nat, c; split; [lia|]; by split; [|left]].
  destruct (expired now c) eqn:Ex; [left; exists 0%nat, c; split; [lia|]; by split; [|right]|].
  set (v' := if _ : bool then Some (i, c) else v).
  assert (Hv' : v' = Some (i, c) \/ (v' = v /\ v <> None)).
  { subst v'. destruct v as [[j0 e0]|]; [|by left]. case_match; [by left|by right]. }
  clearbody v'. specialize (IH (S i) v').
  destruct (pick_slot now tab (S i) v') as [j|].
  - destruct IH as [(k & e & -> & Hk & He)|(Hall & Hj)].
    + left. exists (S k), e. split; [lia|done].
    + right. split; [constructor; [by rewrite En|done]|]. destruct Hj as [Hj|(k & -> & Hk)].
      * destruct Hv' as [->|[-> _]]; [|by left]. simpl in Hj. simplify_eq. right. exists 0%nat. simpl. lia.
      * right. exists (S k). simpl. lia.
  - destruct IH as [-> _]. by destruct Hv' as [?|[<- ?]].
Qed.

(** ** The table reflects what has happened

    [t] is the present second, counted without wrap-around from a start [t0]; the clock
    shows [u32 t].  Half of its range is enough for 68 years. *)
Section table.
Context (t0 : Z).

Definition SPAN : Z := 2 ^ 31 - 3601.

Record reflects (h : list event) (t : Z) (tab : list dns_ent) : Prop := {
  re_entry : forall i e q, tab !! i = Some e -> ent_key e = Some q ->
    exists x v, latest h q = Some (x, v) /\ ent_is e x v;
  re_uniq : forall i j e e' q, tab !! i = Some e -> tab !! j = Some e' ->
    ent_key e = Some q -> ent_key e' = Some q -> i = j;
  re_all : (size (asked h) <= length tab)%nat -> forall q x v, latest h q = Some (x, v) -> t < x ->
    exists i e, tab !! i = Some e /\ ent_key e = Some q;
  re_time : forall q x v, latest h q = Some (x, v) -> t0 <= x <= t0 + SPAN + 3600 }.

Lemma expired_real t x e : t0 <= t <= t0 + SPAN -> t0 <= x <= t0 + SPAN + 3600 -> e_expiry e = u32 x ->
  expired (u32 t) e = (x <=? t).
Proof using.
  unfold SPAN, expired. change (2 ^ 31) with 2147483648. intros Ht Hx ->.
  replace (s32 (u32 t - u32 x)) with (t - x); [destruct (0 <=? t - x) eqn:?, (x <=? t) eqn:?; lia|].
  unfold s32. replace (u32 (u32 t - u32 x)) with (u32 (t - x)) by word_solve. word_solve.
Qed.

Lemma reflects_later h t t' tab : t <= t' -> reflects h t tab -> reflects h t' tab.
Proof using. intros Ht []. constructor; try done. intros Hs q x v Hl Hx. eapply re_all0; [done|done|lia]. Qed.

Lemma key_empty : ent_key ent_empty = None.
Proof using. done. Qed.

Lemma lookup_clear i j tab e q : ent_clear i tab !! j = Some e -> ent_key e = Some q -> tab !! j = Some e /\ i <> j.
Proof using.
  unfold ent_clear. intros H Hk. apply list_lookup_insert_Some in H as [(-> & <- & _)|[? ?]]; [done|by split].
Qed.

(** Clearing a slot whose entry is dead, or absent, loses nothing. *)
Lemma reflects_clear h t tab i :
  (forall e q x v, tab !! i = Some e -> ent_key e = Some q -> latest h q = Some (x, v) -> x <= t) ->
  reflects h t tab -> reflects h t (ent_clear i tab).
Proof using.
  intros Hdead []. constructor; [| | |done].
  - intros j e q H Hk. destruct (lookup_clear _ _ _ _ _ H Hk). by eapply re_entry0.
  - intros j k e e' q H H' Hk Hk'. destruct (lookup_clear _ _ _ _ _ H Hk), (lookup_clear _ _ _ _ _ H' Hk').
    by eapply re_uniq0.
  - unfold ent_clear at 1. rewrite length_insert. intros Hs q x v Hl Hx.
    destruct (re_all0 Hs q x v Hl Hx) as (j & e & Hj & Hk). exists j, e. split; [|done].
    unfold ent_clear. rewrite list_lookup_insert_ne; [done|]. intros ->.
    specialize (Hdead e q x v Hj Hk Hl). lia.
Qed.

(** [ent_find]: the live entry for the question is what was answered last. *)
Lemma ent_find_ok h t tab name type : reflects h t tab -> t0 <= t <= t0 + SPAN ->
  let q := ask name type in
  let '(found, tab') := ent_find name type (u32 t) tab in
  reflects h t tab' /\ length tab' = length tab /\
  match found with
  | Some (i, e) => tab' !! i = Some e /\ ent_key e = Some q /\
      exists x v, latest h q = Some (x, v) /\ t < x /\ ent_is e x v
  | None => (forall i e, tab' !! i = Some e -> ent_key e <> Some q) /\
      ((size (asked h) <= length tab)%nat -> forall x v, latest h q = Some (x, v) -> x <= t)
  end.
Proof using.
  intros Hr Ht q. unfold ent_find. pose proof (match_at_spec name type tab 0) as Hm. fold q in Hm.
  destruct (match_at name type tab 0) as [[i e]|].
  - destruct Hm as (k & -> & Hk & Hq). simpl in Hk.
    destruct (re_entry _ _ _ Hr _ _ _ Hk Hq) as (x & v & Hl & He). pose proof He as (Hx & _).
    pose proof (re_time _ _ _ Hr _ _ _ Hl) as Hxr. rewrite (expired_real t x) by done.
    destruct (x <=? t) eqn:E.
    + split; [|split; [apply length_insert|split]].
      * apply reflects_clear; [|done]. intros e' q' x' v' Hk' Hq' Hl'. simpl in Hk'. simplify_eq. lia.
      * intros j e' Hj Hq'. destruct (lookup_clear _ _ _ _ _ Hj Hq') as [Hj' Hne].
        simpl in Hne. by pose proof (re_uniq _ _ _ Hr _ _ _ _ _ Hk Hj' Hq Hq').
      * intros _ x' v' Hl'. simplify_eq. lia.
    + split; [done|]. split; [done|]. simpl. split; [done|]. split; [done|]. exists x, v. split; [done|]. split; [lia|done].
  - split; [done|]. split; [done|]. split; [intros i e; apply Hm|].
    intros Hs x v Hl. destruct (decide (t < x)); [|lia].
    destruct (re_all _ _ _ Hr Hs _ _ _ Hl) as (j & e & Hj & Hk); [lia|]. by destruct (Hm j e Hj).
Qed.


Lemma reflects_put h t tab i e q x v :
  reflects h t tab -> (i < length tab)%nat -> ent_key e = Some q -> ent_is e x v ->
  t0 <= x <= t0 + SPAN + 3600 ->
  (forall j e', tab !! j = Some e' -> ent_key e' = Some q -> j = i) ->
  ((size (asked (Answered q x v :: h)) <= length tab)%nat ->
     forall e0 q0 x0 v0, tab !! i = Some e0 -> ent_key e0 = Some q0 -> latest h q0 = Some (x0, v0) -> q0 = q \/ x0 <= t) ->
  reflects (Answered q x v :: h) t (<[i := e]> tab).
Proof using.
  intros [] Hi Hk He Hx Hother Hdead. constructor.
  - intros j e' q' Hj Hq'. cbn [latest]. apply list_lookup_insert_Some in Hj as [(-> & <- & _)|[Hne Hj]].
    + rewrite Hk in Hq'. simplify_eq. rewrite decide_True by done. by exists x, v.
    + rewrite decide_False; [by eapply re_entry0|]. intros ->. by apply Hne, eq_sym, (Hother j e').
  - intros j k e' e'' q' Hj Hk' Hq' Hq''.
    apply list_lookup_insert_Some in Hj as [(-> & <- & _)|[Hne Hj]];
      apply list_lookup_insert_Some in Hk' as [(<- & <- & _)|[Hne' Hk']].
    + done.
    + rewrite Hk in Hq'. simplify_eq. symmetry. by eapply Hother.
    + rewrite Hk in Hq''. simplify_eq. by eapply Hother.
    + by eapply re_uniq0.
  - rewrite length_insert. intros Hs q' x' v' Hl Hlt. cbn [latest] in Hl. case_decide as Hd.
    + simplify_eq. exists i, e. split; [|done]. by apply list_lookup_insert_eq.
    + assert (Hs' : (size (asked h) <= length tab)%nat).
      { etransitivity; [|exact Hs]. apply subseteq_size. cbn [asked]. apply union_subseteq_r. }
      destruct (re_all0 Hs' q' x' v' Hl Hlt) as (j & e' & Hj & Hq'). exists j, e'. split; [|done].
      rewrite list_lookup_insert_ne; [done|]. intros <-.
      destruct (Hdead Hs _ _ _ _ Hj Hq' Hl) as [->|?]; [done|lia].
  - intros q' x' v' Hl. cbn [latest] in Hl. case_decide; [injection Hl as <- <-; done|by eapply re_time0].
Qed.

(** A table full of live entries holds as many questions as it has slots. *)
Lemma full_table h t tab q : reflects h t tab ->
  Forall (fun e => e_name e <> None) tab -> (forall i e, tab !! i = Some e -> ent_key e <> Some q) ->
  (length tab < size ({[q]} ∪ asked h))%nat.
Proof using.
  intros Hr Hall Hq.
  set (key := fun e => (default [] (e_name e), e_type e) : question).
  assert (Hkey : forall i e, tab !! i = Some e -> ent_key e = Some (key e)).
  { intros i e He. pose proof (proj1 (Forall_lookup _ _) Hall i e He) as Hn. unfold ent_key, key.
    simpl in Hn. by destruct (e_name e). }
  assert (Hnd : NoDup (q :: map key tab)).
  { apply NoDup_cons. split.
    - intros (e & -> & He)%list_elem_of_fmap. apply list_elem_of_lookup in He as [i Hi].
      apply (Hq i e Hi). by eapply Hkey.
    - apply NoDup_alt. intros i j x Hi Hj.
      apply list_lookup_fmap_Some in Hi as (e & -> & Hi), Hj as (e' & He' & Hj).
      eapply (re_uniq _ _ _ Hr i j e e'); [done|done|by eapply Hkey|]. rewrite He'. by eapply Hkey. }
  assert (Hsub : (list_to_set (q :: map key tab) : gset question) ⊆ {[q]} ∪ asked h).
  { cbn [list_to_set]. apply union_mono_l. intros k Hk%elem_of_list_to_set.
    apply list_elem_of_fmap in Hk as (e & -> & He). apply list_elem_of_lookup in He as [i Hi].
    destruct (re_entry _ _ _ Hr i e (key e) Hi) as (x & v & Hl & _); [by eapply Hkey|]. by eapply latest_asked. }
  apply subseteq_size in Hsub. rewrite size_list_to_set in Hsub by done.
  cbn [length] in Hsub. rewrite length_map in Hsub. lia.
Qed.

Lemma store_ok h t c name type e x v : reflects h t (dns_tab c) -> t0 <= t <= t0 + SPAN -> (0 < length (dns_tab c))%nat ->
  ent_key e = Some (ask name type) -> ent_is e x v -> t < x <= t + 3600 ->
  reflects (Answered (ask name type) x v :: h) t (dns_tab (store_ent name type (u32 t) e c)) /\
  length (dns_tab (store_ent name type (u32 t) e c)) = length (dns_tab c) /\
  dns_ready (store_ent name type (u32 t) e c) = dns_ready c.
Proof using.
  intros Hr Ht Hn Hk He Hx. set (q := ask name type) in *. unfold store_ent.
  pose proof (ent_find_ok h t (dns_tab c) name type Hr Ht) as Hf. cbv zeta in Hf. fold q in Hf.
  destruct (ent_find name type (u32 t) (dns_tab c)) as [found tab]. destruct Hf as (Hr' & Hlen & Hf).
  assert (Hput : forall i, (i < length tab)%nat ->
    (forall j e', tab !! j = Some e' -> ent_key e' = Some q -> j = i) ->
    ((size (asked (Answered q x v :: h)) <= length tab)%nat ->
     forall e0 q0 x0 v0, tab !! i = Some e0 -> ent_key e0 = Some q0 -> latest h q0 = Some (x0, v0) -> q0 = q \/ x0 <= t) ->
    reflects (Answered q x v :: h) t (<[i := e]> (ent_clear i tab)) /\
    length (<[i := e]> (ent_clear i tab)) = length (dns_tab c)).
  { intros i Hi H1 H2. unfold ent_clear. rewrite list_insert_insert_eq, length_insert. split; [|done].
    apply reflects_put; try done. lia. }
  destruct found as [[i e0]|]; cbn [dns_tab dns_ready].
  - destruct Hf as (Hi & Hk0 & _). destruct (Hput i) as [? ?]; [by eapply lookup_lt_Some| | |done].
    + intros j e' Hj Hk'. by eapply (re_uniq _ _ _ Hr').
    + intros _ e1 q1 x1 v1 Hi1 Hk1 _. left. congruence.
  - destruct Hf as [Hno _]. pose proof (pick_slot_spec (u32 t) tab 0 None) as Hp.
    destruct (pick_slot (u32 t) tab 0 None) as [j|]; [|destruct Hp as [_ ->]; simpl in *; lia].
    destruct Hp as [(k & e1 & -> & Hk1 & He1)|(Hall & [?|(k & -> & Hk1)])]; [|done|].
    + simpl. destruct (Hput k) as [? ?]; [by eapply lookup_lt_Some|intros j e' Hj Hk'; by destruct (Hno j e' Hj)| |done].
      intros _ e2 q2 x2 v2 Hi2 Hk2 Hl2. simplify_eq. right. destruct He1 as [Hnone|Hex].
      * unfold ent_key in Hk2. by rewrite Hnone in Hk2.
      * destruct (re_entry _ _ _ Hr' _ _ _ Hk1 Hk2) as (x3 & v3 & Hl3 & Hx3 & _). simplify_eq.
        rewrite (expired_real t x2) in Hex; [lia|done| |done]. by eapply (re_time _ _ _ Hr').
    + simpl. destruct (Hput k) as [? ?]; [done|intros j e' Hj Hk'; by destruct (Hno j e' Hj)| |done].
      intros Hs. exfalso. pose proof (full_table h t tab q Hr') as Hfull. cbn [asked] in Hs.
      enough ((length tab < size ({[q]} ∪ asked h))%nat) by lia. apply Hfull; [|done].
      eapply Forall_impl; [exact Hall|]. by intros e' [? _].
Qed.
End table.

(** * Histories of calls *)

Inductive cop :=
  | OpPut (alloc : bool) (name : list Z) (type : Z) (response : list Z) (min_ttl : Z)
  | OpNeg (alloc : bool) (name : list Z) (type : Z)
  | OpGet (resp : option (list Z)) (hs0 : option hoststruct) (alloc : Z -> bool) (name : list Z) (type : Z)
  | OpFlush.

Definition cache_step (t : Z) (o : cop) (c : dns_cache) : option dns_cache :=
  match o with
  | OpPut alloc name type response ttl => ng_dnscache_put alloc name type response (zlen response) ttl (u32 t) c
  | OpNeg alloc name type => Some (ng_dnscache_put_negative alloc name type (u32 t) c)
  | OpGet resp hs0 alloc name type => r ← ng_dnscache_get resp hs0 alloc name type (u32 t) c; Some (snd r)
  | OpFlush => Some (ng_dnscache_flush c)
  end.

Fixpoint cache_run (ops : list (Z * cop)) (c : dns_cache) : option dns_cache :=
  match ops with [] => Some c | (t, o) :: ops => c ← cache_step t o c; cache_run ops c end.

(** What a call makes known. *)
Definition makes (t : Z) (o : cop) (h : list event) : list event :=
  match o with
  | OpPut true name type r ttl =>
      if (0 <? zlen r) && (zlen r <=? DNS_CACHE_MAXRESP)
      then Answered (ask name type) (t + clamp_ttl ttl) (Some r) :: h else h
  | OpNeg true name type => Answered (ask name type) (t + DNS_CACHE_NEG_TTL) None :: h
  | OpFlush => Flushed :: h
  | _ => h
  end.

Fixpoint history (ops : list (Z * cop)) (h : list event) : list event :=
  match ops with [] => h | (t, o) :: ops => history ops (makes t o h) end.

(** The memory handed to a call. *)
Definition op_ok (o : cop) : Prop :=
  match o with
  | OpPut _ _ _ r _ => bytesP r
  | OpGet resp hs0 _ _ _ =>
      (forall b, resp = Some b -> zlen b = MAXPACKET /\ bytesP b) /\ (forall h, hs0 = Some h -> hs_ok h)
  | _ => True
  end.

(** The seconds of the calls do not run backwards. *)
Fixpoint in_order (t : Z) (ops : list (Z * cop)) : Prop :=
  match ops with [] => True | (t', _) :: ops => t <= t' /\ in_order t' ops end.

Definition last_time (t : Z) (ops : list (Z * cop)) : Z := default t (fst <$> last ops).

(** The answer to give at [t]. *)
Definition known (h : list event) (t : Z) (q : question) : option (option (list Z)) :=
  match latest h q with Some (x, v) => if t <? x then Some v else None | None => None end.

Definition responses_ok (h : list event) : Prop :=
  forall q x r, latest h q = Some (x, Some r) -> 0 < zlen r <= DNS_CACHE_MAXRESP /\ bytesP r.

Record cache_inv (t0 : Z) (n : nat) (h : list event) (t : Z) (c : dns_cache) : Prop := {
  ca_ready : dns_ready c = true;
  ca_size : length (dns_tab c) = n;
  ca_reflects : reflects t0 h t (dns_tab c);
  ca_resp : responses_ok h }.

Lemma not_disabled t0 n h t c : cache_inv t0 n h t c -> (0 < n)%nat -> disabled c = false.
Proof. intros [Hr Hs _ _] Hn. unfold disabled. rewrite Hr. unfold zlen. rewrite Hs. cbn. lia. Qed.

Lemma clamp_range ttl : 30 <= clamp_ttl ttl <= 3600.
Proof. unfold clamp_ttl, DNS_CACHE_TTL_MIN, DNS_CACHE_TTL_MAX. destruct (ttl <? 30) eqn:?, (3600 <? ttl) eqn:?; lia. Qed.

Lemma responses_cons h q x v : responses_ok h ->
  (forall r, v = Some r -> 0 < zlen r <= DNS_CACHE_MAXRESP /\ bytesP r) -> responses_ok (Answered q x v :: h).
Proof. intros Hh Hv q' x' r Hl. cbn [latest] in Hl. case_decide; [|by eapply Hh]. injection Hl as <- ->. by apply Hv. Qed.

Lemma store_inv t0 n h t c name type e x v : cache_inv t0 n h t c -> (0 < n)%nat -> t0 <= t <= t0 + SPAN ->
  ent_key e = Some (ask name type) -> ent_is e x v -> t < x <= t + 3600 ->
  (forall r, v = Some r -> 0 < zlen r <= DNS_CACHE_MAXRESP /\ bytesP r) ->
  cache_inv t0 n (Answered (ask name type) x v :: h) t (store_ent name type (u32 t) e c).
Proof.
  intros [Hr Hs Hre Hok] Hn Ht Hk He Hx Hv.
  destruct (store_ok t0 h t c name type e x v Hre Ht ltac:(lia) Hk He Hx) as (H1 & H2 & H3).
  constructor; [congruence|congruence|done|by apply responses_cons].
Qed.

(** ** A lookup *)

Lemma look_ok t0 n h t c name type : cache_inv t0 n h t c -> t0 <= t <= t0 + SPAN ->
  exists neg hit c', dnscache_look name type (u32 t) c = (neg, hit, c') /\ cache_inv t0 n h t c' /\
    match known h t (ask name type) with
    | Some v => (neg, hit) = match v with Some r => (false, Some r) | None => (true, None) end \/
                ((neg, hit) = (false, None) /\ (n < size (asked h))%nat)
    | None => (neg, hit) = (false, None)
    end.
Proof.
  intros [Hr Hs Hre Hok] Ht. unfold dnscache_look, known.
  pose proof (ent_find_ok t0 h t (dns_tab c) name type Hre Ht) as Hf. cbv zeta in Hf. rewrite Hs in Hf.
  destruct (ent_find name type (u32 t) (dns_tab c)) as [found tab]. destruct Hf as (Hre' & Hlen & Hf).
  assert (Hi : cache_inv t0 n h t (mk_cache (dns_ready c) tab)) by by constructor.
  destruct found as [[i e]|].
  - destruct Hf as (_ & _ & x & v & Hl & Hx & _ & Hev & Hneg). rewrite Hl.
    destruct (t <? x) eqn:E; [|lia]. rewrite Hneg, Hev. destruct v as [r|]; [|eexists _, _, _; split; [done|]; split; [done|by left]].
    destruct (Hok _ _ _ Hl) as [Hrl _]. destruct (_ && _) eqn:E2; [|lia].
    eexists _, _, _. split; [done|]. split; [done|by left].
  - eexists _, _, _. split; [done|]. split; [done|]. destruct Hf as [_ Hf].
    destruct (latest h (ask name type)) as [[x v]|]; [|done]. destruct (t <? x) eqn:E; [|done]. right. split; [done|].
    destruct (decide (size (asked h) <= n)%nat) as [Hsz|]; [|lia]. specialize (Hf Hsz x v eq_refl). lia.
Qed.

(** What a caller is told, for what is known. *)
Definition told (n : nat) (h : list event) (hs0 : option hoststruct) (alloc : Z -> bool) (iq : bool)
    (v : option (option (list Z))) (r : option hostent) (neg : bool) : Prop :=
  match v with
  | None => r = None /\ neg = false
  | Some v =>
      (r = None /\ neg = false /\ (n < size (asked h))%nat) \/
      match v with
      | None => r = None /\ neg = true
      | Some resp => neg = false /\
          forall fresh, zlen fresh = MAXPACKET -> take (length resp) fresh = resp -> 12 <= zlen resp ->
            exists x, ng_hostent_from_response hs0 alloc fresh (zlen resp) iq = Some x /\ r = fst <$> x
      end
  end.

Lemma cache_get_ok t0 n h t c buf hs0 alloc name type : cache_inv t0 n h t c -> (0 < n)%nat -> t0 <= t <= t0 + SPAN ->
  zlen buf = MAXPACKET -> bytesP buf -> (forall hs, hs0 = Some hs -> hs_ok hs) ->
  exists r neg c', ng_dnscache_get (Some buf) hs0 alloc name type (u32 t) c = Some (r, neg, c') /\
    cache_inv t0 n h t c' /\ told n h hs0 alloc (type =? T_PTR) (known h t (ask name type)) r neg.
Proof.
  intros Hi Hn Ht Hbl Hbb Hhs. unfold ng_dnscache_get. rewrite (not_disabled _ _ _ _ _ Hi Hn).
  destruct (look_ok t0 n h t c name type Hi Ht) as (neg & hit & c' & -> & Hi' & Hk).
  destruct hit as [resp|].
  - assert (Hv : known h t (ask name type) = Some (Some resp)).
    { destruct (known h t (ask name type)) as [[r|]|]; [|by destruct Hk as [|[??]]|done]. by destruct Hk as [|[??]]; simplify_eq. }
    assert (Hr : 0 < zlen resp <= DNS_CACHE_MAXRESP /\ bytesP resp).
    { unfold known in Hv. destruct (latest h (ask name type)) as [[x v]|] eqn:El; [|done].
      destruct (t <? x); [|done]. simplify_eq. by eapply (ca_resp _ _ _ _ _ Hi). }
    destruct Hr as [Hrl Hrb]. unfold MAXPACKET, DNS_CACHE_MAXRESP in *.
    destruct (blit_same buf 0 resp) as (b & -> & [Hl _] & Hg & Hb); [lia|lia|]. cbn [mbind option_bind].
    assert (Htot : exists x, ng_hostent_from_response hs0 alloc b (zlen resp) (type =? T_PTR) = Some x).
    { destruct hs0 as [hs|]; [|by eexists].
      destruct (getanswer_safe_ok hs alloc b (zlen resp) (type =? T_PTR)) as (x & Hx & _);
        [by apply Hhs|by apply Hb|unfold MAXPACKET; lia|unfold MAXPACKET; lia|by exists x]. }
    destruct Htot as [x Hx]. rewrite Hx. cbn [mbind option_bind]. eexists _, neg, c'. split; [done|]. split; [done|].
    rewrite Hv in *. destruct Hk as [Hk|[Hk _]]; [|done]. simplify_eq. right. split; [done|].
    intros fresh Hf1 Hf2 Hlen. exists x. split; [|by destruct x as [[??]|]].
    unfold MAXPACKET in Hf1. rewrite <- Hx. apply response_same; [lia|lia|].
    replace (Z.to_nat (zlen resp)) with (length resp) by (unfold zlen; lia). rewrite Hf2. symmetry.
    apply list_eq. intros i. destruct (decide (i < length resp)%nat).
    + rewrite lookup_take_lt by done. specialize (Hg (Z.of_nat i) ltac:(unfold zlen; lia)).
      by rewrite Z.add_0_l, !zget_nat in Hg.
    + rewrite lookup_take_ge by lia. symmetry. apply lookup_ge_None. lia.
  - eexists _, _, _. split; [done|]. split; [done|]. unfold told.
    destruct (known h t (ask name type)) as [[r|]|]; [| |by simplify_eq].
    + destruct Hk as [|[? ?]]; simplify_eq. by left.
    + destruct Hk as [|[? ?]]; simplify_eq; [by right|by left].
Qed.

Lemma u32_add_l a b : u32 (u32 a + b) = u32 (a + b).
Proof. unfold u32. by rewrite Zplus_mod_idemp_l. Qed.

(** ** Every call keeps the table in step with what has happened *)

Lemma step_ok t0 n h t t' o c : cache_inv t0 n h t c -> (0 < n)%nat -> t <= t' -> t0 <= t' <= t0 + SPAN -> op_ok o ->
  exists c', cache_step t' o c = Some c' /\ cache_inv t0 n (makes t' o h) t' c'.
Proof.
  intros Hi0 Hn Hle Ht Ho.
  assert (Hi : cache_inv t0 n h t' c) by (destruct Hi0; constructor; try done; by eapply reflects_later).
  destruct o as [alloc name type r ttl|alloc name type|resp hs0 alloc name type|]; cbn [cache_step makes].
  - unfold ng_dnscache_put. rewrite (not_disabled _ _ _ _ _ Hi Hn). cbn [orb].
    destruct ((0 <? zlen r) && (zlen r <=? DNS_CACHE_MAXRESP)) eqn:E.
    + destruct ((zlen r <=? 0) || _) eqn:E2; [lia|]. destruct alloc; cbn [negb]; [|by eexists].
      rewrite blob_ok, zslice_full by lia. cbn [mbind option_bind]. eexists. split; [done|].
      pose proof (clamp_range ttl). rewrite u32_add_l. apply store_inv; [done|done|done|done|done|lia|].
      intros r' [= <-]. split; [lia|done].
    + destruct ((zlen r <=? 0) || _) eqn:E2; [|lia]. eexists. split; [done|]. by destruct alloc.
  - unfold ng_dnscache_put_negative. rewrite (not_disabled _ _ _ _ _ Hi Hn). cbn [orb].
    eexists. split; [done|]. destruct alloc; cbn [negb]; [|done].
    rewrite u32_add_l. apply store_inv; [done|done|done|done|done|unfold DNS_CACHE_NEG_TTL; lia|done].
  - destruct Ho as [Hb Hh]. destruct resp as [b|].
    + destruct (Hb b eq_refl). destruct (cache_get_ok t0 n h t' c b hs0 alloc name type) as (r & neg & c' & -> & Hi' & _); [done..|].
      cbn [mbind option_bind]. by exists c'.
    + unfold ng_dnscache_get. rewrite (not_disabled _ _ _ _ _ Hi Hn). cbn [mbind option_bind]. by exists c.
  - eexists. split; [done|]. unfold ng_dnscache_flush. destruct Hi as [Hr Hs Hre Hok]. rewrite Hr. cbn [negb].
    constructor; cbn [dns_ready dns_tab]; [done|by rewrite length_map| |done].
    assert (Hnone : forall i e q, map (fun _ => ent_empty) (dns_tab c) !! i = Some e -> ent_key e = Some q -> False).
    { intros i e q He Hk. apply list_lookup_fmap_Some in He as (? & -> & _). done. }
    constructor; try done.
    + intros i e q He Hk. by destruct (Hnone i e q).
    + intros i j e e' q He _ Hk _. by destruct (Hnone i e q).
Qed.

Lemma last_time_cons t t' o ops : last_time t ((t', o) :: ops) = last_time t' ops.
Proof. unfold last_time. rewrite last_cons. by destruct (last ops). Qed.

Lemma run_ok t0 n : (0 < n)%nat -> forall ops h t c,
  cache_inv t0 n h t c -> in_order t ops -> t0 <= t -> last_time t ops <= t0 + SPAN -> Forall (fun x => op_ok x.2) ops ->
  exists c', cache_run ops c = Some c' /\ cache_inv t0 n (history ops h) (last_time t ops) c' /\ t <= last_time t ops.
Proof.
  intros Hn ops. induction ops as [|[t' o] ops IH]; intros h t c Hi Ho Ht Hl Hok.
  { exists c. by split. }
  destruct Ho as [Hle Ho]. apply Forall_cons in Hok as [Hok1 Hok]. rewrite last_time_cons in *. cbn [cache_run history].
  assert (Hmono : t' <= last_time t' ops).
  { clear -Ho. revert t' Ho. induction ops as [|[u o] ops IH]; intros t' Ho; [cbn; lia|].
    destruct Ho as [? Ho]. rewrite last_time_cons. specialize (IH u Ho). lia. }
  destruct (step_ok t0 n h t t' o c Hi Hn Hle ltac:(lia) Hok1) as (c' & -> & Hi'). cbn [mbind option_bind].
  destruct (IH (makes t' o h) t' c' Hi' Ho ltac:(lia) Hl Hok) as (c2 & -> & Hi2 & ?).
  exists c2. split; [done|]. split; [done|lia].
Qed.

Lemma init_inv t0 n t : (0 < n)%nat -> cache_inv t0 n [] t (ng_dnscache_init (Z.of_nat n) true (mk_cache false [])).
Proof.
  intros Hn. unfold ng_dnscache_init. cbn [dns_ready]. destruct (0 <? Z.of_nat n) eqn:E; [|lia]. cbn [andb].
  rewrite Nat2Z.id. constructor; cbn [dns_ready dns_tab]; [done|apply repeat_length| |done].
  assert (Hnone : forall i e q, repeat ent_empty n !! i = Some e -> ent_key e = Some q -> False).
  { intros i e q He Hk. apply list_elem_of_lookup_2, list_elem_of_In, repeat_spec in He as ->. done. }
  constructor; try done.
  - intros i e q He Hk. by destruct (Hnone i e q).
  - intros i j e e' q He _ Hk _. by destruct (Hnone i e q).
Qed.

(** C35. The cache of [n] slots, after any sequence of stores (whose memory may fail),
    lookups and flushes in less than 2^31 - 3601 seconds, tells a caller only what is known:
    nothing about a question - a name, whatever its case, and a type - that was not
    answered since the last flush or whose last answer has died; "not found" only if that
    was the last answer; and a response only if it was the last answer, and then as the
    host entry that the fresh response would have given.  It forgets a live answer only
    when more than [n] questions have been answered since the last flush. *)
Theorem dns_cache_correct t0 n ops t buf hs0 alloc name type :
  (0 < n)%nat -> in_order t0 ops -> last_time t0 ops <= t <= t0 + SPAN -> Forall (fun x => op_ok x.2) ops ->
  zlen buf = MAXPACKET -> bytesP buf -> (forall hs, hs0 = Some hs -> hs_ok hs) ->
  exists c r neg c', cache_run ops (ng_dnscache_init (Z.of_nat n) true (mk_cache false [])) = Some c /\
    ng_dnscache_get (Some buf) hs0 alloc name type (u32 t) c = Some (r, neg, c') /\
    told n (history ops []) hs0 alloc (type =? T_PTR) (known (history ops []) t (ask name type)) r neg.
Proof.
  intros Hn Ho Ht Hok Hbl Hbb Hhs.
  destruct (run_ok t0 n Hn ops [] t0 _ (init_inv t0 n t0 Hn) Ho ltac:(lia) ltac:(lia) Hok) as (c & -> & Hi & ?).
  assert (Hi' : cache_inv t0 n (history ops []) t c)
    by (destruct Hi; constructor; try done; eapply reflects_later; [|done]; lia).
  destruct (cache_get_ok t0 n _ t c buf hs0 alloc name type Hi' Hn ltac:(lia) Hbl Hbb Hhs) as (r & neg & c' & Hg & _ & Hk).
  by exists c, r, neg, c'.
Qed.

(** One slot: "a.b" answered, asked for again as "A.B", then pushed out by another name. *)
Definition demo_ops : list (Z * cop) :=
  [(1000, OpPut true [97; 46; 98] T_A demo_reply 30);
   (1010, OpNeg false [97; 46; 98] T_A);
   (1020, OpGet None None (fun _ => true) [97] T_A)].

Lemma dns_cache_correct_witness :
  exists c e c', cache_run demo_ops (ng_dnscache_init 1 true (mk_cache false [])) = Some c /\
    ng_dnscache_get (Some (repeat 0 1024)) (Some demo_hs) (fun _ => true) [65; 46; 66] T_A 1029 c = Some (Some e, false, c') /\
    he_addrs e = [8; 12].
Proof.
  destruct (dns_cache_correct 1000 1 demo_ops 1029 (repeat 0 1024) (Some demo_hs) (fun _ => true) [65; 46; 66] T_A)
    as (c & r & neg & c' & Hr & Hg & Hk).
  - lia.
  - cbn. lia.
  - vm_compute. split; discriminate.
  - repeat constructor; try (apply (bool_decide_unpack _); vm_compute; exact I); discriminate.
  - reflexivity.
  - apply (bool_decide_unpack _). vm_compute. exact I.
  - intros hs E. injection E as <-. apply demo_hs_ok.
  - vm_compute in Hr. injection Hr as <-. vm_compute in Hg. injection Hg as <- <- <-.
    eexists _, _, _. split; [vm_compute; reflexivity|]. split; [vm_compute; reflexivity|reflexivity].
Defined.
